(* ===== verification/_CoqProject ===== *)
-Q . S2P
Prelude.v
Stdio.v
Solver.v
SolverProofs.v
SolverCorrect.v
SolverClaims.v
Contestant.v
ContestantProofs.v
ContestantClaims.v
DucknetUtils.v
Ducknet.v
DucknetProofs.v
DucknetClaims.v
DuckCache.v
DuckCacheProofs.v
DuckCacheClaims.v
Utils.v
Timer.v
Console.v
ConsoleClaims.v
Memory.v
MemoryProofs.v
MemoryTables.v
MemoryInit.v
MemoryPaging.v
MemoryFrames.v
MemoryFlags.v
Multiboot.v
MultibootClaims.v
MemoryClaims.v
Interrupts.v
InterruptsClaims.v
ByteMem.v
E1000.v
E1000Proofs.v
E1000Claims.v
Pci.v
PciProofs.v
PciClaims.v
VirtioNet.v
VirtioProofs.v
VirtioClaims.v
Judger.v
JudgerClaims.v
Trap.v
TrapClaims.v
NetworkDriver.v
KernMain.v
KernMainClaims.v
DuckServer.v
DuckServerProofs.v
DuckServerClaims.v
DuckServerWitnesses.v
ElfLoader.v
ElfMemory.v
ElfAccept.v
ElfProofs.v
ElfContents.v
ElfRun.v
ElfClaims.v
ElfWitnesses.v
UserLib.v
UserLibProofs.v
UserLibClaims.v
ElfConsole.v
ElfConsoleWitness.v
