(* ===== verification/Prelude.v ===== *)
(** * JudgeDuck-OS and the MO's Trading client: a verification library

    ** The program

    The repository is an x86-64 unikernel (JudgeDuck-OS) with a trading
    contest client linked into it.  [main] (src/kern/kern_main.cpp)
    initialises, in this order, the logger, the multiboot2 loader, the
    interrupt controllers and the timer, [Memory], [Trap], [PCI], the network
    driver and the [Contestant], and then enters [Contestant::run], whose loop
    polls the network card, drives lwip and feeds the digits it receives to
    the [Solver].  Beside the client stands the judging service the kernel was
    written for: [DuckServer] receives programs over the [ducknet] UDP stack,
    keeps objects in [DuckCache] and lets [Judger] load a program with [ELF]
    and run it through [Trap].

    ** Files and what they model

    - Prelude: machine integers ([wrap], [to_signed]), a fault monad, arrays,
      shared lemmas, tactics and hint databases.
    - Stdio: what the code uses of [sscanf] and [sprintf] (the C library),
      with the lemmas that printing and scanning invert each other.
    - Solver, SolverProofs, SolverCorrect, SolverClaims: kern/solver_faster.cpp
      (the ring of the last 512 digits, residues of all windows modulo M1..M4
      in 128-bit arithmetic, hash tables of prefix residues, [recv_input]).
      [solver_stream_refines] is a refinement: over any stream of batches the
      optimised tables send exactly what an abstract sliding window sends;
      [recv_input_submissions] says which windows these are.
    - Contestant, ContestantProofs, ContestantClaims: kern/contestant.cpp, the
      connection state machine with its lwip callbacks as labelled steps, the
      request formatting and the HTTP framing.  lwip is a parameter: a table
      of control blocks with the documented life cycle of a block.
    - DucknetUtils, Ducknet, DucknetProofs, DucknetClaims: ducknet/lib (byte
      order, checksums, ARP table and queue, Ethernet, IPv4, ICMP, UDP, the
      main loop).  The wire is the list of frames sent.
    - DuckCache, DuckCacheProofs, DuckCacheClaims: kern/duck_cache.cpp, the
      paged object cache with its free list, LRU eviction and hex digests.
    - Utils, Memory, MemoryProofs, MemoryTables, MemoryInit, MemoryPaging,
      MemoryFrames, MemoryFlags, MemoryClaims: inc/utils.hpp and
      lib/memory.cpp, on physical memory as a map from 8-byte slots.  The page
      walk of the processor is the reference against which the tables, the
      permission operations and [user_writable_check] are judged.
    - Multiboot, MultibootClaims: lib/multiboot2_loader.cpp on the byte list
      of the boot information.
    - ByteMem: little-endian access to byte-addressed memory, for the drivers.
    - E1000, E1000Proofs, E1000Claims: lib/e1000.cpp, both descriptor rings
      with the card as a second agent on the same memory.
    - Pci, PciProofs, PciClaims: lib/pci.cpp over the two configuration ports
      (class [PortIO]); [ConfigView]/[ConfigLaws] are what the code relies on.
    - VirtioNet, VirtioProofs, VirtioClaims: lib/virtio_net.cpp, the legacy
      virtqueues with the device as a second agent.
    - Timer: lib/timer.cpp, inc/timer.hpp and lib/scheduler.cpp: detection of
      the clock, conversions, delays and the idle policy.
    - Console, ConsoleClaims: lib/vga_buffer.cpp, the system calls of the kernel's
      C library (kern/duck64_syscall_handler.cpp), lib/logger.cpp, lib/serial.cpp
      and lib/ctime.cpp.
    - Interrupts, InterruptsClaims: lib/pic.cpp on the registers of the two 8259A
      chips, and lib/lapic.cpp on the ACPI tables in low memory.
    - NetworkDriver: lib/network_driver.cpp, the parser of the command line and
      the choice of a card (class [NetCard]).
    - KernMain, KernMainClaims: kern/kern_main.cpp, the initialisation of all
      components up to the loop of the client.
    - DuckServer, DuckServerProofs, DuckServerClaims, DuckServerWitnesses:
      kern/duck_server.cpp, every command of the UDP protocol in front of
      [Judger], the callbacks of the network stack and the main loop.
    - Judger, JudgerClaims: kern/judger.cpp; the loader is the class [Elf].
    - Trap, TrapClaims: kern/trap.cpp with the entry paths of
      kern/trap_entry.S: the IDT, the GDT and TSS, entering a user program and
      coming back from it.
    - ElfLoader: lib/elf.cpp, the checks on a 32-bit and a 64-bit image, the
      layout of the regions of a program, the loading through the page tables,
      the first stack page and [run].  ElfMemory: every memory operation as an
      effect on what each user address shows (its page's rights and marks, and
      its byte).  ElfAccept: a declarative description of the accepted images.
      ElfProofs, ElfContents: the effect of a whole load and the rights and
      bytes it leaves.  ElfRun: the accesses of a program and its measurement.
      ElfClaims, ElfWitnesses: the theorems and a concrete program.
    - UserLib, UserLibProofs, UserLibClaims: the system call libraries linked into
      user programs (user_lib/duck64_syscall_handler.cpp and
      user_lib32/duck32_syscall_handler.cpp), over an interface to the program's
      memory.  ElfConsole, ElfConsoleWitness: that interface implemented by the
      page tables of a loaded program, and a program run from load to verdict.

    ** How code becomes definitions

    A [w]-bit integer is a [Z]; each result stored in a [w]-bit variable is
    followed by [wrap w] unless the code cannot leave the range, in which case
    the invariants say so.  A failing assertion, an access out of range and a
    use of NULL are [None] of the option monad, so every theorem "the function
    returns [Some ...]" includes that none of these happens.  Global variables
    are fields of one record per component, passed explicitly.  Hardware and
    code outside the repository (ports, cards, lwip, user programs) is either
    a class whose laws are documented behaviour, or a second agent whose steps
    interleave with the driver's in a labelled step relation; each theorem
    that assumes laws has a witness with a concrete machine for which they
    hold.

    ** What the theorems show

    - Refinement: the solver against the sliding window; the e1000 and virtio
      drivers, with their devices in every interleaving, against FIFO queues;
      the user's system calls against a console; the screen against a sheet of
      text.
    - Invariants over all reachable states: the contest connection never
      asserts, never uses a NULL block and never leaks one; the tables and
      the queue of ducknet; the representation of the cache; the memory of
      results in [Judger].
    - Functional behaviour on every branch: the page tables built and the
      permission operations; the multiboot and the PCI scans; the checks and
      the verdict of a judgement; the handling of each trap; the image checks
      and the layout of a loaded program; every command of the judging protocol;
      the routing and masking of interrupts.
    - Composition: [main] brings all components up, one on what the other leaves;
      a command passes both network stacks, the server and the judger; what a
      judged program writes through its library is what the kernel reports.
    - Isolation: what a loaded program can see does not depend on the programs
      that ran before it.
    - Round trips: a datagram from one stack to another; a command and its reply
      through both stacks, the server and the judger; store and load; text forms
      of addresses.
    - Liveness, termination, bounds and errors: reconnection after any abort,
      the end of the PCI scan, exhaustion of page tables, rejected input.

    ** Fuel and bounds

    Recursion follows the code's loops.  [for_range] runs a counted loop.
    Where a loop has no counter the definition takes fuel, and a theorem shows
    that the fuel given is enough: bus numbers decrease along a tree of PCI
    bridges, so 256 turns end the scan; the multiboot list ends after at most
    as many tags as bytes; the search for available pages ends at the number
    of registered pages.  A busy-wait on hardware is fuelled by the number of
    polls the device needs, which is a hypothesis with a witness.

    ** Not modelled

    The boot code is assembly before the kernel exists.  [run_test] in
    kern_main.cpp is never called, [print_hello] prints floating point numbers.
    Log messages inside other components are left out, since they change no
    state but the screen, whose operations are in Console.  The timing loops of
    the client's benchmark only measure.  The
    header pcireg.h is a list of register names, of which those in use appear.
    thirdparty/ is vendored code. *)

From Stdlib Require Export ZArith Lia.
From stdpp Require Export base tactics list gmap option strings pretty.

#[global] Open Scope Z_scope.

(** ** Notation scope and hint databases *)

Declare Scope cxx_scope.
Delimit Scope cxx_scope with cxx.

Create HintDb cxx.
Create Rewrite HintDb cxx_rw.
Create Rewrite HintDb arrays.

(** ** Unsigned and signed machine integers

    A [w]-bit unsigned value is a [Z]; every C++ operation whose result is
    stored in a [w]-bit variable is followed by [wrap w]. *)

Definition wrap (w z : Z) : Z := z mod 2 ^ w.

Abbreviation u8 := (wrap 8).
Abbreviation u16 := (wrap 16).
Abbreviation u32 := (wrap 32).
Abbreviation u64 := (wrap 64).
Abbreviation u128 := (wrap 128).

(** Two's-complement reading of the low [w] bits. *)
Definition swrap (w z : Z) : Z := (z + 2 ^ (w - 1)) mod 2 ^ w - 2 ^ (w - 1).

Abbreviation s32 := (swrap 32).
Abbreviation s64 := (swrap 64).

(** The range of a [w]-bit unsigned variable. *)
Definition is_uint (w z : Z) : Prop := 0 <= z < 2 ^ w.

Lemma wrap_small w z : is_uint w z -> wrap w z = z.
Proof. unfold is_uint, wrap. intros. by apply Z.mod_small. Qed.

Lemma wrap_range w z : 0 <= w -> is_uint w (wrap w z).
Proof. intros. apply Z.mod_pos_bound, Z.pow_pos_nonneg; lia. Qed.

Lemma wrap_idemp w z : 0 <= w -> wrap w (wrap w z) = wrap w z.
Proof. intros. by apply wrap_small, wrap_range. Qed.

Lemma wrap_eq_mod w a b : wrap w a = wrap w b <-> a mod 2 ^ w = b mod 2 ^ w.
Proof. done. Qed.

Lemma wrap_add_l w a b : wrap w (wrap w a + b) = wrap w (a + b).
Proof. unfold wrap. by rewrite Zplus_mod_idemp_l. Qed.

Lemma wrap_add_r w a b : wrap w (a + wrap w b) = wrap w (a + b).
Proof. unfold wrap. by rewrite Zplus_mod_idemp_r. Qed.

Lemma wrap_mul_l w a b : wrap w (wrap w a * b) = wrap w (a * b).
Proof. unfold wrap. by rewrite Zmult_mod_idemp_l. Qed.

Lemma wrap_mul_r w a b : wrap w (a * wrap w b) = wrap w (a * b).
Proof. unfold wrap. by rewrite Zmult_mod_idemp_r. Qed.

Lemma wrap_sub_l w a b : wrap w (wrap w a - b) = wrap w (a - b).
Proof. unfold wrap. by rewrite Zminus_mod_idemp_l. Qed.

Lemma wrap_sub_r w a b : wrap w (a - wrap w b) = wrap w (a - b).
Proof. unfold wrap. by rewrite Zminus_mod_idemp_r. Qed.

(** A subtraction that goes below zero comes out near [2 ^ w]. *)
Lemma wrap_sub_borrow w a b :
  is_uint w a -> is_uint w b -> a < b -> wrap w (a - b) = a - b + 2 ^ w.
Proof.
  unfold is_uint, wrap. intros. symmetry. apply Z.mod_unique_pos with (-1); lia.
Qed.

Lemma swrap_small w z :
  0 < w -> - 2 ^ (w - 1) <= z < 2 ^ (w - 1) -> swrap w z = z.
Proof.
  intros Hw Hz. unfold swrap.
  assert (2 ^ w = 2 * 2 ^ (w - 1)) as E.
  { rewrite <- (Z.pow_succ_r 2 (w - 1)) by lia. f_equal. lia. }
  rewrite Z.mod_small; lia.
Qed.

#[export] Hint Rewrite wrap_add_l wrap_add_r wrap_mul_l wrap_mul_r wrap_sub_l
  wrap_sub_r : cxx_rw.
#[export] Hint Resolve wrap_range wrap_small : cxx.

(** Masks [2 ^ k - 1] are remainders. *)
Lemma land_mask k z : 0 <= k -> Z.land z (2 ^ k - 1) = z mod 2 ^ k.
Proof.
  intros. replace (2 ^ k - 1) with (Z.ones k) by (rewrite Z.ones_equiv; lia).
  by apply Z.land_ones.
Qed.

(** A value with its low bits clear and a value of those bits. *)
Lemma lor_low t fl k : 0 <= k -> t mod 2 ^ k = 0 -> 0 <= fl < 2 ^ k -> Z.lor t fl = t + fl.
Proof.
  intros Hk Ht Hf. symmetry. rewrite <- Z.lxor_lor; [apply Z.add_nocarry_lxor|].
  all: apply Z.bits_inj'; intros i Hi; rewrite Z.land_spec, Z.bits_0; destruct (Z.ltb_spec i k).
  - rewrite <- (Z.mod_pow2_bits_low t k) by lia. by rewrite Ht, Z.bits_0.
  - rewrite <- (Z.mod_small fl (2 ^ k)) by lia. rewrite Z.mod_pow2_bits_high by lia. apply andb_false_r.
  - rewrite <- (Z.mod_pow2_bits_low t k) by lia. by rewrite Ht, Z.bits_0.
  - rewrite <- (Z.mod_small fl (2 ^ k)) by lia. rewrite Z.mod_pow2_bits_high by lia. apply andb_false_r.
Qed.

(** ** Tactics *)

(** Turn boolean comparisons into propositions, in the context and by case
    analysis on the scrutinee of the leftmost [if] of the goal. *)
Ltac bprop :=
  repeat match goal with
  | H : (_ && _)%bool = true |- _ => apply andb_prop in H as [? ?]
  | H : (_ || _)%bool = false |- _ => apply orb_false_elim in H as [? ?]
  | H : negb _ = true |- _ => apply negb_true_iff in H
  | H : negb _ = false |- _ => apply negb_false_iff in H
  | H : (_ <? _) = true |- _ => apply Z.ltb_lt in H
  | H : (_ <? _) = false |- _ => apply Z.ltb_ge in H
  | H : (_ <=? _) = true |- _ => apply Z.leb_le in H
  | H : (_ <=? _) = false |- _ => apply Z.leb_gt in H
  | H : (_ =? _) = true |- _ => apply Z.eqb_eq in H
  | H : (_ =? _) = false |- _ => apply Z.eqb_neq in H
  | H : bool_decide _ = true |- _ => apply bool_decide_eq_true in H
  | H : bool_decide _ = false |- _ => apply bool_decide_eq_false in H
  end.

Ltac case_if :=
  match goal with
  | |- context [if ?b then _ else _] =>
      lazymatch type of b with
      | bool => let E := fresh "E" in destruct b eqn:E; bprop
      | sumbool _ _ => destruct b
      end
  end.

Ltac case_if_in H :=
  match type of H with
  | context [if ?b then _ else _] =>
      lazymatch type of b with
      | bool => let E := fresh "E" in destruct b eqn:E; bprop
      | sumbool _ _ => destruct b
      end
  end.

(** Run a step of the option monad by an equation of its first action; unlike
    [cbn], the kernel never evaluates the action. *)
Lemma mbind_Some {A B} (f : A -> option B) x : (Some x ≫= f) = f x.
Proof. done. Qed.

Lemma mbind_None {A B} (f : A -> option B) : (None ≫= f) = None.
Proof. done. Qed.

Ltac run_bind E := rewrite E, mbind_Some; cbv beta iota zeta.

(** Linear arithmetic with [/] and [mod] by constants. *)
Ltac dlia := Z.div_mod_to_equations; lia.
Ltac dnia := Z.div_mod_to_equations; nia.

(** Expose the bounds of [is_uint] to [lia]. *)
Ltac ulia := unfold is_uint in *; lia.

(** ** Lists *)

Lemma seqZ_succ m n : 0 <= n -> seqZ m (n + 1) = seqZ m n ++ [m + n].
Proof. intros. by rewrite seqZ_app by lia. Qed.

Lemma flat_map_ext_elem {A B} (f g : A -> list B) l :
  (forall x, x ∈ l -> f x = g x) -> flat_map f l = flat_map g l.
Proof.
  induction l as [|x l IH]; intros H; [done|]. cbn. f_equal.
  - apply H. set_solver.
  - apply IH. set_solver.
Qed.

Lemma filter_ext_elem {A} (P Q : A -> Prop) `{!forall x, Decision (P x)}
    `{!forall x, Decision (Q x)} (l : list A) :
  (forall x, x ∈ l -> P x <-> Q x) -> filter P l = filter Q l.
Proof.
  induction l as [|x l IH]; intros Hpq; [done|].
  destruct (decide (P x)) as [HP|HP].
  - rewrite (filter_cons_True P), (filter_cons_True Q);
      [f_equal; apply IH; intros; apply Hpq; by right|apply Hpq; [by left|done]|done].
  - rewrite (filter_cons_False P), (filter_cons_False Q);
      [apply IH; intros; apply Hpq; by right|rewrite <- Hpq; [done|by left]|done].
Qed.

(** The longest prefix whose elements satisfy [f]. *)
Fixpoint take_while {A} (f : A -> bool) (l : list A) : list A :=
  match l with
  | x :: l' => if f x then x :: take_while f l' else []
  | [] => []
  end.

Lemma take_while_app {A} (f : A -> bool) l1 l2 :
  Forall (fun x => f x = true) l1 -> Forall (fun x => f x = false) l2 ->
  take_while f (l1 ++ l2) = l1.
Proof.
  induction 1 as [|x l1 Hx Hl IH]; intros H2; cbn.
  - destruct H2 as [|y l2 Hy]; cbn; by rewrite ?Hy.
  - rewrite Hx. f_equal. by apply IH.
Qed.

(** ** Text *)

Definition char_code (c : Ascii.ascii) : Z := Z.of_nat (Ascii.nat_of_ascii c).

Fixpoint bytes_of_string (s : string) : list Z :=
  match s with
  | EmptyString => []
  | String c s' => char_code c :: bytes_of_string s'
  end.

(** ** Loops

    [for_range lo hi body s] is [for (i = lo; i < hi; i++) s = body(i, s)];
    the [M] variant stops at the first [None] (undefined behaviour or a failed
    assertion in the body). *)

Section loops.
Context {S : Type}.

Fixpoint for_n (n : nat) (i : Z) (body : Z -> S -> S) (s : S) : S :=
  match n with
  | O => s
  | Datatypes.S n' => for_n n' (i + 1) body (body i s)
  end.

Definition for_range (lo hi : Z) (body : Z -> S -> S) (s : S) : S :=
  for_n (Z.to_nat (hi - lo)) lo body s.

Fixpoint forM_n (n : nat) (i : Z) (body : Z -> S -> option S) (s : S) : option S :=
  match n with
  | O => Some s
  | Datatypes.S n' =>
      match body i s with
      | Some s' => forM_n n' (i + 1) body s'
      | None => None
      end
  end.

Definition forM_range (lo hi : Z) (body : Z -> S -> option S) (s : S) : option S :=
  forM_n (Z.to_nat (hi - lo)) lo body s.

Lemma for_n_ind (P : Z -> S -> Prop) n : forall lo body s,
  P lo s ->
  (forall i s, lo <= i < lo + Z.of_nat n -> P i s -> P (i + 1) (body i s)) ->
  P (lo + Z.of_nat n) (for_n n lo body s).
Proof.
  induction n as [|n IH]; intros lo body s H0 Hs; cbn [for_n].
  - by replace (lo + Z.of_nat 0) with lo by lia.
  - replace (lo + Z.of_nat (Datatypes.S n)) with (lo + 1 + Z.of_nat n) by lia.
    apply IH; [apply Hs; [lia|done]|]. intros; apply Hs; [lia|done].
Qed.

(** Invariant rule for a counting loop. *)
Lemma for_range_ind (P : Z -> S -> Prop) lo hi body s :
  lo <= hi -> P lo s ->
  (forall i s, lo <= i < hi -> P i s -> P (i + 1) (body i s)) ->
  P hi (for_range lo hi body s).
Proof.
  intros Hle H0 Hs. unfold for_range.
  replace hi with (lo + Z.of_nat (Z.to_nat (hi - lo))) at 1 by lia.
  apply for_n_ind; [done|]. intros; apply Hs; [lia|done].
Qed.

Lemma for_range_empty lo hi body s : hi <= lo -> for_range lo hi body s = s.
Proof. intros. unfold for_range. by replace (Z.to_nat (hi - lo)) with O by lia. Qed.

Lemma for_range_first lo hi body s :
  lo < hi -> for_range lo hi body s = for_range (lo + 1) hi body (body lo s).
Proof.
  intros. unfold for_range.
  by replace (Z.to_nat (hi - lo)) with (Datatypes.S (Z.to_nat (hi - (lo + 1)))) by lia.
Qed.

Lemma for_n_ext n : forall lo (f g : Z -> S -> S) s,
  (forall i s, lo <= i < lo + Z.of_nat n -> f i s = g i s) -> for_n n lo f s = for_n n lo g s.
Proof.
  induction n as [|n IH]; intros lo f g s H; [done|]. cbn [for_n].
  rewrite H by lia. apply IH. intros. apply H. lia.
Qed.

Lemma for_range_ext lo hi (f g : Z -> S -> S) s :
  (forall i s, lo <= i < hi -> f i s = g i s) -> for_range lo hi f s = for_range lo hi g s.
Proof. intros H. apply for_n_ext. intros. apply H. lia. Qed.

Lemma forM_n_ind (P : Z -> S -> Prop) n : forall lo body s,
  P lo s ->
  (forall i s, lo <= i < lo + Z.of_nat n -> P i s ->
     exists s', body i s = Some s' /\ P (i + 1) s') ->
  exists s', forM_n n lo body s = Some s' /\ P (lo + Z.of_nat n) s'.
Proof.
  induction n as [|n IH]; intros lo body s H0 Hs; cbn [forM_n].
  - exists s. by replace (lo + Z.of_nat 0) with lo by lia.
  - destruct (Hs lo s) as (s1 & -> & H1); [lia|done|].
    replace (lo + Z.of_nat (Datatypes.S n)) with (lo + 1 + Z.of_nat n) by lia.
    apply IH; [done|]. intros; apply Hs; [lia|done].
Qed.

(** Total-correctness rule: the loop finishes without a fault and the
    invariant holds at the end. *)
Lemma forM_range_ind (P : Z -> S -> Prop) lo hi body s :
  lo <= hi -> P lo s ->
  (forall i s, lo <= i < hi -> P i s -> exists s', body i s = Some s' /\ P (i + 1) s') ->
  exists s', forM_range lo hi body s = Some s' /\ P hi s'.
Proof.
  intros Hle H0 Hs. unfold forM_range.
  replace hi with (lo + Z.of_nat (Z.to_nat (hi - lo))) by lia.
  replace (Z.to_nat (lo + Z.of_nat (Z.to_nat (hi - lo)) - lo))
    with (Z.to_nat (hi - lo)) by lia.
  apply forM_n_ind; [done|]. intros; apply Hs; [lia|done].
Qed.

Lemma forM_n_partial (P : Z -> S -> Prop) n : forall lo body s s',
  P lo s ->
  (forall i s s', lo <= i < lo + Z.of_nat n -> P i s -> body i s = Some s' -> P (i + 1) s') ->
  forM_n n lo body s = Some s' -> P (lo + Z.of_nat n) s'.
Proof.
  induction n as [|n IH]; intros lo body s s' H0 Hs; cbn [forM_n].
  - intros [= <-]. by replace (lo + Z.of_nat 0) with lo by lia.
  - destruct (body lo s) as [s1|] eqn:E; [|done]. intros Hf.
    replace (lo + Z.of_nat (Datatypes.S n)) with (lo + 1 + Z.of_nat n) by lia.
    eapply IH; [eapply Hs; [lia|done..]| |done]. intros i s2 s3 Hi. apply Hs. lia.
Qed.

(** Partial-correctness rule. *)
Lemma forM_range_partial (P : Z -> S -> Prop) lo hi body s s' :
  lo <= hi -> P lo s ->
  (forall i s s', lo <= i < hi -> P i s -> body i s = Some s' -> P (i + 1) s') ->
  forM_range lo hi body s = Some s' -> P hi s'.
Proof.
  intros Hle H0 Hs Hf. unfold forM_range in Hf.
  replace hi with (lo + Z.of_nat (Z.to_nat (hi - lo))) by lia.
  eapply forM_n_partial; [done| |done]. intros i s1 s2 Hi. apply Hs. lia.
Qed.

Lemma forM_n_snoc n : forall i body s,
  forM_n (Datatypes.S n) i body s =
  match forM_n n i body s with
  | Some s' => body (i + Z.of_nat n) s'
  | None => None
  end.
Proof.
  induction n as [|n IH]; intros i body s.
  - cbn [forM_n]. rewrite Z.add_0_r. by destruct (body i s).
  - cbn [forM_n] in *. destruct (body i s) as [s'|]; [|done].
    rewrite IH. by replace (i + 1 + Z.of_nat n) with (i + Z.of_nat (Datatypes.S n)) by lia.
Qed.
End loops.

(** Apply the total-correctness rule to the first fallible loop of the goal:
    bounds, initialisation, step, and the continuation with the result. *)
Tactic Notation "loop_inv" uconstr(P) "as" simple_intropattern(pat) :=
  match goal with
  | |- context [forM_range ?lo ?hi ?body ?s] =>
      destruct (forM_range_ind P lo hi body s) as pat
  end.

(** ** Arrays of C++

    [arr A] is an array with [alen] cells; a cell never written holds the zero
    value of [A] (static storage). [aread] and [awrite] check the index and
    return [None] outside the array, where C++ has undefined behaviour. *)

Class Zeroed (A : Type) := zero : A.
#[export] Instance Zeroed_Z : Zeroed Z := 0.
#[export] Instance Zeroed_bool : Zeroed bool := false.

Record arr (A : Type) := Arr { alen : Z; adat : gmap Z A }.
Arguments Arr {A} _ _.
Arguments alen {A} _.
Arguments adat {A} _.

Section arrays.
Context {A : Type} `{Zeroed A}.
Implicit Types a b : arr A.

(** [static A a[n];] *)
Definition anew (n : Z) : arr A := Arr n ∅.

Definition aget a (i : Z) : A := default zero (adat a !! i).

Definition aset a (i : Z) (v : A) : arr A := Arr (alen a) (<[i := v]> (adat a)).

Definition ainb a (i : Z) : bool := (0 <=? i) && (i <? alen a).

Definition aread a (i : Z) : option A :=
  if ainb a i then Some (aget a i) else None.

Definition awrite a (i : Z) (v : A) : option (arr A) :=
  if ainb a i then Some (aset a i v) else None.

(** [memcpy]/[memmove] of [n] elements; the source is read before any cell
    of the destination is written. *)
Definition acopy (dst : arr A) (d : Z) (src : arr A) (s n : Z) : arr A :=
  for_range 0 n (fun k x => aset x (d + k) (aget src (s + k))) dst.

(** [memset] of [n] elements. *)
Definition afill (dst : arr A) (d n : Z) (v : A) : arr A :=
  for_range 0 n (fun k x => aset x (d + k) v) dst.

(** The values [d off .. d (off + n - 1)] as a list. *)
Definition dslice (d : Z -> A) (off n : Z) : list A :=
  (fun k => d (off + k)) <$> seqZ 0 n.

(** The cells [off .. off + n - 1] as a list. *)
Definition aslice a (off n : Z) : list A := dslice (aget a) off n.

Lemma aget_new n i : aget (anew n) i = zero.
Proof. unfold aget, anew. cbn. by rewrite lookup_empty. Qed.

Lemma aget_set a i j v : aget (aset a i v) j = if decide (i = j) then v else aget a j.
Proof. unfold aget, aset. cbn. rewrite lookup_insert. by case_decide. Qed.

Lemma aget_set_eq a i v : aget (aset a i v) i = v.
Proof. rewrite aget_set. by rewrite decide_True. Qed.

Lemma aget_set_ne a i j v : i <> j -> aget (aset a i v) j = aget a j.
Proof. intros. rewrite aget_set. by rewrite decide_False. Qed.

Lemma alen_set a i v : alen (aset a i v) = alen a.
Proof. done. Qed.

Lemma aread_ok a i : 0 <= i < alen a -> aread a i = Some (aget a i).
Proof.
  intros. unfold aread, ainb.
  replace (0 <=? i) with true by lia. by replace (i <? alen a) with true by lia.
Qed.

Lemma awrite_ok a i v : 0 <= i < alen a -> awrite a i v = Some (aset a i v).
Proof.
  intros. unfold awrite, ainb.
  replace (0 <=? i) with true by lia. by replace (i <? alen a) with true by lia.
Qed.

Lemma aread_Some a i v : aread a i = Some v -> 0 <= i < alen a /\ aget a i = v.
Proof. unfold aread, ainb. case_if; [|done]. intros [= <-]. split; [lia|done]. Qed.

Lemma awrite_Some a i v b :
  awrite a i v = Some b -> 0 <= i < alen a /\ b = aset a i v.
Proof. unfold awrite, ainb. case_if; [|done]. intros [= <-]. split; [lia|done]. Qed.

Lemma acopy_spec dst d src s n : 0 <= n ->
  alen (acopy dst d src s n) = alen dst /\
  (forall j, aget (acopy dst d src s n) j =
     if (d <=? j) && (j <? d + n) then aget src (s + (j - d)) else aget dst j).
Proof.
  intros Hn. unfold acopy.
  apply (for_range_ind (fun k x => alen x = alen dst /\ forall j, aget x j =
    if (d <=? j) && (j <? d + k) then aget src (s + (j - d)) else aget dst j)).
  - done.
  - split; [done|]. intros j. case_if; [lia|done].
  - intros k x Hk [Hl Hx]. split; [done|]. intros j. rewrite aget_set.
    destruct (decide (d + k = j)) as [<-|]; [|rewrite Hx].
    + case_if; [f_equal; lia|]. lia.
    + destruct (d <=? j) eqn:?, (j <? d + k) eqn:?, (j <? d + (k + 1)) eqn:?;
        bprop; cbn; done || lia.
Qed.

Lemma aget_copy dst d src s n j : 0 <= n ->
  aget (acopy dst d src s n) j =
    if (d <=? j) && (j <? d + n) then aget src (s + (j - d)) else aget dst j.
Proof. intros. by apply acopy_spec. Qed.

Lemma alen_copy dst d src s n : 0 <= n -> alen (acopy dst d src s n) = alen dst.
Proof. intros. by apply acopy_spec. Qed.

Lemma afill_spec dst d n v : 0 <= n ->
  alen (afill dst d n v) = alen dst /\
  (forall j, aget (afill dst d n v) j =
     if (d <=? j) && (j <? d + n) then v else aget dst j).
Proof.
  intros Hn. unfold afill.
  apply (for_range_ind (fun k x => alen x = alen dst /\ forall j, aget x j =
    if (d <=? j) && (j <? d + k) then v else aget dst j)).
  - done.
  - split; [done|]. intros j. case_if; [lia|done].
  - intros k x Hk [Hl Hx]. split; [done|]. intros j. rewrite aget_set, Hx.
    case_decide; destruct (d <=? j) eqn:?, (j <? d + k) eqn:?, (j <? d + (k + 1)) eqn:?;
      bprop; cbn; done || lia.
Qed.

Lemma aget_fill dst d n v j : 0 <= n ->
  aget (afill dst d n v) j = if (d <=? j) && (j <? d + n) then v else aget dst j.
Proof. intros. by apply afill_spec. Qed.

Lemma alen_fill dst d n v : 0 <= n -> alen (afill dst d n v) = alen dst.
Proof. intros. by apply afill_spec. Qed.

Lemma length_dslice d off n : length (dslice d off n) = Z.to_nat n.
Proof. unfold dslice. by rewrite length_fmap, length_seqZ. Qed.

Lemma dslice_lookup d off n (k : nat) :
  (Z.of_nat k < n) -> dslice d off n !! k = Some (d (off + Z.of_nat k)).
Proof.
  intros. unfold dslice. rewrite list_lookup_fmap, lookup_seqZ_lt by lia.
  cbn. by rewrite Z.add_0_l.
Qed.

Lemma dslice_ext d d' off off' n :
  (forall k, 0 <= k < n -> d (off + k) = d' (off' + k)) ->
  dslice d off n = dslice d' off' n.
Proof.
  intros Heq. unfold dslice. apply list_fmap_ext. intros i x Hx.
  apply lookup_seqZ in Hx as [-> ?]. apply Heq. lia.
Qed.

Lemma dslice_app d off n m :
  0 <= n -> 0 <= m -> dslice d off (n + m) = dslice d off n ++ dslice d (off + n) m.
Proof.
  intros. unfold dslice. rewrite seqZ_app by lia. rewrite fmap_app. f_equal.
  replace (0 + n) with (n + 0) by lia. rewrite <- fmap_add_seqZ.
  rewrite <- list_fmap_compose. apply list_fmap_ext. intros. cbn. f_equal. lia.
Qed.

Lemma dslice_snoc d off n :
  0 <= n -> dslice d off (n + 1) = dslice d off n ++ [d (off + n)].
Proof.
  intros. rewrite dslice_app by lia. f_equal.
  unfold dslice. change (seqZ 0 1) with [0]. cbn -[Z.add]. by rewrite Z.add_0_r.
Qed.

Lemma dslice_cons d off n :
  0 < n -> dslice d off n = d off :: dslice d (off + 1) (n - 1).
Proof.
  intros. replace n with (1 + (n - 1)) at 1 by lia. rewrite dslice_app by lia.
  unfold dslice at 1. change (seqZ 0 1) with [0]. cbn -[Z.add]. by rewrite Z.add_0_r.
Qed.

Lemma aslice_ext a b off off' n :
  (forall k, 0 <= k < n -> aget a (off + k) = aget b (off' + k)) ->
  aslice a off n = aslice b off' n.
Proof. apply dslice_ext. Qed.

(** Arrays are observed through their length and their cells: a cell that
    was explicitly zeroed and one never written cannot be told apart. *)
Definition arr_eq a b : Prop := alen a = alen b /\ forall i, aget a i = aget b i.

#[export] Instance arr_equiv : Equiv (arr A) := arr_eq.

#[export] Instance arr_equivalence : Equivalence (≡@{arr A}).
Proof.
  split.
  - done.
  - intros a b [Hl He]. split; intros; by rewrite ?Hl, ?He.
  - intros a b c [Hl He] [Hl' He']. split; intros; by rewrite ?Hl, ?He, ?Hl', ?He'.
Qed.

#[export] Instance aget_proper : Proper ((≡) ==> (=) ==> (=)) aget.
Proof. intros a b [_ He] i ? <-. apply He. Qed.

#[export] Instance alen_proper : Proper ((≡) ==> (=)) (@alen A).
Proof. intros a b [Hl _]. apply Hl. Qed.

#[export] Instance aset_proper : Proper ((≡) ==> (=) ==> (=) ==> (≡)) aset.
Proof.
  intros a b [Hl He] i ? <- v ? <-. split; [done|].
  intros j. by rewrite !aget_set, He.
Qed.

#[export] Instance aread_proper : Proper ((≡) ==> (=) ==> (=)) aread.
Proof. intros a b [Hl He] i ? <-. unfold aread, ainb. by rewrite Hl, He. Qed.

#[export] Instance aslice_proper : Proper ((≡) ==> (=) ==> (=) ==> (=)) aslice.
Proof.
  intros a b [Hl He] off ? <- n ? <-. apply aslice_ext. intros. apply He.
Qed.
End arrays.

Arguments for_range : simpl never.
Arguments forM_range : simpl never.
Arguments aget : simpl never.
Arguments aset : simpl never.
Arguments wrap : simpl never.

#[export] Hint Rewrite @aget_set_eq @aget_new @alen_set : arrays.
#[export] Hint Rewrite @alen_copy @alen_fill using lia : arrays.

(** Run the checked accesses of the goal whose bounds are linear. *)
Ltac arr_run :=
  repeat first
    [ progress cbn [mbind option_bind]
    | rewrite aread_ok by (rewrite ?alen_set; lia)
    | rewrite awrite_ok by (rewrite ?alen_set; lia) ].

(** ** Little-endian bytes *)

Definition is_byte (b : Z) : Prop := is_uint 8 b.

Fixpoint le_bytes (n : nat) (v : Z) : list Z :=
  match n with
  | O => []
  | Datatypes.S n' => (v mod 256) :: le_bytes n' (v / 256)
  end.

Fixpoint le_val (l : list Z) : Z :=
  match l with
  | [] => 0
  | b :: l' => b + 256 * le_val l'
  end.

Lemma length_le_bytes n v : length (le_bytes n v) = n.
Proof. revert v. induction n as [|n IH]; intros; cbn; by rewrite ?IH. Qed.

Lemma le_bytes_are_bytes n v : Forall is_byte (le_bytes n v).
Proof.
  revert v. induction n as [|n IH]; intros; cbn; constructor; [|apply IH].
  unfold is_byte, is_uint. dlia.
Qed.

Lemma le_val_le_bytes n v : le_val (le_bytes n v) = v mod 2 ^ (8 * Z.of_nat n).
Proof.
  revert v. induction n as [|n IH]; intros v.
  - cbn. by rewrite Z.mod_1_r.
  - cbn [le_bytes le_val]. rewrite IH.
    replace (8 * Z.of_nat (Datatypes.S n)) with (8 + 8 * Z.of_nat n) by lia.
    rewrite Z.pow_add_r by lia. change (2 ^ 8) with 256.
    rewrite Z.rem_mul_r by lia. lia.
Qed.

Lemma le_bytes_le_val l : Forall is_byte l -> le_bytes (length l) (le_val l) = l.
Proof.
  induction 1 as [|b l Hb Hl IH]; [done|]. cbn [length le_bytes le_val].
  unfold is_byte, is_uint in Hb. change (2 ^ 8) with 256 in Hb. f_equal.
  - dlia.
  - etrans; [|exact IH]. f_equal. dlia.
Qed.

Lemma le_val_range l :
  Forall is_byte l -> is_uint (8 * Z.of_nat (length l)) (le_val l).
Proof.
  unfold is_uint. induction 1 as [|b l Hb Hl IH]; [done|].
  cbn [length le_val].
  replace (8 * Z.of_nat (Datatypes.S (length l))) with (8 + 8 * Z.of_nat (length l)) by lia.
  rewrite Z.pow_add_r by lia. unfold is_byte, is_uint in Hb.
  change (2 ^ 8) with 256 in *. lia.
Qed.

(** Overwrite the bytes of [l] from [off] with [new]. *)
Definition splice (off : nat) (new l : list Z) : list Z :=
  take off l ++ new ++ drop (off + length new) l.

Definition sub_bytes (off n : nat) (l : list Z) : list Z := take n (drop off l).

Lemma length_splice off new l :
  (off + length new <= length l)%nat -> length (splice off new l) = length l.
Proof.
  intros. unfold splice. rewrite !length_app, length_take, length_drop. lia.
Qed.

Lemma sub_splice_same off new l :
  (off + length new <= length l)%nat -> sub_bytes off (length new) (splice off new l) = new.
Proof.
  intros. unfold sub_bytes, splice.
  rewrite drop_app_length' by (rewrite length_take; lia).
  by rewrite take_app_length.
Qed.

(** [n]-byte little-endian load and store at a byte offset. *)
Definition load_le (n off : nat) (l : list Z) : Z := le_val (sub_bytes off n l).

Definition store_le (n off : nat) (v : Z) (l : list Z) : list Z :=
  splice off (le_bytes n v) l.

Lemma load_store_same n off v l :
  (off + n <= length l)%nat ->
  load_le n off (store_le n off v l) = v mod 2 ^ (8 * Z.of_nat n).
Proof.
  intros. unfold load_le, store_le.
  replace n with (length (le_bytes n v)) at 1 by apply length_le_bytes.
  rewrite sub_splice_same by (rewrite length_le_bytes; lia).
  apply le_val_le_bytes.
Qed.

Lemma length_store_le n off v l :
  (off + n <= length l)%nat -> length (store_le n off v l) = length l.
Proof. intros. apply length_splice. rewrite length_le_bytes. lia. Qed.
