(* ===== verification/Stdio.v ===== *)
(** * The part of <stdio.h> the kernel uses on strings

    [sscanf] and [sprintf] with the conversions that occur, as the C library of
    the build (musl) implements them. A C string is a list of bytes that ends
    at its first 0. Formats are the literals of the source: [format] reads
    them. *)

From Stdlib Require Import SpecFloat.
From S2P Require Import Prelude.

(** ** Strings *)

(** The string a pointer to [s] denotes. *)
Definition cstr (s : list Z) : list Z := take_while (fun c => negb (c =? 0)) s.

Definition isspace (c : Z) : bool := (c =? 32) || ((9 <=? c) && (c <=? 13)).

Fixpoint skip_space (s : list Z) : list Z :=
  match s with
  | c :: s' => if isspace c then skip_space s' else s
  | [] => []
  end.

(** ** Conversions *)

Inductive conv := Clu | Chhu | Chhx | Cd | Cs | C02x | Clx | Cf5.

(** White space keeps its character for printing. *)
Inductive directive := Dchar (c : Z) | Dspace (c : Z) | Dconv (k : conv).

(** The directives of a format. *)
Fixpoint format (f : list Z) : list directive :=
  match f with
  | 37 :: 108 :: 117 :: f => Dconv Clu :: format f
  | 37 :: 104 :: 104 :: 117 :: f => Dconv Chhu :: format f
  | 37 :: 104 :: 104 :: 120 :: f => Dconv Chhx :: format f
  | 37 :: 48 :: 50 :: 120 :: f => Dconv C02x :: format f
  | 37 :: 46 :: 53 :: 108 :: 102 :: f => Dconv Cf5 :: format f
  | 37 :: 108 :: 120 :: f => Dconv Clx :: format f
  | 37 :: 100 :: f => Dconv Cd :: format f
  | 37 :: 115 :: f => Dconv Cs :: format f
  | c :: f => (if isspace c then Dspace c else Dchar c) :: format f
  | [] => []
  end.

(** ** Scanning *)

Definition digit_value (b c : Z) : option Z :=
  if (48 <=? c) && (c <=? 57) && (c - 48 <? b) then Some (c - 48)
  else if (97 <=? c) && (c - 87 <? b) && (c <=? 122) then Some (c - 87)
  else if (65 <=? c) && (c - 55 <? b) && (c <=? 90) then Some (c - 55)
  else None.

(** The digits in front of [s], their value after [acc], and the rest. *)
Fixpoint scan_digits (b : Z) (s : list Z) (acc : Z) : Z * list Z :=
  match s with
  | c :: s' =>
      match digit_value b c with
      | Some d => scan_digits b s' (acc * b + d)
      | None => (acc, s)
      end
  | [] => (acc, [])
  end.

(** At least one digit. *)
Definition scan_nat (b : Z) (s : list Z) : option (Z * list Z) :=
  match s with
  | c :: _ => if digit_value b c is Some _ then Some (scan_digits b s 0) else None
  | [] => None
  end.

(** [0x] may precede hexadecimal digits. *)
Definition scan_magnitude (b : Z) (s : list Z) : option (Z * list Z) :=
  match s with
  | c :: x :: s' => if (b =? 16) && (c =? 48) && (Z.lor x 32 =? 120) then scan_nat b s' else scan_nat b s
  | _ => scan_nat b s
  end.

Definition scan_sign (s : list Z) : bool * list Z :=
  match s with
  | c :: s' => if c =? 45 then (true, s') else if c =? 43 then (false, s') else (false, s)
  | [] => (false, s)
  end.

(** An integer as 64-bit unsigned: a minus sign negates it, and a magnitude that
    does not fit gives the largest value. *)
Definition scan_int (b : Z) (s : list Z) : option (Z * list Z) :=
  let '(neg, s) := scan_sign (skip_space s) in
  '(n, rest) ← scan_magnitude b s;
  Some (if 2 ^ 64 - 1 <? n then 2 ^ 64 - 1 else if (neg : bool) then u64 (- n) else n, rest).

Definition scan_word (s : list Z) : option (list Z * list Z) :=
  let s := skip_space s in
  let w := take_while (fun c => negb (isspace c)) s in
  match w with
  | [] => None
  | _ => Some (w, drop (length w) s)
  end.

(** A string value is the string without its final 0. *)
Inductive value := Vint (n : Z) | Vstr (s : list Z) | Vfloat (x : spec_float).

Definition scan_conv (k : conv) (s : list Z) : option (value * list Z) :=
  match k with
  | Clu => '(n, rest) ← scan_int 10 s; Some (Vint n, rest)
  | Chhu => '(n, rest) ← scan_int 10 s; Some (Vint (u8 n), rest)
  | Chhx => '(n, rest) ← scan_int 16 s; Some (Vint (u8 n), rest)
  | Cd => '(n, rest) ← scan_int 10 s; Some (Vint (s32 n), rest)
  | Cs => '(w, rest) ← scan_word s; Some (Vstr w, rest)
  | _ => None
  end.

(** The values assigned before the first directive that fails; the result of
    [sscanf] is their number (or EOF, which no caller distinguishes from 0). *)
Fixpoint scan_all (f : list directive) (s : list Z) : list value :=
  match f with
  | [] => []
  | Dchar c :: f => match s with x :: s => if x =? c then scan_all f s else [] | [] => [] end
  | Dspace _ :: f => scan_all f (skip_space s)
  | Dconv k :: f => match scan_conv k s with Some (v, s) => v :: scan_all f s | None => [] end
  end.

Definition sscanf (s : list Z) (f : string) : list value := scan_all (format (bytes_of_string f)) (cstr s).

(** ** Doubles *)

Definition to_double (n : Z) : spec_float := binary_normalize 53 1024 n 0 false.
Definition ddiv : spec_float -> spec_float -> spec_float := SFdiv 53 1024.
Definition dmul : spec_float -> spec_float -> spec_float := SFmul 53 1024.

(** Conversion to [uint64_t]: the integral part; the compiled code takes a
    negative value modulo [2 ^ 64]. *)
Definition trunc_double (x : spec_float) : Z :=
  match x with
  | S754_finite neg m e =>
      let t := if 0 <=? e then Z.pos m * 2 ^ e else Z.pos m / 2 ^ (- e) in
      u64 (if neg then - t else t)
  | _ => 0
  end.

(** ** Printing *)

Definition digit_char (d : Z) : Z := if d <? 10 then 48 + d else 87 + d.

(** The digits of [n] in front of [acc]; [fuel] digits at most. *)
Fixpoint print_digits (fuel : nat) (b n : Z) (acc : list Z) : list Z :=
  match fuel with
  | O => acc
  | S fuel =>
      let acc := digit_char (n mod b) :: acc in
      if n / b =? 0 then acc else print_digits fuel b (n / b) acc
  end.

(** A number below [2 ^ 64] has at most 20 decimal and 16 hexadecimal digits, the
    integral part of a double at most 309 decimal ones. *)
Definition print_dec (n : Z) : list Z := print_digits 20 10 n [].
Definition print_hex (n : Z) : list Z := print_digits 16 16 n [].

Definition pad (w : nat) (l : list Z) : list Z := replicate (w - length l) 48 ++ l.

Definition minus (neg : bool) : list Z := if neg then [45] else [].

(** [%.5lf]: the exact value rounded to five decimals, ties to even. *)
Definition round_div (num den : Z) : Z :=
  let q := num / den in
  let r := num mod den in
  if (den <? 2 * r) || ((2 * r =? den) && Z.odd q) then q + 1 else q.

Definition print_fixed (neg : bool) (n : Z) : list Z :=
  minus neg ++ print_digits 309 10 (n / 10 ^ 5) [] ++ [46] ++ pad 5 (print_digits 5 10 (n mod 10 ^ 5) []).

Definition print_f5 (x : spec_float) : list Z :=
  match x with
  | S754_zero neg => print_fixed neg 0
  | S754_finite neg m e =>
      print_fixed neg (if 0 <=? e then Z.pos m * 2 ^ e * 10 ^ 5 else round_div (Z.pos m * 10 ^ 5) (2 ^ (- e)))
  | S754_infinity neg => minus neg ++ bytes_of_string "inf"
  | S754_nan => bytes_of_string "nan"
  end.

Definition print_conv (k : conv) (v : value) : list Z :=
  match k, v with
  | Clu, Vint n => print_dec n
  | Cd, Vint n => minus (n <? 0) ++ print_dec (Z.abs n)
  | C02x, Vint n => pad 2 (print_hex n)
  | Clx, Vint n => print_hex n
  | Cs, Vstr s => s
  | Cf5, Vfloat x => print_f5 x
  | _, _ => []
  end.

Fixpoint print_all (f : list directive) (vs : list value) : list Z :=
  match f with
  | [] => []
  | (Dchar c | Dspace c) :: f => c :: print_all f vs
  | Dconv k :: f => match vs with v :: vs => print_conv k v ++ print_all f vs | [] => [] end
  end.

(** The text without its final 0. *)
Definition sprintf (f : string) (vs : list value) : list Z := print_all (format (bytes_of_string f)) vs.

(** ** What scanning a printed number gives *)

Lemma digit_value_char b d : 2 <= b <= 16 -> 0 <= d < b -> digit_value b (digit_char d) = Some d.
Proof.
  intros Hb Hd. unfold digit_char, digit_value. destruct (Z.ltb_spec d 10).
  - replace (48 + d - 48) with d by lia. rewrite (proj2 (Z.leb_le 48 _)), (proj2 (Z.leb_le _ 57)), (proj2 (Z.ltb_lt d b)) by lia. done.
  - rewrite (proj2 (Z.leb_gt (87 + d) 57)) by lia. rewrite andb_false_r. cbn [andb].
    replace (87 + d - 87) with d by lia. rewrite (proj2 (Z.leb_le 97 _)), (proj2 (Z.ltb_lt d b)), (proj2 (Z.leb_le _ 122)) by lia. done.
Qed.

(** The digits printed in front of [acc], scanned after [v]. *)
Lemma scan_print_digits b rest : 2 <= b <= 16 -> forall fuel n acc v, 0 <= n < b ^ Z.of_nat fuel -> (0 < fuel)%nat ->
  exists k, 0 <= k /\ n < b ^ k /\ scan_digits b (print_digits fuel b n acc ++ rest) v = scan_digits b (acc ++ rest) (v * b ^ k + n).
Proof.
  intros Hb. induction fuel as [|fuel IH]; intros n acc v Hn Hf; [lia|]. cbn [print_digits].
  pose proof (Z.mod_pos_bound n b ltac:(lia)) as Hm. pose proof (Z.div_mod n b ltac:(lia)) as E.
  destruct (Z.eqb_spec (n / b) 0) as [E0|E0].
  - exists 1. split; [lia|]. split; [nia|]. cbn [app scan_digits]. rewrite digit_value_char by lia. f_equal. nia.
  - rewrite Nat2Z.inj_succ, Z.pow_succ_r in Hn by lia.
    assert (0 <= n / b < b ^ Z.of_nat fuel) as Hq by (split; [apply Z.div_pos; lia|apply Z.div_lt_upper_bound; lia]).
    destruct fuel as [|fuel']; [change (b ^ Z.of_nat 0) with 1 in Hq; lia|].
    destruct (IH (n / b) (digit_char (n mod b) :: acc) v Hq ltac:(lia)) as (k & Hk & Hlt & ->).
    exists (k + 1). rewrite Z.pow_add_r by lia. split; [lia|]. split; [nia|].
    cbn [app scan_digits]. rewrite digit_value_char by lia. f_equal. nia.
Qed.

Lemma print_digits_head b : 2 <= b <= 16 -> forall fuel n acc, 0 <= n -> (0 < fuel)%nat ->
  exists d l, 0 <= d < b /\ print_digits fuel b n acc = digit_char d :: l.
Proof.
  intros Hb. induction fuel as [|fuel IH]; intros n acc Hn Hf; [lia|]. cbn [print_digits].
  pose proof (Z.mod_pos_bound n b ltac:(lia)). assert (0 <= n / b) by (apply Z.div_pos; lia).
  destruct (Z.eqb_spec (n / b) 0); [by eexists _, _|]. destruct fuel; [by eexists _, _|]. apply IH; lia.
Qed.

Lemma length_print_digits b : forall fuel n acc, (length (print_digits fuel b n acc) <= fuel + length acc)%nat.
Proof.
  induction fuel as [|fuel IH]; intros n acc; cbn [print_digits]; [lia|]. destruct (_ =? _); cbn [length]; [lia|].
  etrans; [apply IH|]. cbn [length]. lia.
Qed.

(** Text that ends a number. *)
Definition stops (b : Z) (rest : list Z) : Prop :=
  match rest with c :: _ => digit_value b c = None | [] => True end.

Lemma scan_digits_stop b rest v : stops b rest -> scan_digits b rest v = (v, rest).
Proof. destruct rest as [|c rest]; cbn; [done|]. by intros ->. Qed.

Lemma digit_not_space b d : 2 <= b <= 16 -> 0 <= d < b ->
  isspace (digit_char d) = false /\ digit_char d <> 43 /\ digit_char d <> 45 /\ digit_char d <> 0.
Proof.
  intros Hb Hd. unfold isspace, digit_char. destruct (Z.ltb_spec d 10);
    (split; [apply orb_false_iff; split; [apply Z.eqb_neq; lia|apply andb_false_iff; right; apply Z.leb_gt; lia]|lia]).
Qed.

Lemma scan_magnitude_10 s : scan_magnitude 10 s = scan_nat 10 s.
Proof. by destruct s as [|c [|x s]]. Qed.

Lemma scan_int_space b c s : isspace c = true -> scan_int b (c :: s) = scan_int b s.
Proof. intros Hc. unfold scan_int. cbn [skip_space]. by rewrite Hc. Qed.

Lemma scan_int_skip b s : scan_int b (skip_space s) = scan_int b s.
Proof.
  induction s as [|c s IH]; [done|]. cbn [skip_space]. destruct (isspace c) eqn:Hc; [|done]. by rewrite IH, scan_int_space.
Qed.

(** A printed number is read back. *)
Lemma scan_print_dec n rest : is_uint 64 n -> stops 10 rest -> scan_int 10 (print_dec n ++ rest) = Some (n, rest).
Proof.
  unfold is_uint. intros Hn Hr. unfold print_dec.
  destruct (scan_print_digits 10 rest ltac:(lia) 20 n [] 0 ltac:(lia) ltac:(lia)) as (k & Hk & _ & E).
  destruct (print_digits_head 10 ltac:(lia) 20 n [] ltac:(lia) ltac:(lia)) as (d & l & Hd & El). rewrite El in *.
  destruct (digit_not_space 10 d ltac:(lia) Hd) as (Hs & H43 & H45 & _). unfold scan_int. cbn [app skip_space]. rewrite Hs.
  unfold scan_sign. rewrite (proj2 (Z.eqb_neq _ _) H45), (proj2 (Z.eqb_neq _ _) H43). rewrite scan_magnitude_10.
  unfold scan_nat. rewrite digit_value_char by lia. change (digit_char d :: l ++ rest) with ((digit_char d :: l) ++ rest).
  rewrite E. cbn [app]. rewrite scan_digits_stop by done. rewrite mbind_Some. rewrite (proj2 (Z.ltb_ge _ _)) by lia. done.
Qed.

(** Formats of numbers and white space only, with their number of numbers. *)
Fixpoint num_format (f : list directive) : option nat :=
  match f with
  | [] => Some 0%nat
  | Dspace _ :: f => num_format f
  | Dconv Clu :: f => S <$> num_format f
  | _ => None
  end.

Definition spaced (ns : list Z) : list Z := flat_map (fun n => 32 :: print_dec n) ns.

Lemma scan_num_skip f : forall k s, num_format f = Some k -> scan_all f (skip_space s) = scan_all f s.
Proof.
  assert (forall s, skip_space (skip_space s) = skip_space s) as Hi.
  { induction s as [|c s IH]; [done|]. cbn [skip_space]. destruct (isspace c) eqn:Hc; [done|]. cbn [skip_space]. by rewrite Hc. }
  destruct f as [|[c|c|[]] f]; intros k s; cbn [num_format scan_all scan_conv]; try done.
  - intros _. by rewrite Hi.
  - intros _. by rewrite scan_int_skip.
Qed.

Lemma stops_spaced ns rest : stops 10 rest -> stops 10 (spaced ns ++ rest).
Proof. by destruct ns. Qed.

(** The numbers after a command word. *)
Lemma scan_numbers f : forall ns rest, num_format f = Some (length ns) -> Forall (is_uint 64) ns -> stops 10 rest ->
  scan_all f (spaced ns ++ rest) = Vint <$> ns.
Proof.
  induction f as [|[c|c|[]] f IH]; intros ns rest Hf Hns Hr; cbn [num_format scan_all] in *; try done.
  - by destruct ns.
  - rewrite (scan_num_skip f (length ns)) by done. by apply IH.
  - destruct (num_format f) as [k|] eqn:Ef; [|done]. destruct ns as [|n ns]; [done|]. injection Hf as Hk.
    apply Forall_cons in Hns as [Hn Hns]. cbn [spaced flat_map scan_conv app].
    change (flat_map (fun n => 32 :: print_dec n) ns) with (spaced ns).
    rewrite scan_int_space by done. rewrite <- app_assoc, scan_print_dec by (done || by apply stops_spaced).
    rewrite mbind_Some. cbn [fmap list_fmap]. f_equal. apply IH; [by rewrite <- Hk|done|done].
Qed.

Lemma scan_literal p f s : scan_all ((Dchar <$> p) ++ f) (p ++ s) = scan_all f s.
Proof. induction p as [|c p IH]; [done|]. cbn [fmap list_fmap app scan_all]. by rewrite Z.eqb_refl. Qed.

(** Numbers printed after white space. *)
Fixpoint spaced_format (n : nat) : list directive :=
  match n with
  | O => []
  | S n => Dspace 32 :: Dconv Clu :: spaced_format n
  end.

Lemma print_literal p f vs : print_all ((Dchar <$> p) ++ f) vs = p ++ print_all f vs.
Proof. induction p as [|c p IH]; [done|]. cbn [fmap list_fmap app print_all]. by f_equal. Qed.

Lemma print_spaced ns : print_all (spaced_format (length ns)) (Vint <$> ns) = spaced ns.
Proof. induction ns as [|n ns IH]; [done|]. cbn [length spaced_format fmap list_fmap print_all print_conv spaced flat_map app]. by rewrite IH. Qed.

Lemma sprintf_command (p : list Z) (fmt : string) ns :
  format (bytes_of_string fmt) = (Dchar <$> p) ++ spaced_format (length ns) -> sprintf fmt (Vint <$> ns) = p ++ spaced ns.
Proof. intros Hf. unfold sprintf. by rewrite Hf, print_literal, print_spaced. Qed.

Lemma sprintf_named (p : list Z) (fmt : string) name ns :
  format (bytes_of_string fmt) = (Dchar <$> p) ++ Dspace 32 :: Dconv Cs :: spaced_format (length ns) ->
  sprintf fmt (Vstr name :: (Vint <$> ns)) = p ++ 32 :: name ++ spaced ns.
Proof. intros Hf. unfold sprintf. rewrite Hf, print_literal. cbn [print_all print_conv]. by rewrite print_spaced. Qed.

(** A word ends at white space or at the end. *)
Lemma scan_word_app w rest : w <> [] -> Forall (fun c => isspace c = false) w ->
  match rest with c :: _ => isspace c = true | [] => True end -> scan_word (w ++ rest) = Some (w, rest).
Proof.
  intros Hne Hw Hr. unfold scan_word. destruct w as [|c w]; [done|]. cbn [app skip_space].
  apply Forall_cons in Hw as [Hc Hw]. rewrite Hc. change (c :: w ++ rest) with ((c :: w) ++ rest).
  assert (take_while (fun c => negb (isspace c)) ((c :: w) ++ rest) = c :: w) as ->.
  { cbn [app take_while]. rewrite Hc. cbn [negb]. f_equal. clear Hne. induction Hw as [|x w Hx Hw IH]; cbn [app take_while].
    - destruct rest as [|y rest]; [done|]. cbn [take_while]. by rewrite Hr.
    - rewrite Hx. cbn [negb]. f_equal. apply IH. }
  by rewrite drop_app_length.
Qed.

(** ** How much text the scanned values take, and the printed ones *)

Definition vsize (v : value) : nat := match v with Vint _ => 1 | Vstr w => length w | Vfloat _ => 0 end.
Definition sizes (vs : list value) : nat := sum_list (vsize <$> vs).

Lemma length_skip_space s : (length (skip_space s) <= length s)%nat.
Proof. induction s as [|c s IH]; [done|]. cbn [skip_space]. destruct (isspace c); cbn [length]; lia. Qed.

Lemma length_scan_digits b s : forall v, (length (scan_digits b s v).2 <= length s)%nat.
Proof. induction s as [|c s IH]; intros v; [done|]. cbn [scan_digits]. destruct (digit_value b c); cbn [length snd]; [|lia]. etrans; [apply IH|lia]. Qed.

Lemma scan_digits_nonneg b s : 0 <= b -> forall v, 0 <= v -> 0 <= (scan_digits b s v).1.
Proof.
  intros Hb. induction s as [|c s IH]; intros v Hv; [done|]. cbn [scan_digits]. destruct (digit_value b c) as [d|] eqn:E; [|done].
  apply IH. unfold digit_value in E. repeat case_if_in E; try done; injection E as <-; nia.
Qed.

Lemma scan_nat_spec b s n rest : 0 <= b -> scan_nat b s = Some (n, rest) -> 0 <= n /\ (length rest < length s)%nat.
Proof.
  intros Hb. unfold scan_nat. destruct s as [|c s]; [done|]. destruct (digit_value b c) as [d|] eqn:E; [|done].
  intros [= H]. pose proof (scan_digits_nonneg b (c :: s) Hb 0 ltac:(lia)) as Hn. cbn [scan_digits] in Hn. rewrite E in H, Hn.
  pose proof (length_scan_digits b s (0 * b + d)) as Hl. rewrite H in Hn, Hl. cbn [length fst snd] in *. lia.
Qed.

Lemma scan_int_spec s n rest : scan_int 10 s = Some (n, rest) -> is_uint 64 n /\ (length rest < length s)%nat.
Proof.
  unfold scan_int. destruct (scan_sign (skip_space s)) as [neg t] eqn:Et. rewrite scan_magnitude_10.
  assert (length t <= length s)%nat as Ht.
  { pose proof (length_skip_space s). unfold scan_sign in Et. destruct (skip_space s) as [|c l]; [by injection Et as _ <-|].
    repeat case_if_in Et; injection Et as _ <-; cbn [length] in *; lia. }
  destruct (scan_nat 10 t) as [[m r]|] eqn:En; [|done]. rewrite mbind_Some. intros [= <- <-].
  apply scan_nat_spec in En as [Hm Hl]; [|lia]. split; [|lia]. destruct (Z.ltb_spec (2 ^ 64 - 1) m); [done|].
  destruct neg; [apply wrap_range; lia|unfold is_uint; lia].
Qed.

Lemma scan_word_spec s w rest : scan_word s = Some (w, rest) -> (length w + length rest <= length s)%nat.
Proof.
  unfold scan_word. set (t := skip_space s). assert (length (take_while (fun c => negb (isspace c)) t) <= length t)%nat as Hl.
  { induction t as [|c t IH]; [done|]. cbn [take_while]. destruct (negb (isspace c)); cbn [length]; lia. }
  pose proof (length_skip_space s). fold t in H. destruct (take_while _ t) as [|c l]; [done|]. intros [= <- <-].
  rewrite length_drop. cbn [length] in *. lia.
Qed.

(** Formats of [%lu] and [%s]; the number of their conversions and of the
    characters in front of one. *)
Fixpoint convs (f : list directive) : nat :=
  match f with Dconv _ :: f => S (convs f) | _ :: f => convs f | [] => 0 end.
Fixpoint literals (f : list directive) : nat :=
  match f with
  | Dchar _ :: f => if Nat.eqb (convs f) 0 then 0 else S (literals f)
  | _ :: f => literals f
  | [] => 0
  end.
Definition plain (f : list directive) : bool :=
  forallb (fun d => match d with Dconv (Clu | Cs) | Dchar _ | Dspace _ => true | _ => false end) f.

Lemma length_scan_all f : forall s, plain f = true -> length (scan_all f s) = convs f -> (literals f + sizes (scan_all f s) <= length s)%nat.
Proof.
  induction f as [|d f IH]; intros s Hp Hl; [cbn; lia|]. apply andb_prop in Hp as [Hd Hp].
  destruct d as [c|c|k]; cbn [scan_all convs literals] in *.
  - destruct s as [|x s].
    + cbn [length] in Hl. rewrite <- Hl. cbn. lia.
    + destruct (x =? c).
      * specialize (IH s Hp Hl). destruct (Nat.eqb_spec (convs f) 0); cbn [length]; lia.
      * cbn [length] in Hl. rewrite <- Hl. cbn. lia.
  - specialize (IH (skip_space s) Hp Hl). pose proof (length_skip_space s). lia.
  - destruct k; try done; cbn [scan_conv] in *.
    + destruct (scan_int 10 s) as [[n rest]|] eqn:E; cbn [mbind option_bind length] in Hl |- *; [|done].
      apply scan_int_spec in E as [_ E]. specialize (IH rest Hp ltac:(lia)). unfold sizes in *. cbn [fmap list_fmap sum_list_with id vsize]. lia.
    + destruct (scan_word s) as [[w rest]|] eqn:E; cbn [mbind option_bind length] in Hl |- *; [|done].
      apply scan_word_spec in E. specialize (IH rest Hp ltac:(lia)). unfold sizes in *. cbn [fmap list_fmap sum_list_with id vsize]. lia.
Qed.

Lemma length_cstr s : (length (cstr s) <= length s)%nat.
Proof. unfold cstr. induction s as [|c s IH]; [done|]. cbn [take_while]. destruct (negb (c =? 0)); cbn [length]; lia. Qed.

(** The text of a full match. *)
Lemma sscanf_length s fmt vs : sscanf s fmt = vs -> plain (format (bytes_of_string fmt)) = true ->
  length vs = convs (format (bytes_of_string fmt)) -> (literals (format (bytes_of_string fmt)) + sizes vs <= length s)%nat.
Proof. intros <- Hp Hl. pose proof (length_scan_all _ _ Hp Hl). pose proof (length_cstr s). unfold sscanf. lia. Qed.

(** The longest text of a conversion. *)
Definition conv_width (k : conv) : nat :=
  match k with Clu => 20 | Cd => 21 | C02x => 16 | Clx => 16 | Cf5 => 316 | _ => 0 end.
Fixpoint width (f : list directive) : nat :=
  match f with
  | Dconv k :: f => conv_width k + width f
  | _ :: f => S (width f)
  | [] => 0
  end.
Definition str_size (v : value) : nat := match v with Vstr w => length w | _ => 0 end.

Lemma length_pad w l : length (pad w l) = Nat.max w (length l).
Proof. unfold pad. rewrite length_app, length_replicate. lia. Qed.

Lemma length_minus neg : (length (minus neg) <= 1)%nat.
Proof. by destruct neg; cbn; lia. Qed.

Lemma length_print_fixed neg n : (length (print_fixed neg n) <= 316)%nat.
Proof.
  unfold print_fixed. rewrite !length_app, length_pad. pose proof (length_minus neg).
  pose proof (length_print_digits 10 309 (n / 10 ^ 5) []). pose proof (length_print_digits 10 5 (n mod 10 ^ 5) []).
  cbn [length] in *. lia.
Qed.

Lemma length_print_conv k v : (length (print_conv k v) <= conv_width k + str_size v)%nat.
Proof.
  destruct k, v; cbn [print_conv conv_width str_size length]; try lia.
  - pose proof (length_print_digits 10 20 n []). unfold print_dec. cbn [length] in *. lia.
  - rewrite length_app. pose proof (length_minus (n <? 0)). pose proof (length_print_digits 10 20 (Z.abs n) []). unfold print_dec.
    cbn [length] in *. lia.
  - rewrite length_pad. pose proof (length_print_digits 16 16 n []). unfold print_hex. cbn [length] in *. lia.
  - pose proof (length_print_digits 16 16 n []). unfold print_hex. cbn [length] in *. lia.
  - destruct x; cbn [print_f5]; try (etrans; [apply length_print_fixed|lia]); [|cbn; lia].
    rewrite length_app. pose proof (length_minus s). cbn. lia.
Qed.

Lemma length_sprintf fmt vs : (length (sprintf fmt vs) <= width (format (bytes_of_string fmt)) + sum_list (str_size <$> vs))%nat.
Proof.
  unfold sprintf. generalize (format (bytes_of_string fmt)). intros f. revert vs.
  induction f as [|d f IH]; intros vs; [cbn; lia|]. destruct d as [c|c|k]; cbn [print_all width length].
  1-2: specialize (IH vs); lia.
  destruct vs as [|v vs]; [cbn; lia|]. rewrite length_app. pose proof (length_print_conv k v). specialize (IH vs).
  cbn [fmap list_fmap sum_list_with id]. lia.
Qed.

(** ** Strings without 0 *)

Lemma cstr_all s : Forall (fun c => c <> 0) s -> cstr s = s.
Proof.
  unfold cstr. induction 1 as [|c s Hc Hs IH]; [done|]. cbn [take_while]. rewrite (proj2 (Z.eqb_neq _ _) Hc). cbn [negb]. by f_equal.
Qed.

Lemma print_digits_nonzero b : 2 <= b <= 16 -> forall fuel n acc, 0 <= n -> Forall (fun c => c <> 0) acc ->
  Forall (fun c => c <> 0) (print_digits fuel b n acc).
Proof.
  intros Hb. induction fuel as [|fuel IH]; intros n acc Hn Ha; [done|]. cbn [print_digits].
  pose proof (Z.mod_pos_bound n b ltac:(lia)) as Hm. assert (0 <= n / b) by (apply Z.div_pos; lia).
  pose proof (digit_not_space b (n mod b) Hb Hm) as (_ & _ & _ & Hd).
  destruct (_ =? _); [by constructor|]. apply IH; [lia|by constructor].
Qed.

Lemma spaced_nonzero ns : Forall (is_uint 64) ns -> Forall (fun c => c <> 0) (spaced ns).
Proof.
  induction 1 as [|n ns [Hn _] Hns IH]; [constructor|]. cbn [spaced flat_map]. apply Forall_cons. split; [done|].
  apply Forall_app. split; [|done]. by apply print_digits_nonzero; [lia|lia|constructor].
Qed.

Example sscanf_example :
  sscanf (bytes_of_string "copy-buffer 12 -1  99999999999999999999x") "copy-buffer %lu %lu %lu" =
  [Vint 12; Vint (2 ^ 64 - 1); Vint (2 ^ 64 - 1)].
Proof. reflexivity. Qed.

Example sprintf_example :
  sprintf "ok-copy-buffer %lu %s 0x%lx %.5lf" [Vint 120; Vstr (bytes_of_string "ab"); Vint 255; Vfloat (ddiv (to_double 2) (to_double 3))] =
  bytes_of_string "ok-copy-buffer 120 ab 0xff 0.66667".
Proof. vm_compute. reflexivity. Qed.
