(* ===== verification/Solver.v ===== *)
(** * kern/solver_faster.cpp: the digit-stream solver

    The solver receives the digits of a stream in batches and submits every
    substring of at most [N] digits that ends in the new batch and whose
    weighted prefix sums agree modulo one of four moduli. This file translates
    the [Reporter] and [Solver] namespaces: the statistics buffer, the HTTP
    request, the chained hash table, the power tables and the batch loop.
    [None] is undefined behaviour (an index outside an array) or a failed
    [assert]. [SolverProofs] proves the properties. *)

From S2P Require Import Prelude.

(** ** Constants *)

Definition N_ : Z := 256.
Definition MAX_BATCH_SIZE : Z := 400.
Definition HASH_SIZE : Z := 1024.
Definition MAX_N_STATS : Z := 10.

Definition M1 : Z := 299236546.
Definition M2 : Z := u128 (u128 (1046482571183 * 100000000000000) + 48370704723401).
Definition M3 : Z := 500000000000000000 + 243.
Definition M4 : Z := 387420489.

(** ** Reporter *)

(** The latency is kept in time-stamp ticks, the numerator of the [double]
    the code computes with the constant denominator [tsc_freq_us]. *)
Record Stat := mkStat { local_latency : Z; n_digits : Z; m_number : Z }.
#[export] Instance Zeroed_Stat : Zeroed Stat := mkStat 0 0 0.

(** The statics of the file outside [namespace Solver]. [tsc_reads] counts the
    executions of [rdtsc], [out] is the sequence of buffers given to
    [send_fn]. *)
Record reporter := mkReporter {
  stats : arr Stat;
  n_stats : Z;
  sum_latency : Z;
  n_total_stats : Z;
  last_recv_tsc : Z;
  last_send_tsc : Z;
  tsc_freq_us : Z;
  tsc_reads : nat;
  out : list (list Z)
}.

(** The statics before [init]: zero. *)
Definition reporter_static : reporter :=
  mkReporter (anew MAX_N_STATS) 0 0 0 0 0 0 0 [].

Definition reporter_print_stat (r : reporter) : option reporter :=
  acc ← forM_range 0 (n_stats r)
    (fun i '(sum, n) =>
       st ← aread (stats r) i; Some (sum + local_latency st, s32 (n + 1)))
    (sum_latency r, n_total_stats r);
  Some (mkReporter (stats r) 0 acc.1 acc.2 (last_recv_tsc r) (last_send_tsc r)
          (tsc_freq_us r) (tsc_reads r) (out r)).

Definition add_stat (lat n m : Z) (r : reporter) : option reporter :=
  if MAX_N_STATS <=? n_stats r then Some r
  else
    st ← awrite (stats r) (n_stats r) (mkStat lat n m);
    Some (mkReporter st (n_stats r + 1) (sum_latency r) (n_total_stats r)
            (last_recv_tsc r) (last_send_tsc r) (tsc_freq_us r) (tsc_reads r) (out r)).

Definition crlf : list Z := [13; 10].

(** [sprintf(buf, header_format, len)] *)
Definition header_format (len : Z) : list Z :=
  bytes_of_string "POST /submit HTTP/1.1" ++ crlf ++
  bytes_of_string "Host: 59.110.124.141:10002" ++ crlf ++
  bytes_of_string "User-Agent: curl/7.68.0" ++ crlf ++
  bytes_of_string "Accept: */*" ++ crlf ++
  bytes_of_string "Content-Length: " ++ bytes_of_string (pretty len) ++ crlf ++
  bytes_of_string "Content-Type: application/x-www-form-urlencoded" ++ crlf ++
  crlf.

(** The four hash tables are four instances of this structure. *)
Record Hash := mkHash {
  first : arr Z;
  next : arr Z;
  values : arr Z;
  keys : arr Z;
  cnt : Z
}.

Definition hash_static : Hash :=
  mkHash (anew HASH_SIZE) (anew (N_ + MAX_BATCH_SIZE + 5))
    (anew (N_ + MAX_BATCH_SIZE + 5)) (anew (N_ + MAX_BATCH_SIZE + 5)) 0.

Definition hash_clear (h : Hash) : Hash :=
  mkHash (afill (first h) 0 HASH_SIZE 0) (next h) (values h) (keys h) 0.

Definition bucket (key : Z) : Z := u32 (Z.land key (HASH_SIZE - 1)).

Definition hash_insert (key value : Z) (h : Hash) : option Hash :=
  let idx := bucket key in
  let c := u32 (cnt h + 1) in
  f ← aread (first h) idx;
  nx ← awrite (next h) c f;
  ks ← awrite (keys h) c key;
  vs ← awrite (values h) c (u16 value);
  fs ← awrite (first h) idx (u16 c);
  Some (mkHash fs nx vs ks c).

Definition add_mod (w a b M : Z) : Z :=
  let sum := wrap w (a + b) in
  if M <=? sum then wrap w (sum - M) else sum.

(** [init_e]: [e[i * 10 + j]] for [i] from the last position down to 0. *)
Definition init_e (w M : Z) (e : arr Z) : option (arr Z) :=
  acc ← forM_range 0 (N_ + MAX_BATCH_SIZE)
    (fun k '(e, cur) =>
       let i := N_ + MAX_BATCH_SIZE - 1 - k in
       forM_range 0 10
         (fun j '(e, tmp) =>
            e' ← awrite e (i * 10 + j) tmp; Some (e', add_mod w tmp cur M))
         (e, 0))
    (e, 1);
  Some acc.1.

Definition do_prepare_digits (w : Z) (digits e : arr Z) (h : Hash) (M : Z)
    : option (Z * Hash) :=
  forM_range 0 N_
    (fun i '(sum, h) =>
       d ← aread digits i;
       ev ← aread e (i * 10 + d);
       let sum := add_mod w sum ev M in
       h' ← hash_insert (u64 sum) i h;
       Some (sum, h'))
    (233333333, hash_clear h).

(** The statics of [namespace Solver] with the reporter's. *)
Record solver := mkSolver {
  digits : arr Z;
  h1 : Hash; h2 : Hash; h3 : Hash; h4 : Hash;
  e1 : arr Z; e2 : arr Z; e3 : arr Z; e4 : arr Z;
  sum1 : Z; sum2 : Z; sum3 : Z; sum4 : Z;
  rep : reporter
}.

Definition solver_static : solver :=
  let e := anew (10 * (N_ + MAX_BATCH_SIZE)) in
  mkSolver (anew (N_ + MAX_BATCH_SIZE)) hash_static hash_static hash_static
    hash_static e e e e 0 0 0 0 reporter_static.

Definition prepare (s : solver) : option solver :=
  p1 ← do_prepare_digits 32 (digits s) (e1 s) (h1 s) M1;
  p2 ← do_prepare_digits 128 (digits s) (e2 s) (h2 s) M2;
  p3 ← do_prepare_digits 64 (digits s) (e3 s) (h3 s) M3;
  p4 ← do_prepare_digits 32 (digits s) (e4 s) (h4 s) M4;
  Some (mkSolver (digits s) p1.2 p2.2 p3.2 p4.2 (e1 s) (e2 s) (e3 s) (e4 s)
          p1.1 p2.1 p3.1 p4.1 (rep s)).

Section solver.
(** The value returned by the n-th execution of [rdtsc]. *)
Variable rdtsc : nat -> Z.

Definition send_request (msg : list Z) (n m : Z) (r : reporter) : option reporter :=
  let t := u64 (rdtsc (tsc_reads r)) in
  r' ← add_stat (u64 (t - last_recv_tsc r)) n m r;
  Some (mkReporter (stats r') (n_stats r') (sum_latency r') (n_total_stats r')
          (last_recv_tsc r') t (tsc_freq_us r') (S (tsc_reads r')) (out r' ++ [msg])).

(** [sprintf] writes the header and a NUL into [char buf[1024]]. *)
Definition report_string (str : list Z) (len m : Z) (r : reporter) : option reporter :=
  let header := header_format len in
  let header_len := Z.of_nat (length header) in
  if (1024 <? header_len + 1) || (1024 <? header_len + len) then None
  else send_request (header ++ str) len m r.

(** [report_digits(digits + base, len, m_number)] *)
Definition report_digits (dg : arr Z) (base len m : Z) (r : reporter) : option reporter :=
  d0 ← aread dg base;
  if d0 =? 0 then Some r
  else if (m =? 1) && (len <? 14) then Some r
  else if (m =? 2) && (len <? 27) then Some r
  else if (m =? 3) && (len <? 54) then Some r
  else if (m =? 4) && (len <? 68) then Some r
  else
    buf ← forM_range 0 len
      (fun i b => d ← aread dg (base + i); awrite b i (u8 (d + 48))) (anew 1024);
    report_string (aslice buf 0 len) len m r.

(** The loop of [query_all]; [fuel] bounds the length of the chain. *)
Fixpoint query_loop (fuel : nat) (h : Hash) (dg : arr Z) (key q_idx m i : Z)
    (r : reporter) : option reporter :=
  match fuel with
  | O => None
  | S fuel' =>
      if i =? 0 then Some r
      else
        k ← aread (keys h) i;
        nx ← aread (next h) i;
        if negb (k =? key) then query_loop fuel' h dg key q_idx m nx r
        else
          value ← aread (values h) i;
          if N_ <? u32 (q_idx - value) then query_loop fuel' h dg key q_idx m nx r
          else
            r' ← report_digits dg (u32 (value + 1)) (u32 (q_idx - value)) m r;
            query_loop fuel' h dg key q_idx m nx r'
  end.

Definition query_all (h : Hash) (dg : arr Z) (key q_idx m : Z) (r : reporter)
    : option reporter :=
  i ← aread (first h) (bucket key);
  query_loop (S (Z.to_nat (cnt h))) h dg key q_idx m i r.

Definition do_add_digits (w : Z) (len : Z) (dg : arr Z) (sum : Z) (e : arr Z) (h : Hash)
    (M m : Z) (r : reporter) : option (Z * Hash * reporter) :=
  forM_range 0 len
    (fun i '(sum, h, r) =>
       d ← aread dg (N_ + i);
       ev ← aread e ((N_ + i) * 10 + d);
       let sum := add_mod w sum ev M in
       r' ← query_all h dg (u64 sum) (N_ + i) m r;
       h' ← hash_insert (u64 sum) (N_ + i) h;
       Some (sum, h', r'))
    (sum, h, r).

(** [memcpy] into [digits + N], the four passes, [memmove] of the last [N]
    digits to the front. [sum] is a by-value parameter of [do_add_digits]:
    the static sums keep their values. *)
Definition add_digits (new_digits : arr Z) (len : Z) (s : solver) : option solver :=
  let dg := acopy (digits s) N_ new_digits 0 len in
  p1 ← do_add_digits 32 len dg (sum1 s) (e1 s) (h1 s) M1 1 (rep s);
  p4 ← do_add_digits 32 len dg (sum4 s) (e4 s) (h4 s) M4 4 p1.2;
  p3 ← do_add_digits 64 len dg (sum3 s) (e3 s) (h3 s) M3 3 p4.2;
  p2 ← do_add_digits 128 len dg (sum2 s) (e2 s) (h2 s) M2 2 p3.2;
  Some (mkSolver (acopy dg 0 dg len N_) p1.1.2 p2.1.2 p3.1.2 p4.1.2
          (e1 s) (e2 s) (e3 s) (e4 s) (sum1 s) (sum2 s) (sum3 s) (sum4 s) p2.2).

Definition init (tsc_freq : Z) (s : solver) : option solver :=
  let r := rep s in
  let r := mkReporter (stats r) (n_stats r) (sum_latency r) (n_total_stats r)
             (last_recv_tsc r) (last_send_tsc r) (tsc_freq / 1000000)
             (tsc_reads r) (out r) in
  if negb (Z.land N_ (- N_) =? N_) then None
  else
    dg ← forM_range 0 N_ (fun i d => awrite d i 9) (digits s);
    t1 ← init_e 32 M1 (e1 s);
    t2 ← init_e 128 M2 (e2 s);
    t3 ← init_e 64 M3 (e3 s);
    t4 ← init_e 32 M4 (e4 s);
    prepare (mkSolver dg (h1 s) (h2 s) (h3 s) (h4 s) t1 t2 t3 t4
               (sum1 s) (sum2 s) (sum3 s) (sum4 s) r).

(** [buf] holds the characters received. *)
Definition recv_input (buf : list Z) (s : solver) : option solver :=
  let len := Z.of_nat (length buf) in
  if negb ((1 <=? len) && (len <=? MAX_BATCH_SIZE)) then None
  else
    let r := rep s in
    let r := mkReporter (stats r) (n_stats r) (sum_latency r) (n_total_stats r)
               (u64 (rdtsc (tsc_reads r))) (last_send_tsc r) (tsc_freq_us r)
               (S (tsc_reads r)) (out r) in
    new_digits ← forM_range 0 len
      (fun i nd => c ← buf !! Z.to_nat i; awrite nd i (c - 48)) (anew MAX_BATCH_SIZE);
    add_digits new_digits len
      (mkSolver (digits s) (h1 s) (h2 s) (h3 s) (h4 s) (e1 s) (e2 s) (e3 s) (e4 s)
         (sum1 s) (sum2 s) (sum3 s) (sum4 s) r).

Definition print_stat (s : solver) : option solver :=
  r ← reporter_print_stat (rep s);
  prepare (mkSolver (digits s) (h1 s) (h2 s) (h3 s) (h4 s) (e1 s) (e2 s) (e3 s) (e4 s)
             (sum1 s) (sum2 s) (sum3 s) (sum4 s) r).
End solver.
