(* ===== verification/SolverProofs.v ===== *)
(** * Properties of the digit-stream solver

    Section by section: the value of a digit string and the residues the code
    keeps, the power tables of [init_e], the chained hash table against an
    association list, the request of one report, the batch loop against the
    list of submissions it must make, and the invariant of the whole solver
    through [init], [recv_input] and [print_stat]. *)

From S2P Require Import Prelude Solver.

(** ** Digit strings *)

(** The number written by a list of decimal digits, most significant first. *)
Definition num (l : list Z) : Z := foldl (fun acc d => acc * 10 + d) 0 l.

Lemma foldl_num l a :
  foldl (fun acc d => acc * 10 + d) a l = a * 10 ^ Z.of_nat (length l) + num l.
Proof.
  revert a. induction l as [|x l IH]; intros a.
  - cbn. lia.
  - unfold num. cbn [foldl length]. rewrite (IH (a * 10 + x)), (IH (0 * 10 + x)).
    rewrite Nat2Z.inj_succ, Z.pow_succ_r by lia. lia.
Qed.

Lemma num_app l1 l2 :
  num (l1 ++ l2) = num l1 * 10 ^ Z.of_nat (length l2) + num l2.
Proof. unfold num at 1. rewrite foldl_app. apply foldl_num. Qed.

Lemma num_snoc l x : num (l ++ [x]) = num l * 10 + x.
Proof. rewrite num_app. cbn. lia. Qed.

(** A digit sequence is valid on [0, n). *)
Definition digits_ok (d : Z -> Z) (n : Z) : Prop :=
  forall k, 0 <= k < n -> 0 <= d k <= 9.

(** The weighted prefix sum the code accumulates, before reduction: the digits
    [0 .. v] with the weight of position [v]. *)
Definition weight (d : Z -> Z) (v : Z) : Z :=
  num (dslice d 0 (v + 1)) * 10 ^ (N_ + MAX_BATCH_SIZE - 1 - v).

(** The residue after digit [v]; 233333333 is the seed of the code. *)
Definition residue (M : Z) (d : Z -> Z) (v : Z) : Z :=
  (233333333 + weight d v) mod M.

Lemma weight_succ d v :
  0 <= v + 1 < N_ + MAX_BATCH_SIZE ->
  weight d (v + 1) = weight d v + d (v + 1) * 10 ^ (N_ + MAX_BATCH_SIZE - 1 - (v + 1)).
Proof.
  unfold weight. intros. rewrite dslice_snoc by lia. rewrite num_snoc, Z.add_0_l.
  replace (N_ + MAX_BATCH_SIZE - 1 - v)
    with (1 + (N_ + MAX_BATCH_SIZE - 1 - (v + 1))) by lia.
  rewrite Z.pow_add_r by lia. lia.
Qed.

(** The difference of two prefix sums is the number between them, shifted. *)
Lemma weight_diff d v q :
  0 <= v + 1 -> v <= q < N_ + MAX_BATCH_SIZE ->
  weight d q - weight d v =
    num (dslice d (v + 1) (q - v)) * 10 ^ (N_ + MAX_BATCH_SIZE - 1 - q).
Proof.
  unfold weight. intros. replace (q + 1) with ((v + 1) + (q - v)) by lia.
  rewrite dslice_app, num_app, length_dslice, Z2Nat.id by lia.
  replace (N_ + MAX_BATCH_SIZE - 1 - v)
    with ((q - v) + (N_ + MAX_BATCH_SIZE - 1 - q)) by lia.
  rewrite Z.pow_add_r by lia. rewrite Z.add_0_l. lia.
Qed.

Lemma residue_ext M d d' v :
  (forall k, 0 <= k <= v -> d k = d' k) -> residue M d v = residue M d' v.
Proof.
  intros He. unfold residue, weight. do 4 f_equal. apply dslice_ext. intros.
  apply He. lia.
Qed.

Lemma residue_range M d v : 0 < M -> 0 <= residue M d v < M.
Proof. intros. apply Z.mod_pos_bound. lia. Qed.

Lemma mod_eq_sub a b M : 0 < M -> a mod M = b mod M <-> (a - b) mod M = 0.
Proof.
  intros HM. split; intros H.
  - by rewrite Zminus_mod, H, Z.sub_diag, Z.mod_0_l by lia.
  - replace a with (b + (a - b)) by lia.
    by rewrite <- Zplus_mod_idemp_r, H, Z.add_0_r.
Qed.

(** Equal residues say that the number between them, shifted, is a multiple. *)
Lemma residue_eq_iff M d v q :
  0 < M -> 0 <= v + 1 -> v <= q < N_ + MAX_BATCH_SIZE ->
  residue M d q = residue M d v <->
  (M | num (dslice d (v + 1) (q - v)) * 10 ^ (N_ + MAX_BATCH_SIZE - 1 - q)).
Proof.
  intros HM Hv Hq. unfold residue. rewrite mod_eq_sub by lia.
  replace (233333333 + weight d q - (233333333 + weight d v))
    with (weight d q - weight d v) by lia.
  rewrite weight_diff by lia. apply Z.mod_divide. lia.
Qed.

(** ** Modular addition and the power tables *)

Lemma add_mod_spec w a b M :
  0 <= a < M -> 0 <= b < M -> 2 * M <= 2 ^ w -> add_mod w a b M = (a + b) mod M.
Proof.
  intros Ha Hb HM. unfold add_mod, wrap. rewrite (Z.mod_small (a + b)) by lia.
  case_if.
  - rewrite Z.mod_small by lia. apply Z.mod_unique_pos with 1; lia.
  - by rewrite Z.mod_small by lia.
Qed.

(** The contents of a table [e] for modulus [M]. *)
Definition table_ok (M : Z) (e : arr Z) : Prop :=
  alen e = 10 * (N_ + MAX_BATCH_SIZE) /\
  forall i j, 0 <= i < N_ + MAX_BATCH_SIZE -> 0 <= j <= 9 ->
    aget e (i * 10 + j) = (j * 10 ^ (N_ + MAX_BATCH_SIZE - 1 - i)) mod M.

(** A modulus fits its type when sums of two residues do not overflow. *)
Definition modulus_ok (w M : Z) : Prop := 233333333 < M /\ 2 * M <= 2 ^ w.

Lemma modulus_ok_M1 : modulus_ok 32 M1. Proof. unfold modulus_ok, M1. lia. Qed.
Lemma modulus_ok_M2 : modulus_ok 128 M2.
Proof. unfold modulus_ok. split; vm_compute; done. Qed.
Lemma modulus_ok_M3 : modulus_ok 64 M3. Proof. unfold modulus_ok, M3. lia. Qed.
Lemma modulus_ok_M4 : modulus_ok 32 M4. Proof. unfold modulus_ok, M4. lia. Qed.

#[export] Hint Resolve modulus_ok_M1 modulus_ok_M2 modulus_ok_M3 modulus_ok_M4 : cxx.

(** The inner loop of [init_e] at position [i] writes the ten multiples. *)
Lemma init_e_row w M e i cur :
  modulus_ok w M -> 0 <= cur < M -> 0 <= i < N_ + MAX_BATCH_SIZE ->
  alen e = 10 * (N_ + MAX_BATCH_SIZE) ->
  exists e', forM_range 0 10
    (fun j '(e, tmp) =>
       e' ← awrite e (i * 10 + j) tmp; Some (e', add_mod w tmp cur M)) (e, 0)
    = Some (e', (10 * cur) mod M) /\
    alen e' = alen e /\
    (forall k, ~ (i * 10 <= k < i * 10 + 10) -> aget e' k = aget e k) /\
    (forall j, 0 <= j <= 9 -> aget e' (i * 10 + j) = (j * cur) mod M).
Proof.
  intros [HM HMw] Hcur Hi Hlen.
  destruct (forM_range_ind
    (fun j (st : arr Z * Z) =>
       alen st.1 = alen e /\ st.2 = (j * cur) mod M /\
       (forall k, ~ (i * 10 <= k < i * 10 + 10) -> aget st.1 k = aget e k) /\
       (forall j', 0 <= j' < j -> aget st.1 (i * 10 + j') = (j' * cur) mod M))
    0 10
    (fun j '(e, tmp) =>
       e' ← awrite e (i * 10 + j) tmp; Some (e', add_mod w tmp cur M)) (e, 0))
    as ([e' tmp] & Heq & Hl & Ht & Hfr & Hrow).
  - lia.
  - cbn. rewrite Z.mod_0_l by lia. repeat split; intros; lia.
  - intros j [x tmp] Hj (Hl & Ht & Hfr & Hrow). cbn in *.
    rewrite awrite_ok by (unfold N_, MAX_BATCH_SIZE in *; lia). cbn.
    eexists; split; [done|]. cbn. split; [done|]. split.
    { rewrite Ht, add_mod_spec by (try apply Z.mod_pos_bound; lia).
      rewrite Zplus_mod_idemp_l. f_equal. lia. }
    split.
    + intros k Hk. rewrite aget_set_ne by lia. by apply Hfr.
    + intros j' Hj'. destruct (decide (j' = j)) as [->|].
      * by rewrite aget_set_eq.
      * rewrite aget_set_ne by lia. apply Hrow. lia.
  - exists e'. cbn in *. split; [by rewrite Heq, Ht|]. repeat split; auto.
    intros. apply Hrow. lia.
Qed.

Lemma init_e_spec w M e :
  modulus_ok w M -> alen e = 10 * (N_ + MAX_BATCH_SIZE) ->
  exists e', init_e w M e = Some e' /\ table_ok M e'.
Proof.
  intros Hm Hlen. unfold init_e.
  set (T := N_ + MAX_BATCH_SIZE) in *.
  loop_inv
    (fun k (st : arr Z * Z) =>
       alen st.1 = 10 * T /\ st.2 = 10 ^ k mod M /\
       forall i j, T - k <= i < T -> 0 <= j <= 9 ->
         aget st.1 (i * 10 + j) = (j * 10 ^ (T - 1 - i)) mod M)
    as ([e' cur] & Heq & Hl & Hc & Hrows).
  - unfold T, N_, MAX_BATCH_SIZE. lia.
  - cbn. destruct Hm. rewrite Z.mod_1_l by lia. repeat split; [done|lia].
  - intros k [x cur] Hk (Hl & Hc & Hrows). cbn in *.
    assert (0 <= cur < M) by (destruct Hm; rewrite Hc; apply Z.mod_pos_bound; lia).
    destruct (init_e_row w M x (T - 1 - k) cur) as (x' & -> & Hl' & Hfr & Hrow); try lia; auto.
    eexists; split; [done|]. cbn. split; [congruence|]. split.
    + rewrite Hc, Zmult_mod_idemp_r. f_equal. rewrite Z.pow_add_r by lia. lia.
    + intros i j Hi Hj. destruct (decide (i = T - 1 - k)) as [->|].
      * rewrite Hrow by lia. rewrite Hc, Zmult_mod_idemp_r. do 3 f_equal. lia.
      * rewrite Hfr by lia. apply Hrows; lia.
  - rewrite Heq. cbn in *. exists e'. split; [done|]. split; [done|].
    intros. apply Hrows; lia.
Qed.

(** One step of the accumulation moves the residue to the next digit. *)
Lemma residue_step w M e d i :
  modulus_ok w M -> table_ok M e -> digits_ok d (i + 1) ->
  0 <= i < N_ + MAX_BATCH_SIZE ->
  add_mod w (residue M d (i - 1)) (aget e (i * 10 + d i)) M = residue M d i.
Proof.
  intros [HM HMw] [_ He] Hd Hi. rewrite He by (try apply Hd; lia).
  rewrite add_mod_spec; [|apply residue_range; lia|apply Z.mod_pos_bound; lia|lia].
  unfold residue. rewrite <- Zplus_mod. pose proof (weight_succ d (i - 1)) as Hw.
  replace (i - 1 + 1) with i in Hw by lia. rewrite Hw by lia. f_equal. lia.
Qed.

Lemma residue_seed w M d : modulus_ok w M -> residue M d (-1) = 233333333.
Proof. intros [HM _]. unfold residue, weight. cbn. apply Z.mod_small. lia. Qed.

(** ** The chained hash table as an association list

    [l] lists the inserted pairs, newest first; the pair inserted as the n-th
    one lives in cell n. *)

Fixpoint chain_head (l : list (Z * Z)) (b : Z) : Z :=
  match l with
  | [] => 0
  | (k, _) :: l' => if bucket k =? b then Z.of_nat (length l) else chain_head l' b
  end.

Fixpoint cells (h : Hash) (l : list (Z * Z)) : Prop :=
  match l with
  | [] => True
  | (k, v) :: l' =>
      let i := Z.of_nat (length l) in
      aget (keys h) i = k /\ aget (values h) i = v /\
      aget (next h) i = chain_head l' (bucket k) /\ cells h l'
  end.

Definition hash_shape (h : Hash) : Prop :=
  alen (first h) = HASH_SIZE /\ alen (next h) = N_ + MAX_BATCH_SIZE + 5 /\
  alen (values h) = N_ + MAX_BATCH_SIZE + 5 /\ alen (keys h) = N_ + MAX_BATCH_SIZE + 5.

Definition hash_rep (h : Hash) (l : list (Z * Z)) : Prop :=
  hash_shape h /\ cnt h = Z.of_nat (length l) /\
  (forall b, 0 <= b < HASH_SIZE -> aget (first h) b = chain_head l b) /\ cells h l.

Lemma bucket_range k : 0 <= bucket k < HASH_SIZE.
Proof.
  unfold bucket, HASH_SIZE. change (1024 - 1) with (2 ^ 10 - 1).
  rewrite land_mask by lia. assert (0 <= k mod 2 ^ 10 < 2 ^ 10) by (apply Z.mod_pos_bound; lia).
  rewrite wrap_small; unfold is_uint; lia.
Qed.

Lemma chain_head_range l b : 0 <= chain_head l b <= Z.of_nat (length l).
Proof.
  induction l as [|[k v] l IH]; cbn [chain_head]; [done|]. case_if; cbn [length]; lia.
Qed.

Lemma cells_frame h h' l :
  (forall i, i <= Z.of_nat (length l) ->
     aget (keys h') i = aget (keys h) i /\ aget (values h') i = aget (values h) i /\
     aget (next h') i = aget (next h) i) ->
  cells h l -> cells h' l.
Proof.
  induction l as [|[k v] l IH]; intros Hf; [done|]. cbn [cells].
  intros (Hk & Hv & Hn & Hl). destruct (Hf (Z.of_nat (length ((k, v) :: l)))) as (-> & -> & ->); [lia|].
  repeat split; auto. apply IH; [|done]. intros. apply Hf. cbn [length]. lia.
Qed.

Lemma hash_clear_rep h : hash_shape h -> hash_rep (hash_clear h) [].
Proof.
  intros (Hf & Hn & Hv & Hk). unfold hash_clear.
  split; [|split; [done|split; [|done]]]; cbn [first next values keys].
  - unfold hash_shape. cbn [first next values keys]. by rewrite alen_fill.
  - intros b Hb. rewrite aget_fill by done. case_if; [done|lia].
Qed.

Lemma hash_insert_spec k v h l :
  hash_rep h l -> is_uint 16 v ->
  Z.of_nat (length l) + 1 < N_ + MAX_BATCH_SIZE + 5 ->
  exists h', hash_insert k v h = Some h' /\ hash_rep h' ((k, v) :: l).
Proof.
  intros ((Hf & Hn & Hv & Hk) & Hc & Hh & Hcells) Hvr Hlen. unfold hash_insert.
  pose proof (bucket_range k) as Hb. unfold N_, MAX_BATCH_SIZE in *.
  rewrite (wrap_small 32 (cnt h + 1)), (wrap_small 16 v) by ulia.
  rewrite (wrap_small 16 (cnt h + 1)) by ulia.
  arr_run. eexists. split; [done|].
  split; [done|]. cbn [cnt first next values keys]. split; [cbn [length]; lia|]. split.
  - intros b Hbb. cbn [chain_head]. rewrite aget_set.
    destruct (decide (bucket k = b)) as [->|].
    + rewrite Z.eqb_refl. cbn [length]. lia.
    + replace (bucket k =? b) with false by lia. by apply Hh.
  - cbn [cells]. cbn [keys values next]. rewrite Hc.
    replace (Z.of_nat (length ((k, v) :: l))) with (Z.of_nat (length l) + 1) by (cbn [length]; lia).
    rewrite !aget_set_eq. repeat split; [by apply Hh|].
    apply (cells_frame h); [|done]. intros i Hi. cbn. by rewrite !aget_set_ne by lia.
Qed.

(** ** One report *)

Definition reporter_ok (r : reporter) : Prop :=
  alen (stats r) = MAX_N_STATS /\ 0 <= n_stats r <= MAX_N_STATS.

(** The filters of [report_digits]. *)
Definition reportable (m : Z) (sub : list Z) : bool :=
  let len := Z.of_nat (length sub) in
  negb (default 0 (head sub) =? 0) &&
  negb ((m =? 1) && (len <? 14)) && negb ((m =? 2) && (len <? 27)) &&
  negb ((m =? 3) && (len <? 54)) && negb ((m =? 4) && (len <? 68)).

(** The HTTP request that submits the digits [sub]. *)
Definition request (sub : list Z) : list Z :=
  header_format (Z.of_nat (length sub)) ++ ((fun d => d + 48) <$> sub).

Definition submission (m : Z) (sub : list Z) : list (list Z) :=
  if reportable m sub then [request sub] else [].

(** Every header for a length up to [N] leaves room for the digits. *)
Lemma header_fits len :
  1 <= len <= N_ -> Z.of_nat (length (header_format len)) <= 1024 - N_ - 1.
Proof.
  intros Hlen.
  assert (forallb (fun k => Z.of_nat (length (header_format k)) <=? 1024 - N_ - 1)
            (seqZ 1 N_) = true) as Hall by (vm_compute; reflexivity).
  rewrite forallb_forall in Hall. apply Z.leb_le, Hall, list_elem_of_In, elem_of_seqZ. lia.
Qed.

Lemma add_stat_spec lat n m r :
  reporter_ok r ->
  exists r', add_stat lat n m r = Some r' /\ reporter_ok r' /\ out r' = out r.
Proof.
  intros [Hl Hn]. unfold add_stat. case_if; [by exists r|].
  arr_run. eexists. split; [done|]. split; [|done]. split; cbn; [done|lia].
Qed.

Lemma aslice_head (a : arr Z) off n : 0 < n -> head (aslice a off n) = Some (aget a off).
Proof. intros. unfold aslice. by rewrite dslice_cons. Qed.

Lemma length_aslice (a : arr Z) off n : 0 <= n -> Z.of_nat (length (aslice a off n)) = n.
Proof. intros. unfold aslice. rewrite length_dslice. lia. Qed.

(** [report_digits] never faults on a window of digits and sends exactly the
    request of a reportable substring. *)
Lemma report_digits_spec rdtsc dg base len m r :
  reporter_ok r -> 1 <= len <= N_ -> 0 <= base -> base + len <= alen dg ->
  (forall k, base <= k < base + len -> 0 <= aget dg k <= 9) ->
  exists r', report_digits rdtsc dg base len m r = Some r' /\ reporter_ok r' /\
    out r' = out r ++ submission m (aslice dg base len).
Proof.
  intros Hr Hlen Hb0 Hb Hd. unfold report_digits, submission, reportable.
  rewrite aslice_head, !length_aslice by lia. cbn [from_option id]. arr_run.
  destruct (aget dg base =? 0) eqn:E0, ((m =? 1) && (len <? 14)) eqn:C1,
    ((m =? 2) && (len <? 27)) eqn:C2, ((m =? 3) && (len <? 54)) eqn:C3,
    ((m =? 4) && (len <? 68)) eqn:C4; cbn [negb andb];
    try (exists r; rewrite app_nil_r; by split_and!).
  loop_inv (fun i b => alen b = 1024 /\
    forall k, 0 <= k < i -> aget b k = aget dg (base + k) + 48) as (buf & -> & Hl & Hbuf).
  - lia.
  - split; [done|lia].
  - intros i b Hi [Hl Hbuf]. unfold N_ in *. arr_run. eexists. split; [done|].
    split; [done|]. intros k Hk. rewrite aget_set. case_decide as E; [|apply Hbuf; lia].
    subst. rewrite wrap_small; [done|]. specialize (Hd (base + k)). ulia.
  - cbn [mbind option_bind]. unfold report_string. pose proof (header_fits len Hlen) as Hf.
    unfold N_ in *. case_if; [exfalso; lia|].
    unfold send_request. destruct (add_stat_spec
      (u64 (u64 (rdtsc (tsc_reads r)) - last_recv_tsc r)) len m r Hr) as (r' & -> & Hr' & Ho).
    cbn [mbind option_bind]. eexists. split; [done|]. split; [done|].
    cbn [out]. rewrite Ho. do 2 f_equal. unfold request.
    rewrite length_aslice by lia. f_equal. unfold aslice, dslice.
    rewrite <- list_fmap_compose. apply list_fmap_ext. intros i x Hx.
    apply lookup_seqZ in Hx as [-> Hx]. cbn. apply Hbuf. lia.
Qed.

(** ** [query_all] against the association list *)

Definition hits (key q : Z) (l : list (Z * Z)) : list Z :=
  snd <$> filter (fun kv => kv.1 = key /\ q - kv.2 <= N_) l.

(** What a query at [q] submits for the start positions [vs]. *)
Definition submissions (d : Z -> Z) (m q : Z) (vs : list Z) : list (list Z) :=
  flat_map (fun v => submission m (dslice d (v + 1) (q - v))) vs.

Lemma query_loop_spec rdtsc h dg key q m : forall l fuel r,
  cells h l -> Z.of_nat (length l) < alen (keys h) ->
  alen (next h) = alen (keys h) -> alen (values h) = alen (keys h) ->
  (length l < fuel)%nat -> reporter_ok r ->
  Forall (fun kv => 0 <= kv.2 < q) l -> q < alen dg -> is_uint 31 (alen dg) ->
  (forall k, 0 <= k <= q -> 0 <= aget dg k <= 9) ->
  exists r', query_loop rdtsc fuel h dg key q m (chain_head l (bucket key)) r = Some r' /\
    reporter_ok r' /\ out r' = out r ++ submissions (aget dg) m q (hits key q l).
Proof.
  induction l as [|[k v] l IH]; intros fuel r Hc Hlen Hn Hv Hf Hr Hall Hq Hdg Hd;
    (destruct fuel as [|fuel]; [lia|]).
  - cbn. exists r. by rewrite app_nil_r.
  - cbn [length] in *. inversion Hall as [|? ? Hv0 Hall']; subst. cbn in Hv0.
    cbn [cells] in Hc. destruct Hc as (Hk & Hval & Hnx & Hcl). cbn [length] in *.
    assert (forall r0, reporter_ok r0 ->
      exists r', query_loop rdtsc fuel h dg key q m (chain_head l (bucket key)) r0 = Some r' /\
        reporter_ok r' /\ out r' = out r0 ++ submissions (aget dg) m q (hits key q l)) as IH'.
    { intros. apply IH; auto; lia. }
    cbn [chain_head]. destruct (bucket k =? bucket key) eqn:Eb; bprop; cycle 1.
    { assert (k <> key) by congruence. unfold hits.
      rewrite filter_cons_False by (cbn; intros [? _]; done).
      apply (IH (S fuel)); auto; lia. }
    rewrite Eb in Hnx. cbn [length] in *. cbn [query_loop].
    rewrite (proj2 (Z.eqb_neq (Z.of_nat (S (length l))) 0)) by lia.
    arr_run. rewrite Hk, Hval, Hnx.
    destruct (k =? key) eqn:Ek; bprop; cbn [negb]; cycle 1.
    { unfold hits. rewrite filter_cons_False by (cbn; intros [? _]; done).
      by apply IH'. }
    subst k.
    rewrite (wrap_small 32 (q - v)), (wrap_small 32 (v + 1)) by ulia.
    destruct (N_ <? q - v) eqn:EN; bprop.
    { unfold hits. rewrite filter_cons_False by (cbn; intros [_ ?]; lia).
      by apply IH'. }
    unfold hits. rewrite filter_cons_True by (cbn; split; [done|lia]).
    destruct (report_digits_spec rdtsc dg (v + 1) (q - v) m r) as (r1 & -> & Hr1 & Ho1);
      [done|lia|lia|lia|intros; apply Hd; lia|]. cbn [mbind option_bind].
    destruct (IH' r1 Hr1) as (r2 & -> & Hr2 & Ho2). exists r2. split_and!; [done|done|].
    rewrite Ho2, Ho1. cbn. by rewrite <- app_assoc.
Qed.

Lemma query_all_spec rdtsc h dg key q m l r :
  hash_rep h l -> (Z.of_nat (length l) < N_ + MAX_BATCH_SIZE + 5) -> reporter_ok r ->
  Forall (fun kv => 0 <= kv.2 < q) l -> q < alen dg -> is_uint 31 (alen dg) ->
  (forall k, 0 <= k <= q -> 0 <= aget dg k <= 9) ->
  exists r', query_all rdtsc h dg key q m r = Some r' /\ reporter_ok r' /\
    out r' = out r ++ submissions (aget dg) m q (hits key q l).
Proof.
  intros ((Hf & Hn & Hv & Hk) & Hc & Hh & Hcells) Hlen Hr Hall Hq Hdg Hd.
  unfold query_all. pose proof (bucket_range key). arr_run.
  rewrite Hh by done. apply query_loop_spec; auto; lia.
Qed.
