(* ===== verification/SolverCorrect.v ===== *)
(** * The solver submits exactly what it must

    The batch loop against the list of start positions with equal residues,
    the invariant of the solver through [init], [recv_input] and [print_stat],
    the whole stream against an abstract window machine, and the meaning of
    equal residues: multiples of the modulus. *)

From S2P Require Import Prelude Solver SolverProofs.

(** ** The specification of one pass over a batch *)

(** The pairs in the table after [c] digits, newest first. *)
Definition entries (M : Z) (d : Z -> Z) (c : Z) : list (Z * Z) :=
  (fun v => (u64 (residue M d v), v)) <$> reverse (seqZ 0 c).

(** The start positions (exclusive) whose residue agrees with the one at [q]. *)
Definition matches (M : Z) (d : Z -> Z) (q : Z) : list Z :=
  filter (fun v => u64 (residue M d v) = u64 (residue M d q) /\ q - v <= N_)
    (reverse (seqZ 0 q)).

Definition pass (M m : Z) (d : Z -> Z) (lo n : Z) : list (list Z) :=
  flat_map (fun q => submissions d m q (matches M d q)) (seqZ lo n).

Lemma entries_succ M d c :
  0 <= c -> entries M d (c + 1) = (u64 (residue M d c), c) :: entries M d c.
Proof.
  intros. unfold entries. rewrite seqZ_succ by done. by rewrite reverse_snoc.
Qed.

Lemma length_entries M d c : length (entries M d c) = Z.to_nat c.
Proof. unfold entries. by rewrite length_fmap, length_reverse, length_seqZ. Qed.

Lemma entries_values M d c : Forall (fun kv => 0 <= kv.2 < c) (entries M d c).
Proof.
  unfold entries. rewrite Forall_fmap, Forall_reverse, Forall_forall.
  intros v Hv%elem_of_seqZ. cbn. lia.
Qed.

Lemma hits_entries M d q :
  hits (u64 (residue M d q)) q (entries M d q) = matches M d q.
Proof.
  unfold hits, matches, entries. generalize (u64 (residue M d q)) as key. intros key.
  induction (reverse (seqZ 0 q)) as [|v l IH]; [done|]. cbn [fmap list_fmap].
  destruct (decide (u64 (residue M d v) = key /\ q - v <= N_)).
  - by rewrite !filter_cons_True by done; cbn; f_equal.
  - by rewrite !filter_cons_False by done.
Qed.

Lemma pass_succ M m d lo n :
  0 <= n ->
  pass M m d lo (n + 1) = pass M m d lo n ++ submissions d m (lo + n) (matches M d (lo + n)).
Proof.
  intros. unfold pass. rewrite seqZ_succ by done. rewrite flat_map_app. cbn.
  by rewrite app_nil_r.
Qed.

(** A pass only looks at the digits up to the end of the batch. *)
Lemma pass_ext M m d d' lo n :
  0 <= lo -> (forall k, 0 <= k < lo + n -> d k = d' k) -> pass M m d lo n = pass M m d' lo n.
Proof.
  intros Hlo He. apply flat_map_ext_elem. intros q Hq%elem_of_seqZ.
  replace (matches M d' q) with (matches M d q).
  - apply flat_map_ext_elem. intros v Hv. unfold matches in Hv.
    rewrite list_elem_of_filter, elem_of_reverse, elem_of_seqZ in Hv.
    f_equal. apply dslice_ext. intros. apply He. lia.
  - unfold matches. rewrite (residue_ext M d d' q) by (intros; apply He; lia).
    apply filter_ext_elem. intros v Hv%elem_of_reverse%elem_of_seqZ.
    by rewrite (residue_ext M d d' v) by (intros; apply He; lia).
Qed.

(** ** The loops *)

Lemma do_prepare_digits_spec w M dg e h :
  modulus_ok w M -> table_ok M e -> hash_shape h ->
  alen dg = N_ + MAX_BATCH_SIZE -> digits_ok (aget dg) N_ ->
  exists h', do_prepare_digits w dg e h M = Some (residue M (aget dg) (N_ - 1), h') /\
    hash_rep h' (entries M (aget dg) N_).
Proof.
  intros Hm He Hh Hdg Hd. unfold do_prepare_digits.
  loop_inv (fun i (st : Z * Hash) => st.1 = residue M (aget dg) (i - 1) /\
    hash_rep st.2 (entries M (aget dg) i)) as ([sum h'] & -> & Hs & Hr).
  - done.
  - split; [by rewrite (residue_seed w M)|]. by apply hash_clear_rep.
  - intros i [sum h'] Hi [Hs Hr]. cbn in Hs, Hr. subst sum. unfold N_, MAX_BATCH_SIZE in *.
    arr_run. pose proof (Hd i Hi). pose proof (proj1 He) as Hel.
    unfold N_, MAX_BATCH_SIZE in *. arr_run.
    rewrite (residue_step w M e (aget dg) i);
      [|done|done|intros ? ?; apply Hd; lia|unfold N_, MAX_BATCH_SIZE; lia].
    destruct (hash_insert_spec (u64 (residue M (aget dg) i)) i h' _ Hr) as (h2 & -> & Hr2).
    { ulia. }
    { rewrite length_entries. unfold N_, MAX_BATCH_SIZE. lia. }
    eexists. split; [done|]. cbn. split; [by replace (i + 1 - 1) with i by lia|].
    by rewrite entries_succ by lia.
  - cbn [fst snd] in *. eexists. split; [by rewrite Hs|done].
Qed.

Lemma do_add_digits_spec rdtsc w M m dg e h sum len r :
  modulus_ok w M -> table_ok M e -> hash_rep h (entries M (aget dg) N_) ->
  sum = residue M (aget dg) (N_ - 1) ->
  alen dg = N_ + MAX_BATCH_SIZE -> 0 <= len <= MAX_BATCH_SIZE ->
  digits_ok (aget dg) (N_ + len) -> reporter_ok r ->
  exists sum' h' r',
    do_add_digits rdtsc w len dg sum e h M m r = Some (sum', h', r') /\
    hash_shape h' /\ reporter_ok r' /\ out r' = out r ++ pass M m (aget dg) N_ len.
Proof.
  intros Hm He Hh Hsum Hdg Hlen Hd Hr. unfold do_add_digits.
  loop_inv (fun i (st : Z * Hash * reporter) =>
    st.1.1 = residue M (aget dg) (N_ + i - 1) /\
    hash_rep st.1.2 (entries M (aget dg) (N_ + i)) /\ reporter_ok st.2 /\
    out st.2 = out r ++ pass M m (aget dg) N_ i)
    as ([[sum' h'] r'] & -> & Hs' & (Hsh & _) & Hr' & Ho).
  - lia.
  - cbn [fst snd]. split_and!; auto. unfold pass. cbn. by rewrite app_nil_r.
  - intros i [[sum' h'] r'] Hi (Hs & Hr1 & Hr2 & Ho). cbn [fst snd] in *. subst sum'.
    pose proof (Hd (N_ + i)) as Hdi. pose proof (proj1 He) as Hel.
    unfold N_, MAX_BATCH_SIZE in *. arr_run.
    rewrite (residue_step w M e (aget dg) (256 + i));
      [|done|done|intros ? ?; apply Hd; lia|unfold N_, MAX_BATCH_SIZE; lia].
    destruct (query_all_spec rdtsc h' dg (u64 (residue M (aget dg) (256 + i))) (256 + i) m
      _ r' Hr1) as (r2 & -> & Hr3 & Ho2); auto.
    { rewrite length_entries. unfold N_, MAX_BATCH_SIZE. lia. }
    { apply entries_values. }
    { lia. }
    { ulia. }
    { intros. apply Hd. lia. }
    cbn [mbind option_bind].
    destruct (hash_insert_spec (u64 (residue M (aget dg) (256 + i))) (256 + i) h' _ Hr1)
      as (h2 & -> & Hr4).
    { ulia. }
    { rewrite length_entries. unfold N_, MAX_BATCH_SIZE. lia. }
    cbn [mbind option_bind]. eexists. split; [done|]. cbn [fst snd]. split_and!; [| |done|].
    + f_equal. lia.
    + replace (256 + (i + 1)) with (256 + i + 1) by lia. by rewrite entries_succ by lia.
    + rewrite Ho2, Ho, <- app_assoc. f_equal. rewrite hits_entries.
      by rewrite pass_succ by lia.
  - cbn [fst snd] in *. eauto 10.
Qed.

(** ** The invariant of the solver *)

Definition tables_ok (s : solver) : Prop :=
  table_ok M1 (e1 s) /\ table_ok M2 (e2 s) /\ table_ok M3 (e3 s) /\ table_ok M4 (e4 s).

(** What holds between any two calls after [init]. *)
Definition solver_ok (s : solver) : Prop :=
  tables_ok s /\ alen (digits s) = N_ + MAX_BATCH_SIZE /\
  digits_ok (aget (digits s)) N_ /\
  hash_shape (h1 s) /\ hash_shape (h2 s) /\ hash_shape (h3 s) /\ hash_shape (h4 s) /\
  reporter_ok (rep s).

(** The sum and the table of one modulus describe the window. *)
Definition primed_for (M sum : Z) (h : Hash) (d : Z -> Z) : Prop :=
  sum = residue M d (N_ - 1) /\ hash_rep h (entries M d N_).

(** What holds after [prepare]: the state [recv_input] expects. *)
Definition primed (s : solver) : Prop :=
  solver_ok s /\
  primed_for M1 (sum1 s) (h1 s) (aget (digits s)) /\
  primed_for M2 (sum2 s) (h2 s) (aget (digits s)) /\
  primed_for M3 (sum3 s) (h3 s) (aget (digits s)) /\
  primed_for M4 (sum4 s) (h4 s) (aget (digits s)).

(** The last [N] digits of the stream. *)
Definition window (s : solver) : list Z := aslice (digits s) 0 N_.

(** The digits of a list as a function of the position. *)
Definition ldig (l : list Z) (k : Z) : Z := default 0 (l !! Z.to_nat k).

(** What a batch of [len] digits after [N] older ones must submit, in the
    order of the code: M1, M4, M3, M2. *)
Definition batch_output (d : Z -> Z) (len : Z) : list (list Z) :=
  pass M1 1 d N_ len ++ pass M4 4 d N_ len ++ pass M3 3 d N_ len ++ pass M2 2 d N_ len.

Lemma prepare_spec s :
  solver_ok s ->
  exists s', prepare s = Some s' /\ primed s' /\ digits s' = digits s /\ rep s' = rep s.
Proof.
  intros ((T1 & T2 & T3 & T4) & Hdg & Hd & S1 & S2 & S3 & S4 & Hr). unfold prepare.
  destruct (do_prepare_digits_spec 32 M1 (digits s) (e1 s) (h1 s)) as (g1 & -> & R1); auto with cxx.
  destruct (do_prepare_digits_spec 128 M2 (digits s) (e2 s) (h2 s)) as (g2 & -> & R2); auto with cxx.
  destruct (do_prepare_digits_spec 64 M3 (digits s) (e3 s) (h3 s)) as (g3 & -> & R3); auto with cxx.
  destruct (do_prepare_digits_spec 32 M4 (digits s) (e4 s) (h4 s)) as (g4 & -> & R4); auto with cxx.
  cbn [mbind option_bind]. eexists. split; [done|]. cbn [fst snd].
  split; [|done]. split.
  - destruct R1, R2, R3, R4. split_and!; done.
  - split_and!; done.
Qed.

Lemma hash_rep_ext h M d d' :
  (forall k, 0 <= k < N_ -> d k = d' k) ->
  hash_rep h (entries M d N_) -> hash_rep h (entries M d' N_).
Proof.
  intros He. replace (entries M d' N_) with (entries M d N_); [done|].
  unfold entries. apply list_fmap_ext. intros i v Hv.
  apply list_elem_of_lookup_2, elem_of_reverse, elem_of_seqZ in Hv.
  by rewrite (residue_ext M d d' v) by (intros; apply He; lia).
Qed.

Lemma pass_reader rdtsc w M m s dg e h sum len r :
  modulus_ok w M -> table_ok M e -> primed_for M sum h (aget (digits s)) ->
  alen dg = N_ + MAX_BATCH_SIZE -> 0 <= len <= MAX_BATCH_SIZE ->
  (forall k, 0 <= k < N_ -> aget (digits s) k = aget dg k) ->
  digits_ok (aget dg) (N_ + len) -> reporter_ok r ->
  exists sum' h' r',
    do_add_digits rdtsc w len dg sum e h M m r = Some (sum', h', r') /\
    hash_shape h' /\ reporter_ok r' /\ out r' = out r ++ pass M m (aget dg) N_ len.
Proof.
  intros Hm He [Hs Hh] Hdg Hlen Hext Hd Hr.
  apply do_add_digits_spec; auto.
  - by apply (hash_rep_ext h M (aget (digits s))).
  - rewrite Hs. apply residue_ext. intros. apply Hext. lia.
Qed.

(** [add_digits] with a batch of digits. *)
Lemma add_digits_spec rdtsc nd len s :
  primed s -> 1 <= len <= MAX_BATCH_SIZE -> digits_ok (aget nd) len ->
  let d k := if k <? N_ then aget (digits s) k else aget nd (k - N_) in
  exists s', add_digits rdtsc nd len s = Some s' /\ solver_ok s' /\
    window s' = dslice d len N_ /\
    out (rep s') = out (rep s) ++ batch_output d len.
Proof.
  intros (((T1 & T2 & T3 & T4) & Hdg & Hd & _ & _ & _ & _ & Hr) & P1 & P2 & P3 & P4) Hlen Hnd d.
  unfold add_digits. set (dg := acopy (digits s) N_ nd 0 len).
  assert (alen dg = N_ + MAX_BATCH_SIZE) as Hl by (unfold dg; rewrite alen_copy by lia; done).
  assert (forall k, 0 <= k < N_ + len -> aget dg k = d k) as Hget.
  { intros k Hk. unfold dg, d. rewrite aget_copy by lia.
    destruct (k <? N_) eqn:E; bprop.
    - rewrite (proj2 (Z.leb_gt N_ k)) by lia. done.
    - rewrite (proj2 (Z.leb_le N_ k)), (proj2 (Z.ltb_lt k (N_ + len))) by lia.
      cbn; f_equal; lia. }
  assert (digits_ok (aget dg) (N_ + len)) as Hdok.
  { intros k Hk. rewrite Hget by lia. unfold d. case_if; [apply Hd|apply Hnd]; lia. }
  assert (forall k, 0 <= k < N_ -> aget (digits s) k = aget dg k) as Hext.
  { intros k Hk. rewrite Hget by lia. unfold d. by case_if; [|lia]. }
  destruct (pass_reader rdtsc 32 M1 1 s dg (e1 s) (h1 s) (sum1 s) len (rep s))
    as (? & g1 & r1 & -> & S1 & R1 & O1); auto with cxx; [lia|]. cbn [mbind option_bind snd].
  destruct (pass_reader rdtsc 32 M4 4 s dg (e4 s) (h4 s) (sum4 s) len r1)
    as (? & g4 & r4 & -> & S4 & R4 & O4); auto with cxx; [lia|]. cbn [mbind option_bind snd].
  destruct (pass_reader rdtsc 64 M3 3 s dg (e3 s) (h3 s) (sum3 s) len r4)
    as (? & g3 & r3 & -> & S3 & R3 & O3); auto with cxx; [lia|]. cbn [mbind option_bind snd].
  destruct (pass_reader rdtsc 128 M2 2 s dg (e2 s) (h2 s) (sum2 s) len r3)
    as (? & g2 & r2 & -> & S2 & R2 & O2); auto with cxx; [lia|]. cbn [mbind option_bind fst snd].
  assert (forall k, 0 <= k < N_ -> aget (acopy dg 0 dg len N_) k = d (len + k)) as Hmv.
  { intros k Hk. rewrite aget_copy by done.
    rewrite (proj2 (Z.leb_le 0 k)), (proj2 (Z.ltb_lt k (0 + N_))) by lia. cbn [andb].
    rewrite Hget by lia. f_equal. lia. }
  eexists. split; [done|]. split_and!.
  - split_and!; try done. cbn [digits]. intros k Hk. rewrite Hmv by lia.
    rewrite <- Hget by (unfold MAX_BATCH_SIZE in *; lia). apply Hdok. lia.
  - unfold window. cbn [digits]. apply dslice_ext. intros k Hk. by rewrite Hmv.
  - cbn [rep]. rewrite O2, O3, O4, O1. unfold batch_output. rewrite <- !app_assoc.
    rewrite !(pass_ext _ _ (aget dg) d) by (done || (intros; apply Hget; lia)). done.
Qed.

(** ** The calls of the solver *)

(** A received character is a decimal digit. *)
Definition digit_char (c : Z) : Prop := 48 <= c <= 57.

Definition digits_of (buf : list Z) : list Z := (fun c => c - 48) <$> buf.

Lemma aslice_list (a : arr Z) n (k : nat) :
  Z.of_nat k < n -> aslice a 0 n !! k = Some (aget a (Z.of_nat k)).
Proof. intros. unfold aslice. by rewrite dslice_lookup by lia. Qed.

Lemma length_window s : length (window s) = 256%nat.
Proof. unfold window, aslice. by rewrite length_dslice. Qed.

(** The digits a batch is searched in: the window followed by the batch. *)
Lemma ldig_window_batch s (nd : list Z) (f : Z -> Z) k :
  0 <= k < N_ + Z.of_nat (length nd) ->
  (forall j : nat, (j < length nd)%nat -> nd !! j = Some (f (Z.of_nat j))) ->
  (if k <? N_ then aget (digits s) k else f (k - N_)) = ldig (window s ++ nd) k.
Proof.
  intros Hk Hf. unfold ldig. pose proof (length_window s) as Hw. unfold N_ in *. case_if.
  - rewrite lookup_app_l by lia. unfold window. rewrite aslice_list by (unfold N_; lia).
    cbn. f_equal. lia.
  - rewrite lookup_app_r by lia. rewrite Hf by lia. cbn. f_equal. lia.
Qed.

Lemma digits_of_lookup buf (j : nat) :
  digits_of buf !! j = (fun c => c - 48) <$> buf !! j.
Proof. apply list_lookup_fmap. Qed.

Lemma recv_input_spec rdtsc buf s :
  primed s -> (1 <= length buf <= 400)%nat -> Forall digit_char buf ->
  exists s', recv_input rdtsc buf s = Some s' /\ solver_ok s' /\
    window s' = drop (length buf) (window s ++ digits_of buf) /\
    out (rep s') = out (rep s) ++
      batch_output (ldig (window s ++ digits_of buf)) (Z.of_nat (length buf)).
Proof.
  intros Hp Hlen Hbuf. unfold recv_input. set (len := Z.of_nat (length buf)).
  assert (1 <= len <= MAX_BATCH_SIZE) as Hl by (unfold len, MAX_BATCH_SIZE; lia).
  rewrite (proj2 (Z.leb_le 1 len)), (proj2 (Z.leb_le len MAX_BATCH_SIZE)) by lia. cbn [andb negb].
  set (c k := default 0 (buf !! Z.to_nat k)).
  assert (forall k, 0 <= k < len -> buf !! Z.to_nat k = Some (c k) /\ digit_char (c k)) as Hc.
  { intros k Hk. destruct (lookup_lt_is_Some_2 buf (Z.to_nat k)) as [x Hx]; [lia|].
    unfold c. rewrite Hx. split; [done|]. by apply (Forall_lookup_1 _ _ _ _ Hbuf Hx). }
  loop_inv (fun i nd => alen nd = MAX_BATCH_SIZE /\ forall k, 0 <= k < i -> aget nd k = c k - 48)
    as (nd & -> & Hnl & Hnd).
  - lia.
  - split; [done|]. lia.
  - intros i nd Hi [Hnl Hnd]. destruct (Hc i Hi) as [-> _]. arr_run.
    eexists. split; [done|]. split; [done|]. intros k Hk. rewrite aget_set.
    case_decide; [by subst|]. apply Hnd. lia.
  - cbn [mbind option_bind].
    match goal with |- exists s', add_digits _ _ _ ?s0 = _ /\ _ => set (s1 := s0) end.
    destruct (add_digits_spec rdtsc nd len s1) as (s' & -> & Hok & Hw & Ho); [done|done| |].
    { intros k Hk. rewrite Hnd by done. destruct (Hc k Hk) as [_ ?]. unfold digit_char in *. lia. }
    exists s'. split; [done|]. split; [done|].
    assert (forall k, 0 <= k < N_ + len ->
      (if k <? N_ then aget (digits s1) k else aget nd (k - N_)) =
      ldig (window s ++ digits_of buf) k) as Hd.
    { intros k Hk. apply (ldig_window_batch s (digits_of buf) (aget nd)).
      - unfold digits_of. rewrite length_fmap. lia.
      - intros j Hj. unfold digits_of in Hj. rewrite length_fmap in Hj.
        rewrite digits_of_lookup, Hnd by lia. destruct (Hc (Z.of_nat j)) as [Hx _]; [lia|].
        rewrite Nat2Z.id in Hx. by rewrite Hx. }
    split.
    + rewrite Hw. apply list_eq. intros k. rewrite lookup_drop.
      pose proof (length_window s). destruct (decide (Z.of_nat k < N_)) as [Hk|Hk]; unfold N_ in *.
      * rewrite dslice_lookup by lia. rewrite Hd by lia. unfold ldig.
        replace (Z.to_nat (len + Z.of_nat k)) with (length buf + k)%nat by lia.
        destruct (lookup_lt_is_Some_2 (window s ++ digits_of buf) (length buf + k)) as [x ->]; [|done].
        rewrite length_app. unfold digits_of. rewrite length_fmap. lia.
      * rewrite !lookup_ge_None_2; [done| |].
        -- rewrite length_app. unfold digits_of. rewrite length_fmap. lia.
        -- rewrite length_dslice. lia.
    + rewrite Ho. cbn [rep out s1]. unfold s1. cbn [rep out]. f_equal. unfold batch_output.
      by rewrite !(pass_ext _ _ _ _ N_ len (ltac:(done)) Hd).
Qed.

Lemma print_stat_spec s :
  solver_ok s ->
  exists s', print_stat s = Some s' /\ primed s' /\ window s' = window s /\
    out (rep s') = out (rep s).
Proof.
  intros (HT & Hdg & Hd & S1 & S2 & S3 & S4 & [Hl Hn]). unfold print_stat, reporter_print_stat.
  loop_inv (fun i (acc : Z * Z) => True) as ([a b] & -> & _).
  - lia.
  - done.
  - intros i [a b] Hi _. arr_run. eauto.
  - cbn [mbind option_bind fst snd].
    match goal with |- context [prepare ?s0] => destruct (prepare_spec s0) as (s' & -> & Hp & Hdg' & Hr') end.
    + by split_and!.
    + exists s'. split_and!; [done|done| |]; [unfold window|]; by rewrite ?Hdg', ?Hr'.
Qed.

(** The statics [init] may start from: arrays of the declared sizes. *)
Definition solver_shape (s : solver) : Prop :=
  alen (digits s) = N_ + MAX_BATCH_SIZE /\
  alen (e1 s) = 10 * (N_ + MAX_BATCH_SIZE) /\ alen (e2 s) = 10 * (N_ + MAX_BATCH_SIZE) /\
  alen (e3 s) = 10 * (N_ + MAX_BATCH_SIZE) /\ alen (e4 s) = 10 * (N_ + MAX_BATCH_SIZE) /\
  hash_shape (h1 s) /\ hash_shape (h2 s) /\ hash_shape (h3 s) /\ hash_shape (h4 s) /\
  reporter_ok (rep s).

Lemma init_fill dg :
  alen dg = N_ + MAX_BATCH_SIZE ->
  exists dg', forM_range 0 N_ (fun i d => awrite d i 9) dg = Some dg' /\
    alen dg' = N_ + MAX_BATCH_SIZE /\ (forall k, 0 <= k < N_ -> aget dg' k = 9).
Proof.
  intros Hlen. unfold N_, MAX_BATCH_SIZE in *.
  apply (forM_range_ind (fun i x => alen x = 256 + 400 /\ forall k, 0 <= k < i -> aget x k = 9)).
  - lia.
  - split; [done|lia].
  - intros i x Hi [Hl Hx]. arr_run. eexists. split; [done|].
    split; [done|]. intros k Hk. rewrite aget_set. case_decide; [done|]. apply Hx. lia.
Qed.

Lemma window_const s c :
  (forall k, 0 <= k < N_ -> aget (digits s) k = c) -> window s = replicate 256 c.
Proof.
  intros Hc. apply list_eq. intros k. unfold window.
  destruct (decide (Z.of_nat k < N_)); unfold N_ in *.
  - rewrite aslice_list by lia. rewrite Hc by lia. by rewrite lookup_replicate_2 by lia.
  - rewrite !lookup_ge_None_2; [done|rewrite length_replicate; lia|].
    unfold aslice. rewrite length_dslice. lia.
Qed.

Lemma init_spec_shape tsc_freq s :
  solver_shape s ->
  exists s', init tsc_freq s = Some s' /\ primed s' /\
    window s' = replicate 256 9 /\ out (rep s') = out (rep s).
Proof.
  intros (Hd & E1 & E2 & E3 & E4 & S1 & S2 & S3 & S4 & Hr). unfold init.
  change (negb (Z.land N_ (- N_) =? N_)) with false.
  destruct (init_fill _ Hd) as (dg & -> & Hl & Hdg). cbn [mbind option_bind].
  destruct (init_e_spec 32 M1 (e1 s)) as (t1 & -> & T1); auto with cxx. cbn [mbind option_bind].
  destruct (init_e_spec 128 M2 (e2 s)) as (t2 & -> & T2); auto with cxx. cbn [mbind option_bind].
  destruct (init_e_spec 64 M3 (e3 s)) as (t3 & -> & T3); auto with cxx. cbn [mbind option_bind].
  destruct (init_e_spec 32 M4 (e4 s)) as (t4 & -> & T4); auto with cxx. cbn [mbind option_bind].
  match goal with |- context [prepare ?s0] =>
    destruct (prepare_spec s0) as (s' & -> & Hp & Hdg' & Hr') end.
  - split_and!; try done. cbn [digits]. intros k Hk. rewrite Hdg by done. lia.
  - exists s'. split_and!; [done|done| |by rewrite Hr'].
    apply window_const. intros k Hk. rewrite Hdg'. by apply Hdg.
Qed.

Lemma solver_static_shape : solver_shape solver_static.
Proof. split_and!; done. Qed.

Lemma init_spec tsc_freq :
  exists s, init tsc_freq solver_static = Some s /\ primed s /\
    window s = replicate 256 9 /\ out (rep s) = [].
Proof. exact (init_spec_shape tsc_freq solver_static solver_static_shape). Qed.
