(* ===== verification/SolverClaims.v ===== *)
(** * What the solver guarantees

    The theorems about [kern/solver_faster.cpp] as a whole: a stream of batches
    against an abstract sliding window, and the meaning of the submissions of
    each modulus as divisibility of the submitted number. *)

From S2P Require Import Prelude Solver SolverProofs SolverCorrect.

(** ** Divisibility *)

Lemma rel_prime_pow10 M k : 0 <= k -> Z.gcd M 10 = 1 -> Z.gcd M (10 ^ k) = 1.
Proof.
  intros Hk Hg. pattern k. apply natlike_ind; [by rewrite Z.pow_0_r, Z.gcd_1_r| |done].
  intros x Hx IH. rewrite Z.pow_succ_r by done. by apply Z.coprime_mul_r.
Qed.

Lemma divide_shift M n k :
  0 <= k -> Z.gcd M 10 = 1 -> (M | n * 10 ^ k) <-> (M | n).
Proof.
  intros Hk Hg. split; [|apply Z.divide_mul_l]. rewrite Z.mul_comm. intros Hd.
  apply Z.gauss in Hd; [done|]. by apply rel_prime_pow10.
Qed.

(** The digits of the candidate that starts after [v] and ends at [q]. *)
Definition candidate (d : Z -> Z) (v q : Z) : list Z := dslice d (v + 1) (q - v).

(** A position of the batch and a start at most [N] digits before it. *)
Definition in_reach (len v q : Z) : Prop :=
  N_ <= q < N_ + len /\ v < q /\ q - v <= N_.

Lemma elem_of_matches M d q v :
  v ∈ matches M d q <->
  0 <= v < q /\ q - v <= N_ /\ u64 (residue M d v) = u64 (residue M d q).
Proof.
  unfold matches. rewrite list_elem_of_filter, elem_of_reverse, elem_of_seqZ. lia.
Qed.

Lemma elem_of_submission m x sub :
  x ∈ submission m sub <-> reportable m sub = true /\ x = request sub.
Proof.
  unfold submission. destruct (reportable m sub).
  - rewrite list_elem_of_singleton. tauto.
  - rewrite elem_of_nil. naive_solver.
Qed.

Lemma elem_of_pass M m d len x :
  x ∈ pass M m d N_ len <->
  exists v q, in_reach len v q /\ u64 (residue M d v) = u64 (residue M d q) /\
    reportable m (candidate d v q) = true /\ x = request (candidate d v q).
Proof.
  unfold pass, submissions, in_reach. setoid_rewrite list_elem_of_In.
  setoid_rewrite in_flat_map. setoid_rewrite in_flat_map.
  setoid_rewrite <- list_elem_of_In. setoid_rewrite elem_of_seqZ.
  setoid_rewrite elem_of_matches. setoid_rewrite elem_of_submission. unfold candidate, N_.
  split.
  - intros (q & Hq & v & Hv & Hx). exists v, q. split_and!; tauto || lia.
  - intros (v & q & Hv & He & Hr & Hx). exists q. split; [lia|]. exists v. split_and!; tauto || lia.
Qed.

(** Equal keys are equal residues when the residues fit in 64 bits. *)
Lemma key_residue M d v q :
  0 < M <= 2 ^ 64 -> u64 (residue M d v) = u64 (residue M d q) <->
  residue M d q = residue M d v.
Proof.
  intros HM. pose proof (residue_range M d v). pose proof (residue_range M d q).
  rewrite !wrap_small by ulia. split; congruence.
Qed.

(** The submissions of a batch for a modulus, given when equal keys of two
    positions mean that the number between them satisfies [P]. *)
Lemma pass_iff M m d len (P : Z -> Z -> Prop) :
  (forall v q, in_reach len v q ->
     u64 (residue M d v) = u64 (residue M d q) <-> P q (num (candidate d v q))) ->
  forall x, x ∈ pass M m d N_ len <->
    exists v q, in_reach len v q /\ P q (num (candidate d v q)) /\
      reportable m (candidate d v q) = true /\ x = request (candidate d v q).
Proof.
  intros HP x. rewrite elem_of_pass.
  split; intros (v & q & Hr & ? & ? & ?); exists v, q; split_and!; try done; by apply HP.
Qed.

Lemma keys_coprime M d len v q :
  0 < M <= 2 ^ 64 -> Z.gcd M 10 = 1 -> len <= MAX_BATCH_SIZE -> in_reach len v q ->
  u64 (residue M d v) = u64 (residue M d q) <-> (M | num (candidate d v q)).
Proof.
  unfold in_reach, N_. intros HM Hg Hlen Hr. rewrite key_residue by done.
  rewrite residue_eq_iff by (unfold N_, MAX_BATCH_SIZE in *; lia).
  apply divide_shift; [|done]. unfold N_, MAX_BATCH_SIZE in *. lia.
Qed.

(** What a key match of M1 says: M1 is even, and any weight but that of the
    last slot of the buffer is even too. *)
Definition M1_reported (q n : Z) : Prop :=
  if q =? N_ + MAX_BATCH_SIZE - 1 then (M1 | n) else (M1 / 2 | n).

Lemma half_divide M n k :
  1 <= k -> Z.gcd M 10 = 1 -> Z.gcd M 5 = 1 -> (2 * M | n * 10 ^ k) <-> (M | n).
Proof.
  intros Hk Hg H5. replace k with (Z.succ (k - 1)) by lia. rewrite Z.pow_succ_r by lia.
  replace (n * (10 * 10 ^ (k - 1))) with (2 * ((n * 5) * 10 ^ (k - 1))) by lia.
  rewrite Z.mul_divide_cancel_l by lia. rewrite divide_shift by (lia || done).
  split; [|apply Z.divide_mul_l]. rewrite Z.mul_comm. intros Hd. by apply Z.gauss in Hd.
Qed.

Lemma keys_M1 d len v q :
  len <= MAX_BATCH_SIZE -> in_reach len v q ->
  u64 (residue M1 d v) = u64 (residue M1 d q) <-> M1_reported q (num (candidate d v q)).
Proof.
  unfold in_reach, N_, MAX_BATCH_SIZE. intros Hlen Hr. rewrite key_residue by done.
  rewrite residue_eq_iff by (unfold M1, N_, MAX_BATCH_SIZE; lia).
  unfold M1_reported, candidate, N_, MAX_BATCH_SIZE. case_if.
  - subst q. change (10 ^ (256 + 400 - 1 - (256 + 400 - 1))) with 1. by rewrite Z.mul_1_r.
  - change M1 with (2 * (M1 / 2)) at 1. apply half_divide; [lia|done|done].
Qed.

(** M2 needs 87 bits and its keys keep 64 of them: multiples are found. *)
Lemma keys_M2 d len v q :
  len <= MAX_BATCH_SIZE -> in_reach len v q ->
  (M2 | num (candidate d v q)) -> u64 (residue M2 d v) = u64 (residue M2 d q).
Proof.
  unfold in_reach, N_, MAX_BATCH_SIZE. intros Hlen Hr Hd. f_equal. symmetry.
  apply residue_eq_iff; [done|unfold N_, MAX_BATCH_SIZE; lia..|]. by apply Z.divide_mul_l.
Qed.

(** ** Submissions of one batch *)

(** [x] is the request for a candidate of the batch that passes the filters
    of [m] and whose value satisfies [P] at its end position. *)
Definition submits (m len : Z) (d : Z -> Z) (P : Z -> Z -> Prop) (x : list Z) : Prop :=
  exists v q, in_reach len v q /\ P q (num (candidate d v q)) /\
    reportable m (candidate d v q) = true /\ x = request (candidate d v q).

(** C2: A batch of 1 to 400 digit characters received by a primed solver is
    processed without a fault, and the requests it sends are, in the order of
    the four passes: for M3 and M4 exactly the substrings of at most 256 digits
    that end in the batch, have no leading zero, are long enough and are
    multiples of the modulus; for M1 exactly those that are multiples of M1/2
    (of M1 itself at the last slot of the buffer); for M2 at least the
    multiples of M2. *)
Theorem recv_input_submissions rdtsc buf s :
  primed s -> (1 <= length buf <= 400)%nat -> Forall digit_char buf ->
  let d := ldig (window s ++ digits_of buf) in
  let len := Z.of_nat (length buf) in
  exists s' n1 n4 n3 n2,
    recv_input rdtsc buf s = Some s' /\
    out (rep s') = out (rep s) ++ n1 ++ n4 ++ n3 ++ n2 /\
    (forall x, x ∈ n1 <-> submits 1 len d M1_reported x) /\
    (forall x, x ∈ n4 <-> submits 4 len d (fun _ n => (M4 | n)) x) /\
    (forall x, x ∈ n3 <-> submits 3 len d (fun _ n => (M3 | n)) x) /\
    (forall x, submits 2 len d (fun _ n => (M2 | n)) x -> x ∈ n2).
Proof.
  intros Hp Hlen Hb d len.
  destruct (recv_input_spec rdtsc buf s Hp Hlen Hb) as (s' & -> & _ & _ & Ho).
  assert (len <= MAX_BATCH_SIZE) as Hl by (unfold len, MAX_BATCH_SIZE; lia).
  eexists s', _, _, _, _. split; [done|]. split; [exact Ho|]. split_and!.
  - apply pass_iff. intros. by apply (keys_M1 d len).
  - apply (pass_iff _ _ _ _ (fun _ n => (M4 | n))). intros. by apply (keys_coprime M4 d len).
  - apply (pass_iff _ _ _ _ (fun _ n => (M3 | n))). intros. by apply (keys_coprime M3 d len).
  - intros x (v & q & Hr & Hd & Hrep & ->). rewrite elem_of_pass.
    exists v, q. split_and!; try done. by apply (keys_M2 d len).
Qed.

Lemma primed_exists : exists s, primed s /\ window s = replicate 256 9.
Proof. destruct (init_spec 3000000000) as (s & _ & ? & ? & _). by exists s. Qed.

Lemma recv_input_submissions_witness :
  exists s, primed s /\
    exists s' n1 n4 n3 n2,
      recv_input (fun _ => 0) [48; 49] s = Some s' /\
      out (rep s') = out (rep s) ++ n1 ++ n4 ++ n3 ++ n2 /\
      (forall x, x ∈ n3 <->
         submits 3 2 (ldig (window s ++ [0; 1])) (fun _ n => (M3 | n)) x).
Proof.
  destruct primed_exists as (s & Hp & _). exists s. split; [done|].
  destruct (recv_input_submissions (fun _ => 0) [48; 49] s Hp)
    as (s' & n1 & n4 & n3 & n2 & H1 & H2 & _ & _ & H3 & _).
  - cbn. lia.
  - unfold digit_char. repeat constructor; lia.
  - by exists s', n1, n4, n3, n2.
Defined.

(** The assertion of [recv_input] fails on every batch that is empty or
    longer than 400 characters, whatever the state: such a segment halts the
    contestant. *)
Theorem recv_input_rejects rdtsc buf s :
  length buf = 0%nat \/ (400 < length buf)%nat -> recv_input rdtsc buf s = None.
Proof.
  intros Hlen. unfold recv_input. rewrite (proj2 (negb_true_iff _)); [done|].
  apply andb_false_iff. unfold MAX_BATCH_SIZE. rewrite !Z.leb_gt. lia.
Qed.

Lemma recv_input_rejects_witness :
  recv_input (fun _ => 0) (replicate 401 48) solver_static = None.
Proof. apply (recv_input_rejects (fun _ => 0)). right. rewrite length_replicate. lia. Defined.

(** ** Streams *)

(** The server's digits arrive in batches; after each one the contestant
    refreshes the tables with [print_stat]. *)
Definition run_batch (rdtsc : nat -> Z) (buf : list Z) (s : solver) : option solver :=
  s' ← recv_input rdtsc buf s; print_stat s'.

Fixpoint run_stream (rdtsc : nat -> Z) (bs : list (list Z)) (s : solver) : option solver :=
  match bs with
  | [] => Some s
  | b :: bs' => s' ← run_batch rdtsc b s; run_stream rdtsc bs' s'
  end.

(** The abstract machine keeps the last [N] digits and the requests sent. *)
Record stream_spec := mkStream { last_digits : list Z; sent : list (list Z) }.

Definition spec_batch (b : list Z) (a : stream_spec) : stream_spec :=
  let l := last_digits a ++ digits_of b in
  mkStream (drop (length b) l)
    (sent a ++ batch_output (ldig l) (Z.of_nat (length b))).

Definition spec_stream (bs : list (list Z)) (a : stream_spec) : stream_spec :=
  foldl (fun a b => spec_batch b a) a bs.

Definition batch_ok (b : list Z) : Prop := (1 <= length b <= 400)%nat /\ Forall digit_char b.

(** The simulation relation. *)
Definition simulates (s : solver) (a : stream_spec) : Prop :=
  primed s /\ window s = last_digits a /\ out (rep s) = sent a.

Lemma run_batch_simulates rdtsc b s a :
  batch_ok b -> simulates s a ->
  exists s', run_batch rdtsc b s = Some s' /\ simulates s' (spec_batch b a).
Proof.
  intros [Hl Hb] (Hp & Hw & Ho). unfold run_batch.
  destruct (recv_input_spec rdtsc b s Hp Hl Hb) as (s1 & -> & Hok & Hw1 & Ho1).
  cbn [mbind option_bind].
  destruct (print_stat_spec s1 Hok) as (s2 & -> & Hp2 & Hw2 & Ho2).
  exists s2. split; [done|]. split; [done|]. cbn.
  by rewrite Hw2, Ho2, Hw1, Ho1, Hw, Ho.
Qed.

Lemma run_stream_simulates rdtsc bs : forall s a,
  Forall batch_ok bs -> simulates s a ->
  exists s', run_stream rdtsc bs s = Some s' /\ simulates s' (spec_stream bs a).
Proof.
  induction bs as [|b bs IH]; intros s a Hbs Hsim; [by exists s|].
  apply Forall_cons in Hbs as [Hb Hbs]. cbn [run_stream].
  destruct (run_batch_simulates rdtsc b s a Hb Hsim) as (s1 & -> & H1). by apply IH.
Qed.

(** C1: From [init], any stream of non-empty batches of at most 400 digits
    runs without a fault, keeps the tables primed, and sends exactly the
    requests of the abstract machine, which only remembers the last 256
    digits and submits each matching substring once, where it ends. *)
Theorem solver_stream_refines rdtsc tsc_freq bs :
  Forall batch_ok bs ->
  exists s0 s, init tsc_freq solver_static = Some s0 /\ run_stream rdtsc bs s0 = Some s /\
    simulates s (spec_stream bs (mkStream (replicate 256 9) [])).
Proof.
  intros Hbs. destruct (init_spec tsc_freq) as (s0 & -> & Hp & Hw & Ho).
  destruct (run_stream_simulates rdtsc bs s0 (mkStream (replicate 256 9) [])) as (s & Hs & Hsim);
    [done|by split_and!|]. by exists s0, s.
Qed.

Lemma digit_zero_batch : batch_ok [48; 49].
Proof. split; [cbn; lia|]. unfold digit_char. repeat constructor; lia. Qed.

Lemma solver_stream_refines_witness :
  exists s0 s, init 3000000000 solver_static = Some s0 /\
    run_stream (fun _ => 0) [[48; 49]; [48; 49]] s0 = Some s /\
    simulates s (spec_stream [[48; 49]; [48; 49]] (mkStream (replicate 256 9) [])).
Proof.
  apply (solver_stream_refines (fun _ => 0) 3000000000 [[48; 49]; [48; 49]]).
  repeat first [apply Forall_cons_2|apply Forall_nil_2|apply digit_zero_batch].
Defined.
