(* ===== verification/Contestant.v ===== *)
(** * kern/contestant.cpp: the client's connection state machine

    The contestant keeps two TCP connections to the server, 10002 for the
    answers and 10001 for the digit stream, and reacts to the callbacks of the
    TCP stack. lwip is vendored code: it appears as the class [Lwip] (what
    [tcp_new] returns and whether [tcp_abort] runs the error callback) and as
    the map [pcbs] of the control blocks it holds, with the port whose
    callbacks were registered and whether the handshake is finished. The state
    of the file is the record [contestant]; one definition per function; the
    loop of [run] is [iteration]. [None] is a failed [assert] or undefined
    behaviour. The theorems are in [ContestantProofs]. *)

From S2P Require Import Prelude Solver.

Inductive cstate :=
  | S_NOT_CONNECTED
  | S_CONNECTING_10002
  | S_CONNECTING_10001
  | S_CONNECTED
  | S_ABORT_NEXT_TICK.

#[export] Instance cstate_eq_dec : EqDecision cstate.
Proof. solve_decision. Defined.

(** A control block of lwip: the port it was set up for and whether it is
    established. *)
Record pcb := mkPcb { port : Z; established : bool }.

(** Calls into lwip with an effect outside this file, in order. *)
Inductive call :=
  | call_connect (p port : Z)
  | call_recved (p n : Z)
  | call_abort (p : Z)
  | call_write (p : Z) (msg : list Z)
  | call_output (p : Z)
  | call_pbuf_free.

Record contestant := mkContestant {
  state : cstate;
  conn_10001 : option Z;
  conn_10002 : option Z;
  last_recv_len : Z;
  slv : solver;
  pcbs : gmap Z pcb;
  calls : list call
}.

(** What the stack decides: the block [tcp_new] returns ([None] is NULL), and
    whether aborting a block runs its error callback. *)
Class Lwip := {
  tcp_new : gmap Z pcb -> option Z;
  abort_notifies : Z -> bool
}.

(** [tcp_new] returns a block that is not in use, as long as at most one is. *)
Class LwipLaws (L : Lwip) := {
  tcp_new_fresh m : (size m <= 1)%nat -> exists p, tcp_new m = Some p /\ m !! p = None
}.

Definition set_state (st : cstate) (c : contestant) : contestant :=
  mkContestant st (conn_10001 c) (conn_10002 c) (last_recv_len c) (slv c) (pcbs c) (calls c).

Definition set_conn_10001 (p : option Z) (c : contestant) : contestant :=
  mkContestant (state c) p (conn_10002 c) (last_recv_len c) (slv c) (pcbs c) (calls c).

Definition set_conn_10002 (p : option Z) (c : contestant) : contestant :=
  mkContestant (state c) (conn_10001 c) p (last_recv_len c) (slv c) (pcbs c) (calls c).

Definition set_slv (s : solver) (c : contestant) : contestant :=
  mkContestant (state c) (conn_10001 c) (conn_10002 c) (last_recv_len c) s (pcbs c) (calls c).

Definition set_len (n : Z) (c : contestant) : contestant :=
  mkContestant (state c) (conn_10001 c) (conn_10002 c) n (slv c) (pcbs c) (calls c).

Definition set_pcbs (m : gmap Z pcb) (c : contestant) : contestant :=
  mkContestant (state c) (conn_10001 c) (conn_10002 c) (last_recv_len c) (slv c) m (calls c).

Definition log (x : call) (c : contestant) : contestant :=
  mkContestant (state c) (conn_10001 c) (conn_10002 c) (last_recv_len c) (slv c) (pcbs c)
    (calls c ++ [x]).

(** ** Callbacks *)

Definition tcp_err_fn_10001 (c : contestant) : contestant :=
  set_state S_ABORT_NEXT_TICK (set_conn_10001 None c).

Definition tcp_err_fn_10002 (c : contestant) : contestant :=
  set_state S_ABORT_NEXT_TICK (set_conn_10002 None c).

Definition MTU : Z := 1500.

Definition invalid_buffer : list Z := replicate 256 57.

Section contestant.
Context `{L : Lwip}.
Variable rdtsc : nat -> Z.
Variable do_not_send_answer : bool.

(** [send_fn] of the solver. *)
Definition contestant_send (msg : list Z) (c : contestant) : option contestant :=
  if negb (bool_decide (state c = S_CONNECTED)) then Some c
  else if do_not_send_answer then Some c
  else p ← conn_10002 c; Some (log (call_output p) (log (call_write p msg) c)).

Fixpoint send_all (msgs : list (list Z)) (c : contestant) : option contestant :=
  match msgs with
  | [] => Some c
  | m :: ms => c' ← contestant_send m c; send_all ms c'
  end.

(** [Solver::recv_input] with [contestant_send] as its [send_fn]: no call of
    the solver changes [state] or the connections, so the requests are handed
    over in the order they were made. *)
Definition solver_recv_input (buf : list Z) (c : contestant) : option contestant :=
  s ← recv_input rdtsc buf (slv c);
  send_all (drop (length (out (rep (slv c)))) (out (rep s))) (set_slv s c).

Definition solver_print_stat (c : contestant) : option contestant :=
  s ← print_stat (slv c); Some (set_slv s c).

Definition start_connecting_10001 (c : contestant) : option contestant :=
  let c := set_state S_CONNECTING_10001 c in
  p ← tcp_new (pcbs c);
  let c := set_conn_10001 (Some p) c in
  Some (log (call_connect p 10001) (set_pcbs (<[p := mkPcb 10001 false]> (pcbs c)) c)).

Definition start_connecting (c : contestant) : option contestant :=
  let c := set_state S_CONNECTING_10002 c in
  p ← tcp_new (pcbs c);
  let c := set_conn_10002 (Some p) c in
  Some (log (call_connect p 10002) (set_pcbs (<[p := mkPcb 10002 false]> (pcbs c)) c)).

Definition tcp_connected_fn (c : contestant) : option contestant :=
  if bool_decide (state c = S_CONNECTING_10002) then start_connecting_10001 c
  else if negb (bool_decide (state c = S_CONNECTING_10001)) then None
  else
    c ← solver_recv_input invalid_buffer (set_state S_CONNECTED c);
    solver_print_stat c.

Definition is_digit (x : Z) : bool := (48 <=? x) && (x <=? 57).

(** [p] is the payload of the chain, [None] when the peer closed. *)
Definition tcp_recv_fn_10001 (pc : Z) (p : option (list Z)) (c : contestant)
    : option contestant :=
  match p with
  | None => Some (set_state S_ABORT_NEXT_TICK c)
  | Some buf =>
      let len := Z.of_nat (length buf) in
      let c := log (call_recved pc len) c in
      if MTU <? len then None
      else
        let has_non_digits := negb (forallb is_digit buf) in
        c ← (if has_non_digits then Some c
             else c ← solver_recv_input buf c; solver_print_stat (set_len len c));
        Some (log call_pbuf_free c)
  end.

Definition tcp_recv_fn_10002 (pc : Z) (p : option (list Z)) (c : contestant) : contestant :=
  match p with
  | None => set_state S_ABORT_NEXT_TICK c
  | Some buf => log call_pbuf_free (log (call_recved pc (Z.of_nat (length buf))) c)
  end.

(** ** The tick *)

(** [tcp_abort]: lwip drops the block and may run its error callback. *)
Definition tcp_abort (p : Z) (err_fn : contestant -> contestant) (c : contestant) : contestant :=
  let c := log (call_abort p) (set_pcbs (delete p (pcbs c)) c) in
  if abort_notifies p then err_fn c else c.

Definition contestant_tick (has_ip : bool) (c : contestant) : option contestant :=
  match state c with
  | S_NOT_CONNECTED => if has_ip then start_connecting c else Some c
  | S_ABORT_NEXT_TICK =>
      let c := match conn_10001 c with
               | Some p => set_conn_10001 None (tcp_abort p tcp_err_fn_10001 c)
               | None => c
               end in
      let c := match conn_10002 c with
               | Some p => set_conn_10002 None (tcp_abort p tcp_err_fn_10002 c)
               | None => c
               end in
      Some (set_state S_NOT_CONNECTED c)
  | _ => Some c
  end.

(** ** The callbacks lwip may run *)

Inductive event :=
  | ev_connected (p : Z)
  | ev_err (p : Z)
  | ev_recv (p : Z) (data : option (list Z)).

(** A block reports its connection once, fails at most once (lwip has freed
    it by then), and receives when established. *)
Definition enabled (e : event) (c : contestant) : bool :=
  match e with
  | ev_connected p => if pcbs c !! p is Some b then negb (established b) else false
  | ev_err p => bool_decide (is_Some (pcbs c !! p))
  | ev_recv p _ => if pcbs c !! p is Some b then established b else false
  end.

(** Run the callback registered for the block's port. *)
Definition deliver (e : event) (c : contestant) : option contestant :=
  match e with
  | ev_connected p =>
      b ← pcbs c !! p;
      tcp_connected_fn (set_pcbs (<[p := mkPcb (port b) true]> (pcbs c)) c)
  | ev_err p =>
      b ← pcbs c !! p;
      let c := set_pcbs (delete p (pcbs c)) c in
      Some (if port b =? 10001 then tcp_err_fn_10001 c else tcp_err_fn_10002 c)
  | ev_recv p data =>
      b ← pcbs c !! p;
      if port b =? 10001 then tcp_recv_fn_10001 p data c
      else Some (tcp_recv_fn_10002 p data c)
  end.

Fixpoint deliver_all (es : list event) (c : contestant) : option contestant :=
  match es with
  | [] => Some c
  | e :: es' => c' ← deliver e c; deliver_all es' c'
  end.

(** ** The main loop *)

Definition htons (x : Z) : Z := le_val (rev (le_bytes 2 x)).

(** "udp and dport 23579", from the bytes alone. *)
Definition is_reboot_packet (pkt : list Z) : bool :=
  (14 + 20 + 8 <=? Z.of_nat (length pkt)) && (load_le 2 (14 + 20 + 2) pkt =? htons 23579).

(** One turn of the loop of [run]: the packet received (empty for none),
    whether [pbuf_alloc] succeeded, the callbacks run while lwip processes the
    packet and those run by its timers, and whether an address is assigned.
    [inl tt] is the reboot. *)
Definition iteration (pkt : list Z) (pbuf_ok : bool) (input timers : list event)
    (has_ip : bool) (c : contestant) : option (unit + contestant) :=
  if is_reboot_packet pkt then Some (inl tt)
  else
    c ← (if negb (length pkt =? 0)%nat && pbuf_ok then deliver_all input c else Some c);
    c ← deliver_all timers c;
    c ← contestant_tick has_ip c;
    Some (inr c).

(** [recv_1e7] of the benchmark: [n] times the invalid buffer and [prepare]. *)
Fixpoint recv_loop (n : nat) (c : contestant) : option contestant :=
  match n with
  | O => Some c
  | S n' =>
      c ← solver_recv_input invalid_buffer c;
      s ← prepare (slv c);
      recv_loop n' (set_slv s c)
  end.

Definition recv_1e7 (c : contestant) : option contestant := 
  recv_loop (Z.to_nat ((10000000 + 256 - 1) / 256)) c.

(** The statics are zero: not connected, both pointers NULL. *)
Definition contestant_static : contestant :=
  mkContestant S_NOT_CONNECTED None None 0 solver_static ∅ [].

(** [contestant_init] up to the timing loops and the turbo-boost registers. *)
Definition contestant_init (tsc_freq : Z) (c : contestant) : option contestant :=
  s ← init tsc_freq (slv c);
  s ← prepare s;
  c ← recv_1e7 (set_slv s c);
  recv_1e7 c.
End contestant.

Arguments event : clear implicits.
