(* ===== verification/ContestantProofs.v ===== *)
(** * Safety of the contestant's state machine

    The invariant that ties [state], the two connection pointers and the
    control blocks held by the TCP stack together, its preservation by every
    callback, and the consequences for the reachable states of the main loop. *)

From S2P Require Import Prelude Solver SolverProofs SolverCorrect SolverClaims Contestant.

(** ** The invariant *)

Definition slot (p : option Z) (prt : Z) (est : bool) : gmap Z pcb :=
  match p with
  | Some q => {[ q := mkPcb prt est ]}
  | None => ∅
  end.

(** The stack holds exactly the blocks the two pointers name. *)
Definition owned (c : contestant) (b1 b2 : bool) : Prop :=
  pcbs c = slot (conn_10001 c) 10001 b1 ∪ slot (conn_10002 c) 10002 b2 /\
  (forall p, conn_10001 c = Some p -> conn_10002 c <> Some p).

(** What each state says about the pointers and the handshakes. *)
Definition state_ok (c : contestant) (b1 b2 : bool) : Prop :=
  match state c with
  | S_NOT_CONNECTED => conn_10001 c = None /\ conn_10002 c = None
  | S_CONNECTING_10002 => conn_10001 c = None /\ is_Some (conn_10002 c) /\ b2 = false
  | S_CONNECTING_10001 =>
      is_Some (conn_10001 c) /\ is_Some (conn_10002 c) /\ b1 = false /\ b2 = true
  | S_CONNECTED =>
      is_Some (conn_10001 c) /\ is_Some (conn_10002 c) /\ b1 = true /\ b2 = true
  | S_ABORT_NEXT_TICK => True
  end.

Definition conns_ok (c : contestant) : Prop :=
  exists b1 b2, owned c b1 b2 /\ state_ok c b1 b2.

(** Between callbacks. *)
Definition inv (c : contestant) : Prop := primed (slv c) /\ conns_ok c.

(** At the top of the loop: the tick has cleared any abort. *)
Definition top_inv (c : contestant) : Prop := inv c /\ state c <> S_ABORT_NEXT_TICK.

(** A data segment the solver accepts: at most 400 bytes if all are digits,
    and never more than the static buffer. *)
Definition segment_ok (buf : list Z) : Prop :=
  (1 <= length buf <= 1500)%nat /\
  (forallb is_digit buf = true -> (length buf <= 400)%nat).

Definition event_ok (e : event) : Prop :=
  match e with
  | ev_recv _ (Some buf) => segment_ok buf
  | _ => True
  end.

Definition is_connected_ev (e : event) : bool :=
  match e with ev_connected _ => true | _ => false end.

(** ** Frames *)

Definition same_conns (c c' : contestant) : Prop :=
  state c' = state c /\ conn_10001 c' = conn_10001 c /\ conn_10002 c' = conn_10002 c /\
  pcbs c' = pcbs c.

Lemma same_conns_ok c c' : same_conns c c' -> conns_ok c -> conns_ok c'.
Proof.
  intros (E1 & E2 & E3 & E4) (b1 & b2 & Ho & Hs). exists b1, b2.
  unfold owned, state_ok in *. by rewrite E1, E2, E3, E4.
Qed.

Lemma same_conns_trans a b c : same_conns a b -> same_conns b c -> same_conns a c.
Proof. unfold same_conns. intuition congruence. Qed.

(** [contestant_send] never reaches a NULL connection. *)
Definition can_send (c : contestant) : Prop :=
  state c = S_CONNECTED -> is_Some (conn_10002 c).

Lemma conns_ok_can_send c : conns_ok c -> can_send c.
Proof.
  intros (b1 & b2 & _ & Hs) Hst. unfold state_ok in Hs. rewrite Hst in Hs. tauto.
Qed.

(** The calls that hand a list of requests to connection [p]. *)
Definition writes (p : Z) (msgs : list (list Z)) : list call :=
  flat_map (fun m => [call_write p m; call_output p]) msgs.

(** What sending [msgs] adds to the calls. *)
Definition sends (quiet : bool) (c : contestant) (msgs : list (list Z)) : list call :=
  if bool_decide (state c = S_CONNECTED) && negb quiet
  then writes (default 0 (conn_10002 c)) msgs else [].

Section proofs.
Context `{L : Lwip} `{LL : !LwipLaws L}.
Variable rdtsc : nat -> Z.
Variable quiet : bool.

Lemma send_all_spec msgs : forall c,
  can_send c ->
  exists c', send_all quiet msgs c = Some c' /\ same_conns c c' /\ slv c' = slv c /\
    last_recv_len c' = last_recv_len c /\ calls c' = calls c ++ sends quiet c msgs.
Proof.
  induction msgs as [|m ms IH]; intros c Hc; cbn [send_all].
  - exists c. split_and!; try done. unfold sends. case_if; cbn; by rewrite app_nil_r.
  - unfold contestant_send, sends in *. case_bool_decide as Hst; cbn [negb andb mbind option_bind].
    + destruct quiet; cbn [mbind option_bind negb].
      * destruct (IH c Hc) as (c' & -> & ? & ? & ? & E). exists c'. split_and!; try done.
        rewrite E. by rewrite bool_decide_eq_true_2.
      * destruct (Hc Hst) as [p Hp]. rewrite Hp. cbn [mbind option_bind].
        set (c1 := log (call_output p) (log (call_write p m) c)).
        destruct (IH c1) as (c' & -> & Hs & ? & ? & E); [done|]. exists c'. split_and!; try done.
        rewrite E. cbn [calls c1 log state conn_10002]. rewrite Hp.
        rewrite bool_decide_eq_true_2 by done. cbn. by rewrite <- !app_assoc.
    + destruct (IH c Hc) as (c' & -> & ? & ? & ? & E). exists c'. split_and!; try done.
      rewrite E. by rewrite bool_decide_eq_false_2.
Qed.

Definition digits_batch (buf : list Z) : Prop :=
  (1 <= length buf <= 400)%nat /\ Forall digit_char buf.

(** Receiving a batch: no fault, connections untouched, and the requests of
    the batch are written to 10002 when connected. *)
Lemma solver_recv_input_spec buf c :
  primed (slv c) -> can_send c -> digits_batch buf ->
  exists c', solver_recv_input rdtsc quiet buf c = Some c' /\ same_conns c c' /\
    solver_ok (slv c') /\
    window (slv c') = drop (length buf) (window (slv c) ++ digits_of buf) /\
    calls c' = calls c ++ sends quiet c
      (batch_output (ldig (window (slv c) ++ digits_of buf)) (Z.of_nat (length buf))).
Proof.
  intros Hp Hc [Hl Hb]. unfold solver_recv_input.
  destruct (recv_input_spec rdtsc buf (slv c) Hp Hl Hb) as (s & -> & Hok & Hw & Ho).
  cbn [mbind option_bind]. rewrite Ho, drop_app_length.
  match goal with |- context [send_all _ ?m ?c0] =>
    destruct (send_all_spec m c0 Hc) as (c' & -> & Hs & E & _ & Ec) end.
  exists c'. cbn [slv set_slv] in E. rewrite E. split_and!; try done.
Qed.

Lemma solver_print_stat_spec c :
  solver_ok (slv c) ->
  exists c', solver_print_stat c = Some c' /\ same_conns c c' /\ primed (slv c') /\
    window (slv c') = window (slv c) /\ calls c' = calls c.
Proof.
  intros Hok. unfold solver_print_stat.
  destruct (print_stat_spec _ Hok) as (s & -> & Hp & Hw & _).
  eexists. by split_and!.
Qed.

Lemma invalid_buffer_batch : digits_batch invalid_buffer.
Proof.
  split; [cbn; lia|]. unfold digit_char. apply Forall_replicate. lia.
Qed.

(** The digit case of [tcp_recv_fn_10001], and [tcp_connected_fn]. *)
Lemma recv_and_print buf (f : contestant -> contestant) c :
  primed (slv c) -> can_send c -> digits_batch buf ->
  (forall x, same_conns x (f x) /\ slv (f x) = slv x /\ calls (f x) = calls x) ->
  exists c', (c ← solver_recv_input rdtsc quiet buf c; solver_print_stat (f c)) = Some c' /\
    same_conns c c' /\ primed (slv c') /\
    window (slv c') = drop (length buf) (window (slv c) ++ digits_of buf) /\
    calls c' = calls c ++ sends quiet c
      (batch_output (ldig (window (slv c) ++ digits_of buf)) (Z.of_nat (length buf))).
Proof.
  intros Hp Hc Hb Hf.
  destruct (solver_recv_input_spec buf c Hp Hc Hb) as (c1 & -> & S1 & Hok & Hw & Ec).
  cbn [mbind option_bind]. destruct (Hf c1) as (Sf & Ef & Cf).
  destruct (solver_print_stat_spec (f c1)) as (c2 & -> & S2 & Hp2 & Hw2 & Ec2); [by rewrite Ef|].
  exists c2. split; [done|]. split; [eauto using same_conns_trans|]. split; [done|].
  rewrite Hw2, Ef, Ec2, Cf. done.
Qed.

(** ** Callbacks preserve the invariant *)

Lemma segment_digits buf :
  segment_ok buf -> forallb is_digit buf = true -> digits_batch buf.
Proof.
  intros [Hl Hd] Hf. specialize (Hd Hf). split; [lia|].
  apply Forall_forall. intros x Hx%list_elem_of_In. rewrite forallb_forall in Hf.
  specialize (Hf x Hx). unfold is_digit, digit_char in *. bprop. lia.
Qed.

Lemma tcp_recv_fn_10001_inv p data c :
  inv c -> event_ok (ev_recv p data) ->
  exists c', tcp_recv_fn_10001 rdtsc quiet p data c = Some c' /\ inv c'.
Proof.
  intros [Hp Hc] Hev. destruct data as [buf|]; cbn [tcp_recv_fn_10001].
  - cbn in Hev. rewrite (proj2 (Z.ltb_ge MTU _)) by (unfold MTU; destruct Hev; lia).
    destruct (forallb is_digit buf) eqn:Hf; cbn [negb].
    + destruct (recv_and_print buf (set_len (Z.of_nat (length buf)))
        (log (call_recved p (Z.of_nat (length buf))) c)) as (c' & -> & Hs & Hp' & _).
      * done.
      * by apply conns_ok_can_send.
      * by apply segment_digits.
      * done.
      * eexists. split; [done|]. split; [done|]. exact (same_conns_ok _ c' Hs Hc).
    + eexists. split; [done|]. by split; [|apply (same_conns_ok c)].
  - eexists. split; [done|]. split; [done|].
    destruct Hc as (b1 & b2 & Ho & _). by exists b1, b2.
Qed.

Lemma tcp_recv_fn_10002_inv p data c : inv c -> inv (tcp_recv_fn_10002 p data c).
Proof.
  intros [Hp Hc]. destruct data as [buf|]; cbn; (split; [done|]).
  - by apply (same_conns_ok c).
  - destruct Hc as (b1 & b2 & Ho & _). by exists b1, b2.
Qed.

(** The blocks in use, case by case. *)
Lemma owned_lookup c b1 b2 p b :
  owned c b1 b2 -> pcbs c !! p = Some b <->
  (conn_10001 c = Some p /\ b = mkPcb 10001 b1) \/ (conn_10002 c = Some p /\ b = mkPcb 10002 b2).
Proof.
  intros [Hm Hd]. rewrite Hm.
  assert (forall o prt e, slot o prt e !! p = Some b <-> o = Some p /\ b = mkPcb prt e) as Hslot.
  { intros [q|] prt e; cbn; [rewrite lookup_singleton_Some|rewrite lookup_empty]; naive_solver. }
  rewrite lookup_union_Some; [by rewrite !Hslot|].
  apply map_disjoint_spec. intros q x y. destruct (conn_10001 c) as [p1|] eqn:E1; cbn; [|done].
  destruct (conn_10002 c) as [p2|] eqn:E2; cbn; [|done].
  rewrite !lookup_singleton_Some. specialize (Hd p1 eq_refl). naive_solver.
Qed.

(** Dropping a block together with its pointer keeps the rest owned. *)
Lemma owned_delete_10001 c b1 b2 p :
  owned c b1 b2 -> conn_10001 c = Some p ->
  delete p (pcbs c) = slot (conn_10002 c) 10002 b2.
Proof.
  intros [Hm Hd] E. rewrite Hm, E. specialize (Hd p E). cbn. rewrite delete_union, delete_singleton_eq.
  rewrite (left_id_L ∅ (∪)). destruct (conn_10002 c) as [q|]; cbn; [|by rewrite delete_empty].
  apply delete_singleton_ne. congruence.
Qed.

Lemma owned_delete_10002 c b1 b2 p :
  owned c b1 b2 -> conn_10002 c = Some p ->
  delete p (pcbs c) = slot (conn_10001 c) 10001 b1.
Proof.
  intros [Hm Hd] E. rewrite Hm, E. cbn. rewrite delete_union, delete_singleton_eq.
  rewrite (right_id_L ∅ (∪)). destruct (conn_10001 c) as [q|] eqn:E1; cbn; [|by rewrite delete_empty].
  apply delete_singleton_ne. intros Heq. apply (Hd q eq_refl). congruence.
Qed.

Lemma deliver_err_inv p c :
  inv c -> enabled (ev_err p) c = true ->
  exists c', deliver rdtsc quiet (ev_err p) c = Some c' /\ inv c'.
Proof.
  intros [Hp (b1 & b2 & Ho & _)] He. cbn in He. apply bool_decide_eq_true in He as [b Hb].
  cbn [deliver]. rewrite Hb. cbn [mbind option_bind]. eexists. split; [done|].
  apply (owned_lookup _ _ _ _ _ Ho) in Hb as [[E ->]|[E ->]]; cbn [port Z.eqb Pos.eqb].
  - split; [done|]. exists b1, b2. split; [|done]. split; cbn; [|done].
    rewrite (owned_delete_10001 _ _ _ _ Ho E). by rewrite (left_id_L ∅ (∪)).
  - split; [done|]. exists b1, b2. split; [|done]. split; cbn; [|done].
    rewrite (owned_delete_10002 _ _ _ _ Ho E). by rewrite (right_id_L ∅ (∪)).
Qed.

Lemma deliver_recv_inv p data c :
  inv c -> event_ok (ev_recv p data) -> enabled (ev_recv p data) c = true ->
  exists c', deliver rdtsc quiet (ev_recv p data) c = Some c' /\ inv c'.
Proof.
  intros Hi Hev He. cbn in He |- *. destruct (pcbs c !! p) as [b|]; [|done].
  cbn [mbind option_bind]. case_if; [by apply tcp_recv_fn_10001_inv|].
  eexists. split; [done|]. by apply tcp_recv_fn_10002_inv.
Qed.

(** Events other than a completed handshake may come in any state. *)
Lemma deliver_inv e c :
  is_connected_ev e = false -> inv c -> event_ok e -> enabled e c = true ->
  exists c', deliver rdtsc quiet e c = Some c' /\ inv c'.
Proof.
  destruct e as [p|p|p data]; intros Hn Hi Hev He; [done|by apply deliver_err_inv|].
  by apply deliver_recv_inv.
Qed.

Lemma start_connecting_10001_inv c p :
  primed (slv c) -> state c = S_CONNECTING_10002 -> conn_10001 c = None ->
  conn_10002 c = Some p -> pcbs c = {[ p := mkPcb 10002 true ]} ->
  exists c', start_connecting_10001 c = Some c' /\ inv c' /\ state c' = S_CONNECTING_10001.
Proof.
  intros Hp Hst H1 H2 Hm. unfold start_connecting_10001. cbn [pcbs set_state].
  destruct (tcp_new_fresh (pcbs c)) as (q & -> & Hq); [by rewrite Hm, map_size_singleton|].
  cbn [mbind option_bind]. eexists. split; [done|]. split; [|done]. split; [done|].
  exists false, true. cbn. rewrite Hm in Hq |- *. apply lookup_singleton_None in Hq.
  split; [|by split_and!; rewrite ?H2]. split; cbn; rewrite H2; [|congruence].
  apply insert_union_singleton_l.
Qed.

Lemma start_connecting_inv c :
  inv c -> state c = S_NOT_CONNECTED ->
  exists c', start_connecting c = Some c' /\ top_inv c' /\ state c' = S_CONNECTING_10002.
Proof.
  intros [Hp (b1 & b2 & [Hm _] & Hs)] Hst. unfold state_ok in Hs. rewrite Hst in Hs.
  destruct Hs as [E1 E2]. rewrite E1, E2 in Hm. cbn in Hm. rewrite (left_id_L ∅ (∪)) in Hm.
  unfold start_connecting. cbn [pcbs set_state].
  destruct (tcp_new_fresh (pcbs c)) as (q & -> & Hq); [rewrite Hm, map_size_empty; lia|].
  cbn [mbind option_bind]. eexists. split; [done|]. split; [|done]. split; [|done].
  split; [done|]. exists b1, false. cbn. rewrite E1, Hm. split; [|by split_and!].
  split; cbn; rewrite E1; [|done]. cbn. by rewrite (left_id_L ∅ (∪)).
Qed.

(** A handshake completes in a state the assertion of [tcp_connected_fn]
    accepts, unless an abort is pending. *)
Lemma deliver_connected_inv p c :
  top_inv c -> enabled (ev_connected p) c = true ->
  exists c', deliver rdtsc quiet (ev_connected p) c = Some c' /\ inv c' /\
    state c' = match state c with S_CONNECTING_10002 => S_CONNECTING_10001 | _ => S_CONNECTED end.
Proof.
  intros [[Hp (b1 & b2 & Ho & Hs)] Hna] He. cbn in He.
  destruct (pcbs c !! p) as [b|] eqn:Hb; [|done]. apply negb_true_iff in He.
  cbn [deliver]. rewrite Hb. cbn [mbind option_bind].
  apply (owned_lookup _ _ _ _ _ Ho) in Hb as [[E ->]|[E ->]]; cbn in He; subst;
    unfold state_ok in Hs; unfold tcp_connected_fn; cbn [state set_pcbs].
  - destruct (state c) eqn:Hst; try (exfalso; destruct_and?; congruence); [].
    destruct Hs as (_ & [q Hq] & _ & ->).
    rewrite bool_decide_eq_false_2, bool_decide_eq_true_2 by done. cbn [negb].
    destruct Ho as [Hm Hd]. rewrite E, Hq in Hm. specialize (Hd p E). cbn in Hm.
    set (c1 := set_state S_CONNECTED _).
    assert (conns_ok c1) as Hc1.
    { exists true, true. unfold owned, state_ok. cbn. rewrite E, Hq. split; [split|]; cbn.
      - rewrite Hm. by rewrite insert_union_l, insert_singleton_eq.
      - congruence.
      - by split_and!. }
    destruct (recv_and_print invalid_buffer id c1) as (c' & Hc' & Hs' & Hp' & _);
      [exact Hp|by apply conns_ok_can_send|apply invalid_buffer_batch|done|].
    exists c'. split; [exact Hc'|]. split; [|exact (proj1 Hs')].
    split; [exact Hp'|]. exact (same_conns_ok c1 c' Hs' Hc1).
  - destruct (state c) eqn:Hst; try (exfalso; destruct_and?; congruence); [].
    rewrite bool_decide_eq_true_2 by done. destruct Hs as (E1 & _ & _).
    apply (start_connecting_10001_inv _ p); cbn; try done.
    destruct Ho as [Hm _]. rewrite Hm, E1, E. cbn. rewrite (left_id_L ∅ (∪)). apply insert_singleton_eq.
Qed.

(** ** The tick and the loop *)

(** The abort branch: both blocks are given back, whether or not the stack
    runs the error callbacks on the way. *)
Lemma tick_abort_spec has_ip c :
  inv c -> state c = S_ABORT_NEXT_TICK ->
  exists c', contestant_tick has_ip c = Some c' /\ inv c' /\ state c' = S_NOT_CONNECTED /\
    conn_10001 c' = None /\ conn_10002 c' = None /\ pcbs c' = ∅ /\ slv c' = slv c.
Proof.
  intros [Hp (b1 & b2 & Ho & _)] Hst. unfold contestant_tick. rewrite Hst.
  eexists. split; [done|].
  match goal with |- inv (set_state _ ?c0) /\ _ => set (c2 := c0) end.
  assert (slv c2 = slv c /\ conn_10001 c2 = None /\ conn_10002 c2 = None /\ pcbs c2 = ∅)
    as (Es & E1 & E2 & Em).
  { destruct c as [st [p1|] [p2|] len s m cs]; unfold c2, tcp_abort; cbn in *.
    - pose proof (owned_delete_10001 _ _ _ _ Ho eq_refl) as Hd. cbn in Hd.
      destruct (abort_notifies p1); cbn; rewrite Hd, delete_singleton_eq;
        by destruct (abort_notifies p2).
    - pose proof (owned_delete_10001 _ _ _ _ Ho eq_refl) as Hd. cbn in Hd.
      destruct (abort_notifies p1); cbn; by rewrite Hd.
    - pose proof (owned_delete_10002 _ _ _ _ Ho eq_refl) as Hd. cbn in Hd.
      destruct (abort_notifies p2); cbn; by rewrite Hd.
    - destruct Ho as [Hm _]. cbn in Hm. by rewrite (left_id_L ∅ (∪)) in Hm. }
  split; [|done]. split; [by cbn; rewrite Es|]. exists b1, b2. split; [|done].
  unfold owned. cbn. rewrite E1, E2, Em. cbn. by rewrite (left_id_L ∅ (∪)).
Qed.

Lemma contestant_tick_inv has_ip c :
  inv c -> exists c', contestant_tick has_ip c = Some c' /\ top_inv c'.
Proof.
  intros Hi. destruct (decide (state c = S_ABORT_NEXT_TICK)) as [Ha|Ha].
  - destruct (tick_abort_spec has_ip c Hi Ha) as (c' & Hc' & Hi' & Hs' & _).
    exists c'. split; [done|]. split; [done|]. by rewrite Hs'.
  - unfold contestant_tick. destruct (state c) eqn:Hst; try done;
      try (exists c; split; [done|]; split; [done|]; congruence).
    destruct has_ip.
    + destruct (start_connecting_inv c Hi Hst) as (c' & ? & ? & _). by exists c'.
    + exists c. split; [done|]. split; [done|]. congruence.
Qed.

(** Each event of the list is one the stack may deliver where it is delivered. *)
Fixpoint allowed (es : list event) (c : contestant) : Prop :=
  match es with
  | [] => True
  | e :: es' =>
      enabled e c = true /\ event_ok e /\
      (forall c', deliver rdtsc quiet e c = Some c' -> allowed es' c')
  end.

(** The stack handles one segment per packet: if it completes a handshake,
    that callback comes first; timers never complete one. *)
Definition turn_ok (input timers : list event) (c : contestant) : Prop :=
  forallb (fun e => negb (is_connected_ev e)) (drop 1 input ++ timers) = true /\
  allowed input c /\
  (forall c', deliver_all rdtsc quiet input c = Some c' -> allowed timers c') /\
  allowed timers c.

Lemma deliver_all_inv es : forall c,
  forallb (fun e => negb (is_connected_ev e)) es = true ->
  inv c -> allowed es c -> exists c', deliver_all rdtsc quiet es c = Some c' /\ inv c'.
Proof.
  induction es as [|e es IH]; intros c Hf Hi Ha; cbn [deliver_all]; [by exists c|].
  cbn in Hf. bprop. destruct Ha as (He & Hev & Hnext).
  destruct (deliver_inv e c) as (c1 & Hd & Hi1); try done.
  rewrite Hd. cbn [mbind option_bind]. apply IH; auto.
Qed.

Lemma deliver_input_inv es c :
  forallb (fun e => negb (is_connected_ev e)) (drop 1 es) = true ->
  top_inv c -> allowed es c -> exists c', deliver_all rdtsc quiet es c = Some c' /\ inv c'.
Proof.
  intros Hf Ht Ha. destruct es as [|e es]; [exists c; by destruct Ht|].
  cbn [deliver_all]. destruct Ha as (He & Hev & Hnext).
  assert (exists c1, deliver rdtsc quiet e c = Some c1 /\ inv c1) as (c1 & Hd & Hi1).
  { destruct (is_connected_ev e) eqn:Hc.
    - destruct e as [p| |]; try done.
      destruct (deliver_connected_inv p c Ht He) as (c1 & ? & ? & _). by exists c1.
    - destruct Ht. by apply deliver_inv. }
  rewrite Hd. cbn [mbind option_bind]. apply deliver_all_inv; auto.
Qed.

Lemma iteration_inv pkt pbuf_ok input timers has_ip c :
  top_inv c -> turn_ok input timers c ->
  iteration rdtsc quiet pkt pbuf_ok input timers has_ip c = Some (inl tt) \/
  exists c', iteration rdtsc quiet pkt pbuf_ok input timers has_ip c = Some (inr c') /\ top_inv c'.
Proof.
  intros Ht (Hf & Hin & Htm & Htm0). rewrite forallb_app in Hf. bprop. unfold iteration.
  destruct (is_reboot_packet pkt); [by left|right].
  assert (exists c1,
    (if negb (length pkt =? 0)%nat && pbuf_ok then deliver_all rdtsc quiet input c else Some c)
      = Some c1 /\ inv c1 /\ allowed timers c1) as (c1 & -> & Hi1 & Ha1).
  { destruct (negb (length pkt =? 0)%nat && pbuf_ok).
    - destruct (deliver_input_inv input c) as (c1 & Hd & Hi1); try done. exists c1. auto.
    - exists c. by destruct Ht. }
  cbn [mbind option_bind].
  destruct (deliver_all_inv timers c1) as (c2 & -> & Hi2); try done. cbn [mbind option_bind].
  destruct (contestant_tick_inv has_ip c2 Hi2) as (c3 & -> & Ht3). by exists c3.
Qed.

(** ** Start-up *)

Lemma recv_loop_spec n : forall c,
  primed (slv c) -> can_send c ->
  exists c', recv_loop rdtsc quiet n c = Some c' /\ same_conns c c' /\ primed (slv c').
Proof.
  induction n as [|n IH]; intros c Hp Hc; cbn [recv_loop]; [by exists c|].
  destruct (solver_recv_input_spec invalid_buffer c Hp Hc invalid_buffer_batch)
    as (c1 & -> & S1 & Hok & _). cbn [mbind option_bind].
  destruct (prepare_spec (slv c1) Hok) as (s & -> & Hp1 & _). cbn [mbind option_bind].
  destruct (IH (set_slv s c1)) as (c' & -> & S2 & Hp2); [done| |].
  - unfold can_send in *. destruct S1 as (E1 & _ & E3 & _). cbn. by rewrite E1, E3.
  - exists c'. split; [done|]. split; [|done]. eapply same_conns_trans; [exact S1|exact S2].
Qed.

Lemma recv_1e7_spec c :
  primed (slv c) -> can_send c ->
  exists c', recv_1e7 rdtsc quiet c = Some c' /\ same_conns c c' /\ primed (slv c').
Proof. apply recv_loop_spec. Qed.

Lemma contestant_init_spec tsc_freq c :
  solver_shape (slv c) -> state c = S_NOT_CONNECTED ->
  exists c', contestant_init rdtsc quiet tsc_freq c = Some c' /\ same_conns c c' /\ primed (slv c').
Proof.
  intros Hsh Hst.
  destruct (init_spec_shape tsc_freq (slv c) Hsh) as (s & Hi & [Hok _] & _).
  destruct (prepare_spec s Hok) as (s1 & Hpr & Hp & _).
  destruct (recv_1e7_spec (set_slv s1 c)) as (c1 & H1 & S1 & Hp1); [done| |].
  { intros E. cbn in E. congruence. }
  destruct (recv_1e7_spec c1) as (c2 & H2 & S2 & Hp2); [done| |].
  { intros E. destruct S1 as (E1 & _). cbn in E1. congruence. }
  exists c2. split; [|split; [|done]].
  - unfold contestant_init. apply bind_Some. exists s. split; [exact Hi|].
    apply bind_Some. exists s1. split; [exact Hpr|].
    apply bind_Some. exists c1. split; [exact H1|exact H2].
  - eapply same_conns_trans; [exact S1|exact S2].
Qed.

Lemma contestant_init_inv tsc_freq :
  exists c, contestant_init rdtsc quiet tsc_freq contestant_static = Some c /\ top_inv c /\
    state c = S_NOT_CONNECTED.
Proof.
  destruct (contestant_init_spec tsc_freq contestant_static) as (c & Hc & (E1 & E2 & E3 & E4) & Hp).
  - exact solver_static_shape.
  - done.
  - exists c. split; [exact Hc|]. clear Hc. cbn in E1, E2, E3, E4. split; [|done]. split; [|congruence].
    split; [done|]. exists false, false. unfold owned, state_ok. rewrite E1, E2, E3, E4.
    split; [split; [|done]|done]. cbn. by rewrite (left_id_L ∅ (∪)).
Qed.

(** The states at the top of the loop of [run]. *)
Inductive reachable (tsc_freq : Z) : contestant -> Prop :=
  | reach_init c :
      contestant_init rdtsc quiet tsc_freq contestant_static = Some c -> reachable tsc_freq c
  | reach_turn c c' pkt pbuf_ok input timers has_ip :
      reachable tsc_freq c -> turn_ok input timers c ->
      iteration rdtsc quiet pkt pbuf_ok input timers has_ip c = Some (inr c') ->
      reachable tsc_freq c'.

Lemma reachable_top_inv tsc_freq c : reachable tsc_freq c -> top_inv c.
Proof.
  induction 1 as [c Hc|c c' pkt pb input timers ip Hr IH Ht Hit].
  - destruct (contestant_init_inv tsc_freq) as (c0 & Hc0 & ? & _). congruence.
  - destruct (iteration_inv pkt pb input timers ip c IH Ht) as [E|(c1 & E & H1)]; congruence.
Qed.
End proofs.
