(* ===== verification/ContestantClaims.v ===== *)
(** * What the contestant guarantees

    The theorems about the main loop of [kern/contestant.cpp], against the
    interface [Lwip] and its law, and an instance of the interface. *)

From S2P Require Import Prelude Solver SolverProofs SolverCorrect SolverClaims Contestant ContestantProofs.

(** A stack that hands out the first unused block and notifies on abort. *)
#[export] Instance lwip_fresh : Lwip := {|
  tcp_new m := if decide (m !! 1 = None) then Some 1
               else if decide (m !! 2 = None) then Some 2 else None;
  abort_notifies _ := true
|}.

#[export] Instance lwip_fresh_laws : LwipLaws lwip_fresh.
Proof.
  split. intros m Hm. cbn. case_decide as E1; [by exists 1|]. case_decide as E2; [by exists 2|].
  exfalso. destruct (m !! 1) as [x|] eqn:Hx; [|done]. apply E2. destruct (m !! 2) as [y|] eqn:Hy; [|done]. exfalso.
  set (m2 := {[1 := x; 2 := y]} : gmap Z pcb).
  assert (size m2 <= size m)%nat as Hs.
  { apply map_subseteq_size. apply map_subseteq_spec. intros k z. unfold m2.
    rewrite lookup_insert_Some, lookup_singleton_Some. intros [[<- <-]|(_ & <- & <-)]; done. }
  unfold m2 in Hs. rewrite map_size_insert_None in Hs by done. rewrite map_size_singleton in Hs. lia.
Qed.

Section claims.
Context `{L : Lwip} `{LL : !LwipLaws L}.
Variable rdtsc : nat -> Z.
Variable quiet : bool.


(** C5: In every reachable state the control blocks held by the stack are
    exactly the two the pointers name: none before connecting, one while
    connecting to 10002, two afterwards, with the handshake status the state
    says. No connection is leaked by an abort or a failed handshake. *)
Theorem contestant_no_leak tsc_freq c :
  reachable rdtsc quiet tsc_freq c ->
  match state c with
  | S_NOT_CONNECTED => conn_10001 c = None /\ conn_10002 c = None /\ pcbs c = ∅
  | S_CONNECTING_10002 => exists q, conn_10001 c = None /\ conn_10002 c = Some q /\
      pcbs c = {[ q := mkPcb 10002 false ]}
  | S_CONNECTING_10001 => exists p q, conn_10001 c = Some p /\ conn_10002 c = Some q /\
      p <> q /\ pcbs c = {[ p := mkPcb 10001 false; q := mkPcb 10002 true ]}
  | S_CONNECTED => exists p q, conn_10001 c = Some p /\ conn_10002 c = Some q /\
      p <> q /\ pcbs c = {[ p := mkPcb 10001 true; q := mkPcb 10002 true ]}
  | S_ABORT_NEXT_TICK => False
  end.
Proof.
  intros Hr. destruct (reachable_top_inv rdtsc quiet tsc_freq c Hr)
    as [[_ (b1 & b2 & [Hm Hd] & Hs)] Hna].
  unfold state_ok in Hs. destruct (state c); [| | | |done].
  - destruct Hs as [E1 E2]. rewrite Hm, E1, E2. cbn. by rewrite (left_id_L ∅ (∪)).
  - destruct Hs as (E1 & [q Eq] & ->). exists q. rewrite Hm, E1, Eq. cbn.
    by rewrite (left_id_L ∅ (∪)).
  - destruct Hs as ([p Ep] & [q Eq] & -> & ->). exists p, q. rewrite Hm, Ep, Eq. cbn.
    split_and!; [done|done| |]; [|by rewrite insert_union_singleton_l].
    intros ->. by apply (Hd q).
  - destruct Hs as ([p Ep] & [q Eq] & -> & ->). exists p, q. rewrite Hm, Ep, Eq. cbn.
    split_and!; [done|done| |]; [|by rewrite insert_union_singleton_l].
    intros ->. by apply (Hd q).
Qed.


(** C8: An abort is always recovered from: whatever callbacks led to
    [S_ABORT_NEXT_TICK], the tick releases every control block, clears both
    pointers and returns to [S_NOT_CONNECTED], and the next tick with an
    address starts connecting to 10002. *)
Theorem abort_recovers has_ip c :
  inv c -> state c = S_ABORT_NEXT_TICK ->
  exists c' c'', contestant_tick has_ip c = Some c' /\
    state c' = S_NOT_CONNECTED /\ conn_10001 c' = None /\ conn_10002 c' = None /\ pcbs c' = ∅ /\
    contestant_tick true c' = Some c'' /\ state c'' = S_CONNECTING_10002 /\ top_inv c''.
Proof.
  intros Hi Hst.
  destruct (tick_abort_spec has_ip c Hi Hst) as (c' & E & Hi' & Hs & E1 & E2 & Em & _).
  destruct (start_connecting_inv c' Hi' Hs) as (c'' & E' & Ht & Hs').
  exists c', c''. split_and!; try done. unfold contestant_tick. by rewrite Hs.
Qed.

(** A turn whose packet completes the pending handshake. *)
Lemma handshake_turn tsc_freq c p :
  reachable rdtsc quiet tsc_freq c -> enabled (ev_connected p) c = true ->
  exists c', iteration rdtsc quiet [0] true [ev_connected p] [] true c = Some (inr c') /\
    reachable rdtsc quiet tsc_freq c' /\
    state c' = match state c with S_CONNECTING_10002 => S_CONNECTING_10001 | _ => S_CONNECTED end.
Proof.
  intros Hr He. pose proof (reachable_top_inv rdtsc quiet tsc_freq c Hr) as Ht.
  destruct (deliver_connected_inv rdtsc quiet p c Ht He) as (c1 & Hd & Hi1 & Hs1).
  assert (iteration rdtsc quiet [0] true [ev_connected p] [] true c = Some (inr c1)) as Hit.
  { unfold iteration. change (is_reboot_packet [0]) with false.
    cbn [length Nat.eqb negb andb deliver_all]. rewrite Hd. cbn [mbind option_bind].
    unfold contestant_tick. rewrite Hs1. by destruct (state c). }
  exists c1. split; [exact Hit|]. split; [|exact Hs1].
  apply (reach_turn rdtsc quiet tsc_freq c c1 [0] true [ev_connected p] [] true Hr); [|exact Hit].
  split; [done|]. split; [by split_and!|]. done.
Qed.

Lemma connecting_10002_enabled tsc_freq c :
  reachable rdtsc quiet tsc_freq c -> state c = S_CONNECTING_10002 ->
  exists q, enabled (ev_connected q) c = true.
Proof.
  intros Hr Hst. destruct (reachable_top_inv rdtsc quiet tsc_freq c Hr)
    as [[_ (b1 & b2 & Ho & Hs)] _].
  unfold state_ok in Hs. rewrite Hst in Hs. destruct Hs as (_ & [q Eq] & ->). exists q. cbn.
  by rewrite (proj2 (owned_lookup _ _ _ q _ Ho) (or_intror (conj Eq eq_refl))).
Qed.

Lemma connecting_10001_enabled tsc_freq c :
  reachable rdtsc quiet tsc_freq c -> state c = S_CONNECTING_10001 ->
  exists q, enabled (ev_connected q) c = true.
Proof.
  intros Hr Hst. destruct (reachable_top_inv rdtsc quiet tsc_freq c Hr)
    as [[_ (b1 & b2 & Ho & Hs)] _].
  unfold state_ok in Hs. rewrite Hst in Hs. destruct Hs as ([q Eq] & _ & -> & _). exists q. cbn.
  by rewrite (proj2 (owned_lookup _ _ _ q _ Ho) (or_introl (conj Eq eq_refl))).
Qed.

Lemma connect_turns tsc_freq c :
  reachable rdtsc quiet tsc_freq c -> state c = S_NOT_CONNECTED ->
  exists c1 c2 c3 q p,
    iteration rdtsc quiet [] true [] [] true c = Some (inr c1) /\
    state c1 = S_CONNECTING_10002 /\
    iteration rdtsc quiet [0] true [ev_connected q] [] true c1 = Some (inr c2) /\
    state c2 = S_CONNECTING_10001 /\
    iteration rdtsc quiet [0] true [ev_connected p] [] true c2 = Some (inr c3) /\
    state c3 = S_CONNECTED /\ reachable rdtsc quiet tsc_freq c3.
Proof.
  intros Hr Hst. pose proof (reachable_top_inv rdtsc quiet tsc_freq c Hr) as [Hi _].
  destruct (start_connecting_inv c Hi Hst) as (c1 & Hc1 & _ & Hs1).
  assert (iteration rdtsc quiet [] true [] [] true c = Some (inr c1)) as Hit.
  { unfold iteration. cbn [deliver_all is_reboot_packet length Nat.eqb negb andb].
    change (is_reboot_packet []) with false. cbn [mbind option_bind].
    unfold contestant_tick. by rewrite Hst, Hc1. }
  assert (reachable rdtsc quiet tsc_freq c1) as Hr1.
  { apply (reach_turn rdtsc quiet tsc_freq c c1 [] true [] [] true Hr); [by split_and!|exact Hit]. }
  destruct (connecting_10002_enabled tsc_freq c1 Hr1 Hs1) as (q & Hq).
  destruct (handshake_turn tsc_freq c1 q Hr1 Hq) as (c2 & Hit2 & Hr2 & Hs2). rewrite Hs1 in Hs2.
  destruct (connecting_10001_enabled tsc_freq c2 Hr2 Hs2) as (p & Hp).
  destruct (handshake_turn tsc_freq c2 p Hr2 Hp) as (c3 & Hit3 & Hr3 & Hs3). rewrite Hs2 in Hs3.
  by exists c1, c2, c3, q, p.
Qed.

(** C9: Progress: from any reachable unconnected state with an address, one
    idle turn and the two handshakes of the stack lead to [S_CONNECTED]. *)
Theorem contestant_connects tsc_freq c :
  reachable rdtsc quiet tsc_freq c -> state c = S_NOT_CONNECTED ->
  exists c1 c2 c3 q p,
    iteration rdtsc quiet [] true [] [] true c = Some (inr c1) /\
    state c1 = S_CONNECTING_10002 /\
    iteration rdtsc quiet [0] true [ev_connected q] [] true c1 = Some (inr c2) /\
    state c2 = S_CONNECTING_10001 /\
    iteration rdtsc quiet [0] true [ev_connected p] [] true c2 = Some (inr c3) /\
    state c3 = S_CONNECTED /\ reachable rdtsc quiet tsc_freq c3.
Proof. apply connect_turns. Qed.
End claims.

(** ** Witnesses *)

Lemma reachable_first :
  exists c, reachable (fun _ => 0) false 3000000000 c /\ state c = S_NOT_CONNECTED.
Proof.
  destruct (contestant_init_inv (fun _ => 0) false 3000000000) as (c & Hc & _ & Hs).
  exists c. split; [by apply reach_init|exact Hs].
Qed.

Lemma quiet_turn c : turn_ok (fun _ => 0) false [] [] c.
Proof. by split_and!. Qed.


Lemma reachable_connected :
  exists c q, reachable (fun _ => 0) false 3000000000 c /\ state c = S_CONNECTED /\
    conn_10002 c = Some q.
Proof.
  destruct reachable_first as (c & Hr & Hs).
  destruct (connect_turns (fun _ => 0) false 3000000000 c Hr Hs)
    as (c1 & c2 & c3 & q & p & _ & _ & _ & _ & _ & Hs3 & Hr3).
  destruct (reachable_top_inv _ _ _ c3 Hr3) as [[_ (b1 & b2 & Ho & Hk)] _].
  unfold state_ok in Hk. rewrite Hs3 in Hk. destruct Hk as (_ & [r Er] & _).
  exists c3, r. split; [exact Hr3|]. by split.
Qed.

Lemma contestant_no_leak_witness :
  exists c, reachable (fun _ => 0) false 3000000000 c /\
    match state c with S_ABORT_NEXT_TICK => False | _ => True end.
Proof.
  destruct reachable_connected as (c & q & Hr & _ & _). exists c. split; [exact Hr|].
  pose proof (contestant_no_leak (fun _ => 0) false 3000000000 c Hr) as Hn.
  destruct (state c); [exact I|exact I|exact I|exact I|exact Hn].
Defined.


Lemma abort_recovers_witness :
  exists c c' c'', state c = S_ABORT_NEXT_TICK /\ contestant_tick false c = Some c' /\
    state c' = S_NOT_CONNECTED /\ pcbs c' = ∅ /\ contestant_tick true c' = Some c'' /\
    state c'' = S_CONNECTING_10002.
Proof.
  destruct reachable_connected as (c & q & Hr & Hs & Hq).
  destruct (reachable_top_inv _ _ _ c Hr) as [Hi _].
  pose proof (tcp_recv_fn_10002_inv q None c Hi) as Ha.
  destruct (abort_recovers false (tcp_recv_fn_10002 q None c) Ha eq_refl)
    as (c' & c'' & E & E1 & _ & _ & E2 & E3 & E4 & _).
  exists (tcp_recv_fn_10002 q None c), c', c''. split; [reflexivity|]. split; [exact E|].
  split; [exact E1|]. split; [exact E2|]. split; [exact E3|exact E4].
Defined.

Lemma contestant_connects_witness :
  exists c c3, reachable (fun _ => 0) false 3000000000 c /\ state c = S_NOT_CONNECTED /\
    state c3 = S_CONNECTED.
Proof.
  destruct reachable_first as (c & Hr & Hs).
  destruct (contestant_connects (fun _ => 0) false 3000000000 c Hr Hs)
    as (c1 & c2 & c3 & q & p & _ & _ & _ & _ & _ & Hs3 & Hr3).
  exists c, c3. split; [exact Hr|]. split; [exact Hs|exact Hs3].
Defined.
