(* ===== verification/DucknetUtils.v ===== *)
(** * ducknet/lib/utils.cpp and ducknet/inc/ducknet_utils.h

    Byte-order conversion, time arithmetic on the time-stamp counter and the
    Internet checksum, with their properties: the conversions reverse the
    memory bytes, the time conversions are exact where nothing overflows, the
    carry loop of the checksum terminates and a stored checksum verifies. *)

From S2P Require Import Prelude.

(** ** Byte order *)

Definition ducknet_htons (x : Z) : Z :=
  Z.lor (Z.shiftr (Z.land x 0xff00) 8) (Z.shiftl (Z.land x 0x00ff) 8).

Definition ducknet_htonl (x : Z) : Z :=
  Z.lor (Z.shiftr (Z.land x 0xff000000) 24)
    (Z.lor (Z.shiftr (Z.land x 0x00ff0000) 8)
       (Z.lor (Z.shiftl (Z.land x 0x0000ff00) 8)
          (Z.shiftl (Z.land x 0x000000ff) 24))).

Definition ducknet_htonll (x : Z) : Z :=
  Z.lor (Z.shiftr (Z.land x 0xff00000000000000) 56)
    (Z.lor (Z.shiftr (Z.land x 0x00ff000000000000) 40)
    (Z.lor (Z.shiftr (Z.land x 0x0000ff0000000000) 24)
    (Z.lor (Z.shiftr (Z.land x 0x000000ff00000000) 8)
    (Z.lor (Z.shiftl (Z.land x 0x00000000ff000000) 8)
    (Z.lor (Z.shiftl (Z.land x 0x0000000000ff0000) 24)
    (Z.lor (Z.shiftl (Z.land x 0x000000000000ff00) 40)
           (Z.shiftl (Z.land x 0x00000000000000ff) 56))))))).

(** ** Time *)

Definition mul_div (a b d : Z) : Z :=
  let x := a / d in
  let y := a mod d in
  let u := b / d in
  let v := b mod d in
  u64 (u64 (u64 (u64 (u64 (x * u) * d) + u64 (x * v)) + u64 (y * u)) + u64 (y * v) / d).

Definition ducknet_time_add_ns (tsc_freq t ns : Z) : Z := u64 (t + mul_div ns tsc_freq 1000000000).
Definition ducknet_time_add_us (tsc_freq t us : Z) : Z := u64 (t + mul_div us tsc_freq 1000000).
Definition ducknet_time_add_ms (tsc_freq t ms : Z) : Z := u64 (t + mul_div ms tsc_freq 1000).
Definition ducknet_time_add_sec (tsc_freq t sec : Z) : Z := u64 (t + u64 (sec * tsc_freq)).
Definition ducknet_time_to_ns (tsc_freq t : Z) : Z := mul_div t 1000000000 tsc_freq.
Definition ducknet_time_to_us (tsc_freq t : Z) : Z := mul_div t 1000000 tsc_freq.
Definition ducknet_time_to_ms (tsc_freq t : Z) : Z := mul_div t 1000 tsc_freq.
Definition ducknet_time_to_sec (tsc_freq t : Z) : Z := t / tsc_freq.

(** ** Checksum *)

Fixpoint checksum_loop (sum : Z) (a : list Z) : Z :=
  match a with
  | b0 :: b1 :: a' => checksum_loop (u32 (sum + le_val [b0; b1])) a'
  | [b] => u32 (sum + b)
  | [] => sum
  end.

Definition ducknet_checksum_sum (a : list Z) : Z := checksum_loop 0 a.

(** [while (sum >> 16) sum = (sum & 0xffff) + (sum >> 16)] *)
Fixpoint carry_loop (fuel : nat) (sum : Z) : option Z :=
  match fuel with
  | O => None
  | S fuel' =>
      if Z.shiftr sum 16 =? 0 then Some sum
      else carry_loop fuel' (u32 (Z.land sum 0xffff + Z.shiftr sum 16))
  end.

(** Two rounds bring any 32-bit sum below 2^16 ([carry_loop_spec]). *)
Definition ducknet_checksum (a : list Z) (sum : Z) : Z :=
  u16 (Z.lnot (default 0 (carry_loop 3 (u32 (sum + ducknet_checksum_sum a))))).

(** ** Byte order, proved *)

Lemma land_byte x k :
  0 <= k -> Z.land x (Z.shiftl 255 k) = Z.shiftl ((x / 2 ^ k) mod 256) k.
Proof.
  intros Hk. change 256 with (2 ^ 8). rewrite <- Z.land_ones, <- Z.shiftr_div_pow2 by lia.
  change (Z.ones 8) with 255. rewrite Z.shiftl_land. apply Z.bits_inj'. intros i Hi.
  rewrite !Z.land_spec. destruct (Z.ltb_spec i k).
  - by rewrite (Z.shiftl_spec_low 255) by lia; rewrite !andb_false_r.
  - rewrite (Z.shiftl_spec (Z.shiftr x k)) by lia. rewrite Z.shiftr_spec by lia.
    do 2 f_equal. lia.
Qed.

Lemma lor_shiftl a b k : is_uint k a -> 0 <= k -> Z.lor a (Z.shiftl b k) = a + b * 2 ^ k.
Proof.
  intros Ha Hk. rewrite <- Z.lxor_lor, <- Z.add_nocarry_lxor, Z.shiftl_mul_pow2; try done.
  all: apply Z.bits_inj'; intros i Hi; rewrite Z.land_spec, Z.bits_0; destruct (Z.ltb_spec i k);
    [by rewrite Z.shiftl_spec_low by lia; rewrite andb_false_r|];
    destruct (decide (a = 0)) as [->|]; [by rewrite Z.bits_0|];
    unfold is_uint in Ha; rewrite Z.bits_above_log2; [done|lia|];
    apply Z.log2_lt_pow2; [lia|]; apply Z.lt_le_trans with (2 ^ k); [lia|];
    apply Z.pow_le_mono_r; lia.
Qed.

(** The byte of [x] at position [k]. *)
Definition byte_at (k x : Z) : Z := (x / 2 ^ (8 * k)) mod 256.

Lemma byte_at_range k x : 0 <= byte_at k x < 256.
Proof. apply Z.mod_pos_bound. lia. Qed.

Lemma le_bytes_byte_at n : forall x,
  le_bytes n x = (fun k => byte_at (Z.of_nat k) x) <$> seq 0 n.
Proof.
  induction n as [|n IH]; intros x; [done|]. cbn [le_bytes seq fmap list_fmap]. f_equal.
  - unfold byte_at. change (2 ^ (8 * Z.of_nat 0)) with 1. by rewrite Z.div_1_r.
  - rewrite IH. rewrite <- (fmap_S_seq 0 n), <- list_fmap_compose. apply list_fmap_ext.
    intros k y _. unfold byte_at, compose. rewrite Nat2Z.inj_succ.
    replace (8 * Z.succ (Z.of_nat y)) with (8 + 8 * Z.of_nat y) by lia.
    rewrite Z.pow_add_r, Z.div_div by lia. done.
Qed.

(** Bytes put together with shifts. *)
Fixpoint lor_bytes (l : list Z) : Z :=
  match l with
  | [] => 0
  | b :: l' => Z.lor b (Z.shiftl (lor_bytes l') 8)
  end.

Lemma lor_bytes_le_val l : Forall is_byte l -> lor_bytes l = le_val l.
Proof.
  induction 1 as [|b l Hb Hl IH]; [done|]. cbn [lor_bytes le_val].
  rewrite lor_shiftl, IH by (done || lia). change (2 ^ 8) with 256. lia.
Qed.

(** Both sides as a disjunction of shifted bytes. *)
Ltac byte_swap :=
  repeat match goal with
  | |- context [Z.land ?x ?m] =>
      first [ change m with (Z.shiftl 255 56) | change m with (Z.shiftl 255 48)
            | change m with (Z.shiftl 255 40) | change m with (Z.shiftl 255 32)
            | change m with (Z.shiftl 255 24) | change m with (Z.shiftl 255 16)
            | change m with (Z.shiftl 255 8) | change m with (Z.shiftl 255 0) ];
      rewrite (land_byte x) by lia
  end;
  rewrite <- lor_bytes_le_val by apply Forall_rev, le_bytes_are_bytes;
  rewrite le_bytes_byte_at; cbn [seq fmap list_fmap rev app lor_bytes];
  rewrite ?Z.shiftl_0_l, ?Z.lor_0_r, ?Z.shiftl_lor;
  rewrite ?Z.shiftr_shiftl_l, ?Z.shiftl_shiftl by lia; unfold byte_at; reflexivity.

Lemma ducknet_htons_val x : ducknet_htons x = le_val (rev (le_bytes 2 x)).
Proof. unfold ducknet_htons. byte_swap. Qed.

Lemma ducknet_htonl_val x : ducknet_htonl x = le_val (rev (le_bytes 4 x)).
Proof. unfold ducknet_htonl. byte_swap. Qed.

Lemma ducknet_htonll_val x : ducknet_htonll x = le_val (rev (le_bytes 8 x)).
Proof. unfold ducknet_htonll. byte_swap. Qed.

Lemma swap_bytes n x : le_bytes n (le_val (rev (le_bytes n x))) = rev (le_bytes n x).
Proof.
  replace n with (length (rev (le_bytes n x))) at 1 by (rewrite length_rev; apply length_le_bytes).
  apply le_bytes_le_val, Forall_rev, le_bytes_are_bytes.
Qed.

Lemma swap_swap n x : is_uint (8 * Z.of_nat n) x ->
  le_val (rev (le_bytes n (le_val (rev (le_bytes n x))))) = x.
Proof.
  intros Hx. rewrite swap_bytes, rev_involutive, le_val_le_bytes. by apply Z.mod_small.
Qed.

Lemma swap_range n x : is_uint (8 * Z.of_nat n) (le_val (rev (le_bytes n x))).
Proof.
  pose proof (le_val_range (rev (le_bytes n x))) as Hr.
  rewrite length_rev, length_le_bytes in Hr. apply Hr, Forall_rev, le_bytes_are_bytes.
Qed.

Lemma htons_bytes x : le_bytes 2 (ducknet_htons x) = rev (le_bytes 2 x).
Proof. rewrite ducknet_htons_val. apply swap_bytes. Qed.

Lemma htonl_bytes x : le_bytes 4 (ducknet_htonl x) = rev (le_bytes 4 x).
Proof. rewrite ducknet_htonl_val. apply swap_bytes. Qed.

Lemma htons_htons x : is_uint 16 x -> ducknet_htons (ducknet_htons x) = x.
Proof. rewrite !ducknet_htons_val. apply (swap_swap 2). Qed.

Lemma htonl_htonl x : is_uint 32 x -> ducknet_htonl (ducknet_htonl x) = x.
Proof. rewrite !ducknet_htonl_val. apply (swap_swap 4). Qed.

Lemma htons_range x : is_uint 16 (ducknet_htons x).
Proof. rewrite ducknet_htons_val. apply (swap_range 2). Qed.

Lemma htonl_range x : is_uint 32 (ducknet_htonl x).
Proof. rewrite ducknet_htonl_val. apply (swap_range 4). Qed.

#[export] Hint Resolve htons_range htonl_range : cxx.

(** The three conversions reverse the bytes of the value in memory and
    are their own inverses on values of their width. *)
Theorem hton_involution x :
  (le_bytes 2 (ducknet_htons x) = rev (le_bytes 2 x) /\
   le_bytes 4 (ducknet_htonl x) = rev (le_bytes 4 x) /\
   le_bytes 8 (ducknet_htonll x) = rev (le_bytes 8 x)) /\
  ducknet_htons (ducknet_htons x) = x mod 2 ^ 16 /\
  ducknet_htonl (ducknet_htonl x) = x mod 2 ^ 32 /\
  ducknet_htonll (ducknet_htonll x) = x mod 2 ^ 64.
Proof.
  rewrite !ducknet_htons_val, !ducknet_htonl_val, !ducknet_htonll_val.
  by rewrite !swap_bytes, !rev_involutive, !le_val_le_bytes.
Qed.

(** ** Time, proved *)

Lemma mul_div_split a b d :
  0 < d -> a * b / d = a / d * (b / d) * d + a / d * (b mod d) + a mod d * (b / d) + a mod d * (b mod d) / d.
Proof.
  intros Hd. rewrite (Z.div_mod a d) at 1 by lia. rewrite (Z.div_mod b d) at 1 by lia.
  set (x := a / d). set (y := a mod d). set (u := b / d). set (v := b mod d).
  replace ((d * x + y) * (d * u + v)) with ((x * u * d + x * v + y * u) * d + y * v) by lia.
  by rewrite Z.div_add_l by lia.
Qed.

(** [mul_div a b d] is the exact quotient of [a * b] by [d], without a
    128-bit product, whenever the quotient fits in 64 bits and [d] in 32. *)
Theorem mul_div_exact a b d :
  is_uint 64 a -> is_uint 64 b -> 0 < d < 2 ^ 32 -> a * b / d < 2 ^ 64 ->
  mul_div a b d = a * b / d.
Proof.
  intros Ha Hb Hd Hq. unfold mul_div. rewrite mul_div_split in * by lia.
  assert (0 <= a / d) by (apply Z.div_pos; unfold is_uint in *; lia).
  assert (0 <= b / d) by (apply Z.div_pos; unfold is_uint in *; lia).
  pose proof (Z.mod_pos_bound a d). pose proof (Z.mod_pos_bound b d).
  set (x := a / d) in *. set (y := a mod d) in *. set (u := b / d) in *. set (v := b mod d) in *.
  assert (0 <= y * v < 2 ^ 64) by nia. assert (0 <= y * v / d) by (apply Z.div_pos; lia).
  assert (0 <= x * u) by nia. assert (x * u <= x * u * d) by nia.
  assert (0 <= x * v) by nia. assert (0 <= y * u) by nia.
  rewrite !(wrap_small 64); rewrite ?(wrap_small 64); rewrite ?(wrap_small 64); try ulia.
  all: rewrite ?(wrap_small 64); unfold is_uint; rewrite ?(wrap_small 64); try ulia.
Qed.

Lemma mul_div_exact_witness : mul_div 5000 3000000000 1000 = 5000 * 3000000000 / 1000.
Proof. apply (mul_div_exact 5000 3000000000 1000); unfold is_uint; vm_compute; split; congruence || reflexivity. Defined.

(** ** The checksum, proved *)

(** The sum of the 16-bit little-endian words, an odd last byte alone. *)
Fixpoint words_sum (a : list Z) : Z :=
  match a with
  | b0 :: b1 :: a' => le_val [b0; b1] + words_sum a'
  | [b] => b
  | [] => 0
  end.

Lemma pair_ind {A} (P : list A -> Prop) :
  P [] -> (forall x, P [x]) -> (forall x y l, P l -> P (x :: y :: l)) -> forall l, P l.
Proof.
  intros H0 H1 H2. fix IH 1. intros [|x [|y l]]; [done|done|]. apply H2, IH.
Qed.

Lemma checksum_loop_sum a : forall s, is_uint 32 s -> checksum_loop s a = u32 (s + words_sum a).
Proof.
  induction a as [|b|b0 b1 a IH] using pair_ind; intros s Hs.
  - cbn. rewrite Z.add_0_r. by rewrite wrap_small.
  - done.
  - cbn [checksum_loop words_sum]. rewrite IH by (apply wrap_range; lia).
    rewrite wrap_add_l. f_equal. lia.
Qed.

Lemma words_sum_app a b :
  Nat.Even (length a) -> words_sum (a ++ b) = words_sum a + words_sum b.
Proof.
  induction a as [|x|x y a IH] using pair_ind; intros He.
  - done.
  - cbn in He. by apply Nat.even_spec in He.
  - cbn [words_sum app]. rewrite IH; [lia|]. apply Nat.even_spec in He. by apply Nat.even_spec.
Qed.

Lemma words_sum_range a :
  Forall is_byte a -> 0 <= words_sum a <= 65535 * Z.of_nat (length a).
Proof.
  induction a as [|x|x y a IH] using pair_ind; intros Hb.
  - cbn. lia.
  - rewrite Forall_singleton in Hb. unfold is_byte, is_uint in Hb.
    change (2 ^ 8) with 256 in Hb. cbn [words_sum length]. lia.
  - rewrite !Forall_cons in Hb. destruct Hb as (Hx & Hy & Hb). specialize (IH Hb).
    unfold is_byte, is_uint in *. change (2 ^ 8) with 256 in *. cbn [words_sum le_val length]. lia.
Qed.

(** The carry loop ends within three tests on any 32-bit sum, below 2^16,
    congruent to the sum modulo 65535, and zero only for zero. *)
Lemma carry_loop_spec s :
  is_uint 32 s ->
  exists r, carry_loop 3 s = Some r /\ 0 <= r < 65536 /\ r mod 65535 = s mod 65535 /\
    (0 < s -> 0 < r) /\ r <= s.
Proof.
  unfold is_uint. change (2 ^ 32) with 4294967296. intros Hs.
  assert (forall x, 0 <= x < 4294967296 -> Z.shiftr x 16 = x / 65536 /\
    u32 (Z.land x 0xffff + Z.shiftr x 16) = x mod 65536 + x / 65536) as Hx.
  { intros x Hx. rewrite (Z.shiftr_div_pow2 x 16) by lia. change (2 ^ 16) with 65536.
    change 0xffff with (2 ^ 16 - 1). rewrite land_mask by lia. change (2 ^ 16) with 65536.
    split; [done|]. apply wrap_small. unfold is_uint. change (2 ^ 32) with 4294967296. dlia. }
  assert (forall x, x mod 65536 + x / 65536 = x - 65535 * (x / 65536)) as Hf by (intros; dlia).
  set (s1 := s mod 65536 + s / 65536). set (s2 := s1 mod 65536 + s1 / 65536).
  assert (0 <= s1 <= 131070) as H1 by (unfold s1; dlia).
  assert (0 <= s2 <= 65535) as H2 by (unfold s2; dlia).
  assert (s1 mod 65535 = s mod 65535) as M1.
  { unfold s1. rewrite Hf. replace (s - 65535 * (s / 65536)) with (s + (- (s / 65536)) * 65535) by lia.
    apply Z.mod_add. lia. }
  assert (s2 mod 65535 = s1 mod 65535) as M2.
  { unfold s2. rewrite Hf. replace (s1 - 65535 * (s1 / 65536)) with (s1 + (- (s1 / 65536)) * 65535) by lia.
    apply Z.mod_add. lia. }
  cbn [carry_loop]. destruct (Hx s Hs) as [E1 E2]. rewrite E2. fold s1. rewrite E1.
  case_if; [exists s; split_and!; done || dlia|].
  destruct (Hx s1 ltac:(lia)) as [E3 E4]. rewrite E4. fold s2. rewrite E3.
  case_if.
  - exists s1. split_and!; [done|dlia|dlia|done| |]; intros; unfold s1; dlia.
  - destruct (Hx s2 ltac:(lia)) as [E5 _]. rewrite E5. rewrite (Z.div_small s2) by lia. cbn [Z.eqb].
    exists s2. split_and!; [done|lia|lia|congruence| |]; intros; unfold s2, s1; dlia.
Qed.

(** The checksum in terms of the folded sum. *)
Lemma ducknet_checksum_val a start :
  is_uint 32 (start + words_sum a) -> 0 <= start ->
  exists r, ducknet_checksum a start = 65535 - r /\ 0 <= r < 65536 /\
    r mod 65535 = (start + words_sum a) mod 65535 /\
    (0 < start + words_sum a -> 0 < r) /\ r <= start + words_sum a.
Proof.
  intros Hs Hst. unfold ducknet_checksum, ducknet_checksum_sum.
  rewrite checksum_loop_sum by (unfold is_uint; lia). rewrite Z.add_0_l, wrap_add_r.
  rewrite (wrap_small 32) by done.
  destruct (carry_loop_spec _ Hs) as (r & -> & Hr & Hm & Hp & Hle). exists r. cbn [default from_option id].
  split_and!; try lia. unfold wrap, Z.lnot. change (2 ^ 16) with 65536. dlia.
Qed.

Lemma words_sum_store k c a :
  Nat.Even k -> (k + 2 <= length a)%nat -> is_uint 16 c ->
  sub_bytes k 2 a = [0; 0] -> words_sum (store_le 2 k c a) = words_sum a + c.
Proof.
  intros Hk Hl Hc Hz. unfold store_le, splice. rewrite length_le_bytes.
  assert (a = take k a ++ [0; 0] ++ drop (k + 2) a) as E.
  { rewrite <- Hz. unfold sub_bytes. rewrite <- (take_drop k a) at 1. f_equal.
    rewrite <- (take_drop 2 (drop k a)) at 1. by rewrite drop_drop. }
  rewrite E at 3. rewrite !words_sum_app; rewrite ?length_take, ?Nat.min_l by lia; try done.
  - cbn [words_sum app]. change (le_bytes 2 c) with [c mod 256; c / 256 mod 256]. cbn [words_sum le_val].
    unfold is_uint in Hc. change (2 ^ 16) with 65536 in Hc. cbn [le_val].
    assert (c / 256 mod 256 = c / 256) as -> by (apply Z.mod_small; dlia).
    pose proof (Z.div_mod c 256). lia.
  - by exists 1%nat.
  - by exists 1%nat.
Qed.

(** The checksum of [a] with a zeroed field at [k], stored in that field. *)
Lemma checksum_store_zero k a start :
  Nat.Even k -> (k + 2 <= length a)%nat -> Forall is_byte a -> sub_bytes k 2 a = [0; 0] ->
  0 <= start -> start + 65535 * (Z.of_nat (length a) + 1) < 2 ^ 32 ->
  ducknet_checksum (store_le 2 k (ducknet_checksum a start) a) start = 0.
Proof.
  intros Hk Hl Hb Hz Hst Hlen. pose proof (words_sum_range a Hb) as Hw.
  destruct (ducknet_checksum_val a start) as (r & Ec & Hr & Hm & Hp & Hle); [unfold is_uint; lia|done|].
  assert (words_sum (store_le 2 k (ducknet_checksum a start) a) = words_sum a + (65535 - r)) as E.
  { rewrite words_sum_store; [by rewrite Ec|done|done| |done]. rewrite Ec. unfold is_uint. lia. }
  destruct (ducknet_checksum_val (store_le 2 k (ducknet_checksum a start) a) start)
    as (r' & Ec' & Hr' & Hm' & Hp' & _); [rewrite E; unfold is_uint; lia|done|].
  rewrite Ec'. rewrite E in Hm', Hp'.
  assert ((start + (words_sum a + (65535 - r))) mod 65535 = 0) as H0.
  { replace (start + (words_sum a + (65535 - r))) with ((start + words_sum a - r) + 1 * 65535) by lia.
    rewrite Z.mod_add by lia. rewrite Zminus_mod, <- Hm, Z.sub_diag. done. }
  rewrite H0 in Hm'. assert (0 < r') as Hpos by (apply Hp'; lia).
  assert (r' = 65535) as ->; [|done]. apply Z.mod_divide in Hm' as [q Hq]; [|lia]. nia.
Qed.

(** A checksum computed with its field zeroed and stored in the field
    verifies: the same routine over the whole data then gives 0, for any data
    of up to 65000 bytes and any start sum of a pseudo header. *)
Theorem checksum_verifies k a start :
  Nat.Even k -> (k + 2 <= length a)%nat -> Z.of_nat (length a) <= 65000 -> Forall is_byte a ->
  sub_bytes k 2 a = [0; 0] -> 0 <= start < 2 ^ 20 ->
  ducknet_checksum (store_le 2 k (ducknet_checksum a start) a) start = 0.
Proof. intros. apply checksum_store_zero; try done; lia. Qed.

Lemma checksum_verifies_witness :
  ducknet_checksum (store_le 2 2 (ducknet_checksum [8; 0; 0; 0; 1; 2; 3] 17) [8; 0; 0; 0; 1; 2; 3]) 17 = 0.
Proof.
  apply (checksum_verifies 2 [8; 0; 0; 0; 1; 2; 3] 17).
  - by exists 1%nat.
  - cbn. lia.
  - cbn. lia.
  - repeat constructor; unfold is_byte, is_uint; lia.
  - reflexivity.
  - lia.
Defined.
