(* ===== verification/Ducknet.v ===== *)
(** * ducknet: Ethernet, ARP, IPv4, ICMP and UDP over a network driver

    Translation of [ducknet/lib/*.cpp] (utilities in [DucknetUtils]). A packet
    is the list of its bytes; a header is a record with its memory image
    ([*_bytes], little endian) and its reading ([*_of_bytes]). The statics of
    the files are the records [phy_state], [arp_state], [ipv4_state] and [net].
    The driver is the class [NetDriver] over its own state; the callbacks of
    the configuration are section variables that may change the packet and the
    whole state. [DucknetProofs] has the properties. *)

From S2P Require Import Prelude DucknetUtils.

(** ** The driver, as the function pointers of [DucknetPhyConfig] *)

(** [drv_recv] gives an error code or the packet; [drv_tsc] is [rdtsc]. *)
Class NetDriver (D : Type) := {
  drv_tsc : D -> Z * D;
  drv_send : option (list Z -> D -> Z * D);
  drv_recv : option (D -> (Z + list Z) * D);
  drv_flush : option (D -> Z * D)
}.

(** ** Headers *)

Definition ETHERTYPE_IPv4 : Z := 0x0800.
Definition ETHERTYPE_ARP : Z := 0x0806.
Definition HTYPE_ETHERNET : Z := 1.
Definition PTYPE_IPv4 : Z := 0x0800.
Definition ARP_REQUEST : Z := 1.
Definition ARP_REPLY : Z := 2.
Definition IPv4_ICMP : Z := 1.
Definition IPv4_UDP : Z := 17.
Definition IPv4_FLAGS_DF : Z := 0x4000.
Definition ICMP_ECHO_REPLY : Z := 0.
Definition ICMP_ECHO_REQUEST : Z := 8.

Record DucknetEtherHeader := mkEther { eth_dst : list Z; eth_src : list Z; ethertype : Z }.

Definition ether_bytes (h : DucknetEtherHeader) : list Z :=
  eth_dst h ++ eth_src h ++ le_bytes 2 (ethertype h).

Definition ether_of_bytes (l : list Z) : DucknetEtherHeader :=
  mkEther (sub_bytes 0 6 l) (sub_bytes 6 6 l) (load_le 2 12 l).

Definition ducknet_ether_broadcast_addr : list Z := replicate 6 255.

Definition ducknet_ether_hton (h : DucknetEtherHeader) : DucknetEtherHeader :=
  mkEther (eth_dst h) (eth_src h) (ducknet_htons (ethertype h)).

Record DucknetARPHeader := mkARP { htype : Z; ptype : Z; hlen : Z; plen : Z; op : Z }.

Definition arp_bytes (h : DucknetARPHeader) : list Z :=
  le_bytes 2 (htype h) ++ le_bytes 2 (ptype h) ++ le_bytes 1 (hlen h) ++ le_bytes 1 (plen h) ++
  le_bytes 2 (op h).

Definition arp_of_bytes (l : list Z) : DucknetARPHeader :=
  mkARP (load_le 2 0 l) (load_le 2 2 l) (load_le 1 4 l) (load_le 1 5 l) (load_le 2 6 l).

Definition ducknet_arp_hton (h : DucknetARPHeader) : DucknetARPHeader :=
  mkARP (ducknet_htons (htype h)) (ducknet_htons (ptype h)) (hlen h) (plen h)
    (ducknet_htons (op h)).

(** The payload of an ARP packet: sender and target addresses. *)
Record arp_payload := mkPayload { sha : list Z; spa : Z; tha : list Z; tpa : Z }.

Definition payload_bytes (p : arp_payload) : list Z :=
  sha p ++ le_bytes 4 (spa p) ++ tha p ++ le_bytes 4 (tpa p).

Definition payload_of_bytes (l : list Z) : arp_payload :=
  mkPayload (sub_bytes 0 6 l) (load_le 4 6 l) (sub_bytes 10 6 l) (load_le 4 16 l).

(** [version] is the low nibble of the first byte, [ihl] the high one. *)
Record DucknetIPv4Header := mkIPv4 {
  version : Z; ihl : Z; tos : Z; length_ : Z; id_ : Z; flags : Z; ttl : Z;
  protocol : Z; checksum : Z; src : Z; dst : Z
}.

Definition ipv4_bytes (h : DucknetIPv4Header) : list Z :=
  [version h + 16 * ihl h] ++ le_bytes 1 (tos h) ++ le_bytes 2 (length_ h) ++
  le_bytes 2 (id_ h) ++ le_bytes 2 (flags h) ++ le_bytes 1 (ttl h) ++ le_bytes 1 (protocol h) ++
  le_bytes 2 (checksum h) ++ le_bytes 4 (src h) ++ le_bytes 4 (dst h).

Definition ipv4_of_bytes (l : list Z) : DucknetIPv4Header :=
  mkIPv4 (load_le 1 0 l mod 16) (load_le 1 0 l / 16) (load_le 1 1 l) (load_le 2 2 l)
    (load_le 2 4 l) (load_le 2 6 l) (load_le 1 8 l) (load_le 1 9 l) (load_le 2 10 l)
    (load_le 4 12 l) (load_le 4 16 l).

Definition ducknet_ipv4_hton (h : DucknetIPv4Header) : DucknetIPv4Header :=
  mkIPv4 (ihl h) (version h) (tos h) (ducknet_htons (length_ h)) (ducknet_htons (id_ h))
    (ducknet_htons (flags h)) (ttl h) (protocol h) (checksum h)
    (ducknet_htonl (src h)) (ducknet_htonl (dst h)).

Record DucknetICMPHeader := mkICMP { type_ : Z; code : Z; icmp_checksum : Z; rest : Z }.

Definition icmp_bytes (h : DucknetICMPHeader) : list Z :=
  le_bytes 1 (type_ h) ++ le_bytes 1 (code h) ++ le_bytes 2 (icmp_checksum h) ++ le_bytes 4 (rest h).

Definition icmp_of_bytes (l : list Z) : DucknetICMPHeader :=
  mkICMP (load_le 1 0 l) (load_le 1 1 l) (load_le 2 2 l) (load_le 4 4 l).

Record DucknetUDPHeader := mkUDP { sport : Z; dport : Z; udp_length : Z; udp_checksum : Z }.

Definition udp_bytes (h : DucknetUDPHeader) : list Z :=
  le_bytes 2 (sport h) ++ le_bytes 2 (dport h) ++ le_bytes 2 (udp_length h) ++
  le_bytes 2 (udp_checksum h).

Definition udp_of_bytes (l : list Z) : DucknetUDPHeader :=
  mkUDP (load_le 2 0 l) (load_le 2 2 l) (load_le 2 4 l) (load_le 2 6 l).

Definition ducknet_udp_hton (h : DucknetUDPHeader) : DucknetUDPHeader :=
  mkUDP (ducknet_htons (sport h)) (ducknet_htons (dport h)) (ducknet_htons (udp_length h))
    (udp_checksum h).

(** [is_equal] compares a 32-bit and a 16-bit word. *)
Definition is_equal (a b : list Z) : bool :=
  (load_le 4 0 a =? load_le 4 0 b) && (load_le 2 4 a =? load_le 2 4 b).

(** ** State *)

Record phy_state := mkPhy {
  flushed : bool; last_flush_time : Z; flush_delay : Z; flush_cnt : Z
}.

Record arp_entry := mkEntry { ae_ip : Z; ae_mac : list Z; ae_expire : Z }.
Record query_entry := mkQuery { qe_ip : Z; qe_expire : Z }.

(** The first [n_arp_entries] (resp. [n_arp_queries]) cells of the tables. *)
Record arp_state := mkArp {
  arp_table : list arp_entry;
  arp_query_table : list query_entry;
  arp_last_idle : Z; arp_idle_delay : Z; arp_cnt : Z
}.

Definition ARP_TABLE_SIZE : Z := 100.
Definition ARP_EXPIRE_TIMEOUT_MS : Z := 30000.
Definition ARP_QUERY_TIMEOUT_MS : Z := 1000.
Definition ARP_NEVER_EXPIRE : bool := true.
Definition TOSEND_TABLE_SIZE : Z := 64.
Definition TOSEND_TIMEOUT_MS : Z := 5000.

(** [ts_pkt] is the packet from its source address on: the destination is
    filled in when the packet leaves. *)
Record tosend_entry := mkTosend {
  ether_dst_ip : Z; ts_expire : Z; pkt_len : Z; ts_pkt : list Z
}.
#[export] Instance Zeroed_tosend : Zeroed tosend_entry := mkTosend 0 0 0 [].

Record ipv4_state := mkIp {
  my_ip : Z; gateway_ip : Z; prefix_len : Z;
  tosend_table : arr tosend_entry;
  tosend_free : arr Z;
  ip_last_idle : Z; ip_idle_delay : Z; ip_cnt : Z
}.

Section ducknet.
Context {D : Type} `{ND : NetDriver D}.

Record net := mkNet {
  tsc_freq : Z; currenttime : Z;
  phy : phy_state; mac : list Z; MTU : Z;
  arp : arp_state; ipv4 : ipv4_state;
  drv : D
}.

Definition set_time (t : Z) (n : net) : net :=
  mkNet (tsc_freq n) t (phy n) (mac n) (MTU n) (arp n) (ipv4 n) (drv n).
Definition set_phy (p : phy_state) (n : net) : net :=
  mkNet (tsc_freq n) (currenttime n) p (mac n) (MTU n) (arp n) (ipv4 n) (drv n).
Definition set_arp (a : arp_state) (n : net) : net :=
  mkNet (tsc_freq n) (currenttime n) (phy n) (mac n) (MTU n) a (ipv4 n) (drv n).
Definition set_ipv4 (i : ipv4_state) (n : net) : net :=
  mkNet (tsc_freq n) (currenttime n) (phy n) (mac n) (MTU n) (arp n) i (drv n).
Definition set_drv (d : D) (n : net) : net :=
  mkNet (tsc_freq n) (currenttime n) (phy n) (mac n) (MTU n) (arp n) (ipv4 n) d.

(** The callbacks of the configuration; [None] is a null pointer. A packet
    callback sees the packet from its layer's header on and may change it. *)
Definition packet_cb : Type := list Z -> net -> Z * list Z * net.
Definition addr_cb : Type := Z -> Z -> list Z -> net -> Z * list Z * net.

Variable phy_packet_handle : option packet_cb.
Variable send_packet_handle : option (list Z -> net -> Z * net).
Variable ether_packet_handle : option packet_cb.
Variable arp_packet_handle : option packet_cb.
Variable ipv4_packet_handle : option packet_cb.
Variable icmp_packet_handle : option addr_cb.
Variable udp_packet_handle : option addr_cb.
Variable user_idle : option (net -> Z * net).

(** [if (cb && (r = cb(pkt, ...)) < 0) return r;] then continue. *)
Definition with_cb (cb : option packet_cb) (pkt : list Z) (n : net)
    (k : list Z -> net -> Z * net) : Z * net :=
  match cb with
  | None => k pkt n
  | Some f => let '(r, pkt', n') := f pkt n in if r <? 0 then (r, n') else k pkt' n'
  end.

Definition len_of (l : list Z) : Z := Z.of_nat (length l).

(** ** utils.cpp *)

Definition ducknet_gettime (n : net) : Z * net :=
  let '(t, d) := drv_tsc (drv n) in (u64 t, set_drv d n).

Definition ducknet_utils_idle (n : net) : Z * net :=
  let '(t, n) := ducknet_gettime n in (0, set_time t n).

Definition time_add_ms (n : net) (ms : Z) : Z :=
  ducknet_time_add_ms (tsc_freq n) (currenttime n) ms.

(** ** phy.cpp *)

(** The comparison binds tighter than the assignment: an error of the send
    callback makes the result 1. *)
Definition ducknet_phy_send (a : list Z) (n : net) : Z * net :=
  let transmit n :=
    let p := phy n in
    let n := set_phy (mkPhy false (last_flush_time p) (flush_delay p) (flush_cnt p)) n in
    match drv_send with
    | Some send => let '(r, d) := send a (drv n) in (r, set_drv d n)
    | None => (-1, n)
    end in
  match send_packet_handle with
  | Some f => let '(r, n) := f a n in if r <? 0 then (1, n) else transmit n
  | None => transmit n
  end.

Definition ducknet_phy_recv (n : net) : (Z + list Z) * net :=
  match drv_recv with
  | Some recv => let '(r, d) := recv (drv n) in (r, set_drv d n)
  | None => (inl (-1), n)
  end.

Definition ducknet_phy_flush (n : net) : Z * net :=
  if flushed (phy n) then (0, n)
  else
    let '(r, n) := match drv_flush with
                   | Some flush => let '(r, d) := flush (drv n) in (r, set_drv d n)
                   | None => (-1, n)
                   end in
    let p := phy n in
    (r, if r =? 0 then set_phy (mkPhy true (last_flush_time p) (flush_delay p) (flush_cnt p)) n
        else n).

Definition ducknet_phy_idle (n : net) : Z * net :=
  let p := phy n in
  let cnt := s32 (flush_cnt p + 1) in
  let n := set_phy (mkPhy (flushed p) (last_flush_time p) (flush_delay p) cnt) n in
  if (128 <=? cnt) || (flush_delay p <? u64 (currenttime n - last_flush_time p)) then
    let '(_, n) := ducknet_phy_flush n in
    let p := phy n in
    (0, set_phy (mkPhy (flushed p) (currenttime n) (flush_delay p) 0) n)
  else (0, n).

(** ** ether.cpp *)

Definition ducknet_ether_send (dst_mac : list Z) (type : Z) (payload : list Z) (n : net) : Z * net :=
  let len := len_of payload in
  if len <? 0 then (-1, n)
  else if MTU n <? len then (-1, n)
  else ducknet_phy_send (ether_bytes (mkEther dst_mac (mac n) (ducknet_htons type)) ++ payload) n.

(** ** arp.cpp *)

(** The search loop of [update], [lookup] and [query]; the interval halves,
    so the number of entries bounds the rounds. *)
Fixpoint bsearch_loop (fuel : nat) (ips : list Z) (ip l r : Z) : Z :=
  match fuel with
  | O => l
  | S fuel' =>
      if l <? r then
        let mid := Z.shiftr (l + r) 1 in
        if default 0 (ips !! Z.to_nat mid) <? ip then bsearch_loop fuel' ips ip (mid + 1) r
        else bsearch_loop fuel' ips ip l mid
      else l
  end.

Definition bsearch (ips : list Z) (ip : Z) : Z :=
  bsearch_loop (length ips) ips ip 0 (len_of ips - 1).

(** [l >= n || table[l].ip.addr != ip.addr] *)
Definition absent (ips : list Z) (ip l : Z) : bool :=
  (len_of ips <=? l) || negb (default 0 (ips !! Z.to_nat l) =? ip).

(** [memmove] one cell up from [l] and store [e] there. *)
Definition insert_at {A} (l : Z) (e : A) (t : list A) : list A :=
  take (Z.to_nat l) t ++ e :: drop (Z.to_nat l) t.

Definition ducknet_arp_update (ip : Z) (m : list Z) (n : net) : Z * net :=
  let a := arp n in
  let ips := ae_ip <$> arp_table a in
  let l := bsearch ips ip in
  let e := mkEntry ip m (time_add_ms n ARP_EXPIRE_TIMEOUT_MS) in
  let store t := (0, set_arp (mkArp t (arp_query_table a) (arp_last_idle a) (arp_idle_delay a)
                                (arp_cnt a)) n) in
  if absent ips ip l then
    if len_of ips =? ARP_TABLE_SIZE then (-1, n)
    else store (insert_at l e (arp_table a))
  else store (<[Z.to_nat l := e]> (arp_table a)).

(** The address found, or [None] for the result -1. *)
Definition ducknet_arp_lookup (ip : Z) (n : net) : option (list Z) :=
  let t := arp_table (arp n) in
  let l := bsearch (ae_ip <$> t) ip in
  if absent (ae_ip <$> t) ip l then None else ae_mac <$> t !! Z.to_nat l.

Definition ducknet_arp_send (dst_mac : list Z) (operation : Z) (payload : list Z) (n : net)
    : Z * net :=
  let len := len_of payload in
  if len <? 0 then (-1, n)
  else if MTU n <? len + 8 then (-1, n)
  else
    ducknet_phy_send
      (ether_bytes (mkEther dst_mac (mac n) (ducknet_htons ETHERTYPE_ARP)) ++
       arp_bytes (mkARP (ducknet_htons HTYPE_ETHERNET) (ducknet_htons PTYPE_IPv4) 6 4
                    (ducknet_htons operation)) ++ payload) n.

Definition ducknet_arp_query (ip : Z) (n : net) : Z * net :=
  let a := arp n in
  let ips := qe_ip <$> arp_query_table a in
  let l := bsearch ips ip in
  if absent ips ip l then
    if len_of ips =? ARP_TABLE_SIZE then (-1, n)
    else
      let e := mkQuery ip (time_add_ms n ARP_QUERY_TIMEOUT_MS) in
      let n := set_arp (mkArp (arp_table a) (insert_at l e (arp_query_table a))
                          (arp_last_idle a) (arp_idle_delay a) (arp_cnt a)) n in
      ducknet_arp_send ducknet_ether_broadcast_addr ARP_REQUEST
        (payload_bytes (mkPayload (mac n) (ducknet_htonl (my_ip (ipv4 n))) (replicate 6 0)
                          (ducknet_htonl ip))) n
  else (0, n).

Definition ducknet_arp_idle (n : net) : Z * net :=
  let a := arp n in
  let cnt := s32 (arp_cnt a + 1) in
  if (cnt <? 128) && (u64 (currenttime n - arp_last_idle a) <=? arp_idle_delay a) then
    (0, set_arp (mkArp (arp_table a) (arp_query_table a) (arp_last_idle a) (arp_idle_delay a) cnt) n)
  else
    let t := List.filter
      (fun e => negb (negb ARP_NEVER_EXPIRE && (ae_expire e <? currenttime n))) (arp_table a) in
    let q := List.filter (fun e => negb (qe_expire e <? currenttime n)) (arp_query_table a) in
    (0, set_arp (mkArp t q (currenttime n) (arp_idle_delay a) 0) n).

Definition ducknet_arp_packet_handle (pkt : list Z) (n : net) : Z * net :=
  let len := len_of pkt in
  if len <? 8 then (-1, n)
  else
    let pkt := arp_bytes (ducknet_arp_hton (arp_of_bytes pkt)) ++ drop 8 pkt in
    with_cb arp_packet_handle pkt n (fun pkt n =>
      let hdr := arp_of_bytes pkt in
      if (htype hdr =? HTYPE_ETHERNET) && (ptype hdr =? PTYPE_IPv4) then
        if negb (hlen hdr =? 6) then (-1, n)
        else if negb (plen hdr =? 4) then (-1, n)
        else if len - 8 <? 20 then (-1, n)
        else
          let p := payload_of_bytes (drop 8 pkt) in
          let p := mkPayload (sha p) (ducknet_htonl (spa p)) (tha p) (ducknet_htonl (tpa p)) in
          if op hdr =? ARP_REQUEST then
            if tpa p =? my_ip (ipv4 n) then
              let p2 := mkPayload (mac n) (ducknet_htonl (tpa p)) (sha p) (ducknet_htonl (spa p)) in
              let '(_, n) := ducknet_arp_send (sha p) ARP_REPLY (payload_bytes p2) n in
              (0, n)
            else (-1, n)
          else if op hdr =? ARP_REPLY then
            let '(_, n) := ducknet_arp_update (spa p) (sha p) n in (0, n)
          else (-1, n)
      else (-1, n)).

(** ** ipv4.cpp *)

(** The packet from its source address on; [None] is the result -1. *)
Definition ipv4_build_packet (dst_ip proto : Z) (payload : list Z) (n : net) : option (list Z) :=
  let len := len_of payload in
  if len <? 0 then None
  else if MTU n <? len + 20 then None
  else
    let hdr := ducknet_ipv4_hton
      (mkIPv4 4 5 0 (u16 (len + 20)) 2333 0 233 proto 0 (my_ip (ipv4 n)) dst_ip) in
    let sum := ducknet_checksum (ipv4_bytes hdr) 0 in
    let hdr := mkIPv4 (version hdr) (ihl hdr) (tos hdr) (length_ hdr) (id_ hdr) (flags hdr)
                 (ttl hdr) (protocol hdr) sum (src hdr) (dst hdr) in
    Some (mac n ++ le_bytes 2 (ducknet_htons ETHERTYPE_IPv4) ++ ipv4_bytes hdr ++ payload).

(** The loop has no bound; it ends for a non-zero word. *)
Fixpoint lower_bit_loop (fuel : nat) (x i : Z) : option Z :=
  match fuel with
  | O => None
  | S fuel' => if Z.land (Z.shiftr x i) 1 =? 0 then lower_bit_loop fuel' x (i + 1) else Some i
  end.

Definition get_lower_bit_index (x : Z) : option Z := lower_bit_loop 32 x 0.

Definition find_tosend_free (i : ipv4_state) : Z :=
  if negb (aget (tosend_free i) 0 =? 0) then
    default (-1) (get_lower_bit_index (aget (tosend_free i) 0))
  else if negb (aget (tosend_free i) 1 =? 0) then
    Z.lor (Z.shiftl 1 5) (default (-1) (get_lower_bit_index (aget (tosend_free i) 1)))
  else -1.

Definition match_prefix (a b plen : Z) : bool := Z.shiftr (Z.lxor a b) (32 - plen) =? 0.

(** Bit [id] of the free map. *)
Definition is_free (i : ipv4_state) (id : Z) : bool :=
  negb (Z.land (aget (tosend_free i) (Z.shiftr id 5)) (Z.shiftl 1 (Z.land id 31)) =? 0).

Definition set_free (b : bool) (id : Z) (i : ipv4_state) : ipv4_state :=
  let w := aget (tosend_free i) (Z.shiftr id 5) in
  let m := Z.shiftl 1 (Z.land id 31) in
  mkIp (my_ip i) (gateway_ip i) (prefix_len i) (tosend_table i)
    (aset (tosend_free i) (Z.shiftr id 5)
       (if b then Z.lor w m else Z.land w (u32 (Z.lnot m))))
    (ip_last_idle i) (ip_idle_delay i) (ip_cnt i).

Definition set_tosend (id : Z) (e : tosend_entry) (i : ipv4_state) : ipv4_state :=
  mkIp (my_ip i) (gateway_ip i) (prefix_len i) (aset (tosend_table i) id e) (tosend_free i)
    (ip_last_idle i) (ip_idle_delay i) (ip_cnt i).

Definition ducknet_ipv4_send (dst_ip proto : Z) (payload : list Z) (n : net) : Z * net :=
  let ether_dst := if match_prefix dst_ip (my_ip (ipv4 n)) (prefix_len (ipv4 n)) then dst_ip
                   else gateway_ip (ipv4 n) in
  match ducknet_arp_lookup ether_dst n with
  | Some m =>
      match ipv4_build_packet dst_ip proto payload n with
      | None => (-1, n)
      | Some pkt => ducknet_phy_send (m ++ pkt) n
      end
  | None =>
      let '(_, n) := ducknet_arp_query ether_dst n in
      let id := find_tosend_free (ipv4 n) in
      if id =? -1 then (-1, n)
      else
        match ipv4_build_packet dst_ip proto payload n with
        | None => (-1, n)
        | Some pkt =>
            let e := mkTosend ether_dst (time_add_ms n TOSEND_TIMEOUT_MS)
                       (len_of payload + 20 + 14) pkt in
            (0, set_ipv4 (set_free false id (set_tosend id e (ipv4 n))) n)
        end
  end.

(** The body of the loop of [ducknet_ipv4_idle] for slot [i]. *)
Definition tosend_slot (i : Z) (n : net) : net :=
  if is_free (ipv4 n) i then n
  else
    let e := aget (tosend_table (ipv4 n)) i in
    if ts_expire e <? currenttime n then set_ipv4 (set_free true i (ipv4 n)) n
    else
      match ducknet_arp_lookup (ether_dst_ip e) n with
      | Some m =>
          let n := set_ipv4 (set_free true i (ipv4 n)) n in
          (ducknet_phy_send (take (Z.to_nat (pkt_len e)) (m ++ ts_pkt e)) n).2
      | None => (ducknet_arp_query (ether_dst_ip e) n).2
      end.

Definition ducknet_ipv4_idle (n : net) : Z * net :=
  let i := ipv4 n in
  let cnt := s32 (ip_cnt i + 1) in
  let set last cnt := set_ipv4 (mkIp (my_ip i) (gateway_ip i) (prefix_len i) (tosend_table i)
                                  (tosend_free i) last (ip_idle_delay i) cnt) n in
  if (cnt <? 1024) && (u64 (currenttime n - ip_last_idle i) <=? ip_idle_delay i) then
    (0, set (ip_last_idle i) cnt)
  else (0, for_range 0 TOSEND_TABLE_SIZE tosend_slot (set (currenttime n) 0)).

(** ** icmp.cpp *)

Definition ducknet_icmp_packet_handle (src_ip dst_ip : Z) (pkt : list Z) (n : net) : Z * net :=
  if len_of pkt <? 8 then (-1, n)
  else
    with_cb (option_map (fun f => f src_ip dst_ip) icmp_packet_handle) pkt n (fun pkt n =>
      let hdr := icmp_of_bytes pkt in
      if type_ hdr =? ICMP_ECHO_REQUEST then
        if negb (code hdr =? 0) then (-1, n)
        else
          let msg := icmp_bytes (mkICMP ICMP_ECHO_REPLY (code hdr) 0 (rest hdr)) ++ drop 8 pkt in
          let sum := ducknet_checksum msg 0 in
          let msg := icmp_bytes (mkICMP ICMP_ECHO_REPLY (code hdr) sum (rest hdr)) ++ drop 8 pkt in
          let '(_, n) := ducknet_ipv4_send src_ip IPv4_ICMP msg n in
          (0, n)
      else (-1, n)).

(** ** udp.cpp *)

(** The pseudo header of the checksum. *)
Definition udp_pseudo_header (src_ip dst_ip udp_len : Z) : list Z :=
  le_bytes 4 (ducknet_htonl src_ip) ++ le_bytes 4 (ducknet_htonl dst_ip) ++ [0; IPv4_UDP] ++
  le_bytes 2 (ducknet_htons (u16 udp_len)).

Definition ducknet_udp_send (dst_ip dp sp : Z) (payload : list Z) (n : net) : Z * net :=
  let len := len_of payload in
  if len <? 0 then (-1, n)
  else if MTU n <? len + 8 + 20 then (-1, n)
  else
    let udp_len := len + 8 in
    let hdr := ducknet_udp_hton (mkUDP sp dp (u16 udp_len) 0) in
    let tmp_sum := ducknet_checksum_sum (udp_pseudo_header (my_ip (ipv4 n)) dst_ip udp_len) in
    let sum := ducknet_checksum (udp_bytes hdr ++ payload) tmp_sum in
    let hdr := mkUDP (sport hdr) (dport hdr) (udp_length hdr) sum in
    ducknet_ipv4_send dst_ip IPv4_UDP (udp_bytes hdr ++ payload) n.

Definition ducknet_udp_packet_handle (src_ip dst_ip : Z) (pkt : list Z) (n : net) : Z * net :=
  if len_of pkt <? 8 then (-1, n)
  else
    let pkt := udp_bytes (ducknet_udp_hton (udp_of_bytes pkt)) ++ drop 8 pkt in
    with_cb (option_map (fun f => f src_ip dst_ip) udp_packet_handle) pkt n (fun _ n => (0, n)).

(** ** Dispatch *)

Definition ducknet_ipv4_packet_handle (pkt : list Z) (n : net) : Z * net :=
  let len := len_of pkt in
  if len <? 20 then (-1, n)
  else
    let pkt := ipv4_bytes (ducknet_ipv4_hton (ipv4_of_bytes pkt)) ++ drop 20 pkt in
    with_cb ipv4_packet_handle pkt n (fun pkt n =>
      let hdr := ipv4_of_bytes pkt in
      if negb (version hdr =? 4) then (-1, n)
      else if negb (ihl hdr =? 5) then (-1, n)
      else if len <? length_ hdr then (-1, n)
      else if negb (Z.land (flags hdr) (Z.lnot IPv4_FLAGS_DF) =? 0) then (-1, n)
      else if negb ((u32 (Z.lnot (dst hdr)) =? 0) || (dst hdr =? my_ip (ipv4 n))) then (-1, n)
      else
        let content := sub_bytes 20 (Z.to_nat (length_ hdr - 20)) pkt in
        if protocol hdr =? IPv4_ICMP then ducknet_icmp_packet_handle (src hdr) (dst hdr) content n
        else if protocol hdr =? IPv4_UDP then
          ducknet_udp_packet_handle (src hdr) (dst hdr) content n
        else (-1, n)).

Definition ducknet_ether_packet_handle (pkt : list Z) (n : net) : Z * net :=
  let len := len_of pkt in
  if len <? 14 then (-1, n)
  else
    let pkt := ether_bytes (ducknet_ether_hton (ether_of_bytes pkt)) ++ drop 14 pkt in
    with_cb ether_packet_handle pkt n (fun pkt n =>
      let hdr := ether_of_bytes pkt in
      if negb (is_equal (eth_dst hdr) (mac n)) &&
         negb (is_equal (eth_dst hdr) ducknet_ether_broadcast_addr) then (-1, n)
      else
        let content := drop 14 pkt in
        if ethertype hdr =? ETHERTYPE_ARP then ducknet_arp_packet_handle content n
        else if ethertype hdr =? ETHERTYPE_IPv4 then ducknet_ipv4_packet_handle content n
        else (-1, n)).

Definition ducknet_phy_packet_handle (pkt : list Z) (n : net) : Z * net :=
  with_cb phy_packet_handle pkt n ducknet_ether_packet_handle.

(** ** ducknet.cpp *)

Record DucknetConfig := mkConfig {
  c_tsc_freq : Z; c_mac : list Z; c_ip : Z; c_gateway_ip : Z; c_prefix_len : Z
}.

(** 0.1 ms: the delay of [phy], [arp] and [ipv4]. *)
Definition idle_delay_of (freq : Z) : Z := u64 (freq * 100) / 1000 / 1000.

Definition ducknet_utils_init (c : DucknetConfig) (n : net) : Z * net :=
  if c_tsc_freq c =? 0 then (-1, n)
  else
    let n := mkNet (c_tsc_freq c) (currenttime n) (phy n) (mac n) (MTU n) (arp n) (ipv4 n) (drv n) in
    let '(t, n) := ducknet_gettime n in
    (0, set_time t n).

Definition ducknet_phy_init (n : net) : Z * net :=
  (0, set_phy (mkPhy false (currenttime n) (idle_delay_of (tsc_freq n)) (flush_cnt (phy n))) n).

Definition ducknet_ether_init (c : DucknetConfig) (n : net) : Z * net :=
  (0, mkNet (tsc_freq n) (currenttime n) (phy n) (c_mac c) 1500 (arp n) (ipv4 n) (drv n)).

Definition ducknet_arp_init (n : net) : Z * net :=
  (0, set_arp (mkArp [] [] (currenttime n) (idle_delay_of (tsc_freq n)) (arp_cnt (arp n))) n).

Definition ducknet_ipv4_init (c : DucknetConfig) (n : net) : Z * net :=
  let free := for_range 0 TOSEND_TABLE_SIZE
    (fun i f => aset f (Z.shiftr i 5) (Z.lor (aget f (Z.shiftr i 5)) (Z.shiftl 1 (Z.land i 31))))
    (afill (tosend_free (ipv4 n)) 0 2 0) in
  (0, set_ipv4 (mkIp (c_ip c) (c_gateway_ip c) (c_prefix_len c) (tosend_table (ipv4 n)) free
                  (currenttime n) (idle_delay_of (tsc_freq n)) (ip_cnt (ipv4 n))) n).

Definition ducknet_init (c : DucknetConfig) (n : net) : Z * net :=
  let '(r, n) := ducknet_utils_init c n in
  if r <? 0 then (r, n) else
  let '(r, n) := ducknet_phy_init n in
  if r <? 0 then (r, n) else
  let '(r, n) := ducknet_ether_init c n in
  if r <? 0 then (r, n) else
  let '(r, n) := ducknet_arp_init n in
  if r <? 0 then (r, n) else
  let '(r, n) := ducknet_ipv4_init c n in
  if r <? 0 then (r, n) else (0, n).

Definition ducknet_idle (n : net) : Z * net :=
  let '(r, n) := ducknet_utils_idle n in
  if r <? 0 then (r, n) else
  let '(r, n) := ducknet_phy_idle n in
  if r <? 0 then (r, n) else
  let '(r, n) := ducknet_arp_idle n in
  if r <? 0 then (r, n) else
  let '(r, n) := ducknet_ipv4_idle n in
  if r <? 0 then (r, n) else (0, n).

Definition ducknet_packet_handle (pkt : list Z) (n : net) : Z * net :=
  ducknet_phy_packet_handle pkt n.

Definition ducknet_step (n : net) : Z * net :=
  let '(r, n) := ducknet_idle n in
  if r <? 0 then (r, n)
  else
    let '(p, n) := ducknet_phy_recv n in
    let n := match p with
             | inr pkt => (ducknet_packet_handle pkt n).2
             | inl _ => n
             end in
    match user_idle with
    | Some idle => let '(r, n) := idle n in if r <? 0 then (r, n) else (0, n)
    | None => (0, n)
    end.

(** [fuel] turns of the main loop; it ends at the first negative result. *)
Fixpoint ducknet_mainloop (fuel : nat) (n : net) : option (Z * net) :=
  match fuel with
  | O => None
  | S fuel' =>
      let '(r, n) := ducknet_step n in
      if r <? 0 then Some (r, n) else ducknet_mainloop fuel' n
  end.
End ducknet.

Arguments net : clear implicits.

(** ** Parsing addresses *)

Fixpoint parse_loop (s : list Z) (a : arr Z) (idx : Z) (has_num : bool) : option (arr Z) :=
  match s with
  | [] => Some a
  | c :: s' =>
      if c =? 46 then
        if negb has_num then None else parse_loop s' a (idx + 1) false
      else if (c <? 48) || (57 <? c) then None
      else if 255 <? aget a idx * 10 + c - 48 then None
      else parse_loop s' (aset a idx (u8 (aget a idx * 10 + c - 48))) idx true
  end.

(** [s] without its terminating zero; [None] is the result -1. *)
Definition ducknet_parse_ipv4 (s : list Z) : option Z :=
  if negb (Z.of_nat (length (List.filter (fun c => c =? 46) s)) =? 3) then None
  else
    a ← parse_loop s (anew 4) 0 false;
    Some (le_val [aget a 3; aget a 2; aget a 1; aget a 0]).
