(* ===== verification/DucknetProofs.v ===== *)
(** * Properties of ducknet's data structures

    Memory images of the headers, the ARP table and its binary search, the
    free map of the packets waiting for an address, and address parsing. *)

From stdpp Require Import sorting.
From S2P Require Import Prelude DucknetUtils Ducknet.

(** ** Header images *)

Definition is_mac (m : list Z) : Prop := length m = 6%nat /\ Forall is_byte m.

Definition ether_ok (h : DucknetEtherHeader) : Prop :=
  is_mac (eth_dst h) /\ is_mac (eth_src h) /\ is_uint 16 (ethertype h).

Definition arp_ok (h : DucknetARPHeader) : Prop :=
  is_uint 16 (htype h) /\ is_uint 16 (ptype h) /\ is_byte (hlen h) /\ is_byte (plen h) /\
  is_uint 16 (op h).

Definition payload_ok (p : arp_payload) : Prop :=
  is_mac (sha p) /\ is_uint 32 (spa p) /\ is_mac (tha p) /\ is_uint 32 (tpa p).

Definition ipv4_ok (h : DucknetIPv4Header) : Prop :=
  is_uint 4 (version h) /\ is_uint 4 (ihl h) /\ is_byte (tos h) /\ is_uint 16 (length_ h) /\
  is_uint 16 (id_ h) /\ is_uint 16 (flags h) /\ is_byte (ttl h) /\ is_byte (protocol h) /\
  is_uint 16 (checksum h) /\ is_uint 32 (src h) /\ is_uint 32 (dst h).

Definition udp_ok (h : DucknetUDPHeader) : Prop :=
  is_uint 16 (sport h) /\ is_uint 16 (dport h) /\ is_uint 16 (udp_length h) /\
  is_uint 16 (udp_checksum h).

Definition icmp_ok (h : DucknetICMPHeader) : Prop :=
  is_byte (type_ h) /\ is_byte (code h) /\ is_uint 16 (icmp_checksum h) /\ is_uint 32 (rest h).

Lemma le_bytes_1 v : is_byte v -> le_bytes 1 v = [v].
Proof. unfold is_byte, is_uint. intros. cbn. f_equal. apply Z.mod_small. lia. Qed.

Lemma le_val_2 v : is_uint 16 v -> le_val (le_bytes 2 v) = v.
Proof. intros. rewrite le_val_le_bytes. by apply Z.mod_small. Qed.

Lemma le_val_4 v : is_uint 32 v -> le_val (le_bytes 4 v) = v.
Proof. intros. rewrite le_val_le_bytes. by apply Z.mod_small. Qed.

Lemma mac_cases m : is_mac m -> exists a b c d e f, m = [a; b; c; d; e; f].
Proof.
  intros [Hl _]. do 6 (destruct m as [|? m]; [done|]). destruct m; [|done]. by do 6 eexists.
Qed.

(** Replace the fields of a header on the right by what their bytes say. *)
Ltac image := unfold load_le, sub_bytes; cbn -[Z.mul Z.add Z.div Z.modulo]; reflexivity.

Lemma udp_image h l : udp_ok h -> udp_of_bytes (udp_bytes h ++ l) = h.
Proof.
  intros (H1 & H2 & H3 & H4). destruct h as [a b c d]; cbn [sport dport udp_length udp_checksum] in *.
  rewrite <- (le_val_2 a H1), <- (le_val_2 b H2), <- (le_val_2 c H3), <- (le_val_2 d H4) at 2.
  unfold udp_of_bytes, udp_bytes. image.
Qed.

Lemma byte_val v : is_byte v -> le_val (le_bytes 1 v) = v.
Proof. intros. rewrite le_val_le_bytes. by apply Z.mod_small. Qed.

Lemma icmp_image h l : icmp_ok h -> icmp_of_bytes (icmp_bytes h ++ l) = h.
Proof.
  intros (H1 & H2 & H3 & H4). destruct h as [a b c d]; cbn [type_ code icmp_checksum rest] in *.
  rewrite <- (byte_val a H1), <- (byte_val b H2), <- (le_val_2 c H3), <- (le_val_4 d H4) at 2.
  unfold icmp_of_bytes, icmp_bytes. image.
Qed.

Lemma arp_image h l : arp_ok h -> arp_of_bytes (arp_bytes h ++ l) = h.
Proof.
  intros (H1 & H2 & H3 & H4 & H5). destruct h as [a b c d e]; cbn [htype ptype hlen plen op] in *.
  rewrite <- (le_val_2 a H1), <- (le_val_2 b H2), <- (byte_val c H3), <- (byte_val d H4),
    <- (le_val_2 e H5) at 2.
  unfold arp_of_bytes, arp_bytes. image.
Qed.

Lemma payload_image p l : payload_ok p -> payload_of_bytes (payload_bytes p ++ l) = p.
Proof.
  intros (H1 & H2 & H3 & H4). destruct p as [s a t b]; cbn [sha spa tha tpa] in *.
  rewrite <- (le_val_4 a H2), <- (le_val_4 b H4) at 2.
  apply mac_cases in H1 as (? & ? & ? & ? & ? & ? & ->).
  apply mac_cases in H3 as (? & ? & ? & ? & ? & ? & ->).
  unfold payload_of_bytes, payload_bytes. image.
Qed.

Lemma ether_image h l : ether_ok h -> ether_of_bytes (ether_bytes h ++ l) = h.
Proof.
  intros (H1 & H2 & H3). destruct h as [d s t]; cbn [eth_dst eth_src ethertype] in *.
  rewrite <- (le_val_2 t H3) at 2.
  apply mac_cases in H1 as (? & ? & ? & ? & ? & ? & ->).
  apply mac_cases in H2 as (? & ? & ? & ? & ? & ? & ->).
  unfold ether_of_bytes, ether_bytes. image.
Qed.

Lemma ipv4_image h l : ipv4_ok h -> ipv4_of_bytes (ipv4_bytes h ++ l) = h.
Proof.
  intros (H0 & H1 & H2 & H3 & H4 & H5 & H6 & H7 & H8 & H9 & H10).
  destruct h as [v i a b c d e f g s t];
    cbn [version ihl tos length_ id_ flags ttl protocol checksum src dst] in *.
  unfold is_uint in H0, H1. change (2 ^ 4) with 16 in *.
  transitivity (mkIPv4 ((v + 16 * i + 256 * 0) mod 16) ((v + 16 * i + 256 * 0) / 16)
    a b c d e f g s t);
    [|f_equal; dlia].
  rewrite <- (byte_val a H2), <- (le_val_2 b H3), <- (le_val_2 c H4), <- (le_val_2 d H5),
    <- (byte_val e H6), <- (byte_val f H7), <- (le_val_2 g H8), <- (le_val_4 s H9),
    <- (le_val_4 t H10) at 2.
  unfold ipv4_of_bytes, ipv4_bytes. image.
Qed.

Lemma length_ether_bytes h : ether_ok h -> length (ether_bytes h) = 14%nat.
Proof.
  intros ([H1 _] & [H2 _] & _). unfold ether_bytes.
  by rewrite !length_app, H1, H2, length_le_bytes.
Qed.

Lemma length_ipv4_bytes h : length (ipv4_bytes h) = 20%nat.
Proof. done. Qed.

Lemma length_udp_bytes h : length (udp_bytes h) = 8%nat.
Proof. done. Qed.

Lemma length_arp_bytes h : length (arp_bytes h) = 8%nat.
Proof. done. Qed.

Lemma length_icmp_bytes h : length (icmp_bytes h) = 8%nat.
Proof. done. Qed.

(** The conversions between host and network order undo themselves. *)
Lemma ether_hton_hton h : ether_ok h -> ducknet_ether_hton (ducknet_ether_hton h) = h.
Proof. destruct h. intros (_ & _ & ?). unfold ducknet_ether_hton. cbn in *. by rewrite htons_htons. Qed.

Lemma arp_hton_hton h : arp_ok h -> ducknet_arp_hton (ducknet_arp_hton h) = h.
Proof.
  destruct h. intros (? & ? & _ & _ & ?). unfold ducknet_arp_hton. cbn in *. by rewrite !htons_htons.
Qed.

Lemma ipv4_hton_hton h : ipv4_ok h -> ducknet_ipv4_hton (ducknet_ipv4_hton h) = h.
Proof.
  destruct h. unfold ipv4_ok, ducknet_ipv4_hton. cbn. intros. destruct_and!.
  by rewrite !htons_htons, !htonl_htonl.
Qed.

Lemma udp_hton_hton h : udp_ok h -> ducknet_udp_hton (ducknet_udp_hton h) = h.
Proof.
  destruct h. unfold udp_ok, ducknet_udp_hton. cbn. intros. destruct_and!. by rewrite !htons_htons.
Qed.

Lemma ether_hton_ok h : ether_ok h -> ether_ok (ducknet_ether_hton h).
Proof. unfold ether_ok. cbn. intros (? & ? & ?). eauto with cxx. Qed.

Lemma ipv4_hton_ok h : ipv4_ok h -> ipv4_ok (ducknet_ipv4_hton h).
Proof. unfold ipv4_ok. cbn. intros. destruct_and!. split_and!; auto with cxx. Qed.

Lemma udp_hton_ok h : udp_ok h -> udp_ok (ducknet_udp_hton h).
Proof. unfold udp_ok. cbn. intros. destruct_and!. split_and!; auto with cxx. Qed.

Lemma arp_hton_ok h : arp_ok h -> arp_ok (ducknet_arp_hton h).
Proof. unfold arp_ok. cbn. intros. destruct_and!. split_and!; auto with cxx. Qed.

(** ** Binary search *)

Definition sorted (ips : list Z) : Prop := StronglySorted Z.lt ips.

Definition ip_at (ips : list Z) (j : Z) : Z := default 0 (ips !! Z.to_nat j).

(** The cell [r] itself is never compared: the loop finds the boundary [k]
    of the cells [l .. r - 1], or [r]. *)
Lemma bsearch_loop_spec ips ip k : forall fuel l r,
  0 <= l <= k -> k <= r -> r - l <= Z.of_nat fuel ->
  (forall j, l <= j < k -> ip_at ips j < ip) -> (forall j, k <= j < r -> ip <= ip_at ips j) ->
  bsearch_loop fuel ips ip l r = k.
Proof.
  induction fuel as [|fuel IH]; intros l r Hl Hr Hf Hlo Hhi; cbn [bsearch_loop]; [lia|].
  case_if; [|lia]. rewrite Z.shiftr_div_pow2 by lia. change (2 ^ 1) with 2.
  set (mid := (l + r) / 2). assert (l <= mid < r) as Hmid by (unfold mid; dlia).
  fold (ip_at ips mid). case_if.
  - assert (mid < k).
    { destruct (Z.ltb_spec mid k); [done|]. specialize (Hhi mid). lia. }
    apply IH; [lia|lia|lia|intros; apply Hlo; lia|intros; apply Hhi; lia].
  - assert (k <= mid).
    { destruct (Z.ltb_spec mid k); [|lia]. specialize (Hlo mid). lia. }
    apply IH; [lia|lia|lia|intros; apply Hlo; lia|intros; apply Hhi; lia].
Qed.

Lemma bsearch_eq ips ip k :
  0 <= k <= Z.max 0 (len_of ips - 1) ->
  (forall j, 0 <= j < k -> ip_at ips j < ip) ->
  (forall j, k <= j < len_of ips - 1 -> ip <= ip_at ips j) ->
  bsearch ips ip = k.
Proof.
  intros Hk Hlo Hhi. unfold bsearch. destruct (decide (ips = [])) as [->|Hne].
  - unfold len_of in Hk. cbn [length] in Hk. cbn [bsearch_loop length]. lia.
  - assert (0 < len_of ips) by (unfold len_of; destruct ips; cbn; [done|lia]).
    apply bsearch_loop_spec; auto; unfold len_of in *; lia.
Qed.

(** Any table: the result is a valid cell, or 0. *)
Lemma bsearch_loop_range ips ip : forall fuel l r,
  l <= bsearch_loop fuel ips ip l r <= Z.max l r.
Proof.
  induction fuel as [|fuel IH]; intros l r; cbn [bsearch_loop]; [lia|].
  case_if; [|lia]. rewrite Z.shiftr_div_pow2 by lia. change (2 ^ 1) with 2.
  set (mid := (l + r) / 2). assert (l <= mid < r) as Hmid by (unfold mid; dlia).
  case_if; [specialize (IH (mid + 1) r)|specialize (IH l mid)]; lia.
Qed.

Lemma bsearch_range ips ip : 0 <= bsearch ips ip <= Z.max 0 (len_of ips - 1).
Proof. unfold bsearch. pose proof (bsearch_loop_range ips ip (length ips) 0 (len_of ips - 1)). lia. Qed.

Lemma absent_false ips ip l :
  0 <= l -> absent ips ip l = false <-> ips !! Z.to_nat l = Some ip.
Proof.
  intros Hl. unfold absent, len_of. rewrite orb_false_iff, negb_false_iff, Z.leb_gt, Z.eqb_eq.
  split.
  - intros [Hlt Hv]. destruct (lookup_lt_is_Some_2 ips (Z.to_nat l)) as [x Hx]; [lia|].
    rewrite Hx in Hv |- *. cbn in Hv. by subst.
  - intros Hx. rewrite Hx. split; [|done]. apply lookup_lt_Some in Hx. lia.
Qed.

Lemma ip_at_app_l a b j : 0 <= j < len_of a -> ip_at (a ++ b) j = ip_at a j.
Proof. intros. unfold ip_at, len_of in *. by rewrite lookup_app_l by lia. Qed.

Lemma ip_at_app_r a b j : len_of a <= j -> ip_at (a ++ b) j = ip_at b (j - len_of a).
Proof.
  intros. unfold ip_at, len_of in *. rewrite lookup_app_r by lia. do 2 f_equal. lia.
Qed.

Lemma ip_at_Forall (P : Z -> Prop) l j : Forall P l -> 0 <= j < len_of l -> P (ip_at l j).
Proof.
  intros Hl Hj. unfold ip_at, len_of in *.
  destruct (lookup_lt_is_Some_2 l (Z.to_nat j)) as [x Hx]; [lia|]. rewrite Hx. cbn.
  by apply (Forall_lookup_1 _ _ _ _ Hl Hx).
Qed.

Lemma len_of_app a b : len_of (a ++ b) = len_of a + len_of b.
Proof. unfold len_of. rewrite length_app. lia. Qed.

Lemma len_of_cons (x : Z) l : len_of (x :: l) = 1 + len_of l.
Proof. unfold len_of. cbn [length]. lia. Qed.

Lemma len_of_pos l : 0 <= len_of l.
Proof. unfold len_of. lia. Qed.

(** The boundary of a list split into smaller addresses, an arbitrary cell,
    and not smaller ones, when the cell is not smaller or is the last. *)
Lemma bsearch_split a x b ip :
  Forall (fun y => y < ip) a -> ip <= x \/ b = [] ->
  Forall (fun y => ip <= y) (take (length b - 1) b) -> bsearch (a ++ x :: b) ip = len_of a.
Proof.
  intros Ha Hx Hb. pose proof (len_of_pos a). pose proof (len_of_pos b).
  apply bsearch_eq; rewrite ?len_of_app, ?len_of_cons in *.
  - lia.
  - intros j Hj. rewrite ip_at_app_l by lia. by apply (ip_at_Forall (fun y => y < ip)).
  - intros j Hj. rewrite ip_at_app_r by lia.
    destruct (decide (j = len_of a)) as [->|Hne].
    + rewrite Z.sub_diag. cbn. destruct Hx as [Hx|Hx]; [done|]. subst b.
      unfold len_of in Hj. cbn [length] in Hj. lia.
    + replace (ip_at (x :: b) (j - len_of a)) with (ip_at (take (length b - 1) b) (j - len_of a - 1)).
      * apply (ip_at_Forall (fun y => ip <= y)); [done|]. unfold len_of in *. rewrite length_take. lia.
      * unfold ip_at. replace (Z.to_nat (j - len_of a)) with (S (Z.to_nat (j - len_of a - 1))) by lia.
        cbn. rewrite lookup_take_lt; [done|]. unfold len_of in *. lia.
Qed.

Lemma Forall_take_le (P : Z -> Prop) n l : Forall P l -> Forall P (take n l).
Proof. apply Forall_take. Qed.

(** Split a sorted table at an address. *)
Lemma sorted_split ips ip :
  sorted ips -> exists a b, ips = a ++ b /\ Forall (fun y => y < ip) a /\ Forall (fun y => ip <= y) b.
Proof.
  induction 1 as [|x l Hs IH Hx]; [by exists [], []|].
  destruct (Z.ltb_spec x ip).
  - destruct IH as (a & b & -> & Ha & Hb). exists (x :: a), b. split; [done|]. by split; [constructor|].
  - exists [], (x :: l). split; [done|]. split; [done|]. constructor; [done|].
    eapply Forall_impl; [exact Hx|]. cbn. lia.
Qed.

(** ** The ARP table *)

Definition table_lookup (t : list arp_entry) (ip : Z) : option (list Z) :=
  let l := bsearch (ae_ip <$> t) ip in
  if absent (ae_ip <$> t) ip l then None else ae_mac <$> t !! Z.to_nat l.

Definition table_sorted (t : list arp_entry) : Prop := sorted (ae_ip <$> t).

(** The lists of entries before and after [ip]. *)
Definition below (ip : Z) (t : list arp_entry) : Prop := Forall (fun e => ae_ip e < ip) t.
Definition above (ip : Z) (t : list arp_entry) : Prop := Forall (fun e => ip <= ae_ip e) t.

Lemma below_ips ip t : below ip t <-> Forall (fun y => y < ip) (ae_ip <$> t).
Proof. unfold below. by rewrite Forall_fmap. Qed.

Lemma above_ips ip t : above ip t <-> Forall (fun y => ip <= y) (ae_ip <$> t).
Proof. unfold above. by rewrite Forall_fmap. Qed.

Lemma table_split t ip :
  table_sorted t -> exists ta tb, t = ta ++ tb /\ below ip ta /\ above ip tb.
Proof.
  intros Hs. destruct (sorted_split _ ip Hs) as (a & b & Hab & Ha & Hb).
  apply fmap_app_inv in Hab as (ta & tb & -> & -> & ->). exists ta, tb.
  by rewrite below_ips, above_ips.
Qed.

Lemma table_bsearch ta e tb ip :
  below ip ta -> ip <= ae_ip e \/ tb = [] -> above ip (take (length tb - 1) tb) ->
  bsearch (ae_ip <$> ta ++ e :: tb) ip = Z.of_nat (length ta).
Proof.
  rewrite below_ips, above_ips, fmap_app, fmap_cons, fmap_take. intros Ha He Hb.
  rewrite bsearch_split; [unfold len_of; by rewrite length_fmap|done| |by rewrite length_fmap].
  destruct He as [He|He]; [by left|right]. by subst.
Qed.

Lemma table_lookup_cell ta e tb ip :
  below ip ta -> ip <= ae_ip e \/ tb = [] -> above ip (take (length tb - 1) tb) ->
  table_lookup (ta ++ e :: tb) ip = if decide (ae_ip e = ip) then Some (ae_mac e) else None.
Proof.
  intros Ha He Hb. unfold table_lookup. rewrite (table_bsearch ta e tb ip Ha He Hb).
  assert ((ae_ip <$> ta ++ e :: tb) !! Z.to_nat (Z.of_nat (length ta)) = Some (ae_ip e)) as Hl.
  { rewrite Nat2Z.id, list_lookup_fmap, list_lookup_middle by done. done. }
  case_decide as Hip.
  - rewrite (proj2 (absent_false _ ip (Z.of_nat (length ta)) (Nat2Z.is_nonneg _))) by congruence.
    by rewrite Nat2Z.id, list_lookup_middle.
  - destruct (absent _ _ _) eqn:Hab; [done|]. apply absent_false in Hab; [|lia]. congruence.
Qed.

Lemma above_take ip n t : above ip t -> above ip (take n t).
Proof. apply Forall_take. Qed.

(** Lookup in a sorted table finds exactly its entries. *)
Lemma table_lookup_spec t ip m :
  table_sorted t ->
  table_lookup t ip = Some m <-> exists e, e ∈ t /\ ae_ip e = ip /\ ae_mac e = m.
Proof.
  intros Hs. destruct (table_split t ip Hs) as (ta & tb & -> & Ha & Hb).
  unfold table_sorted, sorted in Hs. destruct tb as [|e tb].
  - rewrite app_nil_r in *. split.
    + destruct ta as [|e ta _] using rev_ind; [done|].
      apply Forall_app in Ha as [Ha He]. rewrite Forall_singleton in He.
      rewrite table_lookup_cell by (done || by right). case_decide; [lia|done].
    + intros (e & He & Hip & _). apply (proj1 (Forall_forall _ _) Ha) in He. lia.
  - apply Forall_cons in Hb as [He Hb].
    rewrite table_lookup_cell by (done || (by left) || by apply above_take). split.
    + case_decide; [|done]. intros [= <-]. exists e. split_and!; [|done|done]. set_solver.
    + intros (x & Hx & Hip & Hm). apply elem_of_app in Hx as [Hx|Hx].
      { apply (proj1 (Forall_forall _ _) Ha) in Hx. lia. }
      apply elem_of_cons in Hx as [->|Hx]; [by rewrite decide_True by done; f_equal|].
      exfalso. rewrite fmap_app, fmap_cons in Hs.
      apply StronglySorted_app_1_r, StronglySorted_cons in Hs as [Hlt _].
      rewrite Forall_fmap in Hlt. apply (proj1 (Forall_forall _ _) Hlt) in Hx. cbn in Hx. lia.
Qed.

(** What [ducknet_arp_update] does to the table; [None] when it is full. *)
Definition table_update (e : arp_entry) (t : list arp_entry) : option (list arp_entry) :=
  let ips := ae_ip <$> t in
  let l := bsearch ips (ae_ip e) in
  if absent ips (ae_ip e) l then
    if len_of ips =? ARP_TABLE_SIZE then None else Some (insert_at l e t)
  else Some (<[Z.to_nat l := e]> t).

Definition not_full (t : list arp_entry) : Prop := Z.of_nat (length t) <> ARP_TABLE_SIZE.

Lemma table_update_cell ta x tb e :
  below (ae_ip e) ta -> ae_ip e <= ae_ip x \/ tb = [] -> above (ae_ip e) (take (length tb - 1) tb) ->
  not_full (ta ++ x :: tb) ->
  table_update e (ta ++ x :: tb) =
    Some (if decide (ae_ip x = ae_ip e) then ta ++ e :: tb else ta ++ e :: x :: tb).
Proof.
  intros Ha Hx Hb Hf. unfold table_update.
  rewrite (table_bsearch ta x tb _ Ha Hx Hb).
  assert ((ae_ip <$> ta ++ x :: tb) !! Z.to_nat (Z.of_nat (length ta)) = Some (ae_ip x)) as Hl.
  { rewrite Nat2Z.id, list_lookup_fmap, list_lookup_middle by done. done. }
  case_decide as Hip.
  - rewrite (proj2 (absent_false _ _ (Z.of_nat (length ta)) (Nat2Z.is_nonneg _))) by congruence.
    rewrite Nat2Z.id. by rewrite insert_app_r_alt, Nat.sub_diag by lia.
  - destruct (absent _ _ _) eqn:Hab; [|apply absent_false in Hab; [congruence|lia]].
    rewrite (proj2 (Z.eqb_neq _ _)); [|unfold len_of; by rewrite length_fmap].
    unfold insert_at. rewrite Nat2Z.id. by rewrite take_app_length, drop_app_length.
Qed.

Lemma table_update_nil e : table_update e [] = Some [e].
Proof. done. Qed.

(** Where a new entry goes in a sorted table. *)
Lemma table_update_spec e t :
  table_sorted t -> not_full t ->
  exists ta tb t', table_update e t = Some t' /\ below (ae_ip e) ta /\
    ((t = ta ++ tb /\ t' = ta ++ e :: tb /\ Forall (fun x => ae_ip e < ae_ip x) tb /\
      (tb = [] -> ta = [])) \/
     (exists x, t = ta ++ x :: tb /\ ae_ip x = ae_ip e /\ t' = ta ++ e :: tb) \/
     (exists x, t = ta ++ [x] /\ ae_ip x < ae_ip e /\ t' = ta ++ [e; x] /\ tb = [])).
Proof.
  intros Hs Hf. destruct (table_split t (ae_ip e) Hs) as (ta & tb & -> & Ha & Hb).
  destruct tb as [|x tb].
  - destruct ta as [|x ta _] using rev_ind.
    + exists [], [], [e]. split; [done|]. split; [done|]. by left.
    + rewrite app_nil_r in *. apply Forall_app in Ha as [Ha Hx]. rewrite Forall_singleton in Hx.
      exists ta, [], (ta ++ [e; x]). rewrite table_update_cell by (done || by right).
      rewrite decide_False by lia. split; [done|]. split; [done|]. right; right. by exists x.
  - apply Forall_cons in Hb as [Hx Hb].
    rewrite table_update_cell by (done || (by left) || by apply above_take).
    case_decide as Hip.
    + exists ta, tb, (ta ++ e :: tb). split; [done|]. split; [done|]. right; left. by exists x.
    + exists ta, (x :: tb), (ta ++ e :: x :: tb). split; [done|]. split; [done|].
      left. split; [done|]. split; [done|]. split; [|done].
      unfold table_sorted, sorted in Hs. rewrite fmap_app, fmap_cons in Hs.
      apply StronglySorted_app_1_r, StronglySorted_cons in Hs as [Hlt _].
      rewrite Forall_fmap in Hlt. constructor; [lia|].
      eapply Forall_impl; [exact Hlt|]. cbn. lia.
Qed.

Lemma table_sorted_middle ta e tb :
  table_sorted (ta ++ e :: tb) <->
  table_sorted ta /\ table_sorted tb /\ below (ae_ip e) ta /\ Forall (fun x => ae_ip e < ae_ip x) tb /\
  (forall x y, x ∈ ta -> y ∈ tb -> ae_ip x < ae_ip y).
Proof.
  unfold table_sorted, sorted, below. rewrite fmap_app, fmap_cons, StronglySorted_app, StronglySorted_cons.
  setoid_rewrite elem_of_cons. rewrite Forall_fmap. setoid_rewrite list_elem_of_fmap.
  rewrite !Forall_forall. split.
  - intros (Hx & Ha & Hb & Htb). split_and!; try done.
    + intros x Hin. apply Hx; [by exists x|by left].
    + intros x y Hxa Hyb. apply Hx; [by exists x|right; by exists y].
  - intros (Ha & Htb & He & Hb & Hxy). split_and!; try done.
    intros ? ? (x & -> & Hxa) [->|(y & -> & Hyb)]; [by apply He|by apply Hxy].
Qed.

(** Entries of other addresses, under insertion and replacement. *)
Lemma lookup_other t t' ip :
  table_sorted t -> table_sorted t' ->
  (forall e, ae_ip e = ip -> e ∈ t <-> e ∈ t') -> table_lookup t ip = table_lookup t' ip.
Proof.
  intros Hs Hs' He. apply option_eq. intros m.
  rewrite !table_lookup_spec by done. naive_solver.
Qed.

Lemma table_update_sorted e t :
  table_sorted t -> not_full t -> (forall x, last t = Some x -> ae_ip e <= ae_ip x) ->
  exists t', table_update e t = Some t' /\ table_sorted t' /\
    forall x, ae_ip x <> ae_ip e -> x ∈ t <-> x ∈ t'.
Proof.
  intros Hs Hf Hlast. destruct (table_update_spec e t Hs Hf) as (ta & tb & t' & Hu & Ha & Hc).
  exists t'. split; [done|].
  destruct Hc as [(-> & -> & Hb & _)|[(x & -> & Hx & ->)|(x & -> & Hx & -> & _)]].
  - split.
    + unfold table_sorted, sorted in Hs. rewrite fmap_app, StronglySorted_app in Hs.
      destruct Hs as (Hxy & Hta & Htb). apply table_sorted_middle. split_and!; try done.
      intros x y Hx Hy. apply Hxy; by apply list_elem_of_fmap_2.
    + intros x Hx. rewrite !elem_of_app, elem_of_cons. naive_solver.
  - split.
    + apply table_sorted_middle. apply table_sorted_middle in Hs. rewrite <- Hx. tauto.
    + intros y Hy. rewrite !elem_of_app, !elem_of_cons. naive_solver.
  - specialize (Hlast x). rewrite last_snoc in Hlast. specialize (Hlast eq_refl). lia.
Qed.

Lemma table_update_lookup e t :
  table_sorted t -> not_full t ->
  exists t', table_update e t = Some t' /\ table_lookup t' (ae_ip e) = Some (ae_mac e).
Proof.
  intros Hs Hf. destruct (table_update_spec e t Hs Hf) as (ta & tb & t' & Hu & Ha & Hc).
  exists t'. split; [done|].
  destruct Hc as [(-> & -> & Hb & _)|[(x & -> & Hx & ->)|(x & -> & Hx & -> & _)]].
  - rewrite table_lookup_cell; [by rewrite decide_True|done|by left|].
    apply above_take. eapply Forall_impl; [exact Hb|]. cbn. lia.
  - rewrite table_lookup_cell; [by rewrite decide_True|done|by left|].
    apply above_take. apply table_sorted_middle in Hs as (_ & _ & _ & Hb & _).
    eapply Forall_impl; [exact Hb|]. cbn. lia.
  - rewrite table_lookup_cell; [by rewrite decide_True|done|by left|]. cbn. constructor.
Qed.

(** An address above all others hides the last entry. *)
Lemma table_update_hides e t x :
  table_sorted t -> not_full t -> last t = Some x -> ae_ip x < ae_ip e ->
  exists t', table_update e t = Some t' /\ table_lookup t (ae_ip x) = Some (ae_mac x) /\
    table_lookup t' (ae_ip x) = None.
Proof.
  intros Hs Hf Hlast Hlt. apply last_Some in Hlast as [ta ->].
  apply table_sorted_middle in Hs as (_ & _ & Ha & _ & _).
  assert (below (ae_ip e) ta) as Ha' by (eapply Forall_impl; [exact Ha|]; cbn; lia).
  eexists. rewrite table_update_cell; [split; [done|]|done|by right|constructor|done].
  rewrite decide_False by lia. split.
  - rewrite table_lookup_cell; [by rewrite decide_True|done|by left|constructor].
  - change (ta ++ [e; x]) with (ta ++ e :: [x]).
    rewrite table_lookup_cell; [by rewrite decide_False by lia|done|left; lia|constructor].
Qed.

(** ** The free map of waiting packets *)

Lemma land_1_testbit x i : 0 <= i -> Z.land (Z.shiftr x i) 1 = Z.b2z (Z.testbit x i).
Proof.
  intros Hi. change 1 with (Z.ones 1) at 1. rewrite Z.land_ones by lia.
  rewrite Z.shiftr_div_pow2 by lia. change (2 ^ 1) with 2. symmetry. by apply Z.testbit_spec'.
Qed.

Lemma lower_bit_loop_spec x : forall fuel i,
  0 <= i -> (exists j, i <= j < i + Z.of_nat fuel /\ Z.testbit x j = true) ->
  exists k, lower_bit_loop fuel x i = Some k /\ i <= k < i + Z.of_nat fuel /\
    Z.testbit x k = true /\ forall j, i <= j < k -> Z.testbit x j = false.
Proof.
  induction fuel as [|fuel IH]; intros i Hi (j & Hj & Hb); [lia|]. cbn [lower_bit_loop].
  rewrite land_1_testbit by done. destruct (Z.testbit x i) eqn:E; cbn [Z.b2z Z.eqb].
  - exists i. split_and!; [done|lia|lia|done|lia].
  - destruct (IH (i + 1)) as (k & -> & Hk & Hk1 & Hk2); [lia|exists j; split; [|done]|].
    { assert (i <> j) by congruence. lia. }
    exists k. split_and!; [done|lia|lia|done|]. intros j' Hj'.
    destruct (decide (j' = i)) as [->|]; [done|]. apply Hk2. lia.
Qed.

Lemma nonzero_has_bit x : is_uint 32 x -> x <> 0 -> exists j, 0 <= j < 32 /\ Z.testbit x j = true.
Proof.
  intros Hx Hne. unfold is_uint in Hx. exists (Z.log2 x). split.
  - split; [apply Z.log2_nonneg|]. apply Z.log2_lt_pow2; lia.
  - apply Z.bit_log2. lia.
Qed.

(** Termination of the unbounded loop and its result. *)
Lemma get_lower_bit_index_spec x :
  is_uint 32 x -> x <> 0 ->
  exists k, get_lower_bit_index x = Some k /\ 0 <= k < 32 /\ Z.testbit x k = true /\
    forall j, 0 <= j < k -> Z.testbit x j = false.
Proof. intros Hx Hne. apply (lower_bit_loop_spec x 32 0); [lia|]. by apply nonzero_has_bit. Qed.

Definition free_ok (s : ipv4_state) : Prop :=
  is_uint 32 (aget (tosend_free s) 0) /\ is_uint 32 (aget (tosend_free s) 1).

Lemma slot_word id : 0 <= id < 64 ->
  Z.shiftr id 5 = (if id <? 32 then 0 else 1) /\ Z.land id 31 = (if id <? 32 then id else id - 32).
Proof.
  intros Hid. rewrite Z.shiftr_div_pow2 by lia. change 31 with (2 ^ 5 - 1).
  rewrite land_mask by lia. change (2 ^ 5) with 32. case_if; split; dlia.
Qed.

Lemma land_bit w k : 0 <= k -> negb (Z.land w (Z.shiftl 1 k) =? 0) = Z.testbit w k.
Proof.
  intros Hk. destruct (Z.testbit w k) eqn:E.
  - rewrite (proj2 (Z.eqb_neq _ _)); [done|]. intros H0.
    assert (Z.testbit (Z.land w (Z.shiftl 1 k)) k = true) as Ht.
    { rewrite Z.land_spec, E, Z.shiftl_spec, Z.sub_diag by lia. done. }
    rewrite H0, Z.bits_0 in Ht. done.
  - rewrite (proj2 (Z.eqb_eq _ _)); [done|]. apply Z.bits_inj'. intros i Hi.
    rewrite Z.land_spec, Z.bits_0, Z.shiftl_spec by lia.
    destruct (decide (i = k)) as [->|]; [by rewrite E|].
    destruct (Z.ltb_spec i k); [by rewrite (Z.testbit_neg_r 1) by lia; rewrite andb_false_r|].
    replace (Z.testbit 1 (i - k)) with false; [by rewrite andb_false_r|].
    symmetry. change 1 with (2 ^ 0). apply Z.pow2_bits_false. lia.
Qed.

(** The bit of slot [id]. *)
Definition free_bit (s : ipv4_state) (id : Z) : bool :=
  Z.testbit (aget (tosend_free s) (if id <? 32 then 0 else 1)) (if id <? 32 then id else id - 32).

Lemma is_free_bit s id : 0 <= id < 64 -> is_free s id = free_bit s id.
Proof.
  intros Hid. unfold is_free, free_bit. destruct (slot_word id Hid) as [-> ->].
  apply land_bit. case_if; lia.
Qed.

Lemma testbit_set w k j : 0 <= k -> 0 <= j ->
  Z.testbit (Z.lor w (Z.shiftl 1 k)) j = (Z.testbit w j || (j =? k))%bool.
Proof.
  intros Hk Hj. rewrite Z.lor_spec, Z.shiftl_spec by lia. f_equal.
  destruct (Z.eqb_spec j k) as [->|Hne]; [by rewrite Z.sub_diag|].
  destruct (Z.ltb_spec j k); [by rewrite Z.testbit_neg_r by lia|].
  change 1 with (2 ^ 0). apply Z.pow2_bits_false. lia.
Qed.

Lemma testbit_clear w k j : 0 <= k < 32 -> 0 <= j < 32 ->
  Z.testbit (Z.land w (u32 (Z.lnot (Z.shiftl 1 k)))) j = (Z.testbit w j && negb (j =? k))%bool.
Proof.
  intros Hk Hj. rewrite Z.land_spec. unfold wrap. rewrite Z.mod_pow2_bits_low by lia.
  rewrite Z.lnot_spec, Z.shiftl_spec by lia. do 2 f_equal.
  destruct (Z.eqb_spec j k) as [->|Hne]; [by rewrite Z.sub_diag|].
  destruct (Z.ltb_spec j k); [by rewrite Z.testbit_neg_r by lia|].
  change 1 with (2 ^ 0). apply Z.pow2_bits_false. lia.
Qed.

Lemma free_bit_set b s id id' : 0 <= id < 64 -> 0 <= id' < 64 ->
  free_bit (set_free b id s) id' = if decide (id' = id) then b else free_bit s id'.
Proof.
  intros Hid Hid'. unfold free_bit, set_free. cbn [tosend_free].
  destruct (slot_word id Hid) as [-> ->]. rewrite aget_set.
  case_decide as Hw.
  - destruct b.
    + rewrite testbit_set by (repeat case_if; lia). case_decide; repeat case_if; subst;
        rewrite ?Z.eqb_refl, ?orb_true_r; try done; try lia;
        rewrite (proj2 (Z.eqb_neq _ _)) by lia; by rewrite orb_false_r.
    + rewrite testbit_clear by (repeat case_if; lia). case_decide; repeat case_if; subst;
        rewrite ?Z.eqb_refl, ?andb_false_r; try done; try lia;
        rewrite (proj2 (Z.eqb_neq _ _)) by lia; by rewrite andb_true_r.
  - case_decide; [|done]. subst. done.
Qed.

Lemma lor_uint a b : is_uint 32 a -> is_uint 32 b -> is_uint 32 (Z.lor a b).
Proof.
  unfold is_uint. intros Ha Hb.
  assert (Z.lor a b mod 2 ^ 32 = Z.lor a b) as <-; [|apply Z.mod_pos_bound; lia].
  apply Z.bits_inj'. intros i Hi. destruct (Z.ltb_spec i 32).
  - by rewrite Z.mod_pow2_bits_low.
  - rewrite Z.mod_pow2_bits_high by lia. rewrite Z.lor_spec.
    rewrite <- (Z.mod_small a (2 ^ 32)), <- (Z.mod_small b (2 ^ 32)) by lia.
    by rewrite !Z.mod_pow2_bits_high by lia.
Qed.

Lemma land_uint a b : is_uint 32 a -> is_uint 32 (Z.land a b).
Proof.
  unfold is_uint. intros Ha.
  assert (Z.land a b mod 2 ^ 32 = Z.land a b) as <-; [|apply Z.mod_pos_bound; lia].
  apply Z.bits_inj'. intros i Hi. destruct (Z.ltb_spec i 32).
  - by rewrite Z.mod_pow2_bits_low.
  - rewrite Z.mod_pow2_bits_high by lia. rewrite Z.land_spec.
    rewrite <- (Z.mod_small a (2 ^ 32)) by lia. by rewrite Z.mod_pow2_bits_high by lia.
Qed.

Lemma shiftl_1_uint k : 0 <= k < 32 -> is_uint 32 (Z.shiftl 1 k).
Proof.
  intros Hk. unfold is_uint. rewrite Z.shiftl_1_l. split; [apply Z.pow_nonneg; lia|].
  apply Z.pow_lt_mono_r; lia.
Qed.

Lemma free_ok_set b id s : 0 <= id < 64 -> free_ok s -> free_ok (set_free b id s).
Proof.
  intros Hid [H0 H1]. unfold free_ok, set_free. cbn [tosend_free].
  destruct (slot_word id Hid) as [-> ->].
  assert (is_uint 32 (Z.shiftl 1 (if id <? 32 then id else id - 32))) as Hm
    by (apply shiftl_1_uint; case_if; lia).
  rewrite !aget_set. destruct b, (id <? 32); repeat (case_decide; try lia); split; try done;
    (apply lor_uint || apply land_uint); done.
Qed.

Lemma find_tosend_free_spec s :
  free_ok s ->
  (0 <= find_tosend_free s < 64 /\ free_bit s (find_tosend_free s) = true /\
   (forall id, 0 <= id < find_tosend_free s -> free_bit s id = false)) \/
  (find_tosend_free s = -1 /\ forall id, 0 <= id < 64 -> free_bit s id = false).
Proof.
  intros [H0 H1]. unfold find_tosend_free, free_bit.
  destruct (Z.eqb_spec (aget (tosend_free s) 0) 0) as [E0|E0]; cbn [negb].
  - destruct (Z.eqb_spec (aget (tosend_free s) 1) 0) as [E1|E1]; cbn [negb].
    + right. split; [done|]. intros id Hid. case_if; by rewrite ?E0, ?E1, Z.bits_0.
    + left. destruct (get_lower_bit_index_spec _ H1 E1) as (k & -> & Hk & Hb & Hlow).
      cbn [default from_option id]. rewrite Z.lor_comm, lor_shiftl by (unfold is_uint; lia).
      change (1 * 2 ^ 5) with 32. rewrite (proj2 (Z.ltb_ge _ _)) by lia.
      replace (k + 32 - 32) with k by lia. split_and!; [lia|lia|done|].
      intros id Hid. case_if; [by rewrite E0, Z.bits_0|]. apply Hlow. lia.
  - left. destruct (get_lower_bit_index_spec _ H0 E0) as (k & -> & Hk & Hb & Hlow).
    cbn [default from_option id]. rewrite (proj2 (Z.ltb_lt _ _)) by lia.
    split_and!; [lia|lia|done|]. intros id Hid. rewrite (proj2 (Z.ltb_lt _ _)) by lia. by apply Hlow.
Qed.

(** ** Address parsing *)

(** The decimal text of a byte, without leading zeros. *)
Definition print_byte (b : Z) : list Z :=
  (if 100 <=? b then [b / 100 + 48] else []) ++
  (if 10 <=? b then [b / 10 mod 10 + 48] else []) ++ [b mod 10 + 48].

Definition print_ipv4 (ip : Z) : list Z :=
  print_byte (ip / 2 ^ 24 mod 256) ++ [46] ++ print_byte (ip / 2 ^ 16 mod 256) ++ [46] ++
  print_byte (ip / 2 ^ 8 mod 256) ++ [46] ++ print_byte (ip mod 256).

Lemma parse_digit c s a idx hn :
  48 <= c <= 57 -> 0 <= aget a idx * 10 + c - 48 <= 255 ->
  parse_loop (c :: s) a idx hn = parse_loop s (aset a idx (aget a idx * 10 + c - 48)) idx true.
Proof.
  intros Hc Hv. cbn [parse_loop].
  rewrite (proj2 (Z.eqb_neq c 46)), (proj2 (Z.ltb_ge c 48)), (proj2 (Z.ltb_ge 57 c)),
    (proj2 (Z.ltb_ge 255 _)) by lia. cbn [orb].
  by rewrite wrap_small by (unfold is_uint; lia).
Qed.

(** One printed byte is read into cell [idx]; other cells are untouched. *)
Lemma parse_byte b s a idx hn :
  0 <= b < 256 -> aget a idx = 0 ->
  exists a', parse_loop (print_byte b ++ s) a idx hn = parse_loop s a' idx true /\
    aget a' idx = b /\ forall k, k <> idx -> aget a' k = aget a k.
Proof.
  intros Hb Ha. unfold print_byte.
  assert (forall k, k <> idx -> forall v x, aget (aset x idx v) k = aget x k) as Hne
    by (intros; by rewrite aget_set_ne).
  destruct (Z.leb_spec 100 b).
  - rewrite (proj2 (Z.leb_le 10 b)) by lia. cbn [app].
    rewrite parse_digit; [|dlia|rewrite Ha; dlia]. rewrite parse_digit; [|dlia|].
    2: { rewrite aget_set_eq, Ha. dlia. }
    rewrite parse_digit; [|dlia|]. 2: { rewrite !aget_set_eq, Ha. dlia. }
    eexists. split; [done|]. split; [rewrite !aget_set_eq, Ha; dlia|].
    intros k Hk. by rewrite !aget_set_ne.
  - destruct (Z.leb_spec 10 b); cbn [app].
    + rewrite parse_digit; [|dlia|rewrite Ha; dlia]. rewrite parse_digit; [|dlia|].
      2: { rewrite aget_set_eq, Ha. dlia. }
      eexists. split; [done|]. split; [rewrite !aget_set_eq, Ha; dlia|].
      intros k Hk. by rewrite !aget_set_ne.
    + rewrite parse_digit; [|dlia|rewrite Ha; dlia].
      eexists. split; [done|]. split; [rewrite !aget_set_eq, Ha; dlia|].
      intros k Hk. by rewrite !aget_set_ne.
Qed.

Lemma print_byte_dots b : 0 <= b < 256 -> List.filter (fun c => c =? 46) (print_byte b) = [].
Proof.
  intros Hb. unfold print_byte.
  assert (forall c, 48 <= c -> (c =? 46) = false) as Hc by (intros; apply Z.eqb_neq; lia).
  destruct (100 <=? b), (10 <=? b); cbn [app List.filter]; rewrite !Hc; done || dlia.
Qed.

Lemma parse_dot s a idx : parse_loop (46 :: s) a idx true = parse_loop s a (idx + 1) false.
Proof. done. Qed.
