(* ===== verification/DucknetClaims.v ===== *)
(** * What ducknet guarantees

    The ARP table, packets that wait for an address, datagrams from one stack
    to another, echo replies and the size of every frame. *)

From stdpp Require Import sorting.
From S2P Require Import Prelude DucknetUtils Ducknet DucknetProofs.

Section arp.
Context {D : Type} `{ND : NetDriver D}.
Implicit Types n : net D.

Lemma ducknet_arp_update_table ip m n :
  ducknet_arp_update ip m n =
  match table_update (mkEntry ip m (time_add_ms n ARP_EXPIRE_TIMEOUT_MS)) (arp_table (arp n)) with
  | Some t => (0, set_arp (mkArp t (arp_query_table (arp n)) (arp_last_idle (arp n))
                             (arp_idle_delay (arp n)) (arp_cnt (arp n))) n)
  | None => (-1, n)
  end.
Proof.
  unfold ducknet_arp_update, table_update. cbn [ae_ip]. destruct (absent _ _ _); [|done].
  by destruct (_ =? _).
Qed.

(** C11: In a sorted ARP table with room, an update succeeds and the address
    is found afterwards with the new hardware address; when the address is
    not larger than all others the table stays sorted and every other address
    resolves as before. Lookup in a sorted table finds exactly its entries. *)
Theorem arp_update_lookup ip m n :
  table_sorted (arp_table (arp n)) -> not_full (arp_table (arp n)) ->
  exists n', ducknet_arp_update ip m n = (0, n') /\
    ducknet_arp_lookup ip n' = Some m /\
    ((forall x, last (arp_table (arp n)) = Some x -> ip <= ae_ip x) ->
     table_sorted (arp_table (arp n')) /\
     forall ip', ip' <> ip ->
       ducknet_arp_lookup ip' n' = ducknet_arp_lookup ip' n /\
       (forall m', ducknet_arp_lookup ip' n' = Some m' <->
          exists e, e ∈ arp_table (arp n) /\ ae_ip e = ip' /\ ae_mac e = m')).
Proof.
  intros Hs Hf. rewrite ducknet_arp_update_table.
  set (e := mkEntry ip m (time_add_ms n ARP_EXPIRE_TIMEOUT_MS)).
  destruct (table_update_lookup e _ Hs Hf) as (t' & Hu & Hl). rewrite Hu.
  eexists. split; [done|]. split; [exact Hl|]. intros Hlast. cbn [arp arp_table set_arp].
  destruct (table_update_sorted e _ Hs Hf Hlast) as (t2 & Hu2 & Hs2 & Ho).
  rewrite Hu in Hu2. injection Hu2 as <-. split; [done|]. intros ip' Hip.
  assert (table_lookup t' ip' = table_lookup (arp_table (arp n)) ip') as E.
  { symmetry. apply lookup_other; [done|done|]. intros x Hx. apply Ho. cbn. congruence. }
  split; [exact E|]. intros m'. etrans; [|by apply table_lookup_spec].
  change (ducknet_arp_lookup ip' _) with (table_lookup t' ip'). by rewrite E.
Qed.

(** Storing an address larger than all others puts it before the last
    entry, and the last address, which resolved until then, is no longer
    found. *)
Theorem arp_update_hides_last ip m n x :
  table_sorted (arp_table (arp n)) -> not_full (arp_table (arp n)) ->
  last (arp_table (arp n)) = Some x -> ae_ip x < ip ->
  exists n', ducknet_arp_update ip m n = (0, n') /\
    ducknet_arp_lookup (ae_ip x) n = Some (ae_mac x) /\
    ducknet_arp_lookup (ae_ip x) n' = None.
Proof.
  intros Hs Hf Hl Hx. rewrite ducknet_arp_update_table.
  set (e := mkEntry ip m (time_add_ms n ARP_EXPIRE_TIMEOUT_MS)).
  destruct (table_update_hides e _ x Hs Hf Hl Hx) as (t' & -> & H1 & H2).
  eexists. split; [done|]. split; [exact H1|exact H2].
Qed.
End arp.

(** A driver that records the frames it is given. *)
#[export] Instance recording_driver : NetDriver (list (list Z)) := {|
  drv_tsc d := (1000000, d);
  drv_send := Some (fun p d => (0, d ++ [p]));
  drv_recv := Some (fun d => (inl (-1), d));
  drv_flush := Some (fun d => (0, d))
|}.

Definition net_static : net (list (list Z)) :=
  mkNet 0 0 (mkPhy false 0 0 0) (replicate 6 0) 0 (mkArp [] [] 0 0 0)
    (mkIp 0 0 0 (anew 64) (anew 2) 0 0 0) [].

(** 10.0.2.15/24 with gateway 10.0.2.2 *)
Definition example_config : DucknetConfig :=
  mkConfig 3000000000 [82; 84; 0; 18; 52; 86] 167772687 167772674 24.

Definition example_net : net (list (list Z)) := (ducknet_init example_config net_static).2.

Definition gateway_mac : list Z := [82; 85; 10; 0; 2; 2].

(** The example stack after the gateway has answered. *)
Definition resolved_net : net (list (list Z)) :=
  (ducknet_arp_update 167772674 gateway_mac example_net).2.

Lemma resolved_table :
  arp_table (arp resolved_net) = [mkEntry 167772674 gateway_mac (ducknet_time_add_ms 3000000000 1000000 30000)].
Proof. reflexivity. Qed.

Lemma resolved_sorted : table_sorted (arp_table (arp resolved_net)).
Proof. rewrite resolved_table. repeat constructor. Qed.

Lemma arp_update_lookup_witness :
  exists n', ducknet_arp_update 167772672 [1; 2; 3; 4; 5; 6] resolved_net = (0, n') /\
    ducknet_arp_lookup 167772672 n' = Some [1; 2; 3; 4; 5; 6].
Proof.
  destruct (arp_update_lookup 167772672 [1; 2; 3; 4; 5; 6] resolved_net resolved_sorted)
    as (n' & E & Hl & _).
  - unfold not_full. rewrite resolved_table. cbn. unfold ARP_TABLE_SIZE. lia.
  - exists n'. split; [exact E|exact Hl].
Defined.

Lemma arp_update_hides_last_witness :
  exists n', ducknet_arp_update 167772687 [1; 2; 3; 4; 5; 6] resolved_net = (0, n') /\
    ducknet_arp_lookup 167772674 resolved_net = Some gateway_mac /\
    ducknet_arp_lookup 167772674 n' = None.
Proof.
  apply (arp_update_hides_last 167772687 [1; 2; 3; 4; 5; 6] resolved_net
    (mkEntry 167772674 gateway_mac (ducknet_time_add_ms 3000000000 1000000 30000)) resolved_sorted).
  - unfold not_full. rewrite resolved_table. cbn. unfold ARP_TABLE_SIZE. lia.
  - by rewrite resolved_table.
  - cbn. lia.
Defined.

(** ** Frames *)

Section frames.
Context {D : Type} `{ND : NetDriver D}.
Implicit Types n : net D.

(** A configured stack. *)
Definition node_ok n : Prop := is_mac (mac n) /\ is_uint 32 (my_ip (ipv4 n)) /\ MTU n = 1500.

(** The IPv4 header of a packet from [n] in host order. *)
Definition ip_host_header n (dst_ip proto len sum : Z) : DucknetIPv4Header :=
  mkIPv4 4 5 0 (len + 20) 2333 0 233 proto sum (my_ip (ipv4 n)) dst_ip.

(** The checksum the header carries. *)
Definition ip_sum n (dst_ip proto len : Z) : Z :=
  ducknet_checksum (ipv4_bytes (ducknet_ipv4_hton (ip_host_header n dst_ip proto len 0))) 0.

Definition ip_header n (dst_ip proto len : Z) : DucknetIPv4Header :=
  ip_host_header n dst_ip proto len (ip_sum n dst_ip proto len).

(** The frame with an IPv4 packet to the hardware address [m]. *)
Definition ipv4_frame (m : list Z) n (dst_ip proto : Z) (payload : list Z) : list Z :=
  ether_bytes (mkEther m (mac n) (ducknet_htons ETHERTYPE_IPv4)) ++
  ipv4_bytes (ducknet_ipv4_hton (ip_header n dst_ip proto (len_of payload))) ++ payload.

Lemma ducknet_checksum_range a s : is_uint 16 (ducknet_checksum a s).
Proof. apply wrap_range. lia. Qed.

Lemma ip_header_ok n dst_ip proto len sum :
  node_ok n -> is_uint 32 dst_ip -> is_byte proto -> 0 <= len <= 1480 -> is_uint 16 sum ->
  ipv4_ok (ip_host_header n dst_ip proto len sum).
Proof.
  intros (_ & ? & _) ? ? ? ?. unfold ipv4_ok, is_byte. cbn. split_and!; try done; ulia.
Qed.

Lemma ipv4_build_packet_spec n dst_ip proto payload m :
  MTU n = 1500 -> len_of payload <= 1480 ->
  exists pkt, ipv4_build_packet dst_ip proto payload n = Some pkt /\
    m ++ pkt = ipv4_frame m n dst_ip proto payload.
Proof.
  intros Hm Hl. pose proof (len_of_pos payload). unfold ipv4_build_packet. rewrite Hm.
  rewrite (proj2 (Z.ltb_ge _ _)), (proj2 (Z.ltb_ge _ _)) by lia.
  rewrite !(wrap_small 16) by (unfold is_uint; lia). eexists. split; [done|].
  unfold ipv4_frame, ip_header, ip_sum, ip_host_header, ether_bytes, ducknet_ipv4_hton.
  cbn [eth_dst eth_src ethertype version ihl tos length_ id_ flags ttl protocol checksum src dst].
  generalize (ducknet_checksum (ipv4_bytes (mkIPv4 5 4 0 (ducknet_htons (len_of payload + 20))
    (ducknet_htons 2333) (ducknet_htons 0) 233 proto 0 (ducknet_htonl (my_ip (ipv4 n)))
    (ducknet_htonl dst_ip))) 0) as sum. intros sum. by rewrite <- !app_assoc.
Qed.

(** Where a packet to [dst_ip] is sent on the link. *)
Definition next_hop n (dst_ip : Z) : Z :=
  if match_prefix dst_ip (my_ip (ipv4 n)) (prefix_len (ipv4 n)) then dst_ip
  else gateway_ip (ipv4 n).

Lemma ipv4_send_resolved scb dst_ip proto payload n m :
  MTU n = 1500 -> len_of payload <= 1480 -> ducknet_arp_lookup (next_hop n dst_ip) n = Some m ->
  ducknet_ipv4_send scb dst_ip proto payload n =
  ducknet_phy_send scb (ipv4_frame m n dst_ip proto payload) n.
Proof.
  intros Hm Hl Ha. unfold ducknet_ipv4_send. fold (next_hop n dst_ip). rewrite Ha.
  destruct (ipv4_build_packet_spec n dst_ip proto payload m Hm Hl) as (pkt & -> & E). by rewrite E.
Qed.

Lemma ip_header_store n dst_ip proto len sum :
  store_le 2 10 sum (ipv4_bytes (ducknet_ipv4_hton (ip_host_header n dst_ip proto len 0))) =
  ipv4_bytes (ducknet_ipv4_hton (ip_host_header n dst_ip proto len sum)).
Proof. reflexivity. Qed.

(** The header checksum of a frame verifies. *)
Lemma ip_header_checksum n dst_ip proto len :
  ducknet_checksum (ipv4_bytes (ducknet_ipv4_hton (ip_header n dst_ip proto len))) 0 = 0.
Proof.
  unfold ip_header. rewrite <- ip_header_store. unfold ip_sum.
  set (l := ipv4_bytes (ducknet_ipv4_hton (ip_host_header n dst_ip proto len 0))).
  apply checksum_store_zero.
  - by exists 5%nat.
  - unfold l. rewrite length_ipv4_bytes. lia.
  - unfold l, ipv4_bytes. cbn [version ihl ducknet_ipv4_hton ip_host_header].
    constructor; [unfold is_byte, is_uint; lia|].
    repeat (apply Forall_app; split); apply le_bytes_are_bytes.
  - reflexivity.
  - lia.
  - unfold l. rewrite length_ipv4_bytes. lia.
Qed.

Lemma is_equal_refl m : is_equal m m = true.
Proof. unfold is_equal. by rewrite !Z.eqb_refl. Qed.

End frames.

(** A frame is accepted by the stack it is addressed to, which sees the
    header fields and the payload of the sender. *)
Lemma receive_ipv4_frame {D1 D : Type} `{ND : NetDriver D} scb acb icb ucb m (n : net D1) (n2 : net D) dst_ip proto payload :
  node_ok n -> node_ok n2 -> mac n2 = m -> my_ip (ipv4 n2) = dst_ip ->
  is_byte proto -> len_of payload <= 1480 ->
  ducknet_packet_handle None scb None acb None icb ucb (ipv4_frame m n dst_ip proto payload) n2 =
  if proto =? IPv4_ICMP then ducknet_icmp_packet_handle scb icb (my_ip (ipv4 n)) dst_ip payload n2
  else if proto =? IPv4_UDP then ducknet_udp_packet_handle ucb (my_ip (ipv4 n)) dst_ip payload n2
  else (-1, n2).
Proof.
  intros Hn Hn2 Hm Hip Hp Hl. pose proof (len_of_pos payload).
  pose proof Hn as (Hmac & Hmy & HM). pose proof Hn2 as (Hmac2 & Hmy2 & _).
  assert (ether_ok (mkEther m (mac n) (ducknet_htons ETHERTYPE_IPv4))) as Heth.
  { split; [by subst|]. split; [done|]. apply htons_range. }
  assert (ipv4_ok (ip_header n dst_ip proto (len_of payload))) as Hiph.
  { apply ip_header_ok; [done|by subst|done|lia|apply ducknet_checksum_range]. }
  unfold ducknet_packet_handle, ducknet_phy_packet_handle, ducknet_ether_packet_handle, ipv4_frame.
  cbn [with_cb]. set (ipl := ipv4_bytes _ ++ payload).
  rewrite len_of_app. unfold len_of at 1. rewrite (length_ether_bytes _ Heth).
  rewrite (proj2 (Z.ltb_ge _ _)) by (pose proof (len_of_pos ipl); lia).
  rewrite (ether_image _ ipl Heth), drop_app_length' by (by rewrite (length_ether_bytes _ Heth)).
  rewrite (ether_image _ ipl (ether_hton_ok _ Heth)).
  rewrite drop_app_length' by (by rewrite (length_ether_bytes _ (ether_hton_ok _ Heth))).
  cbn [eth_dst ethertype ducknet_ether_hton]. rewrite htons_htons by done.
  rewrite <- Hm, is_equal_refl. cbn [negb andb Z.eqb Pos.eqb ETHERTYPE_IPv4 ETHERTYPE_ARP].
  unfold ducknet_ipv4_packet_handle, ipl.
  rewrite len_of_app. unfold len_of at 1. rewrite length_ipv4_bytes.
  rewrite (proj2 (Z.ltb_ge _ _)) by lia. cbn [with_cb].
  rewrite (ipv4_image _ payload (ipv4_hton_ok _ Hiph)), drop_app_length' by done.
  rewrite (ipv4_hton_hton _ Hiph), (ipv4_image _ payload Hiph).
  cbn [version ihl length_ flags dst src protocol ip_header ip_host_header Z.eqb Pos.eqb negb].
  unfold len_of at 1. rewrite length_ipv4_bytes.
  rewrite (proj2 (Z.ltb_ge _ _)) by lia. change (Z.land 0 _) with 0. cbn [Z.eqb negb].
  rewrite Hip, Z.eqb_refl, orb_true_r. cbn [negb].
  unfold sub_bytes. rewrite drop_app_length' by done.
  rewrite take_ge by (unfold len_of; lia). done.
Qed.

(** ** Datagrams and echo *)

Section datagrams.
Context {D : Type} `{ND : NetDriver D}.
Implicit Types n : net D.

(** The sum of the pseudo header, as [ducknet_udp_send] computes it. *)
Definition pseudo_sum (src_ip dst_ip udp_len : Z) : Z :=
  ducknet_checksum_sum (udp_pseudo_header src_ip dst_ip udp_len).

Definition udp_sum (src_ip dst_ip dp sp : Z) (payload : list Z) : Z :=
  ducknet_checksum
    (udp_bytes (ducknet_udp_hton (mkUDP sp dp (len_of payload + 8) 0)) ++ payload)
    (pseudo_sum src_ip dst_ip (len_of payload + 8)).

(** The datagram in network order. *)
Definition udp_datagram (src_ip dst_ip dp sp : Z) (payload : list Z) : list Z :=
  udp_bytes (ducknet_udp_hton
    (mkUDP sp dp (len_of payload + 8) (udp_sum src_ip dst_ip dp sp payload))) ++ payload.

Lemma ducknet_checksum_sum_words a :
  Forall is_byte a -> (length a <= 12)%nat -> 0 <= ducknet_checksum_sum a < 2 ^ 20.
Proof.
  intros Hb Hl. unfold ducknet_checksum_sum. rewrite checksum_loop_sum by (unfold is_uint; lia).
  pose proof (words_sum_range a Hb). rewrite wrap_small by (unfold is_uint; lia). lia.
Qed.

Lemma pseudo_sum_range s d l : 0 <= pseudo_sum s d l < 2 ^ 20.
Proof.
  unfold pseudo_sum, udp_pseudo_header. apply ducknet_checksum_sum_words.
  - repeat (apply Forall_app; split); try apply le_bytes_are_bytes.
    repeat constructor; unfold IPv4_UDP; lia.
  - rewrite !length_app, !length_le_bytes. cbn. lia.
Qed.

Lemma udp_store sp dp len sum payload :
  store_le 2 6 sum (udp_bytes (ducknet_udp_hton (mkUDP sp dp len 0)) ++ payload) =
  udp_bytes (ducknet_udp_hton (mkUDP sp dp len sum)) ++ payload.
Proof. reflexivity. Qed.

Lemma udp_bytes_are_bytes h : Forall is_byte (udp_bytes h).
Proof. unfold udp_bytes. repeat (apply Forall_app; split); apply le_bytes_are_bytes. Qed.

Lemma udp_datagram_checksum s d dp sp payload :
  Forall is_byte payload -> len_of payload <= 1472 ->
  ducknet_checksum (udp_datagram s d dp sp payload) (pseudo_sum s d (len_of payload + 8)) = 0.
Proof.
  intros Hb Hl. unfold udp_datagram. rewrite <- udp_store. unfold udp_sum.
  pose proof (pseudo_sum_range s d (len_of payload + 8)).
  apply checksum_store_zero.
  - by exists 3%nat.
  - rewrite length_app, length_udp_bytes. lia.
  - apply Forall_app. split; [apply udp_bytes_are_bytes|done].
  - reflexivity.
  - lia.
  - rewrite length_app, length_udp_bytes. unfold len_of in Hl. lia.
Qed.

Lemma udp_send_datagram scb dst_ip dp sp payload n :
  MTU n = 1500 -> len_of payload <= 1472 ->
  ducknet_udp_send scb dst_ip dp sp payload n =
  ducknet_ipv4_send scb dst_ip IPv4_UDP (udp_datagram (my_ip (ipv4 n)) dst_ip dp sp payload) n.
Proof.
  intros Hm Hl. pose proof (len_of_pos payload). unfold ducknet_udp_send. rewrite Hm.
  rewrite (proj2 (Z.ltb_ge _ _)), (proj2 (Z.ltb_ge _ _)) by lia.
  rewrite !(wrap_small 16) by (unfold is_uint; lia).
  unfold udp_datagram, udp_sum, pseudo_sum, ducknet_udp_hton.
  cbn [sport dport udp_length udp_checksum]. reflexivity.
Qed.

Lemma len_of_udp_datagram s d dp sp payload :
  len_of (udp_datagram s d dp sp payload) = len_of payload + 8.
Proof. unfold udp_datagram. rewrite len_of_app. unfold len_of at 1. rewrite length_udp_bytes. lia. Qed.

(** The stack a datagram is addressed to hands it to its callback. *)
Lemma udp_delivery {D1 : Type} scb acb icb f (n : net D1) n2 m dst_ip dp sp payload :
  node_ok n -> node_ok n2 -> mac n2 = m -> my_ip (ipv4 n2) = dst_ip -> is_uint 16 dp -> is_uint 16 sp -> len_of payload <= 1472 ->
  let sum := udp_sum (my_ip (ipv4 n)) dst_ip dp sp payload in
  ducknet_packet_handle None scb None acb None icb (Some f)
    (ipv4_frame m n dst_ip IPv4_UDP (udp_datagram (my_ip (ipv4 n)) dst_ip dp sp payload)) n2 =
  (let '(r, _, n') := f (my_ip (ipv4 n)) dst_ip (udp_bytes (mkUDP sp dp (len_of payload + 8) sum) ++ payload) n2 in
   if r <? 0 then (r, n') else (0, n')).
Proof.
  intros Hn Hn2 Hm Hip Hdp Hsp Hl sum. pose proof (len_of_pos payload).
  set (dg := udp_datagram (my_ip (ipv4 n)) dst_ip dp sp payload).
  assert (len_of dg = len_of payload + 8) as Hdg by apply len_of_udp_datagram.
  assert (udp_ok (mkUDP sp dp (len_of payload + 8) sum)) as Hu.
  { split_and!; try done; [|apply ducknet_checksum_range]. cbn. ulia. }
  rewrite receive_ipv4_frame by (done || lia). cbn [Z.eqb Pos.eqb IPv4_UDP IPv4_ICMP].
  unfold ducknet_udp_packet_handle. rewrite (proj2 (Z.ltb_ge _ _)) by lia.
  cbn [with_cb option_map]. unfold dg, udp_datagram. fold sum.
  rewrite (udp_image _ payload (udp_hton_ok _ Hu)), (udp_hton_hton _ Hu).
  by rewrite drop_app_length' by done.
Qed.

(** C4: A datagram of up to 1472 bytes sent to a resolved address leaves the
    sender as one frame, and the stack with that hardware and IP address hands
    its UDP callback the sender's address, both ports, the length and the
    unchanged payload; both checksums of the frame verify. *)
Theorem udp_end_to_end scb acb icb f dst_ip dp sp payload n n2 m :
  node_ok n -> node_ok n2 -> mac n2 = m -> my_ip (ipv4 n2) = dst_ip ->
  ducknet_arp_lookup (next_hop n dst_ip) n = Some m ->
  is_uint 16 dp -> is_uint 16 sp -> Forall is_byte payload -> len_of payload <= 1472 ->
  let sum := udp_sum (my_ip (ipv4 n)) dst_ip dp sp payload in
  exists frame,
    ducknet_udp_send scb dst_ip dp sp payload n = ducknet_phy_send scb frame n /\
    ducknet_packet_handle None scb None acb None icb (Some f) frame n2 =
      (let '(r, _, n') := f (my_ip (ipv4 n)) dst_ip
         (udp_bytes (mkUDP sp dp (len_of payload + 8) sum) ++ payload) n2 in
       if r <? 0 then (r, n') else (0, n')) /\
    ducknet_checksum (sub_bytes 14 20 frame) 0 = 0 /\
    ducknet_checksum (drop 34 frame)
      (pseudo_sum (my_ip (ipv4 n)) dst_ip (len_of payload + 8)) = 0.
Proof.
  intros Hn Hn2 Hm Hip Ha Hdp Hsp Hb Hl sum. pose proof (len_of_pos payload).
  set (dg := udp_datagram (my_ip (ipv4 n)) dst_ip dp sp payload).
  assert (len_of dg = len_of payload + 8) as Hdg by apply len_of_udp_datagram.
  exists (ipv4_frame m n dst_ip IPv4_UDP dg). pose proof Hn as (Hmac & Hmy & HM).
  assert (length (ether_bytes (mkEther m (mac n) (ducknet_htons ETHERTYPE_IPv4))) = 14%nat) as H14.
  { apply length_ether_bytes. split; [|split; [done|apply htons_range]]. subst m. apply Hn2. }
  split_and!.
  - rewrite udp_send_datagram by done. by apply ipv4_send_resolved; [|lia|].
  - by apply udp_delivery.
  - unfold ipv4_frame, sub_bytes. rewrite drop_app_length' by done.
    rewrite take_app_length' by done. apply ip_header_checksum.
  - unfold ipv4_frame. rewrite app_assoc, drop_app_length'.
    + by apply udp_datagram_checksum.
    + by rewrite length_app, H14, length_ipv4_bytes.
Qed.

(** The echo message in network order. *)
Definition echo (type sum rst : Z) (data : list Z) : list Z :=
  icmp_bytes (mkICMP type 0 sum rst) ++ data.

Definition echo_sum (rst : Z) (data : list Z) : Z :=
  ducknet_checksum (echo ICMP_ECHO_REPLY 0 rst data) 0.

Lemma echo_store rst data sum :
  store_le 2 2 sum (echo ICMP_ECHO_REPLY 0 rst data) = echo ICMP_ECHO_REPLY sum rst data.
Proof. reflexivity. Qed.

(** A stack answers every echo request that reaches it with one frame to
    the sender's address: the same identifier, sequence number and data, type
    0, and a checksum that verifies. *)
Theorem icmp_echo_reply scb acb ucb n n2 m sum rst data :
  node_ok n -> node_ok n2 -> is_uint 16 sum -> is_uint 32 rst -> Forall is_byte data ->
  len_of data <= 1472 -> ducknet_arp_lookup (next_hop n2 (my_ip (ipv4 n))) n2 = Some m ->
  let reply := echo ICMP_ECHO_REPLY (echo_sum rst data) rst data in
  ducknet_packet_handle None scb None acb None None ucb
    (ipv4_frame (mac n2) n (my_ip (ipv4 n2)) IPv4_ICMP (echo ICMP_ECHO_REQUEST sum rst data)) n2 =
  (0, (ducknet_phy_send scb (ipv4_frame m n2 (my_ip (ipv4 n)) IPv4_ICMP reply) n2).2) /\
  ducknet_checksum reply 0 = 0.
Proof.
  intros Hn Hn2 Hs Hr Hb Hl Ha reply. pose proof (len_of_pos data).
  assert (forall t c, len_of (echo t c rst data) = len_of data + 8) as He.
  { intros. unfold echo. rewrite len_of_app. unfold len_of at 1. rewrite length_icmp_bytes. lia. }
  split.
  - rewrite receive_ipv4_frame; [|done|done|done|done|done|rewrite He; lia].
    cbn [Z.eqb Pos.eqb IPv4_ICMP]. unfold ducknet_icmp_packet_handle.
    rewrite He, (proj2 (Z.ltb_ge _ _)) by lia. cbn [with_cb option_map].
    unfold echo at 1 2 3 4 5 6 7 8. rewrite !icmp_image by (by split_and!).
    cbn [type_ code rest Z.eqb Pos.eqb ICMP_ECHO_REQUEST negb].
    rewrite !drop_app_length' by done.
    change (icmp_bytes (mkICMP ICMP_ECHO_REPLY 0 0 rst) ++ data)
      with (echo ICMP_ECHO_REPLY 0 rst data).
    fold (echo_sum rst data).
    change (icmp_bytes (mkICMP ICMP_ECHO_REPLY 0 (echo_sum rst data) rst) ++ data) with reply.
    rewrite (ipv4_send_resolved scb _ _ _ n2 m);
      [|by destruct Hn2 as (_ & _ & ?)|unfold reply; rewrite He; lia|done].
    by destruct (ducknet_phy_send _ _ _).
  - unfold reply. rewrite <- echo_store. unfold echo_sum. apply checksum_store_zero.
    + by exists 1%nat.
    + unfold echo. rewrite length_app, length_icmp_bytes. lia.
    + unfold echo. apply Forall_app. split; [|done]. unfold icmp_bytes.
      repeat (apply Forall_app; split); apply le_bytes_are_bytes.
    + reflexivity.
    + lia.
    + unfold echo. rewrite length_app, length_icmp_bytes. unfold len_of in Hl. lia.
Qed.
End datagrams.

(** The gateway of the example, with its own stack. *)
Definition gateway_config : DucknetConfig := mkConfig 3000000000 gateway_mac 167772674 167772674 24.
Definition gateway_net : net (list (list Z)) :=
  (ducknet_arp_update 167772687 [82; 84; 0; 18; 52; 86] (ducknet_init gateway_config net_static).2).2.

Lemma example_node_ok : node_ok resolved_net.
Proof. unfold node_ok, is_mac, is_byte, is_uint. split_and!; try (vm_compute; done). repeat constructor; vm_compute; done. Qed.

Lemma gateway_node_ok : node_ok gateway_net.
Proof. unfold node_ok, is_mac, is_byte, is_uint. split_and!; try (vm_compute; done). repeat constructor; vm_compute; done. Qed.

Definition ack (s d : Z) (p : list Z) (n : net (list (list Z))) : Z * list Z * net (list (list Z)) := (0, p, n).

Lemma udp_end_to_end_witness :
  exists frame,
    ducknet_udp_send None 167772674 53 4000 [1; 2; 3] resolved_net =
      ducknet_phy_send None frame resolved_net /\
    (ducknet_packet_handle None None None None None None (Some ack) frame gateway_net).1 = 0.
Proof.
  destruct (udp_end_to_end None None None ack 167772674 53 4000 [1; 2; 3] resolved_net gateway_net
    gateway_mac example_node_ok gateway_node_ok) as (frame & E1 & E2 & _).
  - reflexivity.
  - reflexivity.
  - reflexivity.
  - unfold is_uint. lia.
  - unfold is_uint. lia.
  - repeat constructor; unfold is_byte, is_uint; lia.
  - vm_compute. congruence.
  - exists frame. split; [exact E1|]. exact (f_equal fst E2).
Defined.

Lemma icmp_echo_reply_witness :
  ducknet_checksum (echo ICMP_ECHO_REPLY (echo_sum 7 [1; 2; 3]) 7 [1; 2; 3]) 0 = 0.
Proof.
  apply (icmp_echo_reply None None None resolved_net gateway_net [82; 84; 0; 18; 52; 86] 0 7 [1; 2; 3]
    example_node_ok gateway_node_ok).
  - unfold is_uint. lia.
  - unfold is_uint. lia.
  - repeat constructor; unfold is_byte, is_uint; lia.
  - vm_compute. congruence.
  - reflexivity.
Defined.

(** ** Packets waiting for an address *)

Section queue.
Context {D : Type} `{ND : NetDriver D}.
Implicit Types n : net D.

(** Without a send callback, sending changes the driver and the flush flag. *)
Definition same_tables n n' : Prop :=
  tsc_freq n' = tsc_freq n /\ currenttime n' = currenttime n /\ mac n' = mac n /\ MTU n' = MTU n /\
  arp_table (arp n') = arp_table (arp n) /\ ipv4 n' = ipv4 n.

Lemma phy_send_tables p n : same_tables n (ducknet_phy_send None p n).2.
Proof. unfold ducknet_phy_send. destruct drv_send as [s|]; [|done]. cbn. by destruct (s p _). Qed.

Lemma arp_send_tables m o p n : same_tables n (ducknet_arp_send None m o p n).2.
Proof. unfold ducknet_arp_send. repeat case_if; try done. apply phy_send_tables. Qed.

Lemma arp_query_tables ip n : same_tables n (ducknet_arp_query None ip n).2.
Proof.
  unfold ducknet_arp_query. repeat case_if; try done.
  match goal with |- context [ducknet_arp_send None ?m ?o ?p ?n0] =>
    pose proof (arp_send_tables m o p n0) as H0 end. exact H0.
Qed.

Lemma is_free_set b s id : 0 <= id < 64 -> is_free (set_free b id s) id = b.
Proof. intros. rewrite is_free_bit, free_bit_set by done. by rewrite decide_True. Qed.

Lemma slot_entry b id e s : aget (tosend_table (set_free b id (set_tosend id e s))) id = e.
Proof. unfold set_free, set_tosend. cbn [tosend_table]. apply aget_set_eq. Qed.

End queue.

Lemma example_free_ok : free_ok (ipv4 example_net).
Proof. split; unfold is_uint; vm_compute; split; congruence. Qed.

Lemma example_net_ok : node_ok example_net.
Proof. exact example_node_ok. Qed.


(** ** The whole stack *)

(** A property of the driver that holds as long as no frame is longer than
    14 + 1500 bytes. *)
Class FrameDriver {D : Type} (ND : NetDriver D) (P : D -> Prop) := {
  send_frame s p d : drv_send = Some s -> (length p <= 1514)%nat -> P d -> P (s p d).2;
  recv_frame r d : drv_recv = Some r -> P d -> P (r d).2;
  flush_frame f d : drv_flush = Some f -> P d -> P (f d).2;
  tsc_frame d : P d -> P (drv_tsc d).2
}.

Section invariant.
Context {D : Type} {ND : NetDriver D} {P : D -> Prop} `{FD : !FrameDriver ND P}.
Implicit Types n : net D.

Definition arp_inv (a : arp_state) : Prop :=
  (length (arp_table a) <= 100)%nat /\ (length (arp_query_table a) <= 100)%nat /\
  Forall (fun e => (length (ae_mac e) <= 6)%nat) (arp_table a).

Definition slots_inv (i : ipv4_state) : Prop := forall k, pkt_len (aget (tosend_table i) k) <= 1514.

Definition net_inv n : Prop :=
  node_ok n /\ arp_inv (arp n) /\ free_ok (ipv4 n) /\ slots_inv (ipv4 n) /\ P (drv n).

Lemma phy_send_inv p n :
  (length p <= 1514)%nat -> net_inv n -> net_inv (ducknet_phy_send None p n).2.
Proof.
  intros Hp Hn. unfold ducknet_phy_send. destruct drv_send as [s|] eqn:Hs; [|done].
  destruct Hn as (H1 & H2 & H3 & H4 & H5). pose proof (send_frame s p (drv n) Hs Hp H5) as H6.
  cbn [drv set_phy]. by destruct (s p (drv n)).
Qed.

Lemma arp_send_inv m o p n :
  (length m <= 6)%nat -> net_inv n -> net_inv (ducknet_arp_send None m o p n).2.
Proof.
  intros Hm Hn. unfold ducknet_arp_send. case_if; [done|]. case_if; [done|].
  apply phy_send_inv; [|done]. destruct Hn as (((Hl & _) & _ & HM) & _).
  unfold ether_bytes, len_of in *. cbn [eth_dst eth_src ethertype].
  rewrite !length_app, length_arp_bytes, Hl, length_le_bytes. lia.
Qed.

Lemma insert_at_length {A} l (e : A) t :
  (0 <= l <= Z.of_nat (length t)) -> length (insert_at l e t) = S (length t).
Proof. intros. unfold insert_at. rewrite length_app. cbn. rewrite length_take, length_drop. lia. Qed.

Lemma arp_query_inv ip n : net_inv n -> net_inv (ducknet_arp_query None ip n).2.
Proof.
  intros Hn. unfold ducknet_arp_query. case_if; [|done]. case_if; [done|].
  apply arp_send_inv; [done|]. destruct Hn as (H1 & (Ha & Hq & Hm) & H3 & H4 & H5).
  split; [done|]. split; [|done]. split; [done|]. split; [|done]. cbn.
  unfold len_of, ARP_TABLE_SIZE in *. rewrite length_fmap in *.
  pose proof (bsearch_range (qe_ip <$> arp_query_table (arp n)) ip) as Hr.
  unfold len_of in Hr. rewrite length_fmap in Hr. rewrite insert_at_length by lia. lia.
Qed.

Lemma arp_update_inv ip m n :
  (length m <= 6)%nat -> net_inv n -> net_inv (ducknet_arp_update ip m n).2.
Proof.
  intros Hl (H1 & (Ha & Hq & Hm) & H3 & H4 & H5). unfold ducknet_arp_update. case_if.
  - case_if; [done|]. split; [done|]. split; [|done]. cbn.
    unfold len_of, ARP_TABLE_SIZE in *. rewrite length_fmap in *.
    pose proof (bsearch_range (ae_ip <$> arp_table (arp n)) ip) as Hr.
    unfold len_of in Hr. rewrite length_fmap in Hr. split; [|split; [done|]]; cbn.
    + rewrite insert_at_length by lia. lia.
    + unfold insert_at. apply Forall_app. split; [by apply Forall_take|].
      constructor; [done|by apply Forall_drop].
  - split; [done|]. split; [|done]. split; [|split; [done|]]; cbn.
    + by rewrite length_insert.
    + by apply Forall_insert.
Qed.

Lemma lookup_mac_length ip n m :
  arp_inv (arp n) -> ducknet_arp_lookup ip n = Some m -> (length m <= 6)%nat.
Proof.
  intros (_ & _ & Hm) Hl. unfold ducknet_arp_lookup in Hl. case_if_in Hl; [done|].
  apply fmap_Some in Hl as (e & He & ->). by apply (Forall_lookup_1 _ _ _ _ Hm He).
Qed.

Lemma build_length dst_ip proto payload n pkt :
  node_ok n -> ipv4_build_packet dst_ip proto payload n = Some pkt ->
  len_of payload <= 1480 /\ Z.of_nat (length pkt) = len_of payload + 28.
Proof.
  intros ((Hl & _) & _ & HM) Hb. destruct (Z.leb_spec (len_of payload) 1480) as [Hle|Hgt].
  - destruct (ipv4_build_packet_spec n dst_ip proto payload [] HM Hle) as (pkt' & Hb' & E).
    rewrite Hb in Hb'. injection Hb' as <-. split; [done|]. change ([] ++ pkt) with pkt in E. rewrite E.
    unfold ipv4_frame, ether_bytes. cbn [eth_dst eth_src ethertype app].
    rewrite !length_app, Hl, length_le_bytes, length_ipv4_bytes. unfold len_of. lia.
  - unfold ipv4_build_packet in Hb. rewrite HM in Hb. case_if_in Hb; [done|].
    by rewrite (proj2 (Z.ltb_lt 1500 _)) in Hb by lia.
Qed.

Lemma same_tables_node n n' : same_tables n n' -> node_ok n -> node_ok n'.
Proof. intros (_ & _ & E1 & E2 & _ & E3). unfold node_ok. by rewrite E1, E2, E3. Qed.

Lemma ipv4_send_inv dst_ip proto payload n :
  net_inv n -> net_inv (ducknet_ipv4_send None dst_ip proto payload n).2.
Proof.
  intros Hn. pose proof Hn as (H1 & H2 & H3 & H4 & H5). unfold ducknet_ipv4_send.
  fold (next_hop n dst_ip). destruct (ducknet_arp_lookup _ n) as [m|] eqn:Hl.
  - destruct (ipv4_build_packet _ _ _ _) as [pkt|] eqn:Hb; [|done]. apply phy_send_inv; [|done].
    apply lookup_mac_length in Hl; [|done]. apply build_length in Hb; [|done].
    rewrite length_app. lia.
  - pose proof (arp_query_inv (next_hop n dst_ip) n Hn) as Hq.
    destruct (ducknet_arp_query _ _ _) as [r n1]. cbn [snd] in Hq. clear r.
    pose proof Hq as (Q1 & Q2 & Q3 & Q4 & Q5).
    destruct (find_tosend_free_spec (ipv4 n1) Q3) as [(Hid & _)|[-> _]]; [|done].
    case_if; [done|]. destruct (ipv4_build_packet _ _ _ n1) as [pkt|] eqn:Hb; [|done].
    apply build_length in Hb; [|done]. split; [done|]. split; [done|]. split.
    + by apply free_ok_set.
    + split; [|done]. intros k. cbn. rewrite aget_set. case_decide; [cbn; lia|apply Q4].
Qed.

Lemma tosend_slot_inv i n : 0 <= i < 64 -> net_inv n -> net_inv (tosend_slot None i n).
Proof.
  intros Hi Hn. pose proof Hn as (H1 & H2 & H3 & H4 & H5). unfold tosend_slot.
  assert (net_inv (set_ipv4 (set_free true i (ipv4 n)) n)) as Hset.
  { split; [done|]. split; [done|]. split; [by apply free_ok_set|done]. }
  case_if; [done|]. case_if; [done|]. destruct (ducknet_arp_lookup _ n) as [m|] eqn:Hl.
  - apply phy_send_inv; [|done]. rewrite length_take. specialize (H4 i). lia.
  - by apply arp_query_inv.
Qed.

Lemma ipv4_idle_inv n : net_inv n -> net_inv (ducknet_ipv4_idle None n).2.
Proof.
  intros Hn. unfold ducknet_ipv4_idle. case_if; [done|]. cbn [snd].
  apply (for_range_ind (fun _ => net_inv)); [done|done|]. intros. by apply tosend_slot_inv.
Qed.

Lemma arp_idle_inv n : net_inv n -> net_inv (ducknet_arp_idle n).2.
Proof.
  intros (H1 & (Ha & Hq & Hm) & H3 & H4 & H5). unfold ducknet_arp_idle. case_if; [done|].
  split; [done|]. split; [|done]. cbn. split; [|split]; cbn.
  - etrans; [apply filter_length_le|done].
  - etrans; [apply filter_length_le|done].
  - apply Forall_forall. intros e He. apply list_elem_of_In, filter_In in He as [He _].
    apply list_elem_of_In in He. by apply (proj1 (Forall_forall _ _) Hm).
Qed.

Lemma sub_bytes_length off k l : (length (sub_bytes off k l) <= k)%nat.
Proof. unfold sub_bytes. rewrite length_take. lia. Qed.

Lemma arp_handle_inv pkt n : net_inv n -> net_inv (ducknet_arp_packet_handle None None pkt n).2.
Proof.
  intros Hn. unfold ducknet_arp_packet_handle. case_if; [done|]. cbn [with_cb].
  repeat (case_if; try done); cbn [sha spa tpa].
  - pose proof (sub_bytes_length 0 6 (drop 8 (arp_bytes (ducknet_arp_hton (arp_of_bytes pkt)) ++ drop 8 pkt)))
      as Hl.
    match goal with |- context [ducknet_arp_send None ?m ?o ?p n] =>
      pose proof (arp_send_inv m o p n Hl Hn) as Hs; by destruct (ducknet_arp_send None m o p n) end.
  - pose proof (sub_bytes_length 0 6 (drop 8 (arp_bytes (ducknet_arp_hton (arp_of_bytes pkt)) ++ drop 8 pkt)))
      as Hl.
    match goal with |- context [ducknet_arp_update ?ip ?m n] =>
      pose proof (arp_update_inv ip m n Hl Hn) as Hs; by destruct (ducknet_arp_update ip m n) end.
Qed.

Lemma icmp_handle_inv s d pkt n :
  net_inv n -> net_inv (ducknet_icmp_packet_handle None None s d pkt n).2.
Proof.
  intros Hn. unfold ducknet_icmp_packet_handle. case_if; [done|]. cbn [with_cb option_map].
  case_if; [|done]. case_if; [done|].
  match goal with |- context [ducknet_ipv4_send None ?a ?b ?c n] =>
    pose proof (ipv4_send_inv a b c n Hn) as Hs; by destruct (ducknet_ipv4_send None a b c n) end.
Qed.

(** The UDP callback of the application keeps the invariant. *)
Definition cb_inv (f : option addr_cb) : Prop :=
  match f with
  | Some g => forall s d pkt n, net_inv n -> net_inv (g s d pkt n).2
  | None => True
  end.

Lemma udp_handle_inv f s d pkt n :
  cb_inv f -> net_inv n -> net_inv (ducknet_udp_packet_handle f s d pkt n).2.
Proof.
  intros Hf Hn. unfold ducknet_udp_packet_handle. case_if; [done|].
  destruct f as [g|]; cbn [with_cb option_map]; [|done].
  match goal with |- context [g s d ?p n] => specialize (Hf s d p n Hn); destruct (g s d p n) as [[r p'] n'] end.
  by case_if.
Qed.

Lemma packet_handle_inv f pkt n :
  cb_inv f -> net_inv n ->
  net_inv (ducknet_packet_handle None None None None None None f pkt n).2.
Proof.
  intros Hf Hn. unfold ducknet_packet_handle, ducknet_phy_packet_handle, ducknet_ether_packet_handle.
  cbn [with_cb]. case_if; [done|]. case_if; [done|]. case_if; [by apply arp_handle_inv|].
  case_if; [|done]. unfold ducknet_ipv4_packet_handle. cbn [with_cb].
  repeat (case_if; [done|]). case_if; [by apply icmp_handle_inv|].
  case_if; [by apply udp_handle_inv|done].
Qed.

Lemma phy_idle_inv n : net_inv n -> net_inv (ducknet_phy_idle n).2.
Proof.
  intros Hn. unfold ducknet_phy_idle. case_if; [|done].
  set (n1 := set_phy _ n). assert (net_inv n1) as Hn1 by done.
  assert (net_inv (ducknet_phy_flush n1).2) as Hf.
  { unfold ducknet_phy_flush. case_if; [done|]. destruct drv_flush as [g|] eqn:Hg; [|done].
    destruct Hn1 as (H1 & H2 & H3 & H4 & H5). pose proof (flush_frame g (drv n1) Hg H5) as H6.
    destruct (g (drv n1)) as [r d]. by case_if. }
  by destruct (ducknet_phy_flush n1).
Qed.

Lemma utils_idle_inv n : net_inv n -> net_inv (ducknet_utils_idle n).2.
Proof.
  intros (H1 & H2 & H3 & H4 & H5). unfold ducknet_utils_idle, ducknet_gettime.
  pose proof (tsc_frame (drv n) H5). by destruct (drv_tsc (drv n)).
Qed.

Lemma idle_inv n :
  net_inv n -> (ducknet_idle None n).1 = 0 /\ net_inv (ducknet_idle None n).2.
Proof.
  intros Hn. unfold ducknet_idle.
  assert ((ducknet_utils_idle n).1 = 0) as R1.
  { unfold ducknet_utils_idle, ducknet_gettime. by destruct (drv_tsc (drv n)). }
  pose proof (utils_idle_inv n Hn) as I1. destruct (ducknet_utils_idle n) as [r1 n1].
  cbn [fst snd] in R1, I1. subst r1. cbn [Z.ltb Z.compare].
  assert ((ducknet_phy_idle n1).1 = 0) as R2.
  { unfold ducknet_phy_idle. case_if; [|done]. by destruct (ducknet_phy_flush _). }
  pose proof (phy_idle_inv n1 I1) as I2. destruct (ducknet_phy_idle n1) as [r2 n2].
  cbn [fst snd] in R2, I2. subst r2. cbn [Z.ltb Z.compare].
  assert ((ducknet_arp_idle n2).1 = 0) as R3 by (unfold ducknet_arp_idle; by case_if).
  pose proof (arp_idle_inv n2 I2) as I3. destruct (ducknet_arp_idle n2) as [r3 n3].
  cbn [fst snd] in R3, I3. subst r3. cbn [Z.ltb Z.compare].
  assert ((ducknet_ipv4_idle None n3).1 = 0) as R4 by (unfold ducknet_ipv4_idle; by case_if).
  pose proof (ipv4_idle_inv n3 I3) as I4. destruct (ducknet_ipv4_idle None n3) as [r4 n4].
  cbn [fst snd] in R4, I4. subst r4. done.
Qed.

End invariant.

(** The recording driver keeps a log of frames no longer than 1514 bytes. *)
Definition short_frames (d : list (list Z)) : Prop := Forall (fun p => (length p <= 1514)%nat) d.

#[export] Instance recording_frames : FrameDriver recording_driver short_frames.
Proof.
  split; cbn.
  - intros s p d [= <-] Hp Hd. cbn. apply Forall_app. split; [done|]. by constructor.
  - by intros r d [= <-].
  - by intros f d [= <-].
  - done.
Qed.

Lemma resolved_inv : net_inv (P := short_frames) resolved_net.
Proof.
  split; [exact example_node_ok|]. split; [|split; [|split]].
  - split; [|split]; rewrite ?resolved_table.
    + cbn. lia.
    + vm_compute. lia.
    + constructor; [|constructor]. cbn. lia.
  - exact example_free_ok.
  - intros k. change (aget (tosend_table (ipv4 resolved_net)) k) with (aget (A := tosend_entry) (anew 64) k).
    rewrite aget_new. cbn. lia.
  - vm_compute. constructor.
Qed.


(** ** Address text *)

(** Every address printed as four decimal bytes is parsed back to itself. *)
Theorem parse_print_ipv4 ip :
  is_uint 32 ip -> ducknet_parse_ipv4 (print_ipv4 ip) = Some ip.
Proof.
  intros Hip. unfold is_uint in Hip. unfold ducknet_parse_ipv4, print_ipv4.
  set (b3 := ip / 2 ^ 24 mod 256). set (b2 := ip / 2 ^ 16 mod 256).
  set (b1 := ip / 2 ^ 8 mod 256). set (b0 := ip mod 256).
  assert (forall x, 0 <= x mod 256 < 256) as Hr by (intros; apply Z.mod_pos_bound; lia).
  rewrite !List.filter_app. unfold b3, b2, b1, b0. rewrite !print_byte_dots by apply Hr.
  cbn [List.filter app length Z.eqb Pos.eqb negb Z.of_nat Pos.of_succ_nat Pos.succ].
  fold b3 b2 b1 b0.
  destruct (parse_byte b3 (46 :: print_byte b2 ++ 46 :: print_byte b1 ++ 46 :: print_byte b0)
    (anew 4) 0 false) as (a3 & -> & V3 & O3); [apply Hr|done|]. rewrite parse_dot.
  destruct (parse_byte b2 (46 :: print_byte b1 ++ 46 :: print_byte b0) a3 (0 + 1) false)
    as (a2 & -> & V2 & O2); [apply Hr|by rewrite O3|]. rewrite parse_dot.
  destruct (parse_byte b1 (46 :: print_byte b0) a2 (0 + 1 + 1) false)
    as (a1 & -> & V1 & O1); [apply Hr|by rewrite O2, O3|]. rewrite parse_dot.
  destruct (parse_byte b0 [] a1 (0 + 1 + 1 + 1) false) as (a0 & E & V0 & O0);
    [apply Hr|by rewrite O1, O2, O3|].
  rewrite app_nil_r in E. rewrite E. cbn [parse_loop mbind option_bind].
  change (0 + 1 + 1 + 1) with 3 in *. change (0 + 1 + 1) with 2 in *. change (0 + 1) with 1 in *.
  f_equal. rewrite V0, !O0, V1, !O1, V2, !O2, V3 by lia. cbn [le_val].
  unfold b3, b2, b1, b0. clear -Hip. dlia.
Qed.

Lemma parse_print_ipv4_witness : ducknet_parse_ipv4 (print_ipv4 167772687) = Some 167772687.
Proof. apply (parse_print_ipv4 167772687). unfold is_uint. lia. Defined.
