(* ===== verification/DuckCache.v ===== *)
(** * kern/duck_cache.cpp: the object cache

    Objects of arbitrary length, keyed by 256-bit digests, live in linked
    pages; a free list holds the unused pages, and storing evicts the objects
    used least recently. The three parallel arrays [obj_hash], [obj_digest] and
    [obj_metadata] are one list of records (they are always moved together);
    the page memory is a finite map from addresses to pages, each with its next
    pointer and its content. Reading an address without a page is [None].
    [DuckCacheProofs] proves the properties. *)

From stdpp Require Import sorting.
From S2P Require Import Prelude.

Definition PAGE_SIZE : Z := 4096.
Definition ONE_PAGE_CONTENT_SIZE : Z := PAGE_SIZE - 8.

Record Digest256 := mkDigest { a0 : Z; a1 : Z; a2 : Z; a3 : Z }.

#[export] Instance Digest256_eq_dec : EqDecision Digest256.
Proof. solve_decision. Defined.

Record Metadata := mkMeta { last_used_tsc : Z; start_addr : Z; len : Z }.

Record obj := mkObj { o_hash : Z; o_digest : Digest256; o_meta : Metadata }.

Record page := mkPage { p_next : Z; p_content : list Z }.

Record DuckCache := mkCache {
  cache_size : Z;
  n_max_objects : Z;
  objs : list obj;
  free_list_addr : Z;
  n_free_pages : Z;
  n_total_pages : Z;
  mem : gmap Z page
}.

Definition n_cur_objects (c : DuckCache) : Z := Z.of_nat (length (objs c)).

(** ** Digests *)

Definition hex_val (c : Z) : option Z :=
  if (48 <=? c) && (c <=? 57) then Some (c - 48)
  else if (97 <=? c) && (c <=? 102) then Some (c - 97 + 10)
  else if (65 <=? c) && (c <=? 70) then Some (c - 65 + 10)
  else None.

(** The inner loop of [digest_from_hex]: digit [i] goes to bits [4 i ..]. *)
Definition hex_word (hex : list Z) (idx : Z) : option Z :=
  forM_range 0 16
    (fun i sum =>
       c ← hex !! Z.to_nat (idx * 16 + i);
       val ← hex_val c;
       Some (Z.lor sum (Z.shiftl val (i * 4)))) 0.

Definition digest_from_hex (hex : list Z) : option Digest256 :=
  w0 ← hex_word hex 0;
  w1 ← hex_word hex 1;
  w2 ← hex_word hex 2;
  w3 ← hex_word hex 3;
  Some (mkDigest w0 w1 w2 w3).

Definition cmp_word (x y k : Z) : Z := if x <? y then -1 else if y <? x then 1 else k.

Definition cmp_digest (a b : Digest256) : Z :=
  cmp_word (a0 a) (a0 b) (cmp_word (a1 a) (a1 b) (cmp_word (a2 a) (a2 b) (cmp_word (a3 a) (a3 b) 0))).

(** ** Initialisation *)

Definition round_up (x n : Z) : Z := (x + n - 1) / n * n.

(** The loop that links the pages; [fuel] bounds the number of pages. *)
Fixpoint link_pages (fuel : nat) (cache cache_end : Z) (m : gmap Z page) : Z * gmap Z page :=
  let blank next := mkPage next (replicate (Z.to_nat ONE_PAGE_CONTENT_SIZE) 0) in
  match fuel with
  | O => (1, <[cache := blank 0]> m)
  | S fuel' =>
      if cache + PAGE_SIZE <? cache_end then
        let '(n, m) := link_pages fuel' (cache + PAGE_SIZE) cache_end
                         (<[cache := blank (cache + PAGE_SIZE)]> m) in
        (n + 1, m)
      else (1, <[cache := blank 0]> m)
  end.

(** [cache] is the address from [Memory::allocate_virtual_memory]. [inl] is
    the result [false]; [None] is the reboot when the memory is too small. *)
Definition init (n_max size : Z) (cache : option Z) : option (unit + DuckCache) :=
  match cache with
  | None => Some (inl tt)
  | Some cache =>
      let cache_end := cache + size in
      let cache := cache + round_up (n_max * 8) PAGE_SIZE in
      let cache := cache + round_up (n_max * 32) PAGE_SIZE in
      let cache := cache + round_up (n_max * 24) PAGE_SIZE in
      let cache := cache + round_up (n_max * 8) PAGE_SIZE in
      if cache_end <=? cache + PAGE_SIZE then None
      else
        let '(n, m) := link_pages (Z.to_nat (cache_end - cache)) cache cache_end ∅ in
        Some (inr (mkCache size n_max [] cache n n m))
  end.

(** ** Searching *)

(** [std::lower_bound] and [std::upper_bound] on a sorted range. *)
Definition lower_bound (hash : Z) (l : list obj) : nat :=
  length (take_while (fun o => o_hash o <? hash) l).

Definition upper_bound (hash : Z) (l : list obj) : nat :=
  length (take_while (fun o => o_hash o <=? hash) l).

(** The loop of [find] over the objects with the same hash. *)
Fixpoint find_scan (digest : Digest256) (l : list obj) (idx : nat) : nat * bool :=
  match l with
  | [] => (idx, false)
  | o :: l' =>
      let r := cmp_digest (o_digest o) digest in
      if 0 <=? r then (idx, r =? 0) else find_scan digest l' (S idx)
  end.

(** The index written and the result. *)
Definition find (digest : Digest256) (c : DuckCache) : nat * bool :=
  if n_cur_objects c =? 0 then (0%nat, false)
  else
    let hash := a0 digest in
    let idx1 := lower_bound hash (objs c) in
    let idx2 := (idx1 + upper_bound hash (drop idx1 (objs c)))%nat in
    find_scan digest (take (idx2 - idx1) (drop idx1 (objs c))) idx1.

(** ** Loading *)

(** The copy loop of [load]; [rem] is [required_len - cur_len]. *)
Fixpoint load_loop (fuel : nat) (m : gmap Z page) (addr rem : Z) : option (list Z) :=
  if rem <=? 0 then Some []
  else
    match fuel with
    | O => None
    | S fuel' =>
        p ← m !! addr;
        rest ← load_loop fuel' m (p_next p) (rem - ONE_PAGE_CONTENT_SIZE);
        Some (take (Z.to_nat (Z.min rem ONE_PAGE_CONTENT_SIZE)) (p_content p) ++ rest)
    end.

Definition set_objs (l : list obj) (c : DuckCache) : DuckCache :=
  mkCache (cache_size c) (n_max_objects c) l (free_list_addr c) (n_free_pages c)
    (n_total_pages c) (mem c).

Definition touch (now : Z) (o : obj) : obj :=
  mkObj (o_hash o) (o_digest o) (mkMeta now (start_addr (o_meta o)) (len (o_meta o))).

(** The number of pages of an object of [n] bytes. *)
Definition pages_of (n : Z) : Z :=
  Z.max (u64 (n + ONE_PAGE_CONTENT_SIZE - 1) / ONE_PAGE_CONTENT_SIZE) 1.

(** [now] is [Timer::tsc_since_epoch()]; the bytes copied, or [None] for the
    result [false]. *)
Definition load (digest : Digest256) (required_len now : Z) (c : DuckCache)
    : option (option (list Z) * DuckCache) :=
  let '(idx, found) := find digest c in
  if negb found then Some (None, c)
  else
    o ← objs c !! idx;
    if negb (len (o_meta o) =? required_len) then Some (None, c)
    else
      bytes ← load_loop (Z.to_nat (pages_of required_len)) (mem c) (start_addr (o_meta o)) required_len;
      Some (Some bytes, set_objs (<[idx := touch now o]> (objs c)) c).

(** ** Storing *)

(** What [std::sort] promises: a permutation in non-decreasing key order;
    the order of equal keys is not specified. *)
Class SortIds := sort_ids : (nat -> Z) -> list nat -> list nat.
Class SortIdsLaws (S : SortIds) := {
  sort_ids_perm key ids : sort_ids key ids ≡ₚ ids;
  sort_ids_sorted key ids : StronglySorted (fun i j => key i <= key j) (sort_ids key ids)
}.

(** The last page of a chain of [n] pages. *)
Fixpoint last_page (n : nat) (m : gmap Z page) (addr : Z) : option Z :=
  match n with
  | O => Some addr
  | S n' => p ← m !! addr; last_page n' m (p_next p)
  end.

(** [* (uint64_t * ) addr = next] *)
Definition set_next (addr next : Z) (m : gmap Z page) : option (gmap Z page) :=
  p ← m !! addr; Some (<[addr := mkPage next (p_content p)]> m).

Definition invalidate (o : obj) : obj := touch 0 o.

(** The eviction loop of [store] over the sorted ids. *)
Fixpoint evict (ids : list nat) (n_need : Z) (c : DuckCache) (n_removed_pages n_removed_objects : Z)
    : option (DuckCache * Z * Z) :=
  match ids with
  | [] => Some (c, n_removed_pages, n_removed_objects)
  | id :: ids' =>
      o ← objs c !! id;
      let n_pages := pages_of (len (o_meta o)) in
      let n_removed_objects := n_removed_objects + 1 in
      let n_removed_pages := n_removed_pages + n_pages in
      addr ← last_page (Z.to_nat (n_pages - 1)) (mem c) (start_addr (o_meta o));
      m ← set_next addr (free_list_addr c) (mem c);
      let c := mkCache (cache_size c) (n_max_objects c) (<[id := invalidate o]> (objs c))
                 (start_addr (o_meta o)) (n_free_pages c) (n_total_pages c) m in
      let still_need_remove :=
        (n_free_pages c + n_removed_pages <? n_need) ||
        (n_max_objects c + n_removed_objects <? n_cur_objects c + 1) in
      if still_need_remove then evict ids' n_need c n_removed_pages n_removed_objects
      else Some (c, n_removed_pages, n_removed_objects)
  end.

(** The loop that closes the gaps, in place: the cells after the kept
    objects keep their values. *)
Definition defrag (l : list obj) : list obj :=
  let kept := List.filter (fun o => negb (last_used_tsc (o_meta o) =? 0)) l in
  kept ++ drop (length kept) l.

(** The loop that fills the pages; the address after the last one. *)
Fixpoint store_loop (fuel : nat) (m : gmap Z page) (addr : Z) (src : list Z) (rem : Z)
    : option (Z * gmap Z page) :=
  if rem <=? 0 then Some (addr, m)
  else
    match fuel with
    | O => None
    | S fuel' =>
        p ← m !! addr;
        let chunk := take (Z.to_nat (Z.min rem ONE_PAGE_CONTENT_SIZE)) src in
        let m := <[addr := mkPage (p_next p) (splice 0 chunk (p_content p))]> m in
        store_loop fuel' m (p_next p) (drop (Z.to_nat ONE_PAGE_CONTENT_SIZE) src)
          (rem - ONE_PAGE_CONTENT_SIZE)
    end.

Section store.
Context `{S : SortIds}.

(** Free pages and an object slot until [n_need] pages fit; the ids are sorted
    by the time of last use. *)
Definition make_room (digest : Digest256) (n_need : Z) (idx : nat) (c : DuckCache)
    : option (nat * DuckCache) :=
  if (n_free_pages c <? n_need) || (n_max_objects c <? n_cur_objects c + 1) then
    let key i := default 0 ((fun o => last_used_tsc (o_meta o)) <$> objs c !! i) in
    let ids := sort_ids key (seq 0 (length (objs c))) in
    r ← evict ids n_need c 0 0;
    let '(c, n_pages, n_objects) := r in
    let c := mkCache (cache_size c) (n_max_objects c)
               (take (Z.to_nat (n_cur_objects c - n_objects)) (defrag (objs c)))
               (free_list_addr c) (n_free_pages c + n_pages) (n_total_pages c) (mem c) in
    let '(idx, found) := find digest c in
    if found then None else Some (idx, c)
  else Some (idx, c).

(** [src] holds the [len] bytes to store. *)
Definition store (digest : Digest256) (src : list Z) (now : Z) (c : DuckCache)
    : option (bool * DuckCache) :=
  let '(idx, found) := find digest c in
  if found then Some (true, c)
  else
    let len := Z.of_nat (length src) in
    let n_need := pages_of len in
    if n_total_pages c <? n_need then Some (false, c)
    else
      r ← make_room digest n_need idx c;
      let '(idx, c) := r in
      let o := mkObj (a0 digest) digest (mkMeta now (free_list_addr c) len) in
      let l := take idx (objs c) ++ o :: drop idx (objs c) in
      r ← store_loop (Z.to_nat n_need) (mem c) (free_list_addr c) src len;
      let '(addr, m) := r in
      addr ← (if len =? 0 then p ← m !! addr; Some (p_next p) else Some addr);
      Some (true, mkCache (cache_size c) (n_max_objects c) l addr (n_free_pages c - n_need)
                    (n_total_pages c) m).
End store.
