(* ===== verification/DuckCacheProofs.v ===== *)
(** * The object cache keeps what it stores

    The representation of the cache by a list of objects with their pages and
    a free list, preserved by every operation; the contents of an object as a
    function of its pages; and the specifications of [find], [load] and
    [store], with the eviction of the least recently used objects. *)

From stdpp Require Import sorting.
From S2P Require Import Prelude DuckCache.

(** ** Digests are totally ordered *)

Definition digest_lt (a b : Digest256) : Prop := cmp_digest a b = -1.

Lemma cmp_digest_cases a b :
  (cmp_digest a b = -1 \/ cmp_digest a b = 0 \/ cmp_digest a b = 1) /\
  (cmp_digest a b = 0 <-> a = b) /\ (cmp_digest a b = -1 <-> cmp_digest b a = 1).
Proof.
  destruct a as [x0 x1 x2 x3], b as [y0 y1 y2 y3]. unfold cmp_digest, cmp_word. cbn.
  repeat case_if; try lia; (split; [lia|split; [|lia]]); split; intros H; try congruence;
    try (injection H; lia). f_equal; lia.
Qed.

Lemma digest_lt_trans a b c : digest_lt a b -> digest_lt b c -> digest_lt a c.
Proof.
  destruct a as [x0 x1 x2 x3], b as [y0 y1 y2 y3], c as [z0 z1 z2 z3].
  unfold digest_lt, cmp_digest, cmp_word. cbn. repeat case_if; lia.
Qed.

Lemma digest_lt_irrefl a : ~ digest_lt a a.
Proof. unfold digest_lt. destruct (cmp_digest_cases a a) as (_ & H0 & _). rewrite (proj2 H0); done. Qed.

Lemma digest_lt_hash a b : digest_lt a b -> a0 a <= a0 b.
Proof. unfold digest_lt, cmp_digest, cmp_word. repeat case_if; lia. Qed.

Lemma digest_cases a b : digest_lt a b \/ a = b \/ digest_lt b a.
Proof.
  destruct (cmp_digest_cases a b) as (Hc & He & Hl). destruct (cmp_digest_cases b a) as (_ & _ & Hl').
  unfold digest_lt. destruct Hc as [Hc|[Hc|Hc]]; [by left|right; left; tauto|right; right; tauto].
Qed.

(** ** [find] *)

Definition objs_sorted (l : list obj) : Prop :=
  StronglySorted digest_lt (o_digest <$> l) /\ Forall (fun o => o_hash o = a0 (o_digest o)) l.

(** Split a sorted list at a digest. *)
Lemma objs_split l d :
  objs_sorted l -> exists l1 l2, l = l1 ++ l2 /\
    Forall (fun o => digest_lt (o_digest o) d) l1 /\ Forall (fun o => ~ digest_lt (o_digest o) d) l2.
Proof.
  intros [Hs Hh]. induction l as [|x l IH]; [by exists [], []|].
  cbn in Hs. apply StronglySorted_cons in Hs as [Hx Hs]. apply Forall_cons in Hh as [_ Hh].
  destruct (decide (cmp_digest (o_digest x) d = -1)) as [Hlt|Hlt].
  - destruct (IH Hs Hh) as (l1 & l2 & -> & H1 & H2). exists (x :: l1), l2.
    split; [done|]. by split; [constructor|].
  - exists [], (x :: l). split; [done|]. split; [done|]. constructor; [done|].
    rewrite Forall_fmap in Hx. eapply Forall_impl; [exact Hx|]. cbn. intros y Hy Hy'.
    apply Hlt. by eapply digest_lt_trans.
Qed.

Lemma find_scan_app d l1 l2 idx :
  Forall (fun o => digest_lt (o_digest o) d) l1 ->
  find_scan d (l1 ++ l2) idx = find_scan d l2 (idx + length l1).
Proof.
  intros H1. revert idx. induction H1 as [|x l1 Hx H1 IH]; intros idx; cbn [app find_scan length].
  - by rewrite Nat.add_0_r.
  - rewrite Hx. cbn [Z.leb Z.compare]. rewrite IH. f_equal. lia.
Qed.

Lemma take_while_split {A} (f : A -> bool) l :
  StronglySorted (fun x y => f y = true -> f x = true) l ->
  exists r, l = take_while f l ++ r /\ Forall (fun x => f x = true) (take_while f l) /\
    Forall (fun x => f x = false) r.
Proof.
  induction 1 as [|x l Hs IH Hx]; [by exists []|]. cbn. destruct (f x) eqn:E.
  - destruct IH as (r & Er & H1 & H2). exists r. split; [by rewrite Er at 1|].
    by split; [constructor|].
  - exists (x :: l). split; [done|]. split; [done|]. constructor; [done|].
    eapply Forall_impl; [exact Hx|]. cbn. intros y Hy. destruct (f y); [|done]. specialize (Hy eq_refl). congruence.
Qed.

Lemma StronglySorted_impl_elem {A} (R R' : A -> A -> Prop) l :
  (forall x y, x ∈ l -> y ∈ l -> R x y -> R' x y) -> StronglySorted R l -> StronglySorted R' l.
Proof.
  intros Himp. induction 1 as [|x l Hs IH Hx]; constructor.
  - apply IH. intros y z Hy Hz. apply Himp; by right.
  - apply Forall_forall. intros y Hy. apply Himp; [by left|by right|].
    by apply (proj1 (Forall_forall _ _) Hx).
Qed.

Lemma StronglySorted_fmap_inv {A B} (R : B -> B -> Prop) (f : A -> B) l :
  StronglySorted R (f <$> l) -> StronglySorted (fun x y => R (f x) (f y)) l.
Proof.
  induction l as [|x l IH]; intros Hs; [constructor|]. cbn in Hs.
  apply StronglySorted_cons in Hs as [Hx Hs]. constructor; [by apply IH|]. by rewrite Forall_fmap in Hx.
Qed.

Lemma objs_sorted_app l1 l2 : objs_sorted (l1 ++ l2) -> objs_sorted l1 /\ objs_sorted l2.
Proof.
  unfold objs_sorted. rewrite fmap_app, StronglySorted_app, Forall_app. tauto.
Qed.

(** In a sorted list a hash threshold is a prefix. *)
Lemma hash_split (f : Z -> bool) l :
  (forall x y, x <= y -> f y = true -> f x = true) -> objs_sorted l ->
  exists r, l = take_while (fun o => f (o_hash o)) l ++ r /\
    Forall (fun o => f (o_hash o) = true) (take_while (fun o => f (o_hash o)) l) /\
    Forall (fun o => f (o_hash o) = false) r.
Proof.
  intros Hf [Hs Hh]. apply (take_while_split (fun o => f (o_hash o))).
  apply StronglySorted_fmap_inv in Hs. eapply StronglySorted_impl_elem; [|exact Hs].
  cbn. intros x y Hx Hy Hlt. apply Hf.
  rewrite (proj1 (Forall_forall _ _) Hh x Hx), (proj1 (Forall_forall _ _) Hh y Hy).
  by apply digest_lt_hash.
Qed.

(** The object of digest [d] among those not below it is the first one. *)
Definition head_is (d : Digest256) (l : list obj) : bool :=
  match l with o :: _ => bool_decide (o_digest o = d) | [] => false end.

Lemma find_scan_head d l idx :
  Forall (fun o => ~ digest_lt (o_digest o) d) l -> find_scan d l idx = (idx, head_is d l).
Proof.
  intros [|o l' Ho Hl]; [done|]. cbn. destruct (cmp_digest_cases (o_digest o) d) as (Hc & He & _).
  unfold digest_lt in Ho. rewrite (proj2 (Z.leb_le _ _)) by lia. f_equal.
  case_bool_decide as Hd; [by apply Z.eqb_eq, He|]. apply Z.eqb_neq. tauto.
Qed.

(** [find] returns the number of smaller digests and whether [d] follows. *)
Lemma find_spec d c :
  objs_sorted (objs c) ->
  exists l1 l2, objs c = l1 ++ l2 /\ Forall (fun o => digest_lt (o_digest o) d) l1 /\
    Forall (fun o => ~ digest_lt (o_digest o) d) l2 /\ find d c = (length l1, head_is d l2).
Proof.
  intros Hs. unfold find, n_cur_objects. destruct (decide (objs c = [])) as [El|El].
  { rewrite El. by exists [], []. }
  rewrite (proj2 (Z.eqb_neq _ _)) by (destruct (objs c); cbn; [done|lia]).
  set (h := a0 d). unfold lower_bound, upper_bound.
  destruct (hash_split (fun x => x <? h) (objs c)) as (r1 & E1 & H1 & R1); [intros; lia|done|].
  set (t1 := take_while _ (objs c)) in *. rewrite E1 in Hs. apply objs_sorted_app in Hs as [Hs1 Hsr].
  replace (drop (length t1) (objs c)) with r1 by (rewrite E1; by rewrite drop_app_length).
  destruct (hash_split (fun x => x <=? h) r1) as (r2 & E2 & H2 & R2); [intros; lia|done|].
  set (t2 := take_while _ r1) in *. rewrite E2 in Hsr. apply objs_sorted_app in Hsr as [Hs2 Hs3].
  replace (length t1 + length t2 - length t1)%nat with (length t2) by lia.
  replace (take (length t2) r1) with t2 by (rewrite E2; by rewrite take_app_length).
  destruct (objs_split t2 d Hs2) as (c1 & c2 & Et & C1 & C2).
  exists (t1 ++ c1), (c2 ++ r2).
  assert (Forall (fun o => digest_lt (o_digest o) d) t1) as L1.
  { destruct Hs1 as [_ Hh]. apply Forall_forall. intros o Ho.
    pose proof (proj1 (Forall_forall _ _) H1 o Ho) as Hlt. cbn in Hlt. bprop.
    rewrite (proj1 (Forall_forall _ _) Hh o Ho) in Hlt.
    unfold digest_lt, cmp_digest, cmp_word. unfold h in Hlt.
    by rewrite (proj2 (Z.ltb_lt _ _) Hlt). }
  assert (Forall (fun o => ~ digest_lt (o_digest o) d /\ o_digest o <> d) r2) as L2.
  { destruct Hs3 as [_ Hh]. apply Forall_forall. intros o Ho.
    pose proof (proj1 (Forall_forall _ _) R2 o Ho) as Hlt. cbn in Hlt. bprop.
    rewrite (proj1 (Forall_forall _ _) Hh o Ho) in Hlt. split.
    - intros Hl%digest_lt_hash. fold h in Hl. lia.
    - intros Heq. rewrite Heq in Hlt. fold h in Hlt. lia. }
  split_and!.
  - by rewrite E1, E2, Et, <- !app_assoc.
  - by apply Forall_app.
  - apply Forall_app. split; [done|]. eapply Forall_impl; [exact L2|]. cbn. tauto.
  - rewrite Et, find_scan_app, find_scan_head, length_app by done. f_equal.
    destruct c2 as [|o c2]; [|done]. destruct L2 as [|o r2' [_ Ho] _]; [done|]. cbn.
    by rewrite bool_decide_eq_false_2.
Qed.

(** ** Chains of pages *)

(** Following next pointers from [a] visits [l] and arrives at [e]. *)
Fixpoint chain (m : gmap Z page) (a : Z) (l : list Z) (e : Z) : Prop :=
  match l with
  | [] => a = e
  | x :: l' => a = x /\ exists p, m !! x = Some p /\ chain m (p_next p) l' e
  end.

(** Chains only depend on the next pointers of their pages. *)
Definition same_next (m m' : gmap Z page) (l : list Z) : Prop :=
  forall x, x ∈ l -> p_next <$> m !! x = p_next <$> m' !! x.

Lemma chain_same m m' l : forall a e, same_next m m' l -> chain m a l e -> chain m' a l e.
Proof.
  induction l as [|x l IH]; intros a e Hs Hc; [done|]. cbn in *.
  destruct Hc as (-> & p & Hp & Hc). split; [done|].
  pose proof (Hs x ltac:(by left)) as Hx. rewrite Hp in Hx. cbn in Hx.
  destruct (m' !! x) as [p'|] eqn:Hp'; [|done]. cbn in Hx. injection Hx as Hn.
  exists p'. split; [done|]. rewrite <- Hn. apply IH; [|done]. intros y Hy. apply Hs. by right.
Qed.

Lemma chain_app m l1 : forall a l2 e,
  chain m a (l1 ++ l2) e <-> exists b, chain m a l1 b /\ chain m b l2 e.
Proof.
  induction l1 as [|x l1 IH]; intros a l2 e; cbn.
  - naive_solver.
  - split.
    + intros (-> & p & Hp & Hc). apply IH in Hc as (b & H1 & H2). exists b. eauto.
    + intros (b & (-> & p & Hp & Hc) & H2). split; [done|]. exists p. split; [done|].
      apply IH. eauto.
Qed.

(** The page a chain of [n + 1] pages ends with. *)
Lemma last_page_spec m l x : forall a e,
  chain m a (l ++ [x]) e -> last_page (length l) m a = Some x.
Proof.
  induction l as [|y l IH]; intros a e Hc; cbn in *.
  - by destruct Hc as (-> & _).
  - destruct Hc as (-> & p & Hp & Hc). rewrite Hp. cbn. by eapply IH.
Qed.

(** Redirecting the last page of one chain to the head of another. *)
Lemma chain_link m m' l x a e b l2 e2 :
  NoDup (l ++ [x] ++ l2) -> chain m a (l ++ [x]) e -> chain m b l2 e2 ->
  set_next x b m = Some m' -> chain m' a ((l ++ [x]) ++ l2) e2.
Proof.
  intros Hnd Hc1 Hc2 Hset. unfold set_next in Hset.
  destruct (m !! x) as [p|] eqn:Hp; [|done]. cbn in Hset. injection Hset as <-.
  apply NoDup_app in Hnd as (Hl & Hd & Hnd). apply NoDup_cons in Hnd as [Hx Hl2].
  apply chain_app in Hc1 as (y & Hl1 & Hy). cbn in Hy. destruct Hy as (-> & _).
  rewrite <- app_assoc. apply chain_app. exists x. split.
  - eapply chain_same; [|exact Hl1]. intros z Hz. rewrite lookup_insert_ne; [done|].
    intros ->. apply (Hd _ Hz). set_solver.
  - cbn. split; [done|]. exists (mkPage b (p_content p)). split; [by rewrite lookup_insert_eq|].
    eapply chain_same; [|exact Hc2]. intros z Hz. rewrite lookup_insert_ne; [done|].
    intros ->. done.
Qed.

(** ** Objects and their pages *)

Definition pages_ok (m : gmap Z page) : Prop :=
  forall a p, m !! a = Some p -> Z.of_nat (length (p_content p)) = ONE_PAGE_CONTENT_SIZE.

Definition contents (m : gmap Z page) (l : list Z) : list Z :=
  flat_map (fun a => default [] (p_content <$> m !! a)) l.

(** The bytes of an object stored in the pages [l]. *)
Definition data (m : gmap Z page) (o : obj) (l : list Z) : list Z :=
  take (Z.to_nat (len (o_meta o))) (contents m l).

Definition obj_rep (m : gmap Z page) (o : obj) (l : list Z) : Prop :=
  (exists e, chain m (start_addr (o_meta o)) l e) /\
  Z.of_nat (length l) = pages_of (len (o_meta o)) /\ 0 <= len (o_meta o) < 2 ^ 63.

Lemma chain_mapped m l : forall a e x, chain m a l e -> x ∈ l -> exists p, m !! x = Some p.
Proof.
  induction l as [|y l IH]; intros a e x Hc Hx; [by apply elem_of_nil in Hx|]. cbn in Hc.
  destruct Hc as (-> & p & Hp & Hc). apply elem_of_cons in Hx as [->|Hx]; [eauto|]. by eapply IH.
Qed.

(** Reading [rem] bytes of a chain gives a prefix of its contents. *)
Lemma load_loop_spec m l : forall fuel a e rem,
  pages_ok m -> chain m a l e -> rem <= ONE_PAGE_CONTENT_SIZE * Z.of_nat (length l) ->
  (length l <= fuel)%nat -> load_loop fuel m a rem = Some (take (Z.to_nat rem) (contents m l)).
Proof.
  induction l as [|x l IH]; intros fuel a e rem Hok Hc Hrem Hf.
  - cbn [length] in Hrem. assert (rem <= 0) by lia.
    destruct fuel; cbn; rewrite (proj2 (Z.leb_le _ _)) by lia; by rewrite take_nil.
  - cbn in Hc. destruct Hc as (-> & p & Hp & Hc). destruct fuel as [|fuel]; [cbn in Hf; lia|].
    cbn [load_loop contents flat_map]. rewrite Hp. cbn [mbind option_bind fmap option_fmap option_map default from_option id].
    pose proof (Hok _ _ Hp) as Hlen. case_if.
    + replace (Z.to_nat rem) with 0%nat by lia. by rewrite take_0.
    + rewrite (IH fuel (p_next p) e); [|done|done|cbn [length] in Hrem; lia|cbn in Hf; lia].
      cbn [mbind option_bind]. f_equal. unfold ONE_PAGE_CONTENT_SIZE, PAGE_SIZE in *.
      rewrite take_app. f_equal.
      * destruct (Z.min_spec rem (4096 - 8)) as [[? ->]|[? ->]]; [done|].
        rewrite !take_ge by lia. done.
      * f_equal. lia.
Qed.

Lemma pages_of_bound n : 0 <= n < 2 ^ 63 -> 1 <= pages_of n /\ n <= ONE_PAGE_CONTENT_SIZE * pages_of n /\
  (pages_of n - 1) * ONE_PAGE_CONTENT_SIZE < Z.max n 1.
Proof.
  intros Hn. unfold pages_of, ONE_PAGE_CONTENT_SIZE, PAGE_SIZE.
  rewrite wrap_small by (unfold is_uint; lia). dlia.
Qed.

(** What filling the pages [l] with [src] leaves behind. *)
Definition filled (m m' : gmap Z page) (l src : list Z) : Prop :=
  (forall x, p_next <$> m' !! x = p_next <$> m !! x) /\
  (forall x, x ∉ l -> m' !! x = m !! x) /\ pages_ok m' /\
  take (length src) (contents m' l) = src.

Lemma length_splice_0 chunk old :
  (length chunk <= length old)%nat -> length (splice 0 chunk old) = length old.
Proof. intros. apply length_splice. lia. Qed.

(** The exact number of pages for [rem] bytes. *)
Definition fits (n : nat) (rem : Z) : Prop :=
  rem <= ONE_PAGE_CONTENT_SIZE * Z.of_nat n /\
  (n <> 0%nat -> ONE_PAGE_CONTENT_SIZE * (Z.of_nat n - 1) < rem).

Lemma store_loop_spec l : forall fuel m a e src rem,
  pages_ok m -> chain m a l e -> NoDup l -> fits (length l) rem -> length src = Z.to_nat rem ->
  (length l <= fuel)%nat ->
  exists m', store_loop fuel m a src rem = Some (e, m') /\ filled m m' l src.
Proof.
  induction l as [|x l IH]; intros fuel m a e src rem Hok Hc Hnd [Hf1 Hf2] Hsrc Hfuel.
  - cbn in Hc, Hf1. subst a. exists m. split.
    + destruct fuel; cbn; by rewrite (proj2 (Z.leb_le _ _)) by lia.
    + split_and!; try done. replace (length src) with 0%nat by lia.
      rewrite take_0. symmetry. apply nil_length_inv. lia.
  - cbn in Hc. destruct Hc as (-> & p & Hp & Hc). apply NoDup_cons in Hnd as [Hx Hnd].
    destruct fuel as [|fuel]; [cbn in Hfuel; lia|]. cbn [store_loop].
    cbn [length] in Hf1, Hf2, Hfuel. specialize (Hf2 ltac:(done)).
    pose proof (Hok _ _ Hp) as Hlen. unfold ONE_PAGE_CONTENT_SIZE, PAGE_SIZE in *.
    rewrite (proj2 (Z.leb_gt _ _)) by lia. rewrite Hp. cbn [mbind option_bind].
    set (chunk := take (Z.to_nat (Z.min rem (4096 - 8))) src).
    set (m1 := <[x := mkPage (p_next p) (splice 0 chunk (p_content p))]> m).
    assert (length chunk = Z.to_nat (Z.min rem (4096 - 8))) as Hchunk
      by (unfold chunk; rewrite length_take; lia).
    assert (forall y, p_next <$> m1 !! y = p_next <$> m !! y) as Hnext.
    { intros y. unfold m1. destruct (decide (y = x)) as [->|]; [|by rewrite lookup_insert_ne].
      by rewrite lookup_insert_eq, Hp. }
    destruct (IH fuel m1 (p_next p) e (drop (Z.to_nat (4096 - 8)) src) (rem - (4096 - 8)))
      as (m' & -> & N & O & Ok' & Hdata).
    + intros y q Hy. unfold m1 in Hy. apply lookup_insert_Some in Hy as [[<- <-]|[_ Hy]];
        [|by apply (Hok y)]. cbn [p_content]. rewrite length_splice_0; [done|]. lia.
    + eapply chain_same; [|exact Hc]. intros y _. by rewrite Hnext.
    + done.
    + split; unfold ONE_PAGE_CONTENT_SIZE, PAGE_SIZE; lia.
    + rewrite length_drop. lia.
    + lia.
    + exists m'. split; [done|]. split_and!.
      * intros y. by rewrite N.
      * intros y Hy. rewrite O by set_solver. unfold m1. rewrite lookup_insert_ne; [done|].
        set_solver.
      * done.
      * cbn [contents flat_map]. rewrite O by done. unfold m1 at 1. rewrite lookup_insert_eq.
        cbn [fmap option_fmap option_map default from_option id p_content].
        change (flat_map _ l) with (contents m' l).
        unfold splice. rewrite take_0. cbn [app Nat.add].
        destruct (Z.leb_spec rem (4096 - 8)) as [Hle|Hgt].
        -- rewrite <- app_assoc, take_app_le by lia. unfold chunk.
           rewrite Z.min_l by lia. rewrite Hsrc. rewrite !take_take, !take_ge by lia. done.
        -- rewrite drop_ge by lia. rewrite app_nil_r.
           rewrite take_app, (take_ge chunk) by lia. rewrite <- (take_drop (Z.to_nat (4096 - 8)) src) at 2.
           f_equal; [unfold chunk; by rewrite Z.min_r by lia|].
           etrans; [|exact Hdata]. f_equal. rewrite length_drop. lia.
Qed.

(** ** The representation of a cache *)

(** An object with the list of its pages. *)
Abbreviation entry := (obj * list Z)%type.

Definition used (e : entry) : Z := last_used_tsc (o_meta e.1).

Definition live_entry (m : gmap Z page) (e : entry) : Prop := obj_rep m e.1 e.2 /\ 0 < used e.

(** The page addresses of all entries. *)
Definition held (l : list entry) : list Z := concat l.*2.

Record cache_rep (c : DuckCache) (l : list entry) (fl : list Z) : Prop := {
  rep_objs : objs c = l.*1;
  rep_free : chain (mem c) (free_list_addr c) fl 0;
  rep_n_free : Z.of_nat (length fl) = n_free_pages c;
  rep_live : Forall (live_entry (mem c)) l;
  rep_nodup : NoDup (fl ++ held l);
  rep_total : Z.of_nat (length (fl ++ held l)) = n_total_pages c;
  rep_sorted : objs_sorted (objs c);
  rep_pages : pages_ok (mem c);
  rep_room : n_cur_objects c <= n_max_objects c;
  rep_max : 1 <= n_max_objects c
}.

(** During eviction: entries already removed have time 0 and no pages. *)
Record evict_rep (c : DuckCache) (l : list entry) (fl : list Z) : Prop := {
  ev_objs : objs c = l.*1;
  ev_free : chain (mem c) (free_list_addr c) fl 0;
  ev_entries : Forall (fun e => (used e = 0 /\ e.2 = []) \/ live_entry (mem c) e) l;
  ev_nodup : NoDup (fl ++ held l);
  ev_pages : pages_ok (mem c)
}.

Definition same_content (m m' : gmap Z page) : Prop :=
  forall x, p_content <$> m' !! x = p_content <$> m !! x.

Lemma held_middle A o pgs B :
  held (A ++ (o, pgs) :: B) = held A ++ pgs ++ held B.
Proof. unfold held. by rewrite fmap_app, concat_app. Qed.

Lemma elem_of_held l e x : e ∈ l -> x ∈ e.2 -> x ∈ held l.
Proof.
  intros He Hx. unfold held. apply list_elem_of_In, in_concat. exists e.2.
  split; apply list_elem_of_In; [by apply list_elem_of_fmap_2|done].
Qed.

Lemma contents_same m m' l : same_content m m' -> contents m' l = contents m l.
Proof. intros Hs. unfold contents. apply flat_map_ext_elem. intros x _. by rewrite Hs. Qed.

Lemma set_next_mapped x b m p : m !! x = Some p ->
  exists m', set_next x b m = Some m' /\ same_content m m' /\
    (forall y, y <> x -> m' !! y = m !! y).
Proof.
  intros Hp. unfold set_next. rewrite Hp. eexists. split; [done|]. split.
  - intros y. destruct (decide (y = x)) as [->|]; [by rewrite lookup_insert_eq, Hp|].
    by rewrite lookup_insert_ne.
  - intros y Hy. by rewrite lookup_insert_ne.
Qed.

Lemma pages_ok_same m m' : same_content m m' -> pages_ok m -> pages_ok m'.
Proof.
  intros Hs Hok a p Hp. specialize (Hs a). rewrite Hp in Hs. cbn in Hs.
  destruct (m !! a) as [q|] eqn:Hq; [|done]. cbn in Hs. injection Hs as ->. by apply (Hok a).
Qed.

Lemma live_entry_frame m m' e x :
  (forall y, y <> x -> m' !! y = m !! y) -> x ∉ e.2 -> live_entry m e -> live_entry m' e.
Proof.
  intros Hm Hx [[[t Hc] Hl] Hu]. split; [|done]. split; [|done]. exists t.
  eapply chain_same; [|exact Hc]. intros y Hy. rewrite Hm; [done|]. intros ->. done.
Qed.

(** Moving the pages of one entry to the free list. *)
Lemma held_moved A o o' pgs B fl :
  (pgs ++ fl) ++ held (A ++ (o', []) :: B) ≡ₚ fl ++ held (A ++ (o, pgs) :: B).
Proof. rewrite !held_middle. cbn [app]. solve_Permutation. Qed.

(** One turn of the eviction loop. *)
Lemma evict_one c A o pgs B fl :
  evict_rep c (A ++ (o, pgs) :: B) fl -> live_entry (mem c) (o, pgs) ->
  exists x m, last_page (Z.to_nat (pages_of (len (o_meta o)) - 1)) (mem c) (start_addr (o_meta o)) = Some x /\
    set_next x (free_list_addr c) (mem c) = Some m /\ same_content (mem c) m /\
    evict_rep (mkCache (cache_size c) (n_max_objects c) (<[length A := invalidate o]> (objs c))
                 (start_addr (o_meta o)) (n_free_pages c) (n_total_pages c) m)
      (A ++ (invalidate o, []) :: B) (pgs ++ fl).
Proof.
  intros He [[[e Hc] [Hlen Hr]] Hu]. cbn [fst snd] in *.
  destruct (pages_of_bound _ Hr) as [Hp1 _].
  destruct pgs as [|x pgs0 _] using rev_ind; [cbn in Hlen; lia|].
  rewrite length_app in Hlen. cbn [length] in Hlen.
  destruct (chain_mapped _ _ _ _ x Hc) as [p Hp]; [set_solver|].
  destruct (set_next_mapped x (free_list_addr c) (mem c) p Hp) as (m & Hset & Hsame & Hother).
  exists x, m. split_and!; [|done|done|].
  { replace (Z.to_nat (pages_of (len (o_meta o)) - 1)) with (length pgs0) by lia.
    by eapply last_page_spec. }
  pose proof (ev_nodup _ _ _ He) as Hnd.
  assert (NoDup ((pgs0 ++ [x]) ++ fl) /\
          forall y, y ∈ held A ++ held B -> y ∉ pgs0 ++ [x]) as [Hnd1 Hdis].
  { rewrite held_middle in Hnd.
    assert (fl ++ held A ++ (pgs0 ++ [x]) ++ held B ≡ₚ
            ((pgs0 ++ [x]) ++ fl) ++ (held A ++ held B)) as Hperm by solve_Permutation.
    rewrite Hperm in Hnd. apply NoDup_app in Hnd as (H1 & H2 & _). split; [done|].
    intros y Hy Hy'. apply (H2 y); [|done]. apply elem_of_app. by left. }
  constructor; cbn [objs mem free_list_addr].
  - rewrite (ev_objs _ _ _ He), !fmap_app, !fmap_cons. cbn [fst].
    rewrite <- (length_fmap fst A), insert_app_r_alt, Nat.sub_diag by lia. done.
  - eapply (chain_link (mem c)); [|exact Hc|exact (ev_free _ _ _ He)|exact Hset].
    by rewrite app_assoc.
  - pose proof (ev_entries _ _ _ He) as Hent. apply Forall_app in Hent as [HA HB].
    apply Forall_cons in HB as [_ HB].
    assert (forall L, (forall y, y ∈ held L -> y ∉ pgs0 ++ [x]) ->
      Forall (fun e => (used e = 0 /\ e.2 = []) \/ live_entry (mem c) e) L ->
      Forall (fun e => (used e = 0 /\ e.2 = []) \/ live_entry m e) L) as Hframe.
    { intros L HL. rewrite !Forall_forall. intros HF en Hin.
      destruct (HF en Hin) as [Hd|Hl]; [by left|right].
      eapply live_entry_frame; [exact Hother| |exact Hl]. intros Hx.
      apply (HL x); [by eapply elem_of_held|set_solver]. }
    apply Forall_app. split; [apply Hframe; [|done]; intros; apply Hdis; set_solver|].
    constructor; [by left|]. apply Hframe; [|done]. intros; apply Hdis; set_solver.
  - rewrite (held_moved A o (invalidate o) (pgs0 ++ [x]) B fl). exact Hnd.
  - eapply pages_ok_same; [exact Hsame|]. exact (ev_pages _ _ _ He).
Qed.

Definition kill (e : entry) : entry := (invalidate e.1, []).

(** The entries after removing the ids [gone]. *)
Definition removed (gone : list nat) (l l' : list entry) : Prop :=
  forall i, l' !! i = if decide (i ∈ gone) then kill <$> l !! i else l !! i.

(** The cache fields eviction leaves alone. *)
Definition same_frame (c c' : DuckCache) : Prop :=
  cache_size c' = cache_size c /\ n_max_objects c' = n_max_objects c /\
  n_free_pages c' = n_free_pages c /\ n_total_pages c' = n_total_pages c /\
  length (objs c') = length (objs c).

(** The eviction loop may stop. *)
Definition enough (n_need : Z) (c : DuckCache) (np no : Z) : Prop :=
  n_need <= n_free_pages c + np /\ n_cur_objects c + 1 <= n_max_objects c + no.

Lemma ev_live c l fl i e :
  evict_rep c l fl -> l !! i = Some e -> 0 < used e -> live_entry (mem c) e.
Proof.
  intros He Hi Hu. pose proof (ev_entries _ _ _ He) as Hent.
  destruct (Forall_lookup_1 _ _ _ _ Hent Hi) as [[H0 _]|]; [lia|done].
Qed.

Lemma evict_spec n_need : forall ids c l fl np no,
  evict_rep c l fl -> NoDup ids ->
  (forall i, i ∈ ids -> exists e, l !! i = Some e /\ 0 < used e) ->
  exists c' np' no' gone rest l' fl',
    evict ids n_need c np no = Some (c', np', no') /\ ids = gone ++ rest /\
    evict_rep c' l' fl' /\ removed gone l l' /\ same_content (mem c) (mem c') /\
    fl' ++ held l' ≡ₚ fl ++ held l /\ same_frame c c' /\ Z.of_nat (length fl') = Z.of_nat (length fl) + (np' - np) /\
    no' = no + Z.of_nat (length gone) /\ (ids <> [] -> enough n_need c' np' no' \/ rest = []).
Proof.
  induction ids as [|id ids IH]; intros c l fl np no He Hnd Hids.
  { exists c, np, no, [], [], l, fl. split_and!; try done; cbn; lia. }
  apply NoDup_cons in Hnd as [Hid Hnd]. destruct (Hids id) as (e & Hl & Hu); [by left|].
  pose proof (ev_live _ _ _ _ _ He Hl Hu) as Hlive.
  assert (exists A B, l = A ++ e :: B /\ length A = id) as (A & B & -> & <-).
  { exists (take id l), (drop (S id) l). split; [by rewrite take_drop_middle|].
    rewrite length_take. apply lookup_lt_Some in Hl. lia. }
  clear Hl. destruct e as [o pgs]. cbn [evict].
  assert (objs c !! length A = Some o) as ->.
  { by rewrite (ev_objs _ _ _ He), list_lookup_fmap, list_lookup_middle. }
  cbn [mbind option_bind].
  destruct (evict_one c A o pgs B fl He Hlive) as (x & m & -> & Hset & Hsame & He').
  cbn [mbind option_bind]. rewrite Hset. cbn [mbind option_bind].
  set (c1 := mkCache _ _ _ _ _ _ m) in *.
  set (np1 := np + pages_of (len (o_meta o))). set (no1 := no + 1).
  assert (Z.of_nat (length (pgs ++ fl)) = Z.of_nat (length fl) + (np1 - np)) as Hfl.
  { rewrite length_app. destruct Hlive as [[_ [Hpl _]] _]. cbn in Hpl. unfold np1. lia. }
  assert (removed [length A] (A ++ (o, pgs) :: B) (A ++ (invalidate o, []) :: B)) as Hrem1.
  { intros i. destruct (decide (i = length A)) as [->|Hne].
    - rewrite decide_True by set_solver. by rewrite !list_lookup_middle.
    - rewrite decide_False by set_solver.
      destruct (decide (i < length A)%nat); [by rewrite !lookup_app_l by lia|].
      rewrite !lookup_app_r by lia. destruct (i - length A)%nat eqn:E; [lia|done]. }
  assert (same_frame c c1) as Hfr.
  { unfold c1, same_frame. cbn. by rewrite length_insert. }
  destruct ((n_free_pages c1 + np1 <? n_need) || (n_max_objects c1 + no1 <? n_cur_objects c1 + 1))
    eqn:Hstill.
  - destruct (IH c1 (A ++ (invalidate o, []) :: B) (pgs ++ fl) np1 no1 He' Hnd)
      as (c' & np' & no' & gone & rest & l' & fl' & Hev & -> & Hev' & Hrem & Hsc & Hperm & Hsf & Hlen & Hno & Hst).
    { intros i Hi. destruct (Hids i) as (e & Hli & Hue); [by right|]. exists e. split; [|done].
      rewrite (Hrem1 i). rewrite decide_False; [done|]. set_solver. }
    rewrite Hev. exists c', np', no', (length A :: gone), rest, l', fl'. split_and!; try done.
    + intros i. rewrite (Hrem i), (Hrem1 i).
      destruct (decide (i ∈ gone)) as [Hg|Hg].
      * rewrite decide_False by set_solver. by rewrite decide_True by set_solver.
      * destruct (decide (i = length A)) as [->|Hne].
        -- rewrite !decide_True by set_solver. done.
        -- rewrite !decide_False by set_solver. done.
    + intros y. by rewrite Hsc.
    + rewrite Hperm. apply held_moved.
    + destruct Hfr as (? & ? & ? & ? & ?), Hsf as (? & ? & ? & ? & ?). unfold same_frame. split_and!; congruence.
    + lia.
    + cbn [length]. unfold no1 in Hno. lia.
    + intros _. destruct rest as [|r rest]; [by right|]. apply Hst. by destruct gone.
  - apply orb_false_elim in Hstill as [Hs1 Hs2]. bprop.
    exists c1, np1, no1, [length A], ids, (A ++ (invalidate o, []) :: B), (pgs ++ fl).
    split_and!; try done; [apply held_moved|]. intros _. left. split; lia.
Qed.

(** ** Closing the gaps *)

Definition is_live (e : entry) : bool := negb (used e =? 0).

Definition live_entries (l : list entry) : list entry := List.filter is_live l.

Lemma live_entries_app l1 l2 : live_entries (l1 ++ l2) = live_entries l1 ++ live_entries l2.
Proof. apply List.filter_app. Qed.

Lemma defrag_kept l :
  List.filter (fun o => negb (last_used_tsc (o_meta o) =? 0)) l.*1 = (live_entries l).*1.
Proof.
  induction l as [|e l IH]; [done|]. cbn. unfold is_live at 1, used at 1.
  destruct (last_used_tsc (o_meta e.1) =? 0); cbn; by rewrite IH.
Qed.

Lemma removed_cons id gone l l' e :
  l !! id = Some e -> id ∉ gone -> removed (id :: gone) l l' -> removed gone (<[id := kill e]> l) l'.
Proof.
  intros Hl Hid Hr i. rewrite (Hr i). destruct (decide (i = id)) as [->|Hne].
  - rewrite decide_True by set_solver. rewrite decide_False by done.
    rewrite list_lookup_insert_eq by (by apply lookup_lt_Some in Hl). by rewrite Hl.
  - rewrite list_lookup_insert_ne by done. destruct (decide (i ∈ gone)) as [Hg|Hg].
    + by rewrite decide_True by set_solver.
    + by rewrite decide_False by set_solver.
Qed.

(** Each removed entry leaves the live ones, which keep their order. *)
Lemma removed_live gone : forall l l',
  NoDup gone -> (forall i, i ∈ gone -> exists e, l !! i = Some e /\ 0 < used e) -> removed gone l l' ->
  (length (live_entries l') + length gone = length (live_entries l))%nat /\
  sublist (live_entries l') (live_entries l).
Proof.
  induction gone as [|id gone IH]; intros l l' Hnd Hg Hr.
  - assert (l' = l) as ->; [|split; [cbn; lia|done]]. apply list_eq. intros i. by rewrite (Hr i).
  - apply NoDup_cons in Hnd as [Hid Hnd]. destruct (Hg id) as (e & Hl & Hu); [by left|].
    assert (removed gone (<[id := kill e]> l) l') as Hr' by (by apply removed_cons).
    assert (forall i, i ∈ gone -> exists e', <[id := kill e]> l !! i = Some e' /\ 0 < used e') as Hg'.
    { intros i Hi. destruct (Hg i) as (e' & Hl' & Hu'); [by right|]. exists e'. split; [|done].
      rewrite list_lookup_insert_ne; [done|]. intros ->. done. }
    destruct (IH _ _ Hnd Hg' Hr') as [Hlen Hsub]. clear Hg' Hr' IH.
    assert (exists A B, l = A ++ e :: B /\ length A = id) as (A & B & -> & <-).
    { exists (take id l), (drop (S id) l). split; [by rewrite take_drop_middle|].
      rewrite length_take. apply lookup_lt_Some in Hl. lia. }
    rewrite insert_app_r_alt, Nat.sub_diag in Hlen, Hsub by lia. cbn [list_insert insert] in Hlen, Hsub.
    rewrite live_entries_app in Hlen, Hsub |- *. cbn [live_entries List.filter] in *.
    change (is_live (kill e)) with false in *. replace (is_live e) with true in *.
    2: { unfold is_live. symmetry. apply negb_true_iff, Z.eqb_neq. lia. }
    fold (live_entries A) (live_entries B) in *. split.
    + rewrite !length_app in *. cbn [length] in *. lia.
    + etrans; [exact Hsub|]. apply sublist_app; [done|]. by constructor.
Qed.

Lemma StronglySorted_sublist {A} (R : A -> A -> Prop) l1 l2 :
  sublist l1 l2 -> StronglySorted R l2 -> StronglySorted R l1.
Proof.
  induction 1 as [|x l1 l2 Hs IH|x l1 l2 Hs IH]; intros Hl2; [done| |].
  - apply StronglySorted_cons in Hl2 as [Hx Hl2]. constructor; [by apply IH|].
    apply Forall_forall. intros y Hy. apply (proj1 (Forall_forall _ _) Hx). by eapply elem_of_sublist.
  - apply StronglySorted_cons in Hl2 as [_ Hl2]. by apply IH.
Qed.

(** ** Making room *)

Lemma cache_evict_rep c l fl : cache_rep c l fl -> evict_rep c l fl.
Proof.
  intros []. constructor; try done. eapply Forall_impl; [exact rep_live0|]. by right.
Qed.

Lemma live_all l : Forall (fun e => 0 < used e) l -> live_entries l = l.
Proof.
  induction 1 as [|e l He Hl IH]; [done|]. cbn. unfold is_live at 1.
  rewrite (proj2 (Z.eqb_neq _ _)) by lia. cbn. f_equal. exact IH.
Qed.

Lemma elem_of_live l e : e ∈ live_entries l <-> e ∈ l /\ used e <> 0.
Proof.
  unfold live_entries. rewrite !list_elem_of_In, filter_In. unfold is_live.
  by rewrite negb_true_iff, Z.eqb_neq.
Qed.

Lemma held_live m l :
  Forall (fun e => (used e = 0 /\ e.2 = []) \/ live_entry m e) l -> held (live_entries l) = held l.
Proof.
  induction 1 as [|e l He Hl IH]; [done|]. cbn. unfold is_live at 1.
  destruct (Z.eqb_spec (used e) 0) as [E|E]; cbn.
  - destruct He as [[_ ->]|[_ Hu]]; [exact IH|lia].
  - unfold held in *. cbn. f_equal. exact IH.
Qed.

Lemma sublist_map {A B} (f : A -> B) l1 l2 : sublist l1 l2 -> sublist (f <$> l1) (f <$> l2).
Proof. induction 1; cbn; by constructor. Qed.

Lemma objs_sorted_sublist l1 l2 : sublist l1 l2 -> objs_sorted l2 -> objs_sorted l1.
Proof.
  intros Hs [H1 H2]. split.
  - eapply StronglySorted_sublist; [|exact H1]. by apply sublist_map.
  - apply Forall_forall. intros o Ho. apply (proj1 (Forall_forall _ _) H2). by eapply elem_of_sublist.
Qed.

(** The result of evicting: a represented cache with room, the kept entries in
    order, and every lost entry used no later than every kept one. *)
Record room_made (n_need : Z) (c c' : DuckCache) (l l' : list entry) (fl' : list Z) : Prop := {
  rm_rep : cache_rep c' l' fl';
  rm_pages : n_need <= n_free_pages c';
  rm_slot : n_cur_objects c' + 1 <= n_max_objects c';
  rm_sub : sublist l' l;
  rm_lru : forall e e', e ∈ l -> e ∉ l' -> e' ∈ l' -> used e <= used e';
  rm_content : same_content (mem c) (mem c')
}.

Section room.
Context `{S : SortIds} `{SL : !SortIdsLaws S}.

(** The eviction and the closing of the gaps in [make_room]. *)
Lemma evict_room n_need c l fl :
  cache_rep c l fl -> 1 <= n_need <= n_total_pages c ->
  n_free_pages c < n_need \/ n_max_objects c < n_cur_objects c + 1 ->
  let key i := default 0 ((fun o => last_used_tsc (o_meta o)) <$> objs c !! i) in
  exists c1 np no,
    evict (sort_ids key (seq 0 (length (objs c)))) n_need c 0 0 = Some (c1, np, no) /\
    let c' := mkCache (cache_size c1) (n_max_objects c1)
                (take (Z.to_nat (n_cur_objects c1 - no)) (defrag (objs c1)))
                (free_list_addr c1) (n_free_pages c1 + np) (n_total_pages c1) (mem c1) in
    exists l' fl', room_made n_need c c' l l' fl'.
Proof.
  intros Hrep Hn Hneed key. pose proof Hrep as [Ho Hfree Hnf Hlive Hnd Htot Hsort Hpg Hroom Hmax].
  set (ids := sort_ids key (seq 0 (length (objs c)))).
  assert (ids ≡ₚ seq 0 (length l)) as Hperm.
  { unfold ids. rewrite sort_ids_perm. by rewrite Ho, length_fmap. }
  assert (NoDup ids) as Hndids by (rewrite Hperm; apply NoDup_seq).
  assert (Forall (fun e => 0 < used e) l) as Hpos.
  { eapply Forall_impl; [exact Hlive|]. by intros e [_ ?]. }
  assert (forall i, i ∈ ids -> exists e, l !! i = Some e /\ 0 < used e) as Hids.
  { intros i Hi. rewrite Hperm in Hi. apply elem_of_seq in Hi.
    destruct (lookup_lt_is_Some_2 l i) as [e He]; [lia|]. exists e. split; [done|].
    by apply (Forall_lookup_1 _ _ _ _ Hpos He). }
  destruct (evict_spec n_need ids c l fl 0 0 (cache_evict_rep _ _ _ Hrep) Hndids Hids)
    as (c1 & np & no & gone & rest & l1 & fl1 & Hev & Hgr & He1 & Hrem & Hsc & Hpm & Hsf & Hlen & Hno & Hst).
  exists c1, np, no. split; [exact Hev|]. intros c'. exists (live_entries l1), fl1.
  rewrite Hgr in Hndids. apply NoDup_app in Hndids as (Hndg & Hdis & Hndr).
  destruct (removed_live gone l l1) as [Hcount Hsub]; [done| |done|].
  { intros i Hi. apply Hids. rewrite Hgr. set_solver. }
  rewrite (live_all l Hpos) in Hcount, Hsub.
  destruct Hsf as (Hf1 & Hf2 & Hf3 & Hf4 & Hf5).
  assert (length l = length (objs c)) as Hll by (by rewrite Ho, length_fmap).
  assert (objs c' = (live_entries l1).*1) as Hobjs.
  { unfold c', defrag. cbn [objs]. rewrite (ev_objs _ _ _ He1), defrag_kept.
    rewrite take_app_length'; [done|]. rewrite length_fmap. unfold n_cur_objects.
    rewrite Hf5. lia. }
  assert (n_cur_objects c' = n_cur_objects c - Z.of_nat (length gone)) as Hcur.
  { unfold n_cur_objects. rewrite Hobjs, length_fmap. lia. }
  assert (Z.of_nat (length (fl1 ++ held (live_entries l1))) = n_total_pages c) as Htot1.
  { rewrite (held_live _ _ (ev_entries _ _ _ He1)), Hpm. done. }
  assert (enough n_need c1 np no) as [Hen1 Hen2].
  { destruct (decide (ids = [])) as [Ei|Ei].
    - rewrite Ei in Hperm. symmetry in Hperm. apply Permutation_nil_r in Hperm.
      destruct l as [|e l0]; [|done]. unfold n_cur_objects in Hneed. cbn in *. rewrite <- Hll in *. cbn in *.
      rewrite app_nil_r in Htot. lia.
    - destruct Hst as [|Hrest]; [by rewrite Hgr in *|done|]. subst rest. rewrite app_nil_r in Hgr.
      assert (length gone = length l) as Hg by (rewrite <- Hgr, Hperm; by rewrite length_seq).
      assert (live_entries l1 = []) as Hnil by (apply nil_length_inv; lia).
      rewrite Hnil in Htot1. unfold held in Htot1. cbn in Htot1. rewrite app_nil_r in Htot1.
      split; unfold n_cur_objects in *; rewrite ?Hf2, ?Hf3, ?Hf5; lia. }
  constructor.
  - constructor; try done.
    + exact (ev_free _ _ _ He1).
    + cbn. lia.
    + apply Forall_forall. intros e [Hin Hu]%elem_of_live.
      destruct (proj1 (Forall_forall _ _) (ev_entries _ _ _ He1) e Hin) as [[? _]|]; done.
    + rewrite (held_live _ _ (ev_entries _ _ _ He1)). exact (ev_nodup _ _ _ He1).
    + cbn. by rewrite Htot1.
    + rewrite Hobjs. apply (objs_sorted_sublist _ l.*1); [by apply sublist_map|]. by rewrite <- Ho.
    + exact (ev_pages _ _ _ He1).
    + cbn [n_max_objects c']. rewrite Hcur. cbn. lia.
    + cbn. lia.
  - cbn. lia.
  - rewrite Hcur. cbn [n_max_objects c']. unfold n_cur_objects in *. rewrite Hf5 in Hen2. lia.
  - exact Hsub.
  - intros e e' He Hne He'. apply elem_of_live in He' as [He' Hu'].
    apply list_elem_of_lookup in He as [i Hi]. apply list_elem_of_lookup in He' as [j Hj].
    assert (j ∉ gone) as Hjg.
    { intros Hg. rewrite (Hrem j), decide_True in Hj by done.
      destruct (l !! j) as [e0|]; [|done]. injection Hj as <-. done. }
    assert (l !! j = Some e') as Hlj by (rewrite <- Hj, (Hrem j); by rewrite decide_False).
    assert (i ∈ gone) as Hig.
    { destruct (decide (i ∈ gone)) as [|Hg]; [done|]. exfalso. apply Hne, elem_of_live. split.
      - apply list_elem_of_lookup. exists i. by rewrite (Hrem i), decide_False.
      - pose proof (Forall_lookup_1 _ _ _ _ Hpos Hi). cbn in *. lia. }
    assert (j ∈ rest) as Hjr.
    { assert (j ∈ ids) as Hji.
      { rewrite Hperm, elem_of_seq. apply lookup_lt_Some in Hlj. lia. }
      rewrite Hgr in Hji. apply elem_of_app in Hji as [|]; done. }
    pose proof (sort_ids_sorted key (seq 0 (length (objs c)))) as Hss. fold ids in Hss. rewrite Hgr in Hss.
    pose proof (StronglySorted_app_1_elem_of _ _ _ _ _ Hss Hig Hjr) as Hk. unfold key in Hk.
    rewrite Ho, !list_lookup_fmap, Hi, Hlj in Hk. exact Hk.
  - exact Hsc.
Qed.
End room.

(** ** Storing *)

Lemma above_digest d l :
  objs_sorted l -> Forall (fun o => ~ digest_lt (o_digest o) d) l -> head_is d l = false ->
  Forall (fun o => digest_lt d (o_digest o)) l.
Proof.
  intros [Hs _] Hn Hh. destruct l as [|o l]; [done|]. cbn in Hs, Hh.
  apply Forall_cons in Hn as [Ho _]. apply bool_decide_eq_false in Hh.
  apply StronglySorted_cons in Hs as [Hl _]. rewrite Forall_fmap in Hl.
  assert (digest_lt d (o_digest o)) as Hd by (destruct (digest_cases (o_digest o) d) as [|[|]]; done).
  constructor; [done|]. eapply Forall_impl; [exact Hl|]. cbn. intros x. by apply digest_lt_trans.
Qed.

Lemma objs_insert_sorted d o l1 l2 :
  objs_sorted (l1 ++ l2) -> Forall (fun o => digest_lt (o_digest o) d) l1 ->
  Forall (fun o => digest_lt d (o_digest o)) l2 -> o_digest o = d -> o_hash o = a0 d ->
  objs_sorted (l1 ++ o :: l2).
Proof.
  intros [Hs Hh] H1 H2 Hd Ho. apply Forall_app in Hh as [Hh1 Hh2]. split.
  - rewrite fmap_app, StronglySorted_app in Hs. destruct Hs as (Hx & Hs1 & Hs2).
    rewrite fmap_app, fmap_cons, StronglySorted_app, StronglySorted_cons. split_and!; try done.
    + intros x y Hxl [->|Hyl]%elem_of_cons; [|by apply Hx].
      apply list_elem_of_fmap in Hxl as (z & -> & Hz). rewrite Hd.
      by apply (proj1 (Forall_forall _ _) H1).
    + rewrite Forall_fmap, Hd. exact H2.
  - apply Forall_app. split; [done|]. constructor; [by rewrite Hd|done].
Qed.

Lemma live_entry_filled m m' l src e :
  filled m m' l src -> live_entry m e -> live_entry m' e.
Proof.
  intros (Hn & _) [[[t Hc] Hl] Hu]. split; [|done]. split; [|done]. exists t.
  eapply chain_same; [|exact Hc]. intros x _. by rewrite Hn.
Qed.

Lemma contents_frame m m' l :
  (forall x, x ∈ l -> m' !! x = m !! x) -> contents m' l = contents m l.
Proof. intros Hf. unfold contents. apply flat_map_ext_elem. intros x Hx. by rewrite Hf. Qed.

(** Filling the pages taken from the head of the free list. *)
Lemma fill_pages m a pgs b src now d :
  pages_ok m -> chain m a pgs b -> NoDup pgs -> Z.of_nat (length src) < 2 ^ 63 ->
  Z.of_nat (length pgs) = pages_of (Z.of_nat (length src)) -> 0 < now ->
  let n := Z.of_nat (length src) in
  let o := mkObj (a0 d) d (mkMeta now a n) in
  exists m', (r ← store_loop (Z.to_nat (pages_of n)) m a src n;
              let '(addr, m1) := r in
              addr ← (if n =? 0 then p ← m1 !! addr; Some (p_next p) else Some addr);
              Some (addr, m1)) = Some (b, m') /\
    filled m m' pgs src /\ live_entry m' (o, pgs) /\ data m' o pgs = src.
Proof.
  intros Hok Hc Hnd Hlen Hpgs Hnow n o.
  destruct (pages_of_bound n) as (Hp1 & Hp2 & Hp3); [lia|]. fold n in Hpgs.
  assert (exists m', (r ← store_loop (Z.to_nat (pages_of n)) m a src n;
              let '(addr, m1) := r in
              addr ← (if n =? 0 then p ← m1 !! addr; Some (p_next p) else Some addr);
              Some (addr, m1)) = Some (b, m') /\ filled m m' pgs src) as (m' & Hst & Hfill).
  { destruct (Z.eqb_spec n 0) as [E|E].
    - assert (pages_of n = 1) as Hone by (rewrite E in *; unfold ONE_PAGE_CONTENT_SIZE, PAGE_SIZE in *; lia).
      destruct pgs as [|x [|y pgs]]; cbn [length] in Hpgs; try lia. cbn in Hc.
      destruct Hc as (-> & p & Hp & <-). exists m.
      assert (store_loop (Z.to_nat (pages_of n)) m x src n = Some (x, m)) as ->.
      { rewrite Hone, E. done. }
      cbn [mbind option_bind]. rewrite Hp. split; [done|]. split_and!; try done.
      replace (length src) with 0%nat by lia. rewrite take_0. symmetry. apply nil_length_inv. lia.
    - destruct (store_loop_spec pgs (Z.to_nat (pages_of n)) m a b src n) as (m' & -> & Hf); try done.
      + split; [lia|]. intros _. rewrite Hpgs. unfold ONE_PAGE_CONTENT_SIZE, PAGE_SIZE in *. lia.
      + lia.
      + lia.
      + by exists m'. }
  exists m'. split; [exact Hst|]. split; [done|]. destruct Hfill as (Hn & Hot & Hok' & Hd). split.
  - split; [|done]. split; [|split; [done|cbn; lia]]. exists b.
    eapply chain_same; [|exact Hc]. intros x _. by rewrite Hn.
  - unfold data. cbn [len o_meta o]. unfold n. by rewrite Nat2Z.id.
Qed.

(** What storing [src] under [d] makes of a represented cache. *)
Record stored (d : Digest256) (src : list Z) (c c' : DuckCache) (l : list entry) : Prop := {
  st_ex : exists A o pgs B fl',
    cache_rep c' (A ++ (o, pgs) :: B) fl' /\ o_digest o = d /\ data (mem c') o pgs = src /\
    len (o_meta o) = Z.of_nat (length src) /\
    sublist (A ++ B) l /\ (forall e, e ∈ A ++ B -> data (mem c') e.1 e.2 = data (mem c) e.1 e.2) /\
    (forall e e', e ∈ l -> e ∉ A ++ B -> e' ∈ A ++ B -> used e <= used e')
}.

Section store_proofs.
Context `{S : SortIds} `{SL : !SortIdsLaws S}.

(** Storing once there is room at index [idx]. *)
Lemma store_at d src now n c0 c l0 l fl :
  0 < now -> n = Z.of_nat (length src) -> n < 2 ^ 63 ->
  room_made (pages_of n) c0 c l0 l fl -> snd (find d c) = false ->
  let idx := fst (find d c) in
  exists addr m,
    (r ← store_loop (Z.to_nat (pages_of n)) (mem c) (free_list_addr c) src n;
     let '(addr, m1) := r in
     addr ← (if n =? 0 then p ← m1 !! addr; Some (p_next p) else Some addr);
     Some (addr, m1)) = Some (addr, m) /\
    stored d src c0 (mkCache (cache_size c) (n_max_objects c)
      (take idx (objs c) ++ mkObj (a0 d) d (mkMeta now (free_list_addr c) n) :: drop idx (objs c))
      addr (n_free_pages c - pages_of n) (n_total_pages c) m) l0.
Proof.
  intros Hnow -> Hlt [Hrep Hpg Hslot Hsub Hlru Hcont] Hfind idx.
  pose proof Hrep as [Ho Hfree Hnf Hlive Hnd Htot Hsort Hpok Hroom Hmax].
  set (n := Z.of_nat (length src)) in *.
  destruct (pages_of_bound n) as (Hp1 & _); [lia|].
  destruct (find_spec d c Hsort) as (l1 & l2 & Hl12 & H1 & H2 & Hf). rewrite Hf in Hfind. cbn in Hfind.
  unfold idx. rewrite Hf. cbn [fst].
  pose proof Hsort as Hs12. rewrite Hl12 in Hs12.
  assert (Forall (fun o => digest_lt d (o_digest o)) l2) as H2'
    by (apply above_digest; [by apply (objs_sorted_app l1)|done|done]).
  rewrite Ho in Hl12. apply fmap_app_inv in Hl12 as (A & B & -> & -> & ->).
  (* the pages taken *)
  set (k := Z.to_nat (pages_of n)).
  assert (length (take k fl) = k) as Hlk by (rewrite length_take; unfold k; lia).
  rewrite <- (take_drop k fl) in Hfree, Hnd, Htot, Hnf. set (pgs := take k fl) in *. set (fl2 := drop k fl) in *.
  apply chain_app in Hfree as (b & Hc1 & Hc2).
  assert (NoDup pgs /\ forall x, x ∈ held (A ++ B) -> x ∉ pgs) as [Hndp Hdisp].
  { rewrite <- app_assoc in Hnd. apply NoDup_app in Hnd as (? & Hd & _). split; [done|].
    intros x Hx Hx'. apply (Hd x Hx'). apply elem_of_app. by right. }
  destruct (fill_pages (mem c) (free_list_addr c) pgs b src now d) as (m' & Hst & Hfill & Hle & Hda);
    try done.
  { rewrite Hlk. unfold k. fold n. lia. }
  exists b, m'. split; [exact Hst|]. pose proof Hfill as (Hnx & Hot & Hok' & _).
  constructor. exists A, (mkObj (a0 d) d (mkMeta now (free_list_addr c) n)), pgs, B, fl2.
  split_and!; try done.
  - constructor; cbn [objs free_list_addr mem n_free_pages n_total_pages n_max_objects].
    + rewrite Ho, !fmap_app, fmap_cons, take_app_length, drop_app_length. done.
    + eapply chain_same; [|exact Hc2]. intros x _. by rewrite Hnx.
    + rewrite length_app in Hnf. lia.
    + apply Forall_app in Hlive as [HA HB]. apply Forall_app. split; [|constructor; [exact Hle|]];
        eapply Forall_impl; [exact HA| |exact HB|]; intros e; by eapply live_entry_filled.
    + rewrite held_middle. unfold held in *. rewrite fmap_app, concat_app in Hnd.
      assert (fl2 ++ concat A.*2 ++ pgs ++ concat B.*2 ≡ₚ
              (pgs ++ fl2) ++ concat A.*2 ++ concat B.*2) as -> by solve_Permutation. exact Hnd.
    + rewrite <- Htot, held_middle. unfold held. rewrite fmap_app, concat_app, !length_app. lia.
    + rewrite Ho, fmap_app, take_app_length, drop_app_length. by apply (objs_insert_sorted d).
    + done.
    + unfold n_cur_objects in *. cbn [objs]. rewrite Ho, fmap_app in *.
      rewrite take_app_length, drop_app_length. rewrite !length_app in *. cbn [length]. lia.
    + done.
  - intros e He. unfold data. f_equal.
    transitivity (contents (mem c) e.2).
    + apply contents_frame. intros x Hx. apply Hot. apply Hdisp. by eapply elem_of_held.
    + by apply contents_same.
Qed.

Lemma make_room_spec d n_need c l fl idx :
  cache_rep c l fl -> 1 <= n_need <= n_total_pages c -> find d c = (idx, false) ->
  exists c' l' fl', make_room d n_need idx c = Some (fst (find d c'), c') /\
    snd (find d c') = false /\ room_made n_need c c' l l' fl'.
Proof.
  intros Hrep Hn Hfind. unfold make_room.
  destruct ((n_free_pages c <? n_need) || (n_max_objects c <? n_cur_objects c + 1)) eqn:Hneed.
  - apply orb_prop in Hneed. rewrite !Z.ltb_lt in Hneed.
    destruct (evict_room n_need c l fl Hrep Hn Hneed) as (c1 & np & no & -> & l' & fl' & Hroom).
    cbn [mbind option_bind]. set (c' := mkCache _ _ _ _ _ _ _) in *.
    assert (snd (find d c') = false) as Hnf.
    { destruct Hroom as [Hrep' _ _ Hsub _ _].
      destruct (find_spec d c (rep_sorted _ _ _ Hrep)) as (l1 & l2 & E & H1 & H2 & Hf).
      destruct (find_spec d c' (rep_sorted _ _ _ Hrep')) as (k1 & k2 & E' & K1 & K2 & Hf').
      rewrite Hf'. cbn. rewrite Hf in Hfind. injection Hfind as _ Hh.
      destruct k2 as [|o k2]; [done|]. cbn. apply bool_decide_eq_false_2. intros Ho.
      assert (o ∈ objs c) as Hin.
      { rewrite (rep_objs _ _ _ Hrep). eapply elem_of_sublist; [|by apply sublist_map, Hsub].
        rewrite <- (rep_objs _ _ _ Hrep'), E'. apply elem_of_app. right. by left. }
      rewrite E in Hin. apply elem_of_app in Hin as [Hin|Hin].
      - apply (proj1 (Forall_forall _ _) H1) in Hin. rewrite Ho in Hin. by eapply digest_lt_irrefl.
      - pose proof (rep_sorted _ _ _ Hrep) as Hs. rewrite E in Hs. apply objs_sorted_app in Hs as [_ Hs].
        pose proof (above_digest d l2 Hs H2 Hh) as Ha.
        apply (proj1 (Forall_forall _ _) Ha) in Hin. rewrite Ho in Hin. by eapply digest_lt_irrefl. }
    exists c', l', fl'. destruct (find d c') as [i b]. cbn in Hnf. by subst b.
  - apply orb_false_elim in Hneed as [H1 H2]. bprop. exists c, l, fl. rewrite Hfind.
    split; [done|]. split; [done|]. constructor; try done; try lia.
Qed.

(** [store], in all cases. *)
Lemma store_spec d src now c l fl :
  cache_rep c l fl -> 0 < now -> Z.of_nat (length src) < 2 ^ 63 ->
  (snd (find d c) = true /\ store d src now c = Some (true, c)) \/
  (snd (find d c) = false /\ n_total_pages c < pages_of (Z.of_nat (length src)) /\
   store d src now c = Some (false, c)) \/
  (snd (find d c) = false /\ pages_of (Z.of_nat (length src)) <= n_total_pages c /\
   exists c', store d src now c = Some (true, c') /\ stored d src c c' l).
Proof.
  intros Hrep Hnow Hlen. unfold store. destruct (find d c) as [idx found] eqn:Hf. cbn [snd].
  destruct found; [by left|right].
  destruct (pages_of_bound (Z.of_nat (length src))) as (Hp1 & _); [lia|].
  case_if; [by left|right]. split; [done|]. split; [done|].
  destruct (make_room_spec d (pages_of (Z.of_nat (length src))) c l fl idx Hrep)
    as (c' & l' & fl' & -> & Hnf & Hroom); [lia|done|].
  cbn [mbind option_bind].
  destruct (store_at d src now _ c c' l l' fl' Hnow eq_refl Hlen Hroom Hnf) as (addr & m & Hst & Hs).
  eexists. split; [|exact Hs]. revert Hst.
  destruct (store_loop _ _ _ _ _) as [[a1 m1]|]; cbn [mbind option_bind]; [|done].
  destruct (if _ =? 0 then _ else _) as [a2|]; cbn [mbind option_bind]; [|done].
  by intros [= -> ->].
Qed.
End store_proofs.

(** ** Loading *)

Lemma find_entry d c l fl :
  cache_rep c l fl ->
  (exists o pgs, l !! fst (find d c) = Some (o, pgs) /\ o_digest o = d /\ snd (find d c) = true /\
     forall e, e ∈ l -> o_digest e.1 = d -> e = (o, pgs)) \/
  (snd (find d c) = false /\ forall e, e ∈ l -> o_digest e.1 <> d).
Proof.
  intros Hrep. destruct (find_spec d c (rep_sorted _ _ _ Hrep)) as (l1 & l2 & E & H1 & H2 & ->).
  cbn [fst snd]. pose proof (rep_sorted _ _ _ Hrep) as Hs. rewrite E in Hs.
  rewrite (rep_objs _ _ _ Hrep) in E. apply fmap_app_inv in E as (A & B & -> & -> & ->).
  rewrite length_fmap. destruct (head_is d B.*1) eqn:Hh.
  - left. destruct B as [|[o pgs] B]; [done|]. cbn in Hh. apply bool_decide_eq_true in Hh.
    exists o, pgs. rewrite list_lookup_middle by done. split_and!; try done.
    intros e He Hd. apply elem_of_app in He as [He|He].
    { apply (list_elem_of_fmap_2 fst) in He. apply (proj1 (Forall_forall _ _) H1) in He.
      cbn in He. rewrite Hd in He. by apply digest_lt_irrefl in He. }
    apply elem_of_cons in He as [->|He]; [done|]. exfalso.
    apply objs_sorted_app in Hs as [_ [Hs _]]. cbn in Hs. apply StronglySorted_cons in Hs as [Hlt _].
    rewrite Forall_fmap in Hlt. apply (list_elem_of_fmap_2 fst) in He.
    apply (proj1 (Forall_forall _ _) Hlt) in He. cbn in He. rewrite Hd, Hh in He.
    by apply digest_lt_irrefl in He.
  - right. split; [done|]. intros e He Hd. apply objs_sorted_app in Hs as [_ Hs].
    pose proof (above_digest d _ Hs H2 Hh) as Ha.
    apply elem_of_app in He as [He|He]; apply (list_elem_of_fmap_2 fst) in He.
    + apply (proj1 (Forall_forall _ _) H1) in He. cbn in He. rewrite Hd in He. by apply digest_lt_irrefl in He.
    + apply (proj1 (Forall_forall _ _) Ha) in He. cbn in He. rewrite Hd in He. by apply digest_lt_irrefl in He.
Qed.

Lemma touch_rep now i o pgs c l fl :
  cache_rep c l fl -> l !! i = Some (o, pgs) -> 0 < now ->
  cache_rep (set_objs (<[i := touch now o]> (objs c)) c) (<[i := (touch now o, pgs)]> l) fl.
Proof.
  intros [Ho Hfree Hnf Hlive Hnd Htot Hsort Hpok Hroom Hmax] Hi Hnow.
  assert ((<[i := (touch now o, pgs)]> l).*2 = l.*2) as H2.
  { rewrite list_fmap_insert. cbn. apply list_insert_id. by rewrite list_lookup_fmap, Hi. }
  assert (o_digest <$> <[i := touch now o]> (objs c) = o_digest <$> objs c) as Hd.
  { rewrite list_fmap_insert. cbn. apply list_insert_id. by rewrite Ho, !list_lookup_fmap, Hi. }
  constructor; cbn [objs set_objs free_list_addr mem n_free_pages n_total_pages n_max_objects]; try done.
  - by rewrite Ho, list_fmap_insert.
  - apply Forall_insert; [done|]. destruct (Forall_lookup_1 _ _ _ _ Hlive Hi) as [Hr _]. by split.
  - unfold held in *. by rewrite H2.
  - unfold held in *. by rewrite H2.
  - destruct Hsort as [Hs Hh]. split; [by rewrite Hd|]. apply Forall_insert; [done|].
    assert (objs c !! i = Some o) as Hoi by (by rewrite Ho, list_lookup_fmap, Hi).
    apply (Forall_lookup_1 _ _ _ _ Hh Hoi).
  - unfold n_cur_objects in *. cbn [objs set_objs]. by rewrite length_insert.
Qed.

(** The object of digest [d] with [n] bytes. *)
Definition holds (c : DuckCache) (l : list entry) (d : Digest256) (n : Z) (bytes : list Z) : Prop :=
  exists o pgs, (o, pgs) ∈ l /\ o_digest o = d /\ len (o_meta o) = n /\ bytes = data (mem c) o pgs.

Lemma load_spec d n now c l fl :
  cache_rep c l fl -> 0 < now ->
  exists r c' l', load d n now c = Some (r, c') /\ cache_rep c' l' fl /\
    mem c' = mem c /\ l'.*2 = l.*2 /\
    (forall bytes, r = Some bytes <-> holds c l d n bytes).
Proof.
  intros Hrep Hnow. unfold load.
  destruct (find_entry d c l fl Hrep) as [(o & pgs & Hi & Hd & Hf & Huniq)|[Hf Hnone]];
    destruct (find d c) as [idx found]; cbn [fst snd] in *; subst found; cbn [negb].
  - assert (objs c !! idx = Some o) as ->.
    { by rewrite (rep_objs _ _ _ Hrep), list_lookup_fmap, Hi. }
    cbn [mbind option_bind]. destruct (Z.eqb_spec (len (o_meta o)) n) as [En|En]; cbn [negb].
    + pose proof (Forall_lookup_1 _ _ _ _ (rep_live _ _ _ Hrep) Hi) as [[[e Hc] [Hlen Hr]] _].
      cbn [fst snd] in *. destruct (pages_of_bound _ Hr) as (_ & Hp2 & _).
      rewrite (load_loop_spec (mem c) pgs _ _ e); [|exact (rep_pages _ _ _ Hrep)|done|rewrite Hlen; lia|].
      2: { rewrite <- En. lia. }
      cbn [mbind option_bind]. eexists _, _, _. split; [done|].
      split; [by apply touch_rep|]. split; [done|]. split.
      { rewrite list_fmap_insert. cbn. apply list_insert_id. by rewrite list_lookup_fmap, Hi. }
      intros bytes. split.
      * intros [= <-]. exists o, pgs. split; [by eapply list_elem_of_lookup_2|]. split_and!; try done.
        unfold data. by rewrite En.
      * intros (o' & pgs' & Hin & Hd' & Hn & ->). pose proof (Huniq _ Hin Hd') as [= -> ->].
        unfold data. by rewrite En.
    + eexists _, _, l. split; [done|]. split_and!; try done. intros bytes. split; [done|].
      intros (o' & pgs' & Hin & Hd' & Hn & ->). pose proof (Huniq _ Hin Hd') as [= -> ->]. done.
  - eexists _, _, l. split; [done|]. split_and!; try done. intros bytes. split; [done|].
    intros (o' & pgs' & Hin & Hd' & _). by apply (Hnone _ Hin) in Hd'.
Qed.

(** ** Initialisation *)

Definition addrs (a : Z) (n : nat) : list Z := (fun k => a + PAGE_SIZE * Z.of_nat k) <$> seq 0 n.

Lemma addrs_S a n : addrs a (S n) = a :: addrs (a + PAGE_SIZE) n.
Proof.
  unfold addrs. cbn [seq fmap list_fmap]. f_equal; [lia|].
  rewrite <- fmap_S_seq, <- list_fmap_compose. apply list_fmap_ext. intros. unfold compose, PAGE_SIZE. lia.
Qed.

Lemma addrs_ge a n x : x ∈ addrs a n -> a <= x.
Proof. intros Hx. apply list_elem_of_fmap in Hx as (k & -> & _). unfold PAGE_SIZE. lia. Qed.

Lemma length_addrs a n : length (addrs a n) = n.
Proof. unfold addrs. by rewrite length_fmap, length_seq. Qed.

Lemma NoDup_addrs a n : NoDup (addrs a n).
Proof.
  unfold addrs. apply NoDup_fmap_2; [|apply NoDup_seq]. intros x y. unfold PAGE_SIZE. lia.
Qed.

Lemma link_pages_spec : forall fuel cache cache_end m n m',
  link_pages fuel cache cache_end m = (n, m') -> pages_ok m ->
  cache_end - cache <= PAGE_SIZE * Z.of_nat fuel + PAGE_SIZE -> cache < cache_end ->
  exists k, n = Z.of_nat k /\ chain m' cache (addrs cache k) 0 /\ pages_ok m' /\
    (forall x, x < cache -> m' !! x = m !! x) /\
    cache_end <= cache + PAGE_SIZE * n < cache_end + PAGE_SIZE.
Proof.
  assert (forall a next m, pages_ok m ->
    pages_ok (<[a := mkPage next (replicate (Z.to_nat ONE_PAGE_CONTENT_SIZE) 0)]> m)) as Hblank.
  { intros a next m Hok x p Hp. apply lookup_insert_Some in Hp as [[<- <-]|[_ Hp]]; [|by apply (Hok x)].
    cbn [p_content]. rewrite length_replicate. done. }
  assert (forall cache m, pages_ok m -> forall m' n,
    (1, <[cache := mkPage 0 (replicate (Z.to_nat ONE_PAGE_CONTENT_SIZE) 0)]> m) = (n, m') ->
    n = 1 /\ chain m' cache (addrs cache 1) 0 /\ pages_ok m' /\
    (forall x, x < cache -> m' !! x = m !! x)) as Hlast.
  { intros cache m Hok m' n [= <- <-]. split_and!; try done.
    - rewrite addrs_S. split; [done|].
      exists (mkPage 0 (replicate (Z.to_nat ONE_PAGE_CONTENT_SIZE) 0)). split; [|done].
      apply lookup_insert_eq.
    - by apply Hblank.
    - intros x Hx. by rewrite lookup_insert_ne by lia. }
  induction fuel as [|fuel IH]; intros cache cache_end m n m' Hl Hok Hf Hlt.
  - destruct (Hlast cache m Hok m' n Hl) as (-> & ? & ? & ?). exists 1%nat.
    unfold PAGE_SIZE in *. split_and!; try done; lia.
  - cbn [link_pages] in Hl. case_if_in Hl.
    + destruct (link_pages fuel (cache + PAGE_SIZE) cache_end _) as [n1 m1] eqn:Hrec.
      injection Hl as <- <-.
      destruct (IH _ _ _ _ _ Hrec) as (k & -> & Hc & Hok' & Hoth & Hb); [by apply Hblank|lia|done|].
      exists (S k). split; [lia|]. rewrite addrs_S. split_and!; try done.
      * split; [done|]. exists (mkPage (cache + PAGE_SIZE) (replicate (Z.to_nat ONE_PAGE_CONTENT_SIZE) 0)).
        split; [|done]. rewrite Hoth by (unfold PAGE_SIZE; lia). apply lookup_insert_eq.
      * intros x Hx. rewrite Hoth by (unfold PAGE_SIZE; lia). by rewrite lookup_insert_ne by lia.
      * unfold PAGE_SIZE in *. lia.
      * unfold PAGE_SIZE in *. lia.
    + destruct (Hlast cache m Hok m' n Hl) as (-> & ? & ? & ?). exists 1%nat.
      unfold PAGE_SIZE in *. split_and!; try done; lia.
Qed.

(** The memory taken by the four arrays. *)
Definition overhead (n_max : Z) : Z :=
  round_up (n_max * 8) PAGE_SIZE + round_up (n_max * 32) PAGE_SIZE +
  round_up (n_max * 24) PAGE_SIZE + round_up (n_max * 8) PAGE_SIZE.

Lemma cache_init_spec n_max size a :
  1 <= n_max -> overhead n_max + PAGE_SIZE < size ->
  exists c fl, init n_max size (Some a) = Some (inr c) /\ cache_rep c [] fl /\
    size - overhead n_max <= PAGE_SIZE * n_total_pages c < size - overhead n_max + PAGE_SIZE.
Proof.
  intros Hmax Hsize. unfold init. cbn [option_map]. unfold overhead in *.
  set (o1 := round_up (n_max * 8) PAGE_SIZE) in *. set (o2 := round_up (n_max * 32) PAGE_SIZE) in *.
  set (o3 := round_up (n_max * 24) PAGE_SIZE) in *.
  rewrite (proj2 (Z.leb_gt _ _)) by lia.
  destruct (link_pages _ _ _ _) as [n m] eqn:Hl.
  destruct (link_pages_spec _ _ _ _ _ _ Hl) as (k & -> & Hc & Hok & _ & Hb).
  - intros x p Hx. by rewrite lookup_empty in Hx.
  - unfold PAGE_SIZE in *. lia.
  - unfold PAGE_SIZE in *. lia.
  - eexists _, (addrs _ k). split; [done|]. split; [|cbn [n_total_pages]; lia].
    constructor; cbn; try done.
    + by rewrite length_addrs.
    + rewrite app_nil_r. apply NoDup_addrs.
    + rewrite app_nil_r. by rewrite length_addrs.
    + split; constructor.
    + unfold n_cur_objects. cbn. lia.
Qed.
