(* ===== verification/DuckCacheClaims.v ===== *)
(** * What the object cache guarantees

    Storing, loading and initialising, against the representation of
    [DuckCacheProofs], and the reading of digests from text. *)

From stdpp Require Import sorting.
From S2P Require Import Prelude DuckCache DuckCacheProofs.

(** A sorting function: stdpp's merge sort on the keys. *)
Definition le_key (key : nat -> Z) (i j : nat) : Prop := key i <= key j.

#[export] Instance le_key_dec key : RelDecision (le_key key).
Proof. intros i j. unfold Decision, le_key. apply Z_le_dec. Defined.

#[export] Instance merge_ids : SortIds := fun key => merge_sort (le_key key).

#[export] Instance merge_ids_laws : SortIdsLaws merge_ids.
Proof.
  split.
  - intros key ids. apply merge_sort_Permutation.
  - intros key ids. unfold sort_ids, merge_ids. change (fun i j => key i <= key j) with (le_key key).
    assert (Transitive (le_key key)) by (intros x y z ? ?; unfold le_key in *; lia).
    assert (Total (le_key key)) by (intros x y; unfold le_key; lia).
    apply StronglySorted_merge_sort; apply _.
Qed.

(** ** Hexadecimal digests *)

(** The text of a word, least significant digit first. *)
Definition hex_digit (v : Z) : Z := if v <? 10 then v + 48 else v + 87.

Definition word_hex (w : Z) : list Z := (fun i => hex_digit (w / 2 ^ (4 * Z.of_nat i) mod 16)) <$> seq 0 16.

Definition digest_hex (d : Digest256) : list Z :=
  word_hex (a0 d) ++ word_hex (a1 d) ++ word_hex (a2 d) ++ word_hex (a3 d).

Lemma hex_val_digit v : 0 <= v < 16 -> hex_val (hex_digit v) = Some v.
Proof.
  intros Hv. unfold hex_val, hex_digit. destruct (v <? 10) eqn:E; bprop.
  - rewrite (proj2 (Z.leb_le _ _)), (proj2 (Z.leb_le _ _)) by lia. cbn. f_equal. lia.
  - rewrite (proj2 (Z.leb_gt (v + 87) 57)) by lia. rewrite andb_false_r.
    rewrite (proj2 (Z.leb_le _ _)), (proj2 (Z.leb_le _ _)) by lia. cbn. f_equal. lia.
Qed.

Lemma lor_add_high a b k : 0 <= k -> 0 <= a < 2 ^ k -> Z.lor a (Z.shiftl b k) = a + b * 2 ^ k.
Proof.
  intros Hk Ha. rewrite <- Z.lxor_lor, <- Z.add_nocarry_lxor, Z.shiftl_mul_pow2; try done.
  all: apply Z.bits_inj'; intros i Hi; rewrite Z.land_spec, Z.bits_0; destruct (Z.ltb_spec i k);
    [by rewrite Z.shiftl_spec_low by lia; rewrite andb_false_r|].
  all: rewrite <- (Z.mod_small a (2 ^ k)) by lia; by rewrite Z.mod_pow2_bits_high by lia.
Qed.

Lemma hex_word_spec hex idx w :
  0 <= w < 2 ^ 64 ->
  (forall i, 0 <= i < 16 -> hex !! Z.to_nat (idx * 16 + i) = Some (hex_digit (w / 2 ^ (4 * i) mod 16))) ->
  hex_word hex idx = Some w.
Proof.
  intros Hw Hhex. unfold hex_word.
  destruct (forM_range_ind (fun i s => s = w mod 2 ^ (4 * i)) 0 16
    (fun i sum => c ← hex !! Z.to_nat (idx * 16 + i); val ← hex_val c;
       Some (Z.lor sum (Z.shiftl val (i * 4)))) 0) as (s & -> & ->).
  - lia.
  - by rewrite Z.mod_1_r.
  - intros i s Hi ->. rewrite Hhex by done. cbn [mbind option_bind].
    rewrite hex_val_digit by (apply Z.mod_pos_bound; lia). cbn [mbind option_bind].
    eexists. split; [done|].
    assert (0 < 2 ^ (4 * i)) as Hp by (apply Z.pow_pos_nonneg; lia).
    replace (i * 4) with (4 * i) by lia.
    rewrite lor_add_high; [|lia|apply Z.mod_pos_bound; lia].
    replace (4 * (i + 1)) with (4 * i + 4) by lia. rewrite Z.pow_add_r by lia. change (2 ^ 4) with 16.
    rewrite Z.rem_mul_r by lia. lia.
  - rewrite Z.mod_small; done.
Qed.

Lemma word_hex_lookup w i : 0 <= i < 16 ->
  word_hex w !! Z.to_nat i = Some (hex_digit (w / 2 ^ (4 * i) mod 16)).
Proof.
  intros Hi. unfold word_hex. rewrite list_lookup_fmap, lookup_seq_lt by lia. cbn.
  by rewrite Z2Nat.id by lia.
Qed.

Lemma length_word_hex w : length (word_hex w) = 16%nat.
Proof. done. Qed.

Definition digest_ok (d : Digest256) : Prop :=
  is_uint 64 (a0 d) /\ is_uint 64 (a1 d) /\ is_uint 64 (a2 d) /\ is_uint 64 (a3 d).

(** Every digest written as 64 hexadecimal digits, least significant
    digit of each word first, is read back by [digest_from_hex]. *)
Theorem digest_hex_roundtrip d :
  digest_ok d -> digest_from_hex (digest_hex d) = Some d.
Proof.
  intros (H0 & H1 & H2 & H3). destruct d as [w0 w1 w2 w3]. cbn [a0 a1 a2 a3] in *. unfold is_uint in *.
  unfold digest_from_hex, digest_hex. cbn [a0 a1 a2 a3].
  rewrite (hex_word_spec _ 0 w0), (hex_word_spec _ 1 w1), (hex_word_spec _ 2 w2),
    (hex_word_spec _ 3 w3); try reflexivity; try assumption; intros i Hi.
  all: repeat first
    [ rewrite lookup_app_l by (rewrite ?length_app, !length_word_hex; lia)
    | rewrite lookup_app_r by (rewrite ?length_app, !length_word_hex; lia) ].
  all: rewrite <- word_hex_lookup, ?length_word_hex by done.
  all: match goal with |- ?l !! ?a = ?l !! ?b => replace a with b; [done|lia] end.
Qed.

Lemma digest_hex_roundtrip_witness :
  digest_from_hex (digest_hex (mkDigest 1 2 3 4)) = Some (mkDigest 1 2 3 4).
Proof. apply (digest_hex_roundtrip (mkDigest 1 2 3 4)). unfold digest_ok, is_uint. cbn. lia. Defined.

(** ** Storing and loading *)

Section claims.
Context `{S : SortIds} `{SL : !SortIdsLaws S}.

Lemma store_then_holds d src c c' l :
  stored d src c c' l -> exists l' fl', cache_rep c' l' fl' /\ holds c' l' d (Z.of_nat (length src)) src.
Proof.
  intros [(A & o & pgs & B & fl' & Hr & Hd & Hda & Hl & _)]. exists (A ++ (o, pgs) :: B), fl'.
  split; [done|]. exists o, pgs. split; [set_solver|]. done.
Qed.

(** C15: An object that was not cached and fits into the cache at all is
    stored, and loading it with its length gives back exactly its bytes,
    however many objects had to be evicted for it. *)
Theorem cache_store_load d src now now' c l fl :
  cache_rep c l fl -> 0 < now -> 0 < now' -> Z.of_nat (length src) < 2 ^ 63 ->
  snd (find d c) = false -> pages_of (Z.of_nat (length src)) <= n_total_pages c ->
  exists c' c'', store d src now c = Some (true, c') /\
    load d (Z.of_nat (length src)) now' c' = Some (Some src, c'').
Proof.
  intros Hrep Hn Hn' Hlen Hnf Hfit.
  destruct (store_spec d src now c l fl Hrep Hn Hlen) as [[H _]|[(_ & H & _)|(_ & _ & c' & Hs & Hst)]];
    [congruence|lia|].
  destruct (store_then_holds d src c c' l Hst) as (l' & fl' & Hrep' & Hh).
  destruct (load_spec d (Z.of_nat (length src)) now' c' l' fl' Hrep' Hn')
    as (r & c'' & l'' & Hl & _ & _ & _ & Hr).
  exists c', c''. split; [exact Hs|]. rewrite Hl. by rewrite (proj2 (Hr src) Hh).
Qed.

End claims.

(** Loading never faults on a represented cache: it returns the bytes of
    the object with the digest when the length agrees and fails otherwise, and
    only changes the time of last use. *)
Theorem cache_load_exact d n now c l fl :
  cache_rep c l fl -> 0 < now ->
  exists r c' l', load d n now c = Some (r, c') /\ cache_rep c' l' fl /\ mem c' = mem c /\
    l'.*2 = l.*2 /\ (forall bytes, r = Some bytes <-> holds c l d n bytes).
Proof. apply load_spec. Qed.

(** Initialisation links all the memory after the four arrays into one
    free list of whole pages and yields a represented empty cache, for any
    number of objects and any size that leaves more than one page and ends
    within the address space. *)
Theorem cache_init_represents n_max size a :
  1 <= n_max -> 0 < a -> a + size <= 2 ^ 64 -> overhead n_max + PAGE_SIZE < size ->
  exists c fl, init n_max size (Some a) = Some (inr c) /\ cache_rep c [] fl /\
    size - overhead n_max <= PAGE_SIZE * n_total_pages c < size - overhead n_max + PAGE_SIZE.
Proof. intros Hn _ _. by apply cache_init_spec. Qed.

(** ** Witnesses *)

Lemma example_cache : exists c fl, cache_rep c [] fl /\ 2 <= n_total_pages c.
Proof.
  destruct (cache_init_spec 10 65536 4194304) as (c & fl & _ & Hr & Hb); [lia|done|].
  exists c, fl. split; [done|]. change (overhead 10) with 16384 in Hb. unfold PAGE_SIZE in Hb. lia.
Qed.

Lemma find_empty d c fl : cache_rep c [] fl -> snd (find d c) = false.
Proof. intros Hr. unfold find, n_cur_objects. by rewrite (rep_objs _ _ _ Hr). Qed.

Lemma cache_store_load_witness :
  exists c c' c'', store (mkDigest 1 2 3 4) [10; 20; 30] 5 c = Some (true, c') /\
    load (mkDigest 1 2 3 4) 3 6 c' = Some (Some [10; 20; 30], c'').
Proof.
  destruct example_cache as (c & fl & Hr & Hb). exists c.
  apply (cache_store_load (mkDigest 1 2 3 4) [10; 20; 30] 5 6 c [] fl Hr).
  - lia.
  - lia.
  - cbn. lia.
  - exact (find_empty _ c fl Hr).
  - change (pages_of (Z.of_nat (length [10; 20; 30]))) with 1. lia.
Defined.


Lemma cache_load_exact_witness :
  exists c r c', load (mkDigest 1 2 3 4) 3 6 c = Some (r, c') /\ mem c' = mem c.
Proof.
  destruct example_cache as (c & fl & Hr & Hb). exists c.
  destruct (cache_load_exact (mkDigest 1 2 3 4) 3 6 c [] fl Hr) as (r & c' & l' & E & _ & Em & _).
  - lia.
  - exists r, c'. split; [exact E|exact Em].
Defined.

Lemma cache_init_represents_witness :
  exists c fl, init 10 65536 (Some 4194304) = Some (inr c) /\ cache_rep c [] fl.
Proof.
  destruct (cache_init_represents 10 65536 4194304) as (c & fl & E & Hr & _).
  - lia.
  - lia.
  - lia.
  - vm_compute. reflexivity.
  - exists c, fl. split; [exact E|exact Hr].
Defined.
