(* ===== verification/Utils.v ===== *)
(** * inc/utils.hpp: rounding and bit fields

    The templates are used at [uint64_t]; sums and products wrap. *)

From S2P Require Import Prelude.

Definition round_up (x r : Z) : Z := u64 (u64 (x + r - 1) / r * r).

Definition round_down (x r : Z) : Z := u64 (x / r * r).

(** Shifting out the bits above [hi], then those below [lo]. *)
Definition extract_bits (x hi lo : Z) : Z :=
  Z.shiftr (u64 (Z.shiftl x (63 - hi))) (lo + 63 - hi).

(** The least multiple that is not smaller, when it fits. *)
Lemma round_up_spec x r :
  0 < r -> 0 <= x -> x + r - 1 < 2 ^ 64 ->
  exists k, round_up x r = k * r /\ x <= k * r < x + r.
Proof.
  intros Hr Hx Hb. exists ((x + r - 1) / r). unfold round_up.
  rewrite (wrap_small 64 (x + r - 1)) by (unfold is_uint; lia).
  pose proof (Z.div_mod (x + r - 1) r). pose proof (Z.mod_pos_bound (x + r - 1) r).
  rewrite wrap_small by (unfold is_uint; nia). split; [done|nia].
Qed.

Lemma round_up_multiple k r :
  0 < r -> 0 <= k -> k * r + r - 1 < 2 ^ 64 -> round_up (k * r) r = k * r.
Proof.
  intros Hr Hk Hb. destruct (round_up_spec (k * r) r) as (j & -> & ?); [done|nia|done|].
  assert (j = k) as -> by nia. done.
Qed.

Lemma round_down_spec x r :
  0 < r -> is_uint 64 x -> exists k, round_down x r = k * r /\ k * r <= x < k * r + r.
Proof.
  intros Hr Hx. exists (x / r). unfold round_down, is_uint in *.
  pose proof (Z.div_mod x r). pose proof (Z.mod_pos_bound x r).
  pose proof (Z.div_pos x r).
  rewrite wrap_small by (unfold is_uint; nia). split; [done|nia].
Qed.

Lemma extract_bits_spec x hi lo :
  0 <= lo <= hi -> hi < 64 -> is_uint 64 x ->
  extract_bits x hi lo = x / 2 ^ lo mod 2 ^ (hi - lo + 1).
Proof.
  intros Hlo Hhi Hx. unfold extract_bits, wrap. apply Z.bits_inj'. intros i Hi.
  rewrite Z.shiftr_spec by done. rewrite <- Z.shiftr_div_pow2 by lia.
  destruct (Z.ltb_spec (i + lo + (63 - hi)) 64).
  - rewrite !Z.mod_pow2_bits_low by lia. rewrite Z.shiftl_spec, Z.shiftr_spec by lia. f_equal. lia.
  - rewrite !Z.mod_pow2_bits_high by lia. done.
Qed.
