(* ===== verification/Timer.v ===== *)
(** * lib/timer.cpp, inc/timer.hpp and lib/scheduler.cpp: time

    The frequencies and the epoch are one record; the time stamp counter is an
    argument of every function that reads it, and [cpuid] gives the four
    registers of a leaf. The performance counters are switched off in the code:
    every reading is 1. *)

From S2P Require Import Prelude Utils.

(** ** timer.cpp *)

Record clock := mkClock { tsc_freq : Z; ext_freq : Z; clk_freq : Z; tsc_epoch : Z }.

Section cpu.
Context (cpuid : Z -> Z * Z * Z * Z).

(** The ratio and the crystal frequency; [None] is the result -1. *)
Definition get_tsc_clock_ratio : option (Z * Z * Z) :=
  let '(a, b, c, _) := cpuid 0x15 in
  if b =? 0 then None else Some (b, a, c).

(** [None] is a division by zero. *)
Definition detect_cpu_speed_intel (t : clock) : option clock :=
  r ← match get_tsc_clock_ratio with
      | None => Some (3600 * 1000000, 1000 * 1000000)
      | Some (ra, rb, ext) =>
          let ext := if ext =? 0 then 24 * 1000000 else ext in
          if rb =? 0 then None else Some (u64 (ext * ra) / rb, ext)
      end;
  let '(tsc, ext) := r in
  Some (mkClock tsc ext (round_down (u64 (tsc + 50 * 1000000)) (100 * 1000000)) (tsc_epoch t)).

Definition detect_cpu_speed_others (t : clock) : clock :=
  mkClock (3700 * 1000000) (100 * 1000000) (3700 * 1000000) (tsc_epoch t).

(** The twelve bytes of leaf 0, in the order the code stores them. *)
Definition brand : list Z :=
  let '(_, b, c, d) := cpuid 0 in le_bytes 4 b ++ le_bytes 4 d ++ le_bytes 4 c.

Definition GenuineIntel : list Z := [71; 101; 110; 117; 105; 110; 101; 73; 110; 116; 101; 108].

Definition init (tsc : Z) (t : clock) : option clock :=
  t ← (if bool_decide (brand = GenuineIntel) then detect_cpu_speed_intel t else Some (detect_cpu_speed_others t));
  Some (mkClock (tsc_freq t) (ext_freq t) (clk_freq t) tsc).
End cpu.

(** Ticks of a counter of frequency [freq] in nanoseconds. *)
Definition to_ns (freq t : Z) : Z :=
  let q := t / freq in
  let r := t mod freq in
  u64 (u64 (q * 1000000000) + u64 (r * 1000000000) / freq).

Definition tsc_to_ns (t : clock) (tsc : Z) : Z := to_ns (tsc_freq t) tsc.
Definition clk_to_ns (t : clock) (clk : Z) : Z := to_ns (clk_freq t) clk.

Definition tsc_since_epoch (t : clock) (now : Z) : Z :=
  if tsc_epoch t =? 0 then 2 ^ 64 - 1 else u64 (now - tsc_epoch t).

Definition ns_since_epoch (t : clock) (now : Z) : Z :=
  if tsc_epoch t =? 0 then 2 ^ 64 - 1 else tsc_to_ns t (tsc_since_epoch t now).

(** [readings] are the values [get_tsc] returns in turn; the ones left over, or
    [None] while the loop still waits. *)
Fixpoint delay_until (target : Z) (readings : list Z) : option (list Z) :=
  match readings with
  | [] => None
  | r :: rest => if s64 (r - target) <? 0 then delay_until target rest else Some rest
  end.

Definition microdelay (t : clock) (us : Z) (readings : list Z) : option (list Z) :=
  match readings with
  | [] => None
  | r :: rest => delay_until (u64 (r + u64 (us * (tsc_freq t / 1000000)))) rest
  end.

(** Instructions, thread clock and reference clock. *)
Definition read_performance_counters : Z * Z * Z := (1, 1, 1).

(** ** scheduler.cpp *)

Inductive activity := ACTIVE | IDLE.
Record scheduler := mkScheduler { current_state : activity; last_active_timestamp_ns : Z }.

Definition scheduler_init (s : scheduler) : scheduler := mkScheduler ACTIVE (last_active_timestamp_ns s).

Definition set_active (s : scheduler) : scheduler := mkScheduler ACTIVE (last_active_timestamp_ns s).

Definition set_idle (now_ns : Z) (s : scheduler) : scheduler :=
  match current_state s with
  | ACTIVE => mkScheduler IDLE now_ns
  | IDLE => s
  end.

Definition idle_policy_ms : list (Z * Z) := [(0, 0); (1, 1); (30, 2)].

(** The last policy whose idle time has passed, from the end of the table. *)
Fixpoint pick_policy (l : list (Z * Z)) (idle_ms : Z) : Z :=
  match l with
  | [] => 0
  | [p] => p.2
  | p :: l => if p.1 <=? idle_ms then p.2 else pick_policy l idle_ms
  end.

Definition get_sleep_duration_ms (now_ns : Z) (s : scheduler) : Z :=
  match current_state s with
  | ACTIVE => 0
  | IDLE => pick_policy (reverse idle_policy_ms) (u64 (now_ns - last_active_timestamp_ns s) / 1000000)
  end.

Definition can_sleep (now_ns : Z) (s : scheduler) : bool := 0 <? get_sleep_duration_ms now_ns s.

(** The nanoseconds the processor sleeps. *)
Definition sleep (now_ns : Z) (s : scheduler) : option Z :=
  let ms := get_sleep_duration_ms now_ns s in
  if 0 <? ms then Some (u64 (ms * 1000000)) else None.

(** ** Properties *)

(** The conversion is the exact quotient, rounded down, for every counter below
    18.4 GHz as long as the result fits. *)
Lemma to_ns_exact freq t :
  0 < freq <= 18446744073 -> 0 <= t -> t * 1000000000 / freq < 2 ^ 64 -> to_ns freq t = t * 1000000000 / freq.
Proof.
  intros Hf Ht Hb. unfold to_ns. pose proof (Z.div_mod t freq ltac:(lia)) as E. pose proof (Z.mod_pos_bound t freq ltac:(lia)) as Hr.
  set (q := t / freq) in *. set (r := t mod freq) in *.
  assert (t * 1000000000 / freq = q * 1000000000 + r * 1000000000 / freq) as Ed.
  { rewrite E at 1. replace ((freq * q + r) * 1000000000) with (q * 1000000000 * freq + r * 1000000000) by ring.
    by rewrite Z.div_add_l by lia. }
  assert (0 <= q) as Hq by (apply Z.div_pos; lia).
  assert (0 <= r * 1000000000 / freq) by (apply Z.div_pos; lia).
  rewrite (wrap_small 64 (r * 1000000000)) by (unfold is_uint; lia).
  rewrite Ed in Hb |- *. rewrite (wrap_small 64 (q * 1000000000)) by (unfold is_uint; lia). apply wrap_small. unfold is_uint. lia.
Qed.

(** The server sleeps one millisecond after the first idle millisecond and two
    after thirty, and never while it is active. *)
Lemma sleep_spec now s ns :
  sleep now s = Some ns <->
  current_state s = IDLE /\
  let idle := u64 (now - last_active_timestamp_ns s) in
  (1000000 <= idle < 30000000 /\ ns = 1000000) \/ (30000000 <= idle /\ ns = 2000000).
Proof.
  unfold sleep, get_sleep_duration_ms. destruct (current_state s); [split; [done|by intros [? _]]|].
  set (idle := u64 _). change (reverse idle_policy_ms) with [(30, 2); (1, 1); (0, 0)]. cbn [pick_policy fst snd].
  cbv zeta. destruct (Z.leb_spec 30 (idle / 1000000)); [|destruct (Z.leb_spec 1 (idle / 1000000))].
  - change (0 <? 2) with true. change (u64 (2 * 1000000)) with 2000000. split.
    + intros [= <-]. split; [done|]. right. split; [dlia|done].
    + intros (_ & [(? & ->)|(? & ->)]); [dlia|done].
  - change (0 <? 1) with true. change (u64 (1 * 1000000)) with 1000000. split.
    + intros [= <-]. split; [done|]. left. split; [dlia|done].
    + intros (_ & [(? & ->)|(? & ->)]); [done|dlia].
  - change (0 <? 0) with false. split; [done|]. intros (_ & [(? & ->)|(? & ->)]); dlia.
Qed.
