(* ===== verification/Console.v ===== *)
(** * The console of the kernel

    lib/vga_buffer.cpp (the text screen), lib/serial.cpp (the serial port),
    kern/duck64_syscall_handler.cpp (the calls the kernel's own C library makes,
    which end on the screen), lib/logger.cpp (coloured messages) and
    lib/ctime.cpp. The screen is the matrix of its cells; the serial port is its
    line status, read by read, and the bytes put out; the buffer of the C
    library's stdout is a parameter, [hold]. *)

From S2P Require Import Prelude Utils Timer.

(** ** The screen *)

Record ScreenChar := mkChar { ascii_character : Z; char_color : Z }.

Record Writer := mkWriter { column_position : nat; color_code : Z; chars : list (list ScreenChar) }.

Definition BUFFER_HEIGHT : nat := 25.
Definition BUFFER_WIDTH : nat := 80.

Definition set_chars (b : list (list ScreenChar)) (w : Writer) : Writer := mkWriter (column_position w) (color_code w) b.
Definition set_column (n : nat) (w : Writer) : Writer := mkWriter n (color_code w) (chars w).
Definition set_color (c : Z) (w : Writer) : Writer := mkWriter (column_position w) c (chars w).

(** [buffer->chars[row][col]], read and written; [None] is an index outside the
    array. *)
Definition read_char (b : list (list ScreenChar)) (row col : nat) : option ScreenChar := r ← b !! row; r !! col.
Definition write_char (row col : nat) (s : ScreenChar) (b : list (list ScreenChar)) : option (list (list ScreenChar)) :=
  r ← b !! row; if (col <? length r)%nat then Some (<[row := <[col := s]> r]> b) else None.

(** [for (k = i; k < i + n; k++)] over indices. *)
Fixpoint for_idx {S} (n i : nat) (body : nat -> S -> option S) (s : S) : option S :=
  match n with O => Some s | Datatypes.S n => s ← body i s; for_idx n (Datatypes.S i) body s end.

Definition clear_row (row : nat) (w : Writer) : option Writer :=
  b ← for_idx BUFFER_WIDTH 0 (fun col b => write_char row col (mkChar 32 (color_code w)) b) (chars w);
  Some (set_chars b w).

Definition copy_rows (b : list (list ScreenChar)) : option (list (list ScreenChar)) :=
  for_idx (BUFFER_HEIGHT - 1) 1 (fun row b =>
    for_idx BUFFER_WIDTH 0 (fun col b => s ← read_char b row col; write_char (row - 1) col s b) b) b.

Definition new_line (w : Writer) : option Writer :=
  b ← copy_rows (chars w);
  w ← clear_row (BUFFER_HEIGHT - 1) (set_chars b w);
  Some (set_column 0 w).

Definition write_byte (byte : Z) (w : Writer) : option Writer :=
  if byte =? 10 then new_line w
  else
    w ← (if (BUFFER_WIDTH <=? column_position w)%nat then new_line w else Some w);
    b ← write_char (BUFFER_HEIGHT - 1) (column_position w) (mkChar byte (color_code w)) (chars w);
    Some (set_column (column_position w + 1) (set_chars b w)).

Fixpoint write_buf (s : list Z) (w : Writer) : option Writer :=
  match s with
  | [] => Some w
  | b :: s => w ← write_byte b w; write_buf s w
  end.

(** A string ends at its 0. *)
Fixpoint write_str (s : list Z) (w : Writer) : option Writer :=
  match s with
  | [] => None
  | b :: s => if b =? 0 then Some w else w ← write_byte b w; write_str s w
  end.

(** Colours: the background in the high half. *)
Definition generate (foreground background : Z) : Z := Z.lor (Z.shiftl background 4) foreground.

Definition Black : Z := 0.
Definition Green : Z := 2.
Definition LightGray : Z := 7.
Definition DarkGray : Z := 8.
Definition LightRed : Z := 12.
Definition Yellow : Z := 14.
Definition White : Z := 15.

Definition the_writer (screen : list (list ScreenChar)) : Writer := mkWriter 0 (generate LightGray Black) screen.

(** ** The calls of the kernel's C library *)

Record kernel_io := mkIo { io_writer : Writer; io_heap_brk : Z; io_fs : Z }.

Definition set_writer (w : Writer) (k : kernel_io) : kernel_io := mkIo w (io_heap_brk k) (io_fs k).

Definition KERNEL_HEAP_SIZE : Z := 256 * 1024.

(** The memory a pointer and a length name is given as its bytes. *)
Definition kduck_write (fd : Z) (buf : list Z) (k : kernel_io) : option (Z * kernel_io) :=
  if negb (fd =? 1) && negb (fd =? 2) then Some (0, k)
  else w ← write_buf buf (io_writer k); Some (Z.of_nat (length buf), set_writer w k).

Fixpoint kduck_writev (fd : Z) (iov : list (list Z)) (ret : Z) (k : kernel_io) : option (Z * kernel_io) :=
  match iov with
  | [] => Some (ret, k)
  | buf :: iov =>
      r ← kduck_write fd buf k; let '(tmp, k) := r in
      let ret := if tmp <=? Z.of_nat (length buf) then u64 (ret + tmp) else ret in
      if negb (tmp =? Z.of_nat (length buf)) then Some (ret, k) else kduck_writev fd iov ret k
  end.

Definition kduck_brk (heap addr : Z) (k : kernel_io) : Z * kernel_io :=
  if addr =? 0 then (io_heap_brk k, k)
  else
    let brk := if (io_heap_brk k <? addr) && (addr <=? heap + KERNEL_HEAP_SIZE) then addr else io_heap_brk k in
    (brk, mkIo (io_writer k) brk (io_fs k)).

Definition kduck_arch_prctl (code addr : Z) (k : kernel_io) : Z * kernel_io :=
  if code =? 0x1002 then (0, mkIo (io_writer k) (io_heap_brk k) addr) else (2 ^ 64 - 1, k).

(** The result, and the mode, size, block size and number of blocks that are
    stored; the other fields of the structure are 0. *)
Definition kduck_fstat (fd : Z) : Z * (Z * Z * Z * Z) :=
  if fd =? 0 then (0, (Z.lor 0x8000 0x1a4, 0, 4096, (0 + 4095) / 4096))
  else if fd =? 1 then (0, (Z.lor 0x8000 0x1a4, 4096, 4096, (4096 + 4095) / 4096))
  else (2 ^ 64 - 1, (0, 0, 0, 0)).

(** The handler, on calls whose pointers are given as what they point to. *)
Inductive kcall :=
| Kbrk (addr : Z) | Kprctl (code addr : Z) | Kwrite (fd : Z) (buf : list Z) | Kwritev (fd : Z) (iov : list (list Z))
| Kioctl | Kfstat (fd : Z) | Ksignal | Kset_tid_address | Ktkill | Kother.

Inductive kresult := Kret (r : Z) (st : option (Z * Z * Z * Z)) (k : kernel_io) | Kreboot.

Definition kernel_syscall_handler (heap : Z) (c : kcall) (k : kernel_io) : option kresult :=
  match c with
  | Kbrk addr => let '(r, k) := kduck_brk heap addr k in Some (Kret r None k)
  | Kprctl code addr => let '(r, k) := kduck_arch_prctl code addr k in Some (Kret r None k)
  | Kwrite fd buf => r ← kduck_write fd buf k; Some (Kret r.1 None r.2)
  | Kwritev fd iov => r ← kduck_writev fd iov 0 k; Some (Kret r.1 None r.2)
  | Kioctl | Ksignal => Some (Kret 0 None k)
  | Kfstat fd => let '(r, st) := kduck_fstat fd in Some (Kret r (Some st) k)
  | Kset_tid_address => Some (Kret 12345 None k)
  | Ktkill => Some Kreboot
  | Kother => Some (Kret (2 ^ 64 - 1) None k)
  end.

(** ** The C library's stdout

    Bytes wait in a buffer; [hold] says how many of the waiting bytes a write
    passes on. The stream is line buffered, since [SYS_ioctl] succeeds. *)

Record stdio := mkStdio { pending : list Z; sio_io : kernel_io }.

Section stdout.
Context (hold : list Z -> nat).

Definition flush_n (n : nat) (s : stdio) : option stdio :=
  r ← kduck_writev 1 [take n (pending s)] 0 (sio_io s); Some (mkStdio (drop n (pending s)) r.2).

Definition put (l : list Z) (s : stdio) : option stdio :=
  let s := mkStdio (pending s ++ l) (sio_io s) in flush_n (hold (pending s)) s.

Definition fflush (s : stdio) : option stdio := flush_n (length (pending s)) s.

Definition screen_color (s : stdio) : Z := color_code (io_writer (sio_io s)).
Definition recolor (c : Z) (s : stdio) : stdio := mkStdio (pending s) (set_writer (set_color c (io_writer (sio_io s))) (sio_io s)).

(** ** Messages *)

Inductive LogLevel := LL_FATAL | LL_ERROR | LL_WARN | LL_INFO | LL_DEBUG.

Definition level (l : LogLevel) : Z :=
  match l with LL_FATAL => 0 | LL_ERROR => 1 | LL_WARN => 2 | LL_INFO => 3 | LL_DEBUG => 4 end.

Record logger := mkLogger { log_level : LogLevel; logger_in_use : bool; logger_saved_colorcode : Z; log_out : stdio }.

Record TimedLogger := mkTimed { tl_mute : bool; tl_saved_colorcode : Z }.

Definition get_prefix (l : LogLevel) : string :=
  match l with LL_FATAL => "FATAL" | LL_ERROR => "ERROR" | LL_WARN => "WARN" | LL_INFO => "INFO" | LL_DEBUG => "DEBUG" end.

Definition log_color (l : LogLevel) : Z :=
  match l with
  | LL_FATAL => generate White LightRed
  | LL_ERROR => generate LightRed Black
  | LL_WARN => generate Yellow Black
  | LL_INFO => generate Green Black
  | LL_DEBUG => generate DarkGray Black
  end.

(** [TimedLogger] and [~TimedLogger]; [stamp] is the text of the time. *)
Definition open_logger (l : LogLevel) (stamp : list Z) (g : logger) : option (TimedLogger * logger) :=
  let saved := screen_color (log_out g) in
  if level (log_level g) <? level l then Some (mkTimed true saved, g)
  else
    let '(t, g) :=
      if negb (logger_in_use g)
      then (mkTimed false saved, mkLogger (log_level g) true saved (recolor (log_color l) (log_out g)))
      else (mkTimed false (logger_saved_colorcode g), g) in
    o ← put stamp (log_out g);
    o ← put (bytes_of_string "[" ++ bytes_of_string (get_prefix l) ++ bytes_of_string "] ") o;
    Some (t, mkLogger (log_level g) (logger_in_use g) (logger_saved_colorcode g) o).

Definition close_logger (t : TimedLogger) (g : logger) : option logger :=
  if tl_mute t then Some g
  else
    o ← fflush (log_out g);
    let o := if logger_in_use g then recolor (tl_saved_colorcode t) o else o in
    o ← put [10] o;
    Some (mkLogger (log_level g) false (logger_saved_colorcode g) o).

(** [LINFO(fmt, ...)] and its like; [text] is what the format gives. *)
Definition log (l : LogLevel) (stamp text : list Z) (g : logger) : option logger :=
  if level (log_level g) <? level l then Some g
  else
    r ← open_logger l stamp g; let '(t, g) := r in
    o ← put text (log_out g);
    close_logger t (mkLogger (log_level g) (logger_in_use g) (logger_saved_colorcode g) o).

(** [FunctionLoggerGuard]: the messages at the start and the end of a function. *)
Definition guard_message (l : LogLevel) (stamp text : list Z) (g : logger) : option logger :=
  r ← open_logger l stamp g; let '(t, g) := r in
  o ← (if negb (tl_mute t) then put text (log_out g) else Some (log_out g));
  close_logger t (mkLogger (log_level g) (logger_in_use g) (logger_saved_colorcode g) o).

Definition guard_enter (log_enter log_ret : bool) (l : LogLevel) (stamp func : list Z) (g : logger) : option logger :=
  if log_enter then guard_message l stamp (func ++ (if log_ret then bytes_of_string " start" else [])) g else Some g.

Definition guard_ret (log_ret : bool) (l : LogLevel) (stamp func : list Z) (g : logger) : option logger :=
  if log_ret then guard_message l stamp (func ++ bytes_of_string " done") g else Some g.

Definition set_log_level (l : LogLevel) (g : logger) : logger := mkLogger l (logger_in_use g) (logger_saved_colorcode g) (log_out g).
Definition logger_init : logger -> logger := set_log_level LL_DEBUG.
End stdout.

(** ** The serial port *)

Definition COM1 : Z := 0x3F8.
Definition COM_LSR_TXRDY : Z := 0x20.

(** The port's line status at each read, the number of reads so far and the
    values put out, last first. *)
Record serial := mkSerial { sr_lsr : nat -> Z; sr_reads : nat; sr_out : list (Z * Z) }.

Definition outb (port v : Z) (s : serial) : serial := mkSerial (sr_lsr s) (sr_reads s) ((port, u8 v) :: sr_out s).

Fixpoint wait_txrdy (n : nat) (s : serial) : serial :=
  match n with
  | O => s
  | S n =>
      let v := sr_lsr s (sr_reads s) in
      let s := mkSerial (sr_lsr s) (S (sr_reads s)) (sr_out s) in
      if negb (Z.land v COM_LSR_TXRDY =? 0) then s else wait_txrdy n s
  end.

Definition putc (c : Z) (s : serial) : serial := outb COM1 c (wait_txrdy (Z.to_nat 12800) s).

Fixpoint serial_write_buf (l : list Z) (s : serial) : serial :=
  match l with [] => s | c :: l => serial_write_buf l (putc c s) end.

(** Whether the port exists. *)
Definition serial_init (s : serial) : bool * serial :=
  let s := outb (COM1 + 2) 0 s in
  let s := outb (COM1 + 3) 0x80 s in
  let s := outb COM1 (115200 / 9600) s in
  let s := outb (COM1 + 1) 0 s in
  let s := outb (COM1 + 3) (Z.land 0x03 (Z.lnot 0x80)) s in
  let s := outb (COM1 + 4) 0 s in
  let s := outb (COM1 + 1) 1 s in
  let v := sr_lsr s (sr_reads s) in
  (negb (v =? 0xFF), mkSerial (sr_lsr s) (S (sr_reads s)) (sr_out s)).

(** ** Time of day *)

Definition clock_ticks (t : Timer.clock) (now : Z) : Z := if Timer.tsc_freq t =? 0 then -1 else s64 (tsc_since_epoch t now).

(** The result is stored in [*timer] too, when a pointer is given. *)
Definition time (t : Timer.clock) (now : Z) : Z :=
  let c := clock_ticks t now in if c =? -1 then -1 else s64 (u64 c / Timer.tsc_freq t).
