(* ===== verification/ConsoleClaims.v ===== *)
(** * What the screen shows

    [rows_of] breaks a text into the rows of an endless sheet; the screen is the
    end of that sheet. Messages leave the colour as they found it. *)

From S2P Require Import Prelude Utils Timer Console.

(** ** Text in rows *)

(** The lines of a text; there is always a last one. *)
Fixpoint split_lines (t : list Z) : list (list Z) :=
  match t with
  | [] => [[]]
  | b :: t => if b =? 10 then [] :: split_lines t
              else match split_lines t with l :: ls => (b :: l) :: ls | [] => [[b]] end
  end.

(** A line in pieces of 80 characters. *)
Fixpoint chunks_n (n : nat) (l : list Z) : list (list Z) :=
  match n with
  | O => [l]
  | S n => if (length l <=? 80)%nat then [l] else take 80 l :: chunks_n n (drop 80 l)
  end.

Definition chunks (l : list Z) : list (list Z) := chunks_n (length l) l.

Definition rows_of (t : list Z) : list (list Z) := split_lines t ≫= chunks.

(** Adding a character to a sheet. *)
Definition add_char (b : Z) (R : list (list Z)) (r : list Z) : list (list Z) :=
  if b =? 10 then R ++ [r; []] else if (80 <=? length r)%nat then R ++ [r; [b]] else R ++ [r ++ [b]].

Lemma split_snoc t b : exists L l, split_lines t = L ++ [l] /\
  split_lines (t ++ [b]) = if b =? 10 then L ++ [l; []] else L ++ [l ++ [b]].
Proof.
  induction t as [|a t IH]; cbn [split_lines app].
  - exists [], []. by destruct (b =? 10).
  - destruct IH as (L & l & E1 & E2). destruct (a =? 10).
    + exists ([] :: L), l. rewrite E1, E2. by destruct (b =? 10).
    + rewrite E1, E2. destruct L as [|x L]; cbn [app].
      * exists [], (a :: l). by destruct (b =? 10).
      * exists ((a :: x) :: L), l. by destruct (b =? 10).
Qed.

Lemma chunks_n_enough n : forall k l, (length l <= n)%nat -> (length l <= k)%nat -> chunks_n n l = chunks_n k l.
Proof.
  induction n as [|n IH]; intros [|k] l Hn Hk; cbn [chunks_n].
  - done.
  - destruct l; [done|cbn in *; lia].
  - destruct l; [done|cbn in *; lia].
  - destruct (Nat.leb_spec (length l) 80); [done|]. f_equal. apply IH; rewrite length_drop; lia.
Qed.

Lemma chunks_eq l : chunks l = if (length l <=? 80)%nat then [l] else take 80 l :: chunks (drop 80 l).
Proof.
  unfold chunks. destruct (length l) as [|n] eqn:E; [by destruct l|]. cbn [chunks_n]. rewrite E.
  destruct (Nat.leb_spec (S n) 80); [done|]. f_equal. apply chunks_n_enough; rewrite length_drop; lia.
Qed.

(** The last piece takes the new character, unless it is full. *)
Lemma chunks_snoc n : forall l b, (length l <= n)%nat -> exists R r, chunks l = R ++ [r] /\ (length r <= 80)%nat /\
  Forall (fun x => length x = 80%nat) R /\
  chunks (l ++ [b]) = if (80 <=? length r)%nat then R ++ [r; [b]] else R ++ [r ++ [b]].
Proof.
  induction n as [|n IH]; intros l b Hn.
  - destruct l; [|cbn in Hn; lia]. exists [], []. split_and!; [done|cbn; lia|done|done].
  - rewrite (chunks_eq l), (chunks_eq (l ++ [b])), length_app. cbn [length]. destruct (Nat.leb_spec (length l) 80) as [Hl|Hl].
    + exists [], l. split; [done|]. split; [done|]. split; [done|]. destruct (Nat.leb_spec (length l + 1) 80).
      * rewrite (proj2 (Nat.leb_gt _ _)) by lia. done.
      * rewrite (proj2 (Nat.leb_le _ _)) by lia. by rewrite take_app_length', drop_app_length' by lia.
    + rewrite (proj2 (Nat.leb_gt _ _)) by lia. rewrite take_app_le, drop_app_le by lia.
      destruct (IH (drop 80 l) b) as (R & r & E1 & Hr & HR & E2); [rewrite length_drop; lia|].
      exists (take 80 l :: R), r. rewrite E1, E2. split; [done|]. split; [done|]. split.
      * apply Forall_cons. split; [by rewrite length_take_le by lia|done].
      * by destruct (80 <=? length r)%nat.
Qed.

Lemma rows_snoc t b : exists R r, rows_of t = R ++ [r] /\ (length r <= 80)%nat /\ rows_of (t ++ [b]) = add_char b R r.
Proof.
  destruct (split_snoc t b) as (L & l & E1 & E2). destruct (chunks_snoc (length l) l b) as (R & r & C1 & Hr & _ & C2); [done|].
  exists ((L ≫= chunks) ++ R), r. unfold rows_of. rewrite E1, E2. rewrite bind_app. cbn [mbind list_bind]. rewrite app_nil_r, C1.
  split; [by rewrite app_assoc|]. split; [done|]. unfold add_char. destruct (b =? 10).
  - rewrite bind_app. cbn [mbind list_bind]. rewrite C1, !app_nil_r. by rewrite <- !app_assoc.
  - rewrite bind_app. cbn [mbind list_bind]. rewrite C2, app_nil_r. by destruct (80 <=? length r)%nat; rewrite <- ?app_assoc.
Qed.

(** ** The operations on the screen *)

Record screen_ok (b : list (list ScreenChar)) : Prop := {
  sc_height : length b = 25%nat;
  sc_width : Forall (fun r => length r = 80%nat) b
}.

Lemma screen_row b i : screen_ok b -> (i < 25)%nat -> exists r, b !! i = Some r /\ length r = 80%nat.
Proof.
  intros [Hh Hw] Hi. destruct (lookup_lt_is_Some_2 b i) as [r Hr]; [lia|]. exists r. split; [done|]. exact (Forall_lookup_1 _ _ _ _ Hw Hr).
Qed.

Lemma write_char_in b row col s r : b !! row = Some r -> (col < length r)%nat ->
  write_char row col s b = Some (<[row := <[col := s]> r]> b).
Proof. intros Hr Hc. unfold write_char. by rewrite Hr, mbind_Some, (proj2 (Nat.ltb_lt _ _)). Qed.

(** One row over another. *)
Lemma copy_row b row r q : b !! S row = Some r -> b !! row = Some q -> length r = 80%nat -> length q = 80%nat ->
  forall n i, (i + n = 80)%nat ->
  for_idx n i (fun col b => s ← read_char b (S row) col; write_char (S row - 1) col s b) (<[row := take i r ++ drop i q]> b)
  = Some (<[row := r]> b).
Proof.
  intros Hr Hq Lr Lq. replace (S row - 1)%nat with row by lia. induction n as [|n IH]; intros i Hi; cbn [for_idx].
  - by rewrite take_ge, drop_ge, app_nil_r by lia.
  - unfold read_char. rewrite list_lookup_insert_ne by lia. rewrite Hr, mbind_Some.
    destruct (lookup_lt_is_Some_2 r i) as [s Hs]; [lia|]. rewrite Hs, mbind_Some.
    rewrite (write_char_in _ _ _ _ (take i r ++ drop i q));
      [|by rewrite list_lookup_insert_eq by (by eapply lookup_lt_Some)|rewrite length_app, length_take, length_drop; lia].
    rewrite mbind_Some, list_insert_insert_eq.
    rewrite insert_app_r_alt by (rewrite length_take; lia). rewrite length_take, Nat.min_l by lia.
    destruct (lookup_lt_is_Some_2 q i) as [x Hx]; [lia|]. rewrite Nat.sub_diag, (drop_S q x i Hx). cbn [insert list_insert].
    replace (take i r ++ s :: drop (S i) q) with (take (S i) r ++ drop (S i) q) by (by rewrite (take_S_r r i s), <- app_assoc).
    apply IH. lia.
Qed.

(** Every row moves up. *)
Lemma copy_rows_spec b last : screen_ok b -> b !! 24%nat = Some last -> copy_rows b = Some (drop 1 b ++ [last]).
Proof.
  intros Hb Hlast. pose proof (sc_height _ Hb) as Hh. unfold copy_rows. change (BUFFER_HEIGHT - 1)%nat with 24%nat.
  assert (forall n i, (i + n = 24)%nat -> for_idx n (S i) (fun row b =>
    for_idx BUFFER_WIDTH 0 (fun col b => s ← read_char b row col; write_char (row - 1) col s b) b) (take i (drop 1 b) ++ drop i b)
    = Some (drop 1 b ++ [last])) as H; [|apply (H 24%nat 0%nat); lia].
  induction n as [|n IH]; intros i Hi; cbn [for_idx].
  - replace i with 24%nat by lia. rewrite take_ge by (rewrite length_drop; lia). by rewrite (drop_S b last 24 Hlast), (drop_ge b 25) by lia.
  - set (bi := take i (drop 1 b) ++ drop i b). destruct (screen_row b i Hb) as (q & Hq & Lq); [lia|].
    destruct (screen_row b (S i) Hb) as (r & Hr & Lr); [lia|].
    assert (length (take i (drop 1 b)) = i) as Ht by (rewrite length_take, length_drop; lia).
    assert (bi !! S i = Some r) as Br.
    { unfold bi. rewrite lookup_app_r, Ht, lookup_drop by lia. by replace (i + (S i - i))%nat with (S i) by lia. }
    assert (bi !! i = Some q) as Bq.
    { unfold bi. rewrite lookup_app_r, Ht, lookup_drop by lia. by replace (i + (i - i))%nat with i by lia. }
    pose proof (copy_row bi i r q Br Bq Lr Lq BUFFER_WIDTH 0 eq_refl) as E. cbn [take drop app] in E. rewrite list_insert_id in E by done.
    rewrite E, mbind_Some. replace (<[i := r]> bi) with (take (S i) (drop 1 b) ++ drop (S i) b); [apply IH; lia|].
    unfold bi. rewrite insert_app_r_alt by lia. rewrite Ht, Nat.sub_diag, (drop_S b q i Hq). cbn [insert list_insert].
    rewrite (take_S_r (drop 1 b) i r) by (by rewrite lookup_drop). by rewrite <- app_assoc.
Qed.

Lemma clear_loop b q c : b !! 24%nat = Some q -> length q = 80%nat -> forall n i, (i + n = 80)%nat ->
  for_idx n i (fun col b => write_char 24 col (mkChar 32 c) b) (<[24%nat := replicate i (mkChar 32 c) ++ drop i q]> b)
  = Some (<[24%nat := replicate 80 (mkChar 32 c)]> b).
Proof.
  intros Hq Lq. induction n as [|n IH]; intros i Hi; cbn [for_idx].
  - replace i with 80%nat by lia. by rewrite drop_ge, app_nil_r by lia.
  - rewrite (write_char_in _ _ _ _ (replicate i (mkChar 32 c) ++ drop i q));
      [|by rewrite list_lookup_insert_eq by (by eapply lookup_lt_Some)|rewrite length_app, length_replicate, length_drop; lia].
    rewrite mbind_Some, list_insert_insert_eq.
    rewrite insert_app_r_alt by (rewrite length_replicate; lia). rewrite length_replicate, Nat.sub_diag.
    destruct (lookup_lt_is_Some_2 q i) as [x Hx]; [lia|]. rewrite (drop_S q x i Hx). cbn [insert list_insert].
    rewrite <- (IH (S i)) by lia. rewrite replicate_S_end, <- app_assoc. done.
Qed.

Definition blank_row (c : Z) : list ScreenChar := replicate 80 (mkChar 32 c).

(** A new line drops the top row and adds an empty one below. *)
Lemma new_line_spec w : screen_ok (chars w) ->
  new_line w = Some (mkWriter 0 (color_code w) (drop 1 (chars w) ++ [blank_row (color_code w)])).
Proof.
  intros Hb. destruct (screen_row _ 24 Hb) as (q & Hq & Lq); [lia|]. pose proof (sc_height _ Hb) as Hh. unfold new_line.
  rewrite (copy_rows_spec _ q), mbind_Some by done. unfold clear_row. cbn [set_chars chars color_code].
  change (BUFFER_HEIGHT - 1)%nat with 24%nat. set (b1 := drop 1 (chars w) ++ [q]).
  assert (b1 !! 24%nat = Some q) as Hb1 by (unfold b1; rewrite lookup_app_r, length_drop, Hh by (rewrite length_drop; lia); done).
  pose proof (clear_loop b1 q (color_code w) Hb1 Lq BUFFER_WIDTH 0 eq_refl) as E. cbn [replicate drop app] in E.
  rewrite list_insert_id in E by done. rewrite E, mbind_Some, mbind_Some. unfold set_column, set_chars. cbn. do 2 f_equal. unfold b1.
  rewrite insert_app_r_alt, length_drop, Hh by (rewrite length_drop; lia). done.
Qed.

Lemma screen_scroll b r : screen_ok b -> length r = 80%nat -> screen_ok (drop 1 b ++ [r]).
Proof.
  intros [Hh Hw] Hr. split; [rewrite length_app, length_drop, Hh; done|]. apply Forall_app. split; [by apply Forall_drop|].
  by apply Forall_singleton.
Qed.

(** ** The sheet behind the screen *)

(** A row of text, filled up with blanks. *)
Definition pad (c : Z) (r : list Z) : list ScreenChar :=
  ((fun b => mkChar b c) <$> r) ++ replicate (80 - length r) (mkChar 32 c).

(** The last 25 rows. *)
Definition bottom (l : list (list ScreenChar)) : list (list ScreenChar) := drop (length l - 25) l.

(** The screen shows the end of the sheet [B] followed by the rows of [t], with
    the cursor behind the last character. *)
Record shows (B : list (list ScreenChar)) (c : Z) (t : list Z) (w : Writer) : Prop := {
  sh_color : color_code w = c;
  sh_column : exists R r, rows_of t = R ++ [r] /\ column_position w = length r;
  sh_chars : chars w = bottom (B ++ (pad c <$> rows_of t))
}.

Lemma pad_width c r : (length r <= 80)%nat -> length (pad c r) = 80%nat.
Proof. intros H. unfold pad. rewrite length_app, length_fmap, length_replicate. lia. Qed.

Lemma bottom_snoc l (r : list ScreenChar) : (25 <= length l)%nat -> bottom (l ++ [r]) = drop 1 (bottom l) ++ [r].
Proof.
  intros H. unfold bottom. rewrite length_app. cbn [length]. rewrite drop_drop, drop_app_le by lia.
  do 2 f_equal. lia.
Qed.

Lemma bottom_last l (r : list ScreenChar) : (24 <= length l)%nat -> bottom (l ++ [r]) = drop (length l - 24) l ++ [r].
Proof. intros H. unfold bottom. rewrite length_app. cbn [length]. rewrite drop_app_le by lia. do 2 f_equal. lia. Qed.

Lemma pad_snoc c r b : (length r < 80)%nat -> <[length r := mkChar b c]> (pad c r) = pad c (r ++ [b]).
Proof.
  intros H. unfold pad. rewrite insert_app_r_alt, length_fmap, Nat.sub_diag by (rewrite length_fmap; lia).
  replace (80 - length r)%nat with (S (80 - length (r ++ [b]))) by (rewrite length_app; cbn; lia). cbn [replicate insert list_insert].
  by rewrite fmap_app, <- app_assoc.
Qed.

Lemma rows_width t : Forall (fun r => (length r <= 80)%nat) (rows_of t).
Proof.
  unfold rows_of. apply Forall_bind, Forall_forall. intros l _. unfold compose. destruct (chunks_snoc (length l) l 0) as (R & r & -> & Hr & HR & _); [done|].
  apply Forall_app. split; [|by apply Forall_singleton]. eapply Forall_impl; [exact HR|]. cbn. lia.
Qed.

(** Writing into the bottom row. *)
Lemma write_last w X r b : chars w = X ++ [pad (color_code w) r] -> length X = 24%nat -> column_position w = length r -> (length r < 80)%nat ->
  write_byte b w = if b =? 10 then new_line w
    else Some (mkWriter (length (r ++ [b])) (color_code w) (X ++ [pad (color_code w) (r ++ [b])])).
Proof.
  intros E HX Hcol Hr. unfold write_byte. destruct (b =? 10); [done|]. unfold BUFFER_WIDTH. rewrite Hcol, (proj2 (Nat.leb_gt _ _)) by lia.
  rewrite mbind_Some. change (BUFFER_HEIGHT - 1)%nat with 24%nat. rewrite Hcol, E.
  rewrite (write_char_in _ _ _ _ (pad (color_code w) r)).
  - rewrite mbind_Some. unfold set_column, set_chars. cbn [color_code chars column_position].
    rewrite insert_app_r_alt, HX, Nat.sub_diag, pad_snoc by lia. cbn [insert list_insert]. by rewrite length_app.
  - rewrite lookup_app_r, HX by lia. done.
  - by rewrite pad_width by lia.
Qed.

Section sheet.
Context (B : list (list ScreenChar)) (c : Z).
Hypothesis HB : (24 <= length B)%nat.
Hypothesis Hwide : Forall (fun r => length r = 80%nat) B.

Lemma sheet_screen t w : shows B c t w -> screen_ok (chars w).
Proof.
  intros [_ (R & r & E & _) ->]. set (l := B ++ _). assert (Forall (fun r => length r = 80%nat) l) as Hl.
  { apply Forall_app. split; [done|]. apply Forall_fmap. eapply Forall_impl; [apply rows_width|]. intros x Hx. by apply pad_width. }
  split; [|by apply Forall_drop]. unfold bottom. rewrite length_drop. assert (25 <= length l)%nat; [|lia].
  unfold l. rewrite length_app, E, fmap_app, length_app. cbn. lia.
Qed.

(** One more character. *)
Lemma write_byte_shows t w b : shows B c t w -> exists w', write_byte b w = Some w' /\ shows B c (t ++ [b]) w'.
Proof.
  intros Hs. pose proof (sheet_screen t w Hs) as Hok. destruct Hs as [Hc (R0 & r0 & E0 & Hcol) Hch].
  destruct (rows_snoc t b) as (R & r & E & Hr & Hadd). assert (R0 = R /\ r0 = r) as [-> ->].
  { rewrite E in E0. apply app_inj_tail in E0 as [-> ->]. done. }
  rewrite E, fmap_app in Hch. cbn [fmap list_fmap] in Hch. rewrite app_assoc in Hch. set (S0 := B ++ (pad c <$> R)) in *.
  assert (24 <= length S0)%nat as HS by (unfold S0; rewrite length_app; lia).
  assert (forall r', B ++ (pad c <$> R ++ [r; r']) = (S0 ++ [pad c r]) ++ [pad c r']) as Happ.
  { intros r'. rewrite fmap_app. cbn. unfold S0. by rewrite <- !app_assoc. }
  pose proof (new_line_spec w Hok) as Hnl. rewrite Hch, <- bottom_snoc in Hnl by (rewrite length_app; cbn; lia).
  rewrite Hc in Hnl. change (blank_row c) with (pad c []) in Hnl. rewrite <- Happ in Hnl.
  unfold add_char in Hadd. destruct (b =? 10) eqn:Eb.
  - eexists. unfold write_byte. rewrite Eb. split; [exact Hnl|]. split; [done| |by rewrite Hadd].
    exists (R ++ [r]), []. by rewrite Hadd, <- app_assoc.
  - destruct (Nat.leb_spec 80 (length r)) as [Hfull|Hfree].
    + rewrite Happ, bottom_last in Hnl by (rewrite length_app; cbn; lia). set (w1 := mkWriter 0 c _) in Hnl.
      assert (write_byte b w = write_byte b w1) as ->.
      { unfold write_byte. rewrite Eb. unfold BUFFER_WIDTH. rewrite Hcol, (proj2 (Nat.leb_le _ _)) by lia. rewrite Hnl. done. }
      rewrite (write_last w1 (drop (length (S0 ++ [pad c r]) - 24) (S0 ++ [pad c r])) []); [|done|rewrite length_drop, length_app; cbn; lia|done|cbn; lia].
      rewrite Eb. eexists. split; [done|]. split; [done| |].
      * exists (R ++ [r]), [b]. by rewrite Hadd, <- app_assoc.
      * cbn [chars color_code w1 app]. rewrite Hadd, Happ, bottom_last by (rewrite length_app; cbn; lia). done.
    + rewrite bottom_last in Hch by done. rewrite (write_last w (drop (length S0 - 24) S0) r); [|by rewrite Hc|rewrite length_drop; lia|done|done].
      rewrite Eb, Hc. eexists. split; [done|]. split; [done| |].
      * exists R, (r ++ [b]). done.
      * cbn [chars]. rewrite Hadd, fmap_app. cbn [fmap list_fmap]. rewrite app_assoc. fold S0. by rewrite bottom_last.
Qed.

Lemma write_buf_shows s : forall t w, shows B c t w -> exists w', write_buf s w = Some w' /\ shows B c (t ++ s) w'.
Proof.
  induction s as [|b s IH]; intros t w Hs; cbn [write_buf]; [exists w; by rewrite app_nil_r|].
  destruct (write_byte_shows t w b Hs) as (w1 & E1 & H1). rewrite E1, mbind_Some.
  destruct (IH _ _ H1) as (w' & E & H). exists w'. by rewrite <- app_assoc in H.
Qed.
End sheet.

(** C39: The screen. Whatever has been written before, after any text the screen
    shows the last 25 rows of everything written: the text broken at its line
    ends and after every 80 characters, rows filled up with blanks, and the
    cursor behind the last character. No character is written outside the 25
    by 80 cells. *)
Theorem screen_shows B c t s w : (24 <= length B)%nat -> Forall (fun r => length r = 80%nat) B -> shows B c t w ->
  exists w', write_buf s w = Some w' /\ shows B c (t ++ s) w' /\ length (chars w') = 25%nat /\ Forall (fun r => length r = 80%nat) (chars w').
Proof.
  intros HB Hwide Hs. destruct (write_buf_shows B c HB Hwide s t w Hs) as (w' & E & H). exists w'.
  by destruct (sheet_screen B c HB Hwide _ _ H).
Qed.

Definition empty_screen : list (list ScreenChar) := replicate 25 (blank_row 7).

Lemma screen_shows_witness : exists w', write_buf [104; 105; 10; 33] (the_writer empty_screen) = Some w' /\
  chars w' !! 23%nat = Some (pad 7 [104; 105]) /\ chars w' !! 24%nat = Some (pad 7 [33]) /\ column_position w' = 1%nat.
Proof.
  destruct (screen_shows (replicate 24 (blank_row 7)) 7 [] [104; 105; 10; 33] (the_writer empty_screen)) as (w' & E & [_ (R & r & Er & Hc) Hch] & _).
  - rewrite length_replicate. lia.
  - apply Forall_replicate. reflexivity.
  - split; [reflexivity|exists [], []; split; reflexivity|vm_compute; reflexivity].
  - exists w'. split; [exact E|]. rewrite Hch. split; [vm_compute; reflexivity|]. split; [vm_compute; reflexivity|].
    change (rows_of ([] ++ [104; 105; 10; 33])) with ([[104; 105]] ++ [[33]]) in Er. apply app_inj_tail in Er as [_ <-]. exact Hc.
Defined.

(** ** The kernel's own output *)

(** What the C library writes arrives on the screen, and all of it is reported. *)
Lemma writev_shows B c fd iov : fd = 1 \/ fd = 2 -> (24 <= length B)%nat -> Forall (fun r => length r = 80%nat) B ->
  forall t ret k, shows B c t (io_writer k) -> is_uint 64 ret -> ret + Z.of_nat (length (concat iov)) < 2 ^ 64 ->
  exists k', kduck_writev fd iov ret k = Some (ret + Z.of_nat (length (concat iov)), k') /\ shows B c (t ++ concat iov) (io_writer k') /\
    io_heap_brk k' = io_heap_brk k.
Proof.
  intros Hfd HB Hw. induction iov as [|s iov IH]; intros t ret k Hs Hret Hlen; cbn [kduck_writev concat].
  - exists k. cbn [length]. by rewrite Z.add_0_r, app_nil_r.
  - cbn [concat] in Hlen. rewrite length_app in *. unfold kduck_write. replace (negb (fd =? 1) && negb (fd =? 2)) with false by (destruct Hfd as [-> | ->]; done).
    destruct (write_buf_shows B c HB Hw s t _ Hs) as (w' & E & H').
    rewrite E, mbind_Some, mbind_Some. rewrite (proj2 (Z.leb_le _ _)), Z.eqb_refl by lia. cbn [negb].
    rewrite wrap_small by (unfold is_uint in *; lia).
    destruct (IH (t ++ s) (ret + Z.of_nat (length s)) (set_writer w' k)) as (k' & E' & H1 & H2); [done|unfold is_uint in *; lia|lia|].
    exists k'. rewrite E', <- app_assoc in *. split; [do 2 f_equal; lia|]. done.
Qed.

(** The heap of the kernel never leaves its array. *)
Lemma brk_in_heap heap addr k : 0 < heap -> heap <= io_heap_brk k <= heap + KERNEL_HEAP_SIZE ->
  let '(r, k') := kduck_brk heap addr k in r = io_heap_brk k' /\ heap <= r <= heap + KERNEL_HEAP_SIZE.
Proof.
  intros H0 Hk. unfold kduck_brk. destruct (addr =? 0); [done|]. cbn [io_heap_brk]. split; [done|].
  destruct (Z.ltb_spec (io_heap_brk k) addr), (Z.leb_spec addr (heap + KERNEL_HEAP_SIZE)); cbn [andb]; lia.
Qed.

(** ** Messages *)

Record usable (w : Writer) : Prop := { us_screen : screen_ok (chars w); us_column : (column_position w <= 80)%nat }.

Lemma write_byte_usable b w : usable w -> exists w', write_byte b w = Some w' /\ usable w' /\ color_code w' = color_code w.
Proof.
  intros [Hok Hcol]. pose proof (new_line_spec w Hok) as Hnl. set (w0 := mkWriter 0 _ _) in Hnl.
  assert (usable w0) as U0 by (split; [by apply screen_scroll; [|apply length_replicate]|cbn; lia]).
  unfold write_byte. destruct (b =? 10); [by exists w0|].
  assert (exists w1, (if (BUFFER_WIDTH <=? column_position w)%nat then new_line w else Some w) = Some w1 /\ usable w1 /\
    color_code w1 = color_code w /\ (column_position w1 < 80)%nat) as (w1 & -> & [Hok1 _] & Hc1 & Hcol1).
  { destruct (Nat.leb_spec BUFFER_WIDTH (column_position w)) as [H|H]; [exists w0; split; [done|]; split; [done|]; split; [done|cbn; lia]|].
    by exists w. }
  rewrite mbind_Some. destruct (screen_row _ 24 Hok1) as (r & Hr & Lr); [lia|]. change (BUFFER_HEIGHT - 1)%nat with 24%nat.
  rewrite (write_char_in _ _ _ _ r), mbind_Some by (done || lia). eexists. split; [done|]. split; [|done]. destruct Hok1 as [Hh Hw].
  split; [split|]; cbn [chars set_column set_chars column_position]; [by rewrite length_insert| |lia].
  apply Forall_insert; [done|by rewrite length_insert].
Qed.

Lemma write_buf_usable s : forall w, usable w -> exists w', write_buf s w = Some w' /\ usable w' /\ color_code w' = color_code w.
Proof.
  induction s as [|b s IH]; intros w Hw; cbn [write_buf]; [by exists w|].
  destruct (write_byte_usable b w Hw) as (w1 & -> & H1 & E1). rewrite mbind_Some. destruct (IH w1 H1) as (w' & -> & H' & E'). exists w'. by rewrite E', E1.
Qed.

Section messages.
Context (hold : list Z -> nat).
Abbreviation usable_io s := (usable (io_writer (sio_io s))).

Lemma flush_usable n s : usable_io s -> exists s', flush_n n s = Some s' /\ usable_io s' /\ screen_color s' = screen_color s.
Proof.
  intros Hs. unfold flush_n, kduck_writev, kduck_write. cbn [Z.eqb Pos.eqb negb andb].
  destruct (write_buf_usable (take n (pending s)) _ Hs) as (w' & -> & H' & E'). rewrite !mbind_Some, Z.eqb_refl. cbn [negb].
  rewrite mbind_Some. by eexists.
Qed.

Lemma put_usable l s : usable_io s -> exists s', put hold l s = Some s' /\ usable_io s' /\ screen_color s' = screen_color s.
Proof. intros Hs. apply (flush_usable _ (mkStdio (pending s ++ l) (sio_io s)) Hs). Qed.

Lemma recolor_usable c s : usable_io s -> usable_io (recolor c s) /\ screen_color (recolor c s) = c.
Proof. by intros [? ?]. Qed.

(** The colour outside messages is [c]. *)
Definition colored (c : Z) (g : logger) : Prop :=
  usable_io (log_out g) /\ if logger_in_use g then logger_saved_colorcode g = c else screen_color (log_out g) = c.

Lemma open_colored c l stamp g : colored c g -> exists t g', open_logger hold l stamp g = Some (t, g') /\ colored c g' /\
  (tl_mute t = false -> tl_saved_colorcode t = c) /\ log_level g' = log_level g.
Proof.
  intros [Hu Hc]. unfold open_logger. destruct (_ <? _); [eexists _, _; split; [done|]; split; [done|]; by split|].
  destruct (logger_in_use g) eqn:Ei; cbn [negb].
  - destruct (put_usable stamp _ Hu) as (o1 & -> & U1 & E1). rewrite mbind_Some.
    destruct (put_usable (bytes_of_string "[" ++ bytes_of_string (get_prefix l) ++ bytes_of_string "] ") _ U1) as (o2 & -> & U2 & E2).
    rewrite mbind_Some. eexists _, _. split; [done|]. unfold colored. cbn. by rewrite Ei.
  - destruct (recolor_usable (log_color l) _ Hu) as [U0 _]. cbn [log_out log_level logger_in_use logger_saved_colorcode].
    destruct (put_usable stamp _ U0) as (o1 & -> & U1 & E1). rewrite mbind_Some.
    destruct (put_usable (bytes_of_string "[" ++ bytes_of_string (get_prefix l) ++ bytes_of_string "] ") _ U1) as (o2 & -> & U2 & E2).
    rewrite mbind_Some. by eexists _, _.
Qed.

Lemma close_colored c t g : colored c g -> (tl_mute t = false -> tl_saved_colorcode t = c) ->
  exists g', close_logger hold t g = Some g' /\ colored c g' /\ (tl_mute t = false -> screen_color (log_out g') = c /\ logger_in_use g' = false).
Proof.
  intros [Hu Hc] Ht. unfold close_logger. destruct (tl_mute t) eqn:Em; [by exists g|]. specialize (Ht eq_refl).
  destruct (flush_usable (length (pending (log_out g))) _ Hu) as (o & E & U & Eo). unfold fflush. rewrite E, mbind_Some.
  set (o1 := if logger_in_use g then recolor (tl_saved_colorcode t) o else o).
  assert (usable_io o1 /\ screen_color o1 = c) as [U1 E1].
  { unfold o1. destruct (logger_in_use g); [rewrite Ht; by apply recolor_usable|]. by rewrite Eo. }
  destruct (put_usable [10] o1 U1) as (o2 & -> & U2 & E2). rewrite mbind_Some. eexists. split; [done|]. split; [|intros _].
  - split; [done|]. cbn. by rewrite E2.
  - cbn. by rewrite E2.
Qed.

(** A message is printed whatever the screen holds, and leaves its colour. *)
Lemma log_restores_color c l stamp text g : colored c g -> logger_in_use g = false ->
  exists g', log hold l stamp text g = Some g' /\ screen_color (log_out g') = c /\ logger_in_use g' = false.
Proof.
  intros Hg Hi. unfold log. destruct (_ <? _) eqn:El; [destruct Hg as [_ Hc]; rewrite Hi in Hc; by exists g|].
  destruct (open_colored c l stamp g Hg) as (t & g1 & E1 & [U1 C1] & Ht & _). rewrite E1, mbind_Some.
  assert (tl_mute t = false) as Hm.
  { unfold open_logger in E1. rewrite El, Hi in E1. cbn [negb] in E1. apply bind_Some in E1 as (? & _ & E1).
    apply bind_Some in E1 as (? & _ & [= <- _]). done. }
  destruct (put_usable text _ U1) as (o & -> & U & E). rewrite mbind_Some.
  destruct (close_colored c t (mkLogger (log_level g1) (logger_in_use g1) (logger_saved_colorcode g1) o)) as (g' & E' & _ & H').
  - split; [done|]. cbn. by rewrite E.
  - done.
  - exists g'. by destruct (H' Hm).
Qed.

(** The messages of a guard are like any other. *)
Lemma guard_message_log l stamp text g : guard_message hold l stamp text g = log hold l stamp text g.
Proof.
  unfold guard_message, log. destruct (open_logger hold l stamp g) as [[t g1]|] eqn:E; unfold open_logger in E.
  - destruct (_ <? _) eqn:El; [injection E as <- <-; by destruct g|]. rewrite !mbind_Some.
    destruct (if negb (logger_in_use g) then _ else _) as [t1 g2] eqn:Et in E. apply bind_Some in E as (? & _ & E). apply bind_Some in E as (? & _ & [= <- <-]).
    assert (tl_mute t1 = false) as ->; [|done]. by destruct (logger_in_use g); injection Et as <- <-.
  - by destruct (_ <? _).
Qed.

Lemma guard_restores_color c log_enter log_ret l stamp func g : colored c g -> logger_in_use g = false ->
  exists g1 g2, guard_enter hold log_enter log_ret l stamp func g = Some g1 /\ screen_color (log_out g1) = c /\ logger_in_use g1 = false /\
    guard_ret hold log_ret l stamp func g = Some g2 /\ screen_color (log_out g2) = c /\ logger_in_use g2 = false.
Proof.
  intros Hg Hi. assert (screen_color (log_out g) = c) as Hc by (destruct Hg as [_ Hg]; by rewrite Hi in Hg).
  unfold guard_enter, guard_ret. rewrite !guard_message_log.
  destruct (log_restores_color c l stamp (func ++ (if log_ret then bytes_of_string " start" else [])) g Hg Hi) as (g1 & E1 & C1 & I1).
  destruct (log_restores_color c l stamp (func ++ bytes_of_string " done") g Hg Hi) as (g2 & E2 & C2 & I2).
  exists (if log_enter then g1 else g), (if log_ret then g2 else g). rewrite E1, E2. by destruct log_enter, log_ret.
Qed.
End messages.

(** ** The serial port *)

Lemma wait_keeps n : forall s, sr_out (wait_txrdy n s) = sr_out s /\ (sr_reads s <= sr_reads (wait_txrdy n s) <= sr_reads s + n)%nat.
Proof.
  induction n as [|n IH]; intros s; cbn [wait_txrdy]; [split; [done|lia]|]. destruct (negb _); cbn [sr_out sr_reads]; [split; [done|lia]|].
  destruct (IH (mkSerial (sr_lsr s) (S (sr_reads s)) (sr_out s))) as [-> H]. cbn [sr_out sr_reads] in *. split; [done|lia].
Qed.

(** Every byte is put out once and in order, however long the port is busy. *)
Lemma serial_writes l : forall s, sr_out (serial_write_buf l s) = rev ((fun b => (COM1, u8 b)) <$> l) ++ sr_out s.
Proof.
  induction l as [|b l IH]; intros s; cbn [serial_write_buf fmap list_fmap rev]; [done|]. rewrite IH. unfold putc, outb. cbn [sr_out].
  rewrite (proj1 (wait_keeps _ _)). by rewrite <- app_assoc.
Qed.
