(* ===== verification/Memory.v ===== *)
(** * lib/memory.cpp: physical pages, page tables and their flags

    Physical memory is a map from the addresses of 8-byte words to their
    values; a word that was never written reads as its unknown initial value,
    which the initial map holds (zero outside it). [translate] is the page walk
    of the processor, with the recursive entry handled like any other; the
    accesses through [get_P1] go through it. Page tables are accessed through
    [remap] only before [lcr3], when the boot tables map physical memory at
    -1024 GiB: those accesses are physical. The TLB is not modelled.
    [MemoryProofs] and [MemoryClaims] hold the theorems. *)

From S2P Require Import Prelude Utils.

Definition PAGE_SIZE : Z := 4096.
Definition HUGE_PAGE_SIZE : Z := 2097152.
Definition P3_PAGE_SIZE : Z := 2 ^ 30.
Definition MAX_MEMORY_SIZE : Z := 511 * 2 ^ 30.
Definition MAX_N_HUGE_PAGES : Z := MAX_MEMORY_SIZE / HUGE_PAGE_SIZE.
Definition kernel_break : Z := 16 * 2 ^ 20.

Definition PTE_PRESENT : Z := 2 ^ 0.
Definition PTE_WRITABLE : Z := 2 ^ 1.
Definition PTE_USER : Z := 2 ^ 2.
Definition PTE_WRITE_THROUGH : Z := 2 ^ 3.
Definition PTE_CACHE_DISABLE : Z := 2 ^ 4.
Definition PTE_ACCESSED : Z := 2 ^ 5.
Definition PTE_DIRTY : Z := 2 ^ 6.
Definition PTE_HUGE : Z := 2 ^ 7.
Definition PTE_NO_EXECUTE : Z := 2 ^ 63.
Definition PTE_DUCK_WRITTEN : Z := 2 ^ 9.

(** Bitwise or of flags. *)
Definition flags (l : list Z) : Z := foldr Z.lor 0 l.

(** The complement of a 64-bit mask. *)
Definition not64 (x : Z) : Z := Z.lxor x (2 ^ 64 - 1).

Definition clear_page_flags (a : Z) : Z := u64 (Z.shiftl (Z.shiftr (u64 (Z.shiftl a 1)) 10) 9).

Record memory := mkMemory {
  huge_page_map : arr bool;
  n_huge_pages : Z;
  next_page_table_address : Z;
  page_table_break : Z;
  vaddr_break : Z;
  phys : gmap Z Z;
  cr3 : Z
}.

(** The static initial values; [ph] and [c] are what the boot code leaves. *)
Definition memory_start (ph : gmap Z Z) (c : Z) : memory :=
  mkMemory (anew MAX_N_HUGE_PAGES) 0 kernel_break 0 0 ph c.

Definition set_next_table (a : Z) (m : memory) : memory :=
  mkMemory (huge_page_map m) (n_huge_pages m) a (page_table_break m) (vaddr_break m) (phys m) (cr3 m).
Definition set_table_break (a : Z) (m : memory) : memory :=
  mkMemory (huge_page_map m) (n_huge_pages m) (next_page_table_address m) a (vaddr_break m) (phys m) (cr3 m).
Definition set_vaddr_break (a : Z) (m : memory) : memory :=
  mkMemory (huge_page_map m) (n_huge_pages m) (next_page_table_address m) (page_table_break m) a (phys m) (cr3 m).
Definition set_phys (ph : gmap Z Z) (m : memory) : memory :=
  mkMemory (huge_page_map m) (n_huge_pages m) (next_page_table_address m) (page_table_break m) (vaddr_break m) ph (cr3 m).
Definition lcr3 (a : Z) (m : memory) : memory :=
  mkMemory (huge_page_map m) (n_huge_pages m) (next_page_table_address m) (page_table_break m) (vaddr_break m) (phys m) a.

Definition word (ph : gmap Z Z) (a : Z) : Z := default 0 (ph !! a).

(** The physical address whose alias below -512 GiB is dereferenced. *)
Definition remap (addr : Z) : Z := u64 (addr - 1024 * 2 ^ 30).

(** ** Building the page tables *)

(** [while (!huge_page_map[a / HUGE_PAGE_SIZE]) a += HUGE_PAGE_SIZE]: the loop
    leaves the map before the fuel [MAX_N_HUGE_PAGES] is used up. *)
Fixpoint next_available (fuel : nat) (map : arr bool) (a : Z) : option Z :=
  b ← aread map (a / HUGE_PAGE_SIZE);
  if (b : bool) then Some a
  else match fuel with O => None | S fuel' => next_available fuel' map (a + HUGE_PAGE_SIZE) end.

Definition page_table_alloc (m : memory) : option (Z * memory) :=
  ret ← next_available (Z.to_nat MAX_N_HUGE_PAGES) (huge_page_map m) (next_page_table_address m);
  let next := ret + PAGE_SIZE in
  if next <=? page_table_break m then Some (ret, set_next_table next m) else None.

(** [memset] of one page with zeroes. *)
Definition zero_page (a : Z) (ph : gmap Z Z) : gmap Z Z :=
  for_range 0 (PAGE_SIZE / 8) (fun i ph => <[a + 8 * i := 0]> ph) ph.

Definition page_table_alloc_zeroed (m : memory) : option (Z * memory) :=
  r ← page_table_alloc m;
  let '(ret, m) := r in
  Some (ret, set_phys (zero_page ret (phys m)) m).

(** The address of entry [index] and the entry. *)
Definition PTE_addr (table index : Z) : Z := Z.lor table (index * 8).
Definition PTE (m : memory) (table index : Z) : Z := word (phys m) (PTE_addr table index).
Definition set_PTE (table index v : Z) (m : memory) : memory :=
  set_phys (<[PTE_addr table index := v]> (phys m)) m.

(** The entry after it was created when it was zero. *)
Definition PTE_create (table index creation_flags : Z) (m : memory) : option (Z * memory) :=
  if PTE m table index =? 0 then
    r ← page_table_alloc_zeroed m;
    let '(t, m) := r in
    let e := Z.lor t creation_flags in
    Some (e, set_PTE table index e m)
  else Some (PTE m table index, m).

Definition P4_index (vaddr : Z) : Z := Z.land (Z.shiftr vaddr 39) (PAGE_SIZE / 8 - 1).
Definition P3_index (vaddr : Z) : Z := Z.land (Z.shiftr vaddr 30) (PAGE_SIZE / 8 - 1).
Definition P2_index (vaddr : Z) : Z := Z.land (Z.shiftr vaddr 21) (PAGE_SIZE / 8 - 1).
Definition P1_index (vaddr : Z) : Z := Z.land (Z.shiftr vaddr 12) (PAGE_SIZE / 8 - 1).

(** The loop of [init_page_table_break] from huge page [i]. *)
Fixpoint find_table_break (n : nat) (i cur_size page_table_size : Z) (map : arr bool) : option (option Z) :=
  match n with
  | O => Some None
  | S n' =>
      b ← aread map i;
      if negb b then find_table_break n' (i + 1) cur_size page_table_size map
      else
        let cur_size := cur_size + HUGE_PAGE_SIZE in
        if page_table_size <=? cur_size then Some (Some ((i + 1) * HUGE_PAGE_SIZE))
        else find_table_break n' (i + 1) cur_size page_table_size map
  end.

Definition page_table_size (n_huge_pages : Z) : Z :=
  let size := PAGE_SIZE * 4 in
  let size := size + n_huge_pages * PAGE_SIZE in
  let size := size + round_up (n_huge_pages * 8) PAGE_SIZE in
  let size := size + PAGE_SIZE * 2 in
  round_up size HUGE_PAGE_SIZE.

Definition init_page_table_break (m : memory) : option memory :=
  r ← find_table_break (Z.to_nat (n_huge_pages m)) 0 0 (page_table_size (n_huge_pages m)) (huge_page_map m);
  Some (match r with Some b => set_table_break b m | None => m end).

Definition kernel_flags : Z := flags [PTE_PRESENT; PTE_WRITABLE; PTE_DIRTY; PTE_ACCESSED].

(** The P1 table of huge page [i] of the kernel. *)
Definition map_kernel_page (P2_low i : Z) (m : memory) : option memory :=
  r ← page_table_alloc_zeroed m;
  let '(P1, m) := r in
  let m := set_PTE P2_low i (Z.lor P1 kernel_flags) m in
  Some (for_range 0 (PAGE_SIZE / 8)
          (fun j m => set_PTE P1 j (Z.lor (i * HUGE_PAGE_SIZE + j * PAGE_SIZE) kernel_flags) m) m).

Definition init_empty_kernel_page_table (m : memory) : option (Z * memory) :=
  r ← page_table_alloc_zeroed m; let '(P4, m) := r in
  r ← page_table_alloc_zeroed m; let '(P3_high, m) := r in
  r ← page_table_alloc_zeroed m; let '(P3_low, m) := r in
  r ← page_table_alloc_zeroed m; let '(P2_low, m) := r in
  let m := set_PTE P4 511 (Z.lor P4 kernel_flags) m in
  let m := set_PTE P4 510 (Z.lor P3_high kernel_flags) m in
  let m := for_range 0 (PAGE_SIZE / 8)
             (fun i m => set_PTE P3_high i (Z.lor (i * P3_PAGE_SIZE) (Z.lor kernel_flags PTE_HUGE)) m) m in
  let m := set_PTE P4 0 (Z.lor P3_low (Z.lor kernel_flags PTE_USER)) m in
  let m := set_PTE P3_low 0 (Z.lor P2_low (Z.lor kernel_flags PTE_USER)) m in
  m ← forM_range 0 (kernel_break / HUGE_PAGE_SIZE) (map_kernel_page P2_low) m;
  Some (P4, m).

Definition user_table_flags : Z :=
  flags [PTE_PRESENT; PTE_WRITABLE; PTE_USER; PTE_ACCESSED; PTE_DIRTY].

(** The entry the three assignments to [PTE(P1, j)] leave. *)
Definition user_page_entry (paddr : Z) : Z :=
  Z.lor (Z.land (Z.lor paddr user_table_flags) (not64 PTE_USER)) PTE_DUCK_WRITTEN.

(** One turn of the loop of [init_page_table_4k]. *)
Definition map_user_page (P4 i : Z) (s : Z * memory) : option (Z * memory) :=
  let '(vaddr, m) := s in
  b ← aread (huge_page_map m) i;
  if negb b then Some (vaddr, m)
  else
    let paddr := i * HUGE_PAGE_SIZE in
    r ← PTE_create P4 (P4_index vaddr) user_table_flags m; let '(e, m) := r in
    let P3 := clear_page_flags e in
    r ← PTE_create P3 (P3_index vaddr) user_table_flags m; let '(e, m) := r in
    let P2 := clear_page_flags e in
    r ← PTE_create P2 (P2_index vaddr) user_table_flags m; let '(e, m) := r in
    let P1 := clear_page_flags e in
    let m := for_range 0 (PAGE_SIZE / 8)
               (fun j m => set_PTE P1 j (user_page_entry (paddr + j * PAGE_SIZE)) m) m in
    Some (vaddr + HUGE_PAGE_SIZE, m).

Definition init_page_table_4k (m : memory) : option (Z * memory) :=
  r ← init_empty_kernel_page_table m; let '(P4, m) := r in
  r ← forM_range (page_table_break m / HUGE_PAGE_SIZE) MAX_N_HUGE_PAGES (map_user_page P4) (kernel_break, m);
  let '(vaddr, m) := r in
  Some (P4, set_vaddr_break vaddr m).

Definition init_page_tables (m : memory) : option memory :=
  m ← init_page_table_break m;
  r ← init_page_table_4k m; let '(P4, m) := r in
  Some (lcr3 P4 m).

(** [ebss] is the end of the kernel image. *)
Definition init (ebss : Z) (m : memory) : option memory :=
  if ebss <=? kernel_break then init_page_tables m else None.

Definition register_available_huge_page (addr : Z) (m : memory) : option memory :=
  if negb (addr mod HUGE_PAGE_SIZE =? 0) then None
  else if negb (addr <? MAX_MEMORY_SIZE) then None
  else if addr <? kernel_break then Some m
  else
    let page_num := addr / HUGE_PAGE_SIZE in
    b ← aread (huge_page_map m) page_num;
    if (b : bool) then Some m
    else
      map ← awrite (huge_page_map m) page_num true;
      Some (mkMemory map (n_huge_pages m + 1) (next_page_table_address m) (page_table_break m)
              (vaddr_break m) (phys m) (cr3 m)).

(** ** The page walk of the processor *)

Definition frame (e : Z) : Z := Z.land e (2 ^ 52 - 2 ^ 12).

(** The physical address and the entries used, the last level first. *)
Definition translate (m : memory) (v : Z) : option (Z * list Z) :=
  let e4 := PTE m (frame (cr3 m)) (P4_index v) in
  if negb (Z.testbit e4 0) then None
  else
    let e3 := PTE m (frame e4) (P3_index v) in
    if negb (Z.testbit e3 0) then None
    else if Z.testbit e3 7 then Some (frame e3 + v mod 2 ^ 30, [e3; e4])
    else
      let e2 := PTE m (frame e3) (P2_index v) in
      if negb (Z.testbit e2 0) then None
      else if Z.testbit e2 7 then Some (frame e2 + v mod 2 ^ 21, [e2; e3; e4])
      else
        let e1 := PTE m (frame e2) (P1_index v) in
        if negb (Z.testbit e1 0) then None
        else Some (frame e1 + v mod 2 ^ 12, [e1; e2; e3; e4]).

(** The processor lets user code reach a page, write it, fetch from it. *)
Definition user_access (l : list Z) : bool := forallb (fun e => Z.testbit e 2) l.
Definition write_access (l : list Z) : bool := forallb (fun e => Z.testbit e 1) l.
Definition no_execute (l : list Z) : bool := existsb (fun e => Z.testbit e 63) l.

(** The addresses the processor accepts. *)
Definition canonical (v : Z) : bool := (0 <=? v) && (v <? 2 ^ 47) || (2 ^ 64 - 2 ^ 47 <=? v) && (v <? 2 ^ 64).

(** ** Flags of mapped pages *)

Definition get_P1_addr (vaddr : Z) : Z := Z.lor (Z.land (Z.shiftr vaddr 9) (2 ^ 64 - 8)) (2 ^ 64 - 2 ^ 39).
Definition get_P2_addr (vaddr : Z) : Z := Z.lor (Z.land (Z.shiftr vaddr 18) (2 ^ 64 - 8)) (2 ^ 64 - 2 ^ 30).
Definition get_P3_addr (vaddr : Z) : Z := Z.lor (Z.land (Z.shiftr vaddr 27) (2 ^ 64 - 8)) (2 ^ 64 - 2 ^ 21).
Definition get_P4_addr (vaddr : Z) : Z := Z.lor (Z.land (Z.shiftr vaddr 36) (2 ^ 64 - 8)) (2 ^ 64 - 2 ^ 12).

(** The first level entry, read and written through its virtual address; a
    page fault is [None]. *)
Definition get_P1 (m : memory) (vaddr : Z) : option Z :=
  r ← translate m (get_P1_addr vaddr); Some (word (phys m) r.1).

Definition update_P1 (vaddr : Z) (f : Z -> Z) (m : memory) : option memory :=
  r ← translate m (get_P1_addr vaddr);
  Some (set_phys (<[r.1 := f (word (phys m) r.1)]> (phys m)) m).

(** [while (start != end) { ...; start += PAGE_SIZE; }] after the two
    assertions: the number of turns is the distance modulo 2^64. *)
Definition for_pages {S} (start end_ : Z) (body : Z -> S -> option S) (s : S) : option S :=
  if negb (start mod PAGE_SIZE =? 0) then None
  else if negb (end_ mod PAGE_SIZE =? 0) then None
  else forM_range 0 (u64 (end_ - start) / PAGE_SIZE) (fun i => body (u64 (start + i * PAGE_SIZE))) s.

Definition user_writable_entry (P1 : Z) : Z :=
  Z.lor (clear_page_flags P1) (flags [PTE_PRESENT; PTE_USER; PTE_WRITABLE; PTE_NO_EXECUTE]).
Definition set_page_flags_user_writable (start end_ : Z) : memory -> option memory :=
  for_pages start end_ (fun a => update_P1 a user_writable_entry).

Definition user_readonly_entry (P1 : Z) : Z :=
  Z.lor (clear_page_flags P1) (flags [PTE_PRESENT; PTE_USER; PTE_NO_EXECUTE]).
Definition set_page_flags_user_readonly (start end_ : Z) : memory -> option memory :=
  for_pages start end_ (fun a => update_P1 a user_readonly_entry).

Definition user_executable_entry (P1 : Z) : Z :=
  Z.lor (clear_page_flags P1) (flags [PTE_PRESENT; PTE_USER]).
Definition set_page_flags_user_executable (start end_ : Z) : memory -> option memory :=
  for_pages start end_ (fun a => update_P1 a user_executable_entry).

Definition kernel_entry (P1 : Z) : Z :=
  Z.lor (clear_page_flags P1) (flags [PTE_PRESENT; PTE_WRITABLE]).
Definition set_page_flags_kernel (start end_ : Z) : memory -> option memory :=
  for_pages start end_ (fun a => update_P1 a kernel_entry).

Definition add_page_flags_writable (start end_ : Z) : memory -> option memory :=
  for_pages start end_ (fun a => update_P1 a (fun P1 => Z.lor P1 PTE_WRITABLE)).

Definition add_page_flags_executable (start end_ : Z) : memory -> option memory :=
  for_pages start end_ (fun a => update_P1 a (fun P1 => Z.land P1 (not64 PTE_NO_EXECUTE))).

Definition clear_access_and_dirty_flags (start end_ : Z) : memory -> option memory :=
  for_pages start end_
    (fun a => update_P1 a (fun P1 => Z.land P1 (not64 (flags [PTE_ACCESSED; PTE_DIRTY])))).

Definition count_pages (flag start end_ : Z) (m : memory) : option Z :=
  for_pages start end_
    (fun a ret => P1 ← get_P1 m a; Some (ret + if Z.land P1 flag =? 0 then 0 else 1)) 0.

Definition count_dirty_pages : Z -> Z -> memory -> option Z := count_pages PTE_DIRTY.
Definition count_accessed_pages : Z -> Z -> memory -> option Z := count_pages PTE_ACCESSED.

Definition written_by_dirty_entry (P1 : Z) : Z :=
  Z.lor P1 (if negb (Z.land P1 PTE_DIRTY =? 0) then PTE_DUCK_WRITTEN else 0).
Definition set_duck_written_by_dirty (start end_ : Z) : memory -> option memory :=
  for_pages start end_ (fun a => update_P1 a written_by_dirty_entry).

Definition set_duck_written (start end_ : Z) : memory -> option memory :=
  for_pages start end_ (fun a => update_P1 a (fun P1 => Z.lor P1 PTE_DUCK_WRITTEN)).

(** Zero the page if it was written, then drop the marks. *)
Definition clear_duck_written_page (a : Z) (m : memory) : option memory :=
  P1 ← get_P1 m a;
  if negb (Z.land P1 PTE_DUCK_WRITTEN =? 0) then
    r ← translate m a;
    let m := set_phys (zero_page r.1 (phys m)) m in
    update_P1 a (fun P1 => Z.land P1 (not64 (flags [PTE_DIRTY; PTE_DUCK_WRITTEN]))) m
  else Some m.
Definition clear_duck_written_pages (start end_ : Z) : memory -> option memory :=
  for_pages start end_ clear_duck_written_page.

Definition device_entry (src_addr : Z) : Z :=
  Z.lor src_addr (flags [PTE_PRESENT; PTE_WRITABLE; PTE_CACHE_DISABLE; PTE_WRITE_THROUGH]).
Definition map_region_cache_disabled (start end_ src_addr : Z) (m : memory) : option memory :=
  if negb (src_addr mod PAGE_SIZE =? 0) then None
  else for_pages start end_
         (fun a => update_P1 a (fun _ => device_entry (u64 (src_addr + (a - start))))) m.

(** ** Virtual memory for the kernel *)

(** The new region, or the NULL pointer. *)
Definition allocate_virtual_memory (size : Z) (m : memory) : option Z * memory :=
  let size := round_up size HUGE_PAGE_SIZE in
  if u64 (vaddr_break m - kernel_break) <? size then (None, m)
  else let a := vaddr_break m - size in (Some a, set_vaddr_break a m).

Definition can_allocate_virtual_memory (size : Z) (m : memory) : bool :=
  let size := round_up size HUGE_PAGE_SIZE in
  size <=? u64 (vaddr_break m - kernel_break).

Definition user_writable_check (addr : Z) (m : memory) : option bool :=
  if addr <? kernel_break then Some false
  else if vaddr_break m <=? addr then Some false
  else
    P1 ← get_P1 m addr;
    let fl := flags [PTE_USER; PTE_WRITABLE] in
    Some (Z.land P1 fl =? fl).
