(* ===== verification/MemoryProofs.v ===== *)
(** * Page tables: entries, the table allocator and the walk

    The arithmetic of entries and indices, the frame properties of table
    writes, and the table allocator as a counter: after [j] allocations the next
    table is slot [j] of the available huge pages in increasing order. *)

From S2P Require Import Prelude Utils Memory.

(** ** Entries *)

(** The address of a table or of a 4 KiB frame. *)
Definition aligned (t : Z) : Prop := t mod 4096 = 0 /\ 0 <= t < 2 ^ 52.

Lemma lor_flags t fl : aligned t -> 0 <= fl < 4096 -> Z.lor t fl = t + fl.
Proof. intros [Ht _] Hf. by apply (lor_low t fl 12). Qed.

Lemma land_range e lo hi : 0 <= lo <= hi -> Z.land e (2 ^ hi - 2 ^ lo) = e mod 2 ^ hi / 2 ^ lo * 2 ^ lo.
Proof.
  intros H. replace (2 ^ hi - 2 ^ lo) with (Z.shiftl (Z.ones (hi - lo)) lo).
  2: { rewrite Z.shiftl_mul_pow2, Z.ones_equiv by lia.
       replace (2 ^ hi) with (2 ^ (hi - lo) * 2 ^ lo) by (rewrite <- Z.pow_add_r by lia; f_equal; lia).
       lia. }
  rewrite <- Z.shiftr_div_pow2, <- Z.shiftl_mul_pow2 by lia. apply Z.bits_inj'. intros i Hi.
  rewrite Z.land_spec. destruct (Z.ltb_spec i lo).
  - rewrite !Z.shiftl_spec_low by lia. apply andb_false_r.
  - rewrite !Z.shiftl_spec, Z.shiftr_spec by lia. replace (i - lo + lo) with i by lia.
    destruct (Z.ltb_spec i hi).
    + rewrite Z.ones_spec_low, Z.mod_pow2_bits_low by lia. apply andb_true_r.
    + rewrite Z.ones_spec_high, Z.mod_pow2_bits_high by lia. apply andb_false_r.
Qed.

Lemma frame_spec e : frame e = e mod 2 ^ 52 / 4096 * 4096.
Proof. unfold frame. rewrite land_range by lia. done. Qed.

Lemma frame_entry t fl : aligned t -> 0 <= fl < 4096 -> frame (t + fl) = t.
Proof. intros [Ht Hr] Hf. rewrite frame_spec. change (2 ^ 52) with 4503599627370496 in *. dlia. Qed.

Lemma frame_aligned t : aligned t -> frame t = t.
Proof. intros H. rewrite <- (Z.add_0_r t) at 1. by apply frame_entry. Qed.

Lemma testbit_entry t fl i : aligned t -> 0 <= fl < 4096 -> 0 <= i < 12 -> Z.testbit (t + fl) i = Z.testbit fl i.
Proof.
  intros Ha Hf Hi. rewrite <- lor_flags, Z.lor_spec by done. destruct Ha as [Ht _].
  rewrite <- (Z.mod_pow2_bits_low t 12) by lia. change (2 ^ 12) with 4096. by rewrite Ht, Z.bits_0.
Qed.

Lemma clear_page_flags_spec a : is_uint 64 a -> clear_page_flags a = a mod 2 ^ 63 / 2 ^ 9 * 2 ^ 9.
Proof.
  intros Ha. unfold clear_page_flags, wrap, is_uint in *.
  rewrite Z.shiftl_mul_pow2, Z.shiftr_div_pow2, Z.shiftl_mul_pow2 by lia.
  change (2 ^ 64) with 18446744073709551616 in *. change (2 ^ 63) with 9223372036854775808.
  change (2 ^ 1) with 2. change (2 ^ 10) with 1024. change (2 ^ 9) with 512. dlia.
Qed.

Lemma clear_entry t fl : aligned t -> 0 <= fl < 512 -> clear_page_flags (t + fl) = t.
Proof.
  intros [Ht Hr] Hf. change (2 ^ 52) with 4503599627370496 in *.
  rewrite clear_page_flags_spec by (unfold is_uint; lia).
  change (2 ^ 63) with 9223372036854775808. change (2 ^ 9) with 512. dlia.
Qed.

Lemma land_511 x : Z.land x 511 = x mod 512.
Proof. change 511 with (2 ^ 9 - 1). by rewrite land_mask by lia. Qed.

Lemma P4_index_spec v : P4_index v = v / 2 ^ 39 mod 512.
Proof. unfold P4_index. change (PAGE_SIZE / 8 - 1) with 511. by rewrite land_511, Z.shiftr_div_pow2. Qed.
Lemma P3_index_spec v : P3_index v = v / 2 ^ 30 mod 512.
Proof. unfold P3_index. change (PAGE_SIZE / 8 - 1) with 511. by rewrite land_511, Z.shiftr_div_pow2. Qed.
Lemma P2_index_spec v : P2_index v = v / 2 ^ 21 mod 512.
Proof. unfold P2_index. change (PAGE_SIZE / 8 - 1) with 511. by rewrite land_511, Z.shiftr_div_pow2. Qed.
Lemma P1_index_spec v : P1_index v = v / 2 ^ 12 mod 512.
Proof. unfold P1_index. change (PAGE_SIZE / 8 - 1) with 511. by rewrite land_511, Z.shiftr_div_pow2. Qed.

(** An index into a table. *)
Definition slot (i : Z) : Prop := 0 <= i < 512.

Lemma slot_mod x : slot (x mod 512).
Proof. apply Z.mod_pos_bound. lia. Qed.

Lemma P4_index_slot v : slot (P4_index v). Proof. rewrite P4_index_spec. apply slot_mod. Qed.
Lemma P3_index_slot v : slot (P3_index v). Proof. rewrite P3_index_spec. apply slot_mod. Qed.
Lemma P2_index_slot v : slot (P2_index v). Proof. rewrite P2_index_spec. apply slot_mod. Qed.
Lemma P1_index_slot v : slot (P1_index v). Proof. rewrite P1_index_spec. apply slot_mod. Qed.
#[export] Hint Resolve P4_index_slot P3_index_slot P2_index_slot P1_index_slot slot_mod : cxx.

Lemma PTE_addr_spec t i : aligned t -> slot i -> PTE_addr t i = t + 8 * i.
Proof. intros Ht Hi. unfold PTE_addr, slot in *. rewrite lor_flags by (done || lia). lia. Qed.

(** ** Writing entries *)

Lemma PTE_set_PTE m t i v t' i' :
  aligned t -> slot i -> aligned t' -> slot i' ->
  PTE (set_PTE t i v m) t' i' = if decide (t = t' /\ i = i') then v else PTE m t' i'.
Proof.
  intros Ht Hi Ht' Hi'. unfold PTE, set_PTE, word. cbn [phys set_phys].
  rewrite !PTE_addr_spec by done. rewrite lookup_insert. unfold aligned, slot in *.
  destruct (decide (t + 8 * i = t' + 8 * i')) as [E|E].
  - rewrite decide_True; [done|]. dlia.
  - rewrite decide_False; [done|]. intros [-> ->]. done.
Qed.

Lemma PTE_zero_page m t t' i' :
  aligned t -> aligned t' -> slot i' ->
  PTE (set_phys (zero_page t (phys m)) m) t' i' = if decide (t = t') then 0 else PTE m t' i'.
Proof.
  intros Ht Ht' Hi'. unfold PTE, word. cbn [phys set_phys]. rewrite PTE_addr_spec by done.
  unfold zero_page. change (PAGE_SIZE / 8) with 512.
  pose proof (for_range_ind (fun n ph => default 0 (ph !! (t' + 8 * i')) =
    if decide (t = t' /\ i' < n) then 0 else default 0 (phys m !! (t' + 8 * i'))) 0 512
    (fun i ph => <[t + 8 * i := 0]> ph) (phys m)) as H.
  cbv beta in H. rewrite H; clear H.
  - unfold slot in Hi'. do 2 case_decide; done || lia.
  - lia.
  - rewrite decide_False; [done|]. unfold slot in Hi'. lia.
  - intros n ph Hn IH. unfold aligned, slot in *. rewrite lookup_insert.
    destruct (decide (t + 8 * n = t' + 8 * i')) as [E|E].
    + rewrite decide_True; [done|]. dlia.
    + rewrite IH. do 2 case_decide; try done; [lia|]. destruct H0 as [-> ?].
      exfalso. apply H. split; [done|]. lia.
Qed.

(** The fields the tables do not touch. *)
Record same_state (m m' : memory) : Prop := {
  ss_map : huge_page_map m' = huge_page_map m;
  ss_n : n_huge_pages m' = n_huge_pages m;
  ss_next : next_page_table_address m' = next_page_table_address m;
  ss_tbreak : page_table_break m' = page_table_break m;
  ss_vbreak : vaddr_break m' = vaddr_break m;
  ss_cr3 : cr3 m' = cr3 m
}.

Lemma same_state_refl m : same_state m m.
Proof. by split. Qed.

Lemma same_state_set_PTE m t i v : same_state m (set_PTE t i v m).
Proof. by split. Qed.

Lemma same_state_trans m1 m2 m3 : same_state m1 m2 -> same_state m2 m3 -> same_state m1 m3.
Proof. intros [] []. split; congruence. Qed.

(** Filling a whole table. *)
Definition fill_table (t : Z) (f : Z -> Z) (m : memory) : memory :=
  for_range 0 512 (fun j m => set_PTE t j (f j) m) m.

Lemma fill_table_spec t f m :
  aligned t ->
  same_state m (fill_table t f m) /\
  (forall t' i', aligned t' -> slot i' ->
     PTE (fill_table t f m) t' i' = if decide (t = t') then f i' else PTE m t' i').
Proof.
  intros Ht. unfold fill_table.
  pose proof (for_range_ind (fun n m' => same_state m m' /\ forall t' i', aligned t' -> slot i' ->
    PTE m' t' i' = if decide (t = t' /\ i' < n) then f i' else PTE m t' i') 0 512
    (fun j m => set_PTE t j (f j) m) m) as H. cbv beta in H.
  destruct H as [Hs H].
  - lia.
  - split; [apply same_state_refl|]. intros t' i' _ Hi. unfold slot in Hi. rewrite decide_False; [done|lia].
  - intros n m' Hn [Hs IH]. split; [eapply same_state_trans; [done|apply same_state_set_PTE]|].
    intros t' i' Ht' Hi'. rewrite PTE_set_PTE by (done || unfold slot; lia). rewrite IH by done.
    repeat case_decide; naive_solver lia.
  - split; [done|]. intros t' i' Ht' Hi'. rewrite H by done. unfold slot in Hi'.
    repeat case_decide; naive_solver lia.
Qed.

(** ** Available huge pages *)

Section rank.
Variable map : arr bool.

Definition avail (i : Z) : Prop := aget map i = true.

#[export] Instance avail_dec i : Decision (avail i).
Proof. unfold avail. apply _. Defined.

(** How many huge pages below [x] are available. *)
Definition rank (x : Z) : Z := Z.of_nat (length (filter avail (seqZ 0 x))).

Lemma rank_0 : rank 0 = 0.
Proof. done. Qed.

Lemma rank_succ x : 0 <= x -> rank (x + 1) = rank x + if decide (avail x) then 1 else 0.
Proof.
  intros Hx. unfold rank. rewrite seqZ_succ, filter_app, length_app by done. rewrite Z.add_0_l.
  case_decide as Ha.
  - rewrite filter_cons_True by done. cbn. lia.
  - rewrite filter_cons_False by done. cbn. lia.
Qed.

Lemma rank_nonneg x : 0 <= rank x.
Proof. unfold rank. lia. Qed.

Lemma rank_mono_nat x n : 0 <= x -> rank x <= rank (x + Z.of_nat n) <= rank x + Z.of_nat n.
Proof.
  intros Hx. induction n as [|n IH]; [replace (x + Z.of_nat 0) with x by lia; lia|].
  replace (x + Z.of_nat (S n)) with (x + Z.of_nat n + 1) by lia. rewrite rank_succ by lia.
  case_decide; lia.
Qed.

Lemma rank_mono x y : 0 <= x <= y -> rank x <= rank y <= rank x + (y - x).
Proof.
  intros H. pose proof (rank_mono_nat x (Z.to_nat (y - x)) ltac:(lia)) as Hm.
  replace (x + Z.of_nat (Z.to_nat (y - x))) with y in Hm by lia. lia.
Qed.

Lemma rank_strict x y : 0 <= x < y -> avail x -> rank x < rank y.
Proof.
  intros H Ha. pose proof (rank_mono (x + 1) y ltac:(lia)). rewrite rank_succ in H0 by lia.
  rewrite decide_True in H0 by done. lia.
Qed.

(** The first available page at or after [x]. *)
Lemma first_avail x n : 0 <= x -> rank x < rank (x + Z.of_nat n) ->
  exists y, x <= y < x + Z.of_nat n /\ avail y /\ rank y = rank x /\ forall z, x <= z < y -> ~ avail z.
Proof.
  revert x. induction n as [|n IH]; intros x Hx Hr; [replace (x + Z.of_nat 0) with x in Hr by lia; lia|].
  destruct (decide (avail x)) as [Ha|Ha]; [exists x; split_and!; lia || done|].
  assert (rank (x + 1) = rank x) as E by (rewrite rank_succ, decide_False by done; lia).
  destruct (IH (x + 1)) as (y & Hy & Hya & Hyr & Hn); [lia| |].
  { rewrite E. by replace (x + 1 + Z.of_nat n) with (x + Z.of_nat (S n)) by lia. }
  exists y. split_and!; try done; try lia. intros z Hz. destruct (decide (z = x)) as [->|]; [done|].
  apply Hn. lia.
Qed.

Lemma rank_skip x y : 0 <= x <= y -> (forall z, x <= z < y -> ~ avail z) -> rank y = rank x.
Proof.
  intros H Hn. destruct (Z.eq_dec (rank x) (rank y)) as [->|Hne]; [done|].
  pose proof (rank_mono x y H). destruct (first_avail x (Z.to_nat (y - x))) as (z & Hz & Ha & _); [lia| |].
  - replace (x + Z.of_nat (Z.to_nat (y - x))) with y by lia. lia.
  - exfalso. apply (Hn z); [lia|done].
Qed.

(** ** The search loop of the allocator *)

Lemma page_number x o : 0 <= o < HUGE_PAGE_SIZE -> (x * HUGE_PAGE_SIZE + o) / HUGE_PAGE_SIZE = x.
Proof. unfold HUGE_PAGE_SIZE. intros. dlia. Qed.

Lemma next_available_sound fuel x o r :
  0 <= x -> 0 <= o < HUGE_PAGE_SIZE -> next_available fuel map (x * HUGE_PAGE_SIZE + o) = Some r ->
  exists y, x <= y /\ r = y * HUGE_PAGE_SIZE + o /\ avail y /\ rank y = rank x.
Proof.
  revert x. induction fuel as [|fuel IH]; intros x Hx Ho; cbn [next_available];
    rewrite page_number by done; destruct (aread map x) as [b|] eqn:Hr; cbn [mbind option_bind]; try done.
  - apply aread_Some in Hr as [Hb Hg]. destruct b; [|done]. intros [= <-]. by exists x.
  - apply aread_Some in Hr as [Hb Hg]. destruct b; [intros [= <-]; by exists x|].
    replace (x * HUGE_PAGE_SIZE + o + HUGE_PAGE_SIZE) with ((x + 1) * HUGE_PAGE_SIZE + o) by lia.
    intros Hn. destruct (IH (x + 1) ltac:(lia) Ho Hn) as (y & Hy & -> & Ha & Hrk). exists y.
    split_and!; try done; [lia|]. rewrite Hrk, rank_succ by done. rewrite decide_False; [lia|].
    unfold avail. congruence.
Qed.

Lemma next_available_complete fuel x y o :
  0 <= x <= y -> y < alen map -> y - x <= Z.of_nat fuel -> 0 <= o < HUGE_PAGE_SIZE ->
  avail y -> (forall z, x <= z < y -> ~ avail z) ->
  next_available fuel map (x * HUGE_PAGE_SIZE + o) = Some (y * HUGE_PAGE_SIZE + o).
Proof.
  revert x. induction fuel as [|fuel IH]; intros x Hx Hy Hf Ho Ha Hn; cbn [next_available];
    rewrite page_number by done; rewrite aread_ok by lia; cbn [mbind option_bind].
  - replace x with y by lia. by rewrite Ha.
  - destruct (decide (x = y)) as [->|Hne]; [by rewrite Ha|].
    assert (aget map x = false) as -> by (apply not_true_is_false, (Hn x); lia).
    replace (x * HUGE_PAGE_SIZE + o + HUGE_PAGE_SIZE) with ((x + 1) * HUGE_PAGE_SIZE + o) by lia.
    apply IH; try done; try lia. intros z Hz. apply Hn. lia.
Qed.

(** ** The break *)

Lemma find_table_break_spec n i cur size r :
  0 <= i -> cur = rank i * HUGE_PAGE_SIZE -> i + Z.of_nat n <= alen map -> cur < size ->
  find_table_break n i cur size map = Some r ->
  match r with
  | Some b => exists y, i <= y < i + Z.of_nat n /\ b = (y + 1) * HUGE_PAGE_SIZE /\ avail y /\
      size <= rank (y + 1) * HUGE_PAGE_SIZE < size + HUGE_PAGE_SIZE
  | None => rank (i + Z.of_nat n) * HUGE_PAGE_SIZE < size
  end.
Proof.
  revert i cur r. induction n as [|n IH]; intros i cur r Hi Hc Hl Hs; cbn [find_table_break].
  - intros [= <-]. replace (i + Z.of_nat 0) with i by lia. lia.
  - rewrite aread_ok by lia. cbn [mbind option_bind]. pose proof (rank_succ i Hi) as Hr.
    destruct (decide (avail i)) as [Ha|Ha]; [rewrite Ha|rewrite (not_true_is_false _ Ha)]; cbn [negb].
    + case_if.
      * intros [= <-]. exists i. rewrite Hr. unfold HUGE_PAGE_SIZE in *. split; [lia|]. split; [lia|]. split; [done|lia].
      * intros Hf. apply IH in Hf; [|lia|lia|lia|lia].
        replace (i + Z.of_nat (S n)) with (i + 1 + Z.of_nat n) by lia.
        destruct r; [|done]. destruct Hf as (y & ? & ?). exists y. split; [lia|done].
    + intros Hf. apply IH in Hf; [|lia|lia|lia|lia].
      replace (i + Z.of_nat (S n)) with (i + 1 + Z.of_nat n) by lia.
      destruct r; [|done]. destruct Hf as (y & ? & ?). exists y. split; [lia|done].
Qed.

Lemma find_table_break_total n i cur size :
  0 <= i -> i + Z.of_nat n <= alen map -> exists r, find_table_break n i cur size map = Some r.
Proof.
  revert i cur. induction n as [|n IH]; intros i cur Hi Hl; cbn [find_table_break]; [by eexists|].
  rewrite aread_ok by lia. cbn [mbind option_bind]. repeat case_if; try (by eexists); apply IH; lia.
Qed.
End rank.
