(* ===== verification/MemoryTables.v ===== *)
(** * Page tables: what initialisation builds

    A ghost map assigns every allocated table its node in the tree; the
    invariant of the two mapping loops says what the entries of every node are.
    Each turn either has the tables it needs, or fails in the allocator. *)

From S2P Require Import Prelude Utils Memory MemoryProofs.

(** ** The allocator as a counter *)

(** [j] tables were handed out; those below huge page [b] may be. *)
Record alloc_inv (m : memory) (b j : Z) : Prop := {
  ai_len : alen (huge_page_map m) = MAX_N_HUGE_PAGES;
  ai_b : 0 <= b <= MAX_N_HUGE_PAGES;
  ai_break : page_table_break m = b * HUGE_PAGE_SIZE;
  ai_pos : exists x o, next_page_table_address m = x * HUGE_PAGE_SIZE + o * PAGE_SIZE /\
    0 <= o < 512 /\ 8 <= x /\ j = 512 * rank (huge_page_map m) x + o /\
    (0 < o -> avail (huge_page_map m) x)
}.

(** All fields but the memory and the next table. *)
Record same_frame (m m' : memory) : Prop := {
  sf_map : huge_page_map m' = huge_page_map m;
  sf_n : n_huge_pages m' = n_huge_pages m;
  sf_tbreak : page_table_break m' = page_table_break m;
  sf_vbreak : vaddr_break m' = vaddr_break m;
  sf_cr3 : cr3 m' = cr3 m
}.

Lemma same_frame_refl m : same_frame m m.
Proof. by split. Qed.

Lemma same_frame_trans m1 m2 m3 : same_frame m1 m2 -> same_frame m2 m3 -> same_frame m1 m3.
Proof. intros [] []. split; congruence. Qed.

Lemma same_state_frame m m' : same_state m m' -> same_frame m m'.
Proof. intros []. by split. Qed.

Lemma alloc_inv_state m m' b j : same_state m m' -> alloc_inv m b j -> alloc_inv m' b j.
Proof.
  intros [Em _ En Et _ _] [Hl Hb Hbr (x & o & Hp)]. split; rewrite ?Em, ?En, ?Et; try done.
  exists x, o. exact Hp.
Qed.

Lemma table_page_aligned y o : 0 <= y < MAX_N_HUGE_PAGES -> 0 <= o < 512 -> aligned (y * HUGE_PAGE_SIZE + o * PAGE_SIZE).
Proof.
  unfold aligned. change MAX_N_HUGE_PAGES with 261632. change HUGE_PAGE_SIZE with 2097152.
  change PAGE_SIZE with 4096. change (2 ^ 52) with 4503599627370496. intros. split; [dlia|lia].
Qed.

Lemma alloc_ok m b j :
  alloc_inv m b j -> j < 512 * rank (huge_page_map m) b ->
  exists t m', page_table_alloc_zeroed m = Some (t, m') /\ alloc_inv m' b (j + 1) /\
    next_page_table_address m <= t /\ next_page_table_address m' = t + PAGE_SIZE /\
    0 < t /\ t + PAGE_SIZE <= page_table_break m /\ aligned t /\ same_frame m m' /\
    (forall t' i, aligned t' -> slot i -> PTE m' t' i = if decide (t = t') then 0 else PTE m t' i).
Proof.
  intros [Hl Hb Hbr (x & o & Hnext & Ho & Hx & Hj & Ha)] Hlt.
  pose proof (rank_nonneg (huge_page_map m) x) as Hr0.
  assert (exists y, x <= y < b /\ avail (huge_page_map m) y /\
    rank (huge_page_map m) y = rank (huge_page_map m) x /\ (0 < o -> y = x) /\
    forall z, x <= z < y -> ~ avail (huge_page_map m) z) as (y & Hy & Hya & Hyr & Hyo & Hyn).
  { assert (x < b) as Hxb.
    { destruct (Z.lt_ge_cases x b); [done|]. pose proof (rank_mono (huge_page_map m) b x ltac:(lia)). lia. }
    destruct (Z.eq_dec o 0) as [->|].
    - destruct (first_avail (huge_page_map m) x (Z.to_nat (b - x))) as (y & ? & ? & ? & ?); [lia| |].
      + replace (x + Z.of_nat (Z.to_nat (b - x))) with b by lia. lia.
      + exists y. split_and!; try done; lia.
    - exists x. split_and!; try done; try lia. apply Ha. lia. }
  set (t := y * HUGE_PAGE_SIZE + o * PAGE_SIZE).
  assert (aligned t) as Hta by (apply table_page_aligned; lia).
  unfold page_table_alloc_zeroed, page_table_alloc. rewrite Hnext.
  assert (0 <= o * PAGE_SIZE < HUGE_PAGE_SIZE) as Hof by (unfold PAGE_SIZE, HUGE_PAGE_SIZE; lia).
  rewrite (next_available_complete _ _ x y); [|lia|lia|change MAX_N_HUGE_PAGES with 261632 in *; lia|done|done|done].
  cbn [mbind option_bind]. rewrite (proj2 (Z.leb_le _ _)).
  2: { rewrite Hbr. unfold PAGE_SIZE, HUGE_PAGE_SIZE in *. lia. }
  fold t. cbn [mbind option_bind]. eexists _, _. split; [done|].
  split_and!; try done.
  - split; try done. cbn [next_page_table_address set_next_table set_phys huge_page_map].
    destruct (Z.eq_dec o 511) as [->|].
    + exists (y + 1), 0. rewrite rank_succ, decide_True by (done || lia).
      unfold t, PAGE_SIZE, HUGE_PAGE_SIZE. split_and!; lia.
    + exists y, (o + 1). unfold t, PAGE_SIZE, HUGE_PAGE_SIZE. split_and!; try lia. done.
  - unfold t. unfold HUGE_PAGE_SIZE. lia.
  - unfold t, PAGE_SIZE, HUGE_PAGE_SIZE. lia.
  - rewrite Hbr. unfold t, PAGE_SIZE, HUGE_PAGE_SIZE. lia.
  - intros t' i Ht' Hi. rewrite (PTE_zero_page (set_next_table (t + PAGE_SIZE) m)) by done. done.
Qed.

Lemma alloc_fails m b j :
  alloc_inv m b j -> 512 * rank (huge_page_map m) b <= j -> page_table_alloc_zeroed m = None.
Proof.
  intros [Hl Hb Hbr (x & o & Hnext & Ho & Hx & Hj & Ha)] Hge.
  unfold page_table_alloc_zeroed, page_table_alloc. rewrite Hnext.
  assert (0 <= o * PAGE_SIZE < HUGE_PAGE_SIZE) as Hof by (unfold PAGE_SIZE, HUGE_PAGE_SIZE; lia).
  destruct (next_available _ _ _) as [r|] eqn:En; [|done]. cbn [mbind option_bind].
  apply next_available_sound in En as (y & Hy & -> & Hya & Hyr); [|lia|done].
  assert (b <= y) as Hby.
  { destruct (Z.lt_ge_cases y b); [|done]. pose proof (rank_strict (huge_page_map m) y b ltac:(lia) Hya). lia. }
  rewrite (proj2 (Z.leb_gt _ _)); [done|]. rewrite Hbr. unfold PAGE_SIZE, HUGE_PAGE_SIZE in *. lia.
Qed.

(** ** The tree of tables *)

Inductive node := NP4 | NP3h | NP3 | NP2 (g : Z) | NP1 (q : Z).

Record tabs (own : gmap Z node) (m : memory) (b j : Z) : Prop := {
  tb_alloc : alloc_inv m b j;
  tb_own T nd : own !! T = Some nd ->
    aligned T /\ 0 < T < next_page_table_address m /\ T + PAGE_SIZE <= page_table_break m
}.

Lemma own_aligned own m b j T nd : tabs own m b j -> own !! T = Some nd -> aligned T.
Proof. intros Ht HT. by apply (tb_own _ _ _ _ Ht) in HT as [? _]. Qed.

Lemma tabs_state own m m' b j : same_state m m' -> tabs own m b j -> tabs own m' b j.
Proof.
  intros Hs [Ha Ho]. split; [by eapply alloc_inv_state|]. intros T nd HT. rewrite (ss_next _ _ Hs), (ss_tbreak _ _ Hs). eauto.
Qed.

(** A new table is disjoint from the tables of the tree. *)
Lemma new_table own m b j nd :
  tabs own m b j -> j < 512 * rank (huge_page_map m) b ->
  exists t m', page_table_alloc_zeroed m = Some (t, m') /\ own !! t = None /\
    tabs (<[t := nd]> own) m' b (j + 1) /\ aligned t /\ same_frame m m' /\
    (forall i, slot i -> PTE m' t i = 0) /\
    (forall T nd i, own !! T = Some nd -> slot i -> PTE m' T i = PTE m T i).
Proof.
  intros [Ha Ho] Hj. destruct (alloc_ok m b j Ha Hj) as (t & m' & -> & Ha' & Hle & Hn & H0 & Hbk & Hal & Hs & HP).
  assert (own !! t = None) as Hnone.
  { destruct (own !! t) eqn:E; [|done]. apply Ho in E as [_ ?]. lia. }
  exists t, m'. split_and!; try done.
  - split; [done|]. intros T nd'. rewrite lookup_insert. unfold PAGE_SIZE in Hn. case_decide as E.
    + subst T. intros _. rewrite (sf_tbreak _ _ Hs). split; [done|]. lia.
    + intros HT. apply Ho in HT as [? ?]. rewrite (sf_tbreak _ _ Hs). split; [done|]. lia.
  - intros i Hi. rewrite HP by done. by rewrite decide_True.
  - intros T nd' i HT Hi. pose proof (Ho _ _ HT) as [? _]. rewrite HP by done. rewrite decide_False; [done|].
    intros ->. congruence.
Qed.

Lemma PTE_set_own own m b j T nd i v T' nd' i' :
  tabs own m b j -> own !! T = Some nd -> own !! T' = Some nd' -> slot i -> slot i' ->
  PTE (set_PTE T i v m) T' i' = if decide (T = T' /\ i = i') then v else PTE m T' i'.
Proof. intros Ht H H' Hi Hi'. apply PTE_set_PTE; try done; by eapply own_aligned. Qed.

(** The node of every table determines it enough to tell tables apart. *)
Lemma own_ne (own : gmap Z node) T T' nd nd' :
  own !! T = Some nd -> own !! T' = Some nd' -> nd <> nd' -> T <> T'.
Proof. intros H H' Hn ->. congruence. Qed.

(** ** What the mapping loops build *)

(** The [r]-th available huge page. *)
Definition page_of (map : arr bool) (r : Z) : Z :=
  default 0 (filter (avail map) (seqZ 0 MAX_N_HUGE_PAGES) !! Z.to_nat r).

Lemma page_of_rank map i : 0 <= i < MAX_N_HUGE_PAGES -> avail map i -> page_of map (rank map i) = i.
Proof.
  intros Hi Ha. unfold page_of, rank.
  replace (seqZ 0 MAX_N_HUGE_PAGES) with (seqZ 0 i ++ i :: seqZ (i + 1) (MAX_N_HUGE_PAGES - i - 1)).
  - rewrite filter_app, filter_cons_True by done. rewrite Nat2Z.id, list_lookup_middle by done. done.
  - replace (i :: seqZ (i + 1) (MAX_N_HUGE_PAGES - i - 1)) with (seqZ i (MAX_N_HUGE_PAGES - i)).
    2: { rewrite seqZ_cons by lia. f_equal. }
    replace MAX_N_HUGE_PAGES with (i + (MAX_N_HUGE_PAGES - i)) at 2 by lia.
    rewrite seqZ_app by lia. by rewrite Z.add_0_l.
Qed.

Definition p1_entry (map : arr bool) (b q i : Z) : Z :=
  if q <? 8 then q * HUGE_PAGE_SIZE + i * PAGE_SIZE + 99
  else page_of map (rank map b + q - 8) * HUGE_PAGE_SIZE + i * PAGE_SIZE + 611.

Definition p2_flags (q : Z) : Z := if q <? 8 then 99 else 103.

(** The walk to the first level table of virtual huge page [q]. *)
Definition reaches (own : gmap Z node) (m : memory) (P3 q T1 : Z) : Prop :=
  exists T2, own !! T2 = Some (NP2 (q / 512)) /\ PTE m P3 (q / 512) = T2 + 103 /\
    own !! T1 = Some (NP1 q) /\ PTE m T2 (q mod 512) = T1 + p2_flags q.

(** The tree with second level tables for the first [G] GiB after the virtual
    huge pages below [q] were mapped. *)
Record tree (own : gmap Z node) (b P4 P3h P3 G q j : Z) (m : memory) : Prop := {
  tr_tabs : tabs own m b j;
  tr_P4 : own !! P4 = Some NP4;
  tr_P3h : own !! P3h = Some NP3h;
  tr_P3 : own !! P3 = Some NP3;
  tr_e511 : PTE m P4 511 = P4 + 99;
  tr_e510 : PTE m P4 510 = P3h + 99;
  tr_e0 : PTE m P4 0 = P3 + 103;
  tr_other i : slot i -> i <> 0 -> i <> 510 -> i <> 511 -> PTE m P4 i = 0;
  tr_high i : slot i -> PTE m P3h i = i * P3_PAGE_SIZE + 227;
  tr_g g : slot g -> g < G -> exists T2, own !! T2 = Some (NP2 g) /\ PTE m P3 g = T2 + 103;
  tr_g0 g : slot g -> G <= g -> PTE m P3 g = 0;
  tr_z T2 g i : own !! T2 = Some (NP2 g) -> slot i -> q <= 512 * g + i -> PTE m T2 i = 0;
  tr_q q' : 0 <= q' < q -> exists T1, reaches own m P3 q' T1;
  tr_f q' T1 i : own !! T1 = Some (NP1 q') -> slot i ->
    PTE m T1 i = p1_entry (huge_page_map m) b q' i
}.

Lemma kernel_flags_99 : kernel_flags = 99. Proof. done. Qed.
Lemma user_table_flags_103 : user_table_flags = 103. Proof. done. Qed.

Lemma not64_ldiff x y : is_uint 64 x -> Z.land x (not64 y) = Z.ldiff x y.
Proof.
  intros Hx. unfold not64, is_uint in *. apply Z.bits_inj'. intros i Hi.
  rewrite Z.land_spec, Z.lxor_spec, Z.ldiff_spec. change (2 ^ 64 - 1) with (Z.ones 64).
  destruct (Z.ltb_spec i 64).
  - rewrite Z.ones_spec_low by lia. by rewrite xorb_true_r.
  - rewrite <- (Z.mod_small x (2 ^ 64)) by done. by rewrite Z.mod_pow2_bits_high by lia.
Qed.

(** Clearing flags of an entry leaves the frame. *)
Lemma ldiff_entry t fl y :
  aligned t -> 0 <= fl < 4096 -> 0 <= y < 4096 -> Z.ldiff (t + fl) y = t + Z.ldiff fl y.
Proof.
  intros Ht Hf Hy.
  assert (0 <= Z.ldiff fl y < 4096) as Hd.
  { replace (Z.ldiff fl y) with (Z.ldiff fl y mod 2 ^ 12); [by apply Z.mod_pos_bound|].
    apply Z.bits_inj'. intros i Hi. destruct (Z.ltb_spec i 12); [by rewrite Z.mod_pow2_bits_low by lia|].
    rewrite Z.mod_pow2_bits_high, Z.ldiff_spec by lia. rewrite <- (Z.mod_small fl (2 ^ 12)) by done.
    by rewrite Z.mod_pow2_bits_high by lia. }
  rewrite <- !lor_flags by done. apply Z.bits_inj'. intros i Hi. rewrite !Z.ldiff_spec, !Z.lor_spec, Z.ldiff_spec.
  destruct (Z.ltb_spec i 12).
  - destruct Ht as [Ht _]. rewrite <- (Z.mod_pow2_bits_low t 12) by lia. change (2 ^ 12) with 4096.
    by rewrite Ht, Z.bits_0.
  - replace (Z.testbit y i) with false; [by rewrite !andb_true_r|].
    rewrite <- (Z.mod_small y (2 ^ 12)) by done. by rewrite Z.mod_pow2_bits_high by lia.
Qed.

Lemma user_page_entry_spec p : aligned p -> user_page_entry p = p + 611.
Proof.
  intros Hp. unfold user_page_entry. rewrite user_table_flags_103, (lor_flags p 103) by done.
  rewrite not64_ldiff, ldiff_entry by (done || (destruct Hp; unfold is_uint; lia)).
  change (Z.ldiff 103 PTE_USER) with 99. rewrite <- (lor_flags p 99) by done.
  rewrite <- Z.lor_assoc. change (Z.lor 99 PTE_DUCK_WRITTEN) with 611. by apply lor_flags.
Qed.

(** ** Creating tables *)

Lemma create_new own m b j T nd i nd_new fl :
  tabs own m b j -> own !! T = Some nd -> slot i -> PTE m T i = 0 -> 0 <= fl < 4096 ->
  j < 512 * rank (huge_page_map m) b ->
  exists t m', PTE_create T i fl m = Some (t + fl, m') /\
    (exists m0, page_table_alloc_zeroed m = Some (t, m0) /\ m' = set_PTE T i (t + fl) m0) /\
    own !! t = None /\
    tabs (<[t := nd_new]> own) m' b (j + 1) /\ aligned t /\ same_frame m m' /\
    (forall i', slot i' -> PTE m' t i' = 0) /\
    (forall T' nd' i', own !! T' = Some nd' -> slot i' ->
       PTE m' T' i' = if decide (T = T' /\ i = i') then t + fl else PTE m T' i').
Proof.
  intros Ht HT Hi H0 Hf Hj.
  destruct (new_table own m b j nd_new Ht Hj) as (t & m' & Ea & Hn & Ht' & Hal & Hs & Hz & Hk).
  pose proof (own_aligned _ _ _ _ _ _ Ht HT) as HTa.
  assert (t <> T) as Hne by congruence.
  unfold PTE_create. rewrite H0. cbn [Z.eqb]. rewrite Ea. cbn [mbind option_bind].
  rewrite lor_flags by done. exists t, (set_PTE T i (t + fl) m').
  split_and!; try done.
  - by exists m'.
  - eapply tabs_state; [apply same_state_set_PTE|done].
  - eapply same_frame_trans; [done|]. apply same_state_frame, same_state_set_PTE.
  - intros i' Hi'. rewrite PTE_set_PTE by done. rewrite decide_False by naive_solver. by apply Hz.
  - intros T' nd' i' HT' Hi'. pose proof (own_aligned _ _ _ _ _ _ Ht HT').
    rewrite PTE_set_PTE by done. case_decide; [done|]. by eapply Hk.
Qed.

Lemma create_fails own m b j T i fl :
  tabs own m b j -> PTE m T i = 0 -> 512 * rank (huge_page_map m) b <= j -> PTE_create T i fl m = None.
Proof.
  intros Ht H0 Hj. unfold PTE_create. rewrite H0. cbn [Z.eqb].
  by rewrite (alloc_fails m b j (tb_alloc _ _ _ _ Ht) Hj).
Qed.

Lemma create_old m T i fl : PTE m T i <> 0 -> PTE_create T i fl m = Some (PTE m T i, m).
Proof. intros H. unfold PTE_create. by rewrite (proj2 (Z.eqb_neq _ _)) by done. Qed.

Lemma reaches_keep own own' m m' P3 q T1 t :
  own !! P3 = Some NP3 -> own !! t = None ->
  (forall T nd, own !! T = Some nd -> own' !! T = Some nd) ->
  (forall T nd i, own !! T = Some nd -> slot i -> PTE m T i <> 0 -> PTE m' T i = PTE m T i) ->
  (forall T nd, own !! T = Some nd -> 0 < T) -> slot (q / 512) ->
  reaches own m P3 q T1 -> reaches own' m' P3 q T1.
Proof.
  intros HP3 Ht Hown Hk Hpos Hs (T2 & H2 & E3 & H1 & E2). exists T2.
  pose proof (Hpos _ _ H2). pose proof (Hpos _ _ H1).
  split_and!; eauto.
  - rewrite (Hk _ _ _ HP3 Hs); [done|]. lia.
  - rewrite (Hk _ _ _ H2 (slot_mod _)); [done|]. rewrite E2. unfold p2_flags. destruct (q <? 8); lia.
Qed.

(** Adding the second level table of the next GiB. *)
Lemma add_p2 own b P4 P3h P3 G q j m :
  tree own b P4 P3h P3 G q j m -> 0 <= G < 512 -> q <= 512 * G ->
  j < 512 * rank (huge_page_map m) b ->
  exists t m', PTE_create P3 G 103 m = Some (t + 103, m') /\ same_frame m m' /\ aligned t /\
    own !! t = None /\ tree (<[t := NP2 G]> own) b P4 P3h P3 (G + 1) q (j + 1) m'.
Proof.
  intros Hr HG Hq Hj. destruct Hr as [Ht HP4 HP3h HP3 E511 E510 E0 Eo Hh Hg Hg0 Hz Hqs Hf].
  destruct (create_new own m b j P3 NP3 G (NP2 G) 103 Ht HP3) as (t & m' & -> & _ & Hn & Ht' & Hal & Hs & Hz' & Hk);
    [unfold slot; lia|by apply Hg0; unfold slot; lia|lia|done|].
  assert (slot G) as HGs by (unfold slot; lia).
  exists t, m'. split_and!; try done.
  assert (forall T nd, own !! T = Some nd -> <[t:=NP2 G]> own !! T = Some nd) as Hown.
  { intros T nd HT. rewrite lookup_insert_ne; [done|]. congruence. }
  assert (forall T nd i, own !! T = Some nd -> nd <> NP3 -> slot i -> PTE m' T i = PTE m T i) as Hk'.
  { intros T nd i HT Hnd Hi. rewrite (Hk T nd i) by done. rewrite decide_False; [done|].
    intros [<- _]. congruence. }
  split; eauto.
  - by rewrite (Hk' _ _ _ HP4).
  - by rewrite (Hk' _ _ _ HP4).
  - by rewrite (Hk' _ _ _ HP4).
  - intros i Hi ? ? ?. rewrite (Hk' _ _ _ HP4) by done. by apply Eo.
  - intros i Hi. rewrite (Hk' _ _ _ HP3h) by done. by apply Hh.
  - intros g Hgs Hlt. destruct (decide (g = G)) as [->|].
    + exists t. rewrite lookup_insert_eq. split; [done|]. rewrite (Hk _ _ _ HP3) by done. by rewrite decide_True.
    + destruct (Hg g Hgs) as (T2 & H2 & E); [lia|]. exists T2. split; [eauto|].
      rewrite (Hk _ _ _ HP3) by done. rewrite decide_False by naive_solver. done.
  - intros g Hgs Hle. rewrite (Hk _ _ _ HP3) by done. rewrite decide_False by lia. apply Hg0; [done|lia].
  - intros T2 g i. rewrite lookup_insert. case_decide as E.
    + subst T2. intros _ Hi _. by apply Hz'.
    + intros H2 Hi Hle. rewrite (Hk' _ _ _ H2) by done. by eapply Hz.
  - intros q' Hq'. destruct (Hqs q' Hq') as (T1 & H1). exists T1.
    eapply (reaches_keep own _ m m' P3 q' T1 t); eauto.
    + intros T nd i HT Hi Hne. rewrite (Hk T nd i) by done. case_decide as E; [|done].
      destruct E as [<- <-]. exfalso. apply Hne, Hg0; [done|lia].
    + intros T nd HT. apply (tb_own _ _ _ _ Ht) in HT. lia.
    + unfold slot. dlia.
  - intros q' T1 i. rewrite lookup_insert. case_decide; [done|]. intros H1 Hi.
    rewrite (Hk' _ _ _ H1) by done. rewrite (sf_map _ _ Hs). by eapply Hf.
Qed.

(** Mapping the next virtual huge page. *)
Lemma add_p1 own b P4 P3h P3 G q j m T2 :
  tree own b P4 P3h P3 G q j m -> 0 <= q < 512 * G -> G <= 512 ->
  own !! T2 = Some (NP2 (q / 512)) -> PTE m P3 (q / 512) = T2 + 103 ->
  j < 512 * rank (huge_page_map m) b ->
  exists t m', PTE_create T2 (q mod 512) (p2_flags q) m = Some (t + p2_flags q, m') /\
    (exists m0, page_table_alloc_zeroed m = Some (t, m0) /\ m' = set_PTE T2 (q mod 512) (t + p2_flags q) m0) /\
    same_frame m m' /\ aligned t /\ own !! t = None /\
    PTE (fill_table t (p1_entry (huge_page_map m) b q) m') P3 (q / 512) = T2 + 103 /\
    tree (<[t := NP1 q]> own) b P4 P3h P3 G (q + 1) (j + 1)
      (fill_table t (p1_entry (huge_page_map m) b q) m').
Proof.
  intros Hr Hq HG H2 E3 Hj. destruct Hr as [Ht HP4 HP3h HP3 E511 E510 E0 Eo Hh Hg Hg0 Hz Hqs Hf].
  assert (0 < p2_flags q < 4096) as Hfl by (unfold p2_flags; case_if; lia).
  destruct (create_new own m b j T2 _ (q mod 512) (NP1 q) (p2_flags q) Ht H2)
    as (t & m1 & -> & Hal0 & Hn & Ht' & Hal & Hs & Hz' & Hk); [apply slot_mod| |lia|done|].
  { eapply Hz; [done|apply slot_mod|]. dlia. }
  exists t, m1. split; [done|]. split; [done|]. split; [done|]. split; [done|]. split; [done|].
  destruct (fill_table_spec t (p1_entry (huge_page_map m) b q) m1 Hal) as [Hs2 HF].
  set (mF := fill_table t (p1_entry (huge_page_map m) b q) m1) in *.
  assert (huge_page_map mF = huge_page_map m) as EM by (rewrite (ss_map _ _ Hs2); apply (sf_map _ _ Hs)).
  assert (forall T nd, own !! T = Some nd -> <[t := NP1 q]> own !! T = Some nd) as Hown.
  { intros T nd HT. rewrite lookup_insert_ne; [done|]. congruence. }
  assert (forall T nd i, own !! T = Some nd -> slot i ->
    PTE mF T i = if decide (T2 = T /\ q mod 512 = i) then t + p2_flags q else PTE m T i) as HK.
  { intros T nd i HT Hi. pose proof (own_aligned _ _ _ _ _ _ Ht HT). rewrite HF by done. rewrite decide_False by congruence.
    by eapply Hk. }
  assert (forall T nd i, own !! T = Some nd -> nd <> NP2 (q / 512) -> slot i -> PTE mF T i = PTE m T i) as HK'.
  { intros T nd i HT Hnd Hi. rewrite (HK T nd i) by done. rewrite decide_False; [done|].
    intros [<- _]. congruence. }
  assert (forall T nd, own !! T = Some nd -> 0 < T) as Hpos.
  { intros T nd HT. apply (tb_own _ _ _ _ Ht) in HT. lia. }
  split; [rewrite (HK' _ _ _ HP3); [done..|]; unfold slot; dlia|].
  split; eauto.
  - by eapply tabs_state.
  - by rewrite (HK' _ _ _ HP4).
  - by rewrite (HK' _ _ _ HP4).
  - by rewrite (HK' _ _ _ HP4).
  - intros i Hi ? ? ?. rewrite (HK' _ _ _ HP4) by done. by apply Eo.
  - intros i Hi. rewrite (HK' _ _ _ HP3h) by done. by apply Hh.
  - intros g Hgs Hlt. destruct (Hg g Hgs Hlt) as (T & HT & E). exists T. split; [eauto|].
    by rewrite (HK' _ _ _ HP3).
  - intros g Hgs Hle. rewrite (HK' _ _ _ HP3) by done. by apply Hg0.
  - intros T g i. rewrite lookup_insert. case_decide; [done|]. intros HT Hi Hle.
    rewrite (HK _ _ _ HT) by done. rewrite decide_False; [eapply Hz; [done..|lia]|].
    intros [<- <-]. assert (g = q / 512) as -> by congruence. dlia.
  - intros q' Hq'. destruct (decide (q' = q)) as [->|].
    + exists t, T2. rewrite lookup_insert_eq. split_and!; eauto.
      * rewrite (HK' _ _ _ HP3); [done..|]. unfold slot. dlia.
      * rewrite (HK _ _ _ H2) by apply slot_mod. by rewrite decide_True.
    + destruct (Hqs q') as (T1 & H1); [lia|]. exists T1.
      eapply (reaches_keep own _ m mF P3 q' T1 t); eauto; [|unfold slot; dlia].
      intros T nd i HT Hi Hne. rewrite (HK T nd i) by done. case_decide as E; [|done].
      destruct E as [<- <-]. exfalso. apply Hne. eapply Hz; [done|done|]. dlia.
  - intros q' T1 i. rewrite EM, lookup_insert. case_decide as E.
    + subst T1. intros [= <-] Hi. rewrite HF by done. by rewrite decide_True.
    + intros H1 Hi. rewrite (HK' _ _ _ H1) by done. by eapply Hf.
Qed.

(** ** The kernel part *)

Lemma fill_table_ext t f g m : (forall j, slot j -> f j = g j) -> fill_table t f m = fill_table t g m.
Proof. intros H. unfold fill_table. apply for_range_ext. intros i s Hi. by rewrite H. Qed.

(** The four first tables. *)
Definition own4 (P4 P3h P3 P2 : Z) : gmap Z node :=
  <[P2 := NP2 0]> (<[P3 := NP3]> (<[P3h := NP3h]> (<[P4 := NP4]> ∅))).

Lemma four_tables m b :
  alloc_inv m b 0 -> 4 <= 512 * rank (huge_page_map m) b ->
  exists P4 m1 P3h m2 P3 m3 P2 m4,
    page_table_alloc_zeroed m = Some (P4, m1) /\ page_table_alloc_zeroed m1 = Some (P3h, m2) /\
    page_table_alloc_zeroed m2 = Some (P3, m3) /\ page_table_alloc_zeroed m3 = Some (P2, m4) /\
    tabs (own4 P4 P3h P3 P2) m4 b 4 /\ same_frame m m4 /\ NoDup [P4; P3h; P3; P2] /\
    (forall T nd i, own4 P4 P3h P3 P2 !! T = Some nd -> slot i -> PTE m4 T i = 0).
Proof.
  intros Ha Hc.
  destruct (new_table ∅ m b 0 NP4) as (P4 & m1 & E1 & N1 & T1 & A1 & S1 & Z1 & K1); [by split|lia|].
  destruct (new_table _ m1 b _ NP3h T1) as (P3h & m2 & E2 & N2 & T2 & A2 & S2 & Z2 & K2);
    [rewrite (sf_map _ _ S1); lia|].
  pose proof (same_frame_trans _ _ _ S1 S2) as S12.
  destruct (new_table _ m2 b _ NP3 T2) as (P3 & m3 & E3 & N3 & T3 & A3 & S3 & Z3 & K3);
    [rewrite (sf_map _ _ S12); lia|].
  pose proof (same_frame_trans _ _ _ S12 S3) as S13.
  destruct (new_table _ m3 b _ (NP2 0) T3) as (P2 & m4 & E4 & N4 & T4 & A4 & S4 & Z4 & K4);
    [rewrite (sf_map _ _ S13); lia|].
  exists P4, m1, P3h, m2, P3, m3, P2, m4.
  rewrite !lookup_insert_None in N4. rewrite !lookup_insert_None in N3. rewrite lookup_insert_None in N2.
  split_and!; try done.
  - by eapply same_frame_trans.
  - clear -N2 N3 N4. destruct_and!. rewrite !NoDup_cons, !not_elem_of_cons.
    split_and!; auto using not_elem_of_nil, NoDup_nil_2.
  - intros T nd i HT Hi. unfold own4 in HT. apply lookup_insert_Some in HT as [[<- _]|[_ HT]]; [by apply Z4|].
    rewrite (K4 _ _ _ HT Hi). apply lookup_insert_Some in HT as [[<- _]|[_ HT]]; [by apply Z3|].
    rewrite (K3 _ _ _ HT Hi). apply lookup_insert_Some in HT as [[<- _]|[_ HT]]; [by apply Z2|].
    rewrite (K2 _ _ _ HT Hi). apply lookup_insert_Some in HT as [[<- _]|[_ HT]]; [by apply Z1|done].
Qed.

(** The entries set before the kernel pages are mapped. *)
Definition set_roots (P4 P3h P3 P2 : Z) (m : memory) : memory :=
  let m := set_PTE P4 511 (P4 + 99) m in
  let m := set_PTE P4 510 (P3h + 99) m in
  let m := fill_table P3h (fun i => i * P3_PAGE_SIZE + 227) m in
  let m := set_PTE P4 0 (P3 + 103) m in
  set_PTE P3 0 (P2 + 103) m.

Lemma roots_tree P4 P3h P3 P2 m b :
  tabs (own4 P4 P3h P3 P2) m b 4 -> NoDup [P4; P3h; P3; P2] ->
  (forall T nd i, own4 P4 P3h P3 P2 !! T = Some nd -> slot i -> PTE m T i = 0) ->
  same_frame m (set_roots P4 P3h P3 P2 m) /\
  tree (own4 P4 P3h P3 P2) b P4 P3h P3 1 0 4 (set_roots P4 P3h P3 P2 m).
Proof.
  intros Ht Hnd Hz.
  assert (P4 <> P3h /\ P4 <> P3 /\ P4 <> P2 /\ P3h <> P3 /\ P3h <> P2 /\ P3 <> P2) as Hne.
  { rewrite !NoDup_cons, !not_elem_of_cons in Hnd. naive_solver. }
  clear Hnd. destruct Hne as (N1 & N2 & N3 & N4 & N5 & N6).
  assert (own4 P4 P3h P3 P2 !! P4 = Some NP4) as O4 by (unfold own4; by simplify_map_eq).
  assert (own4 P4 P3h P3 P2 !! P3h = Some NP3h) as O3h by (unfold own4; by simplify_map_eq).
  assert (own4 P4 P3h P3 P2 !! P3 = Some NP3) as O3 by (unfold own4; by simplify_map_eq).
  assert (own4 P4 P3h P3 P2 !! P2 = Some (NP2 0)) as O2 by (unfold own4; by simplify_map_eq).
  pose proof (own_aligned _ _ _ _ _ _ Ht O4) as A4. pose proof (own_aligned _ _ _ _ _ _ Ht O3h) as A3h.
  pose proof (own_aligned _ _ _ _ _ _ Ht O3) as A3. pose proof (own_aligned _ _ _ _ _ _ Ht O2) as A2.
  assert (same_state m (set_roots P4 P3h P3 P2 m)) as Hs.
  { unfold set_roots. do 2 (eapply same_state_trans; [|apply same_state_set_PTE]).
    eapply same_state_trans; [|by apply fill_table_spec].
    eapply same_state_trans; apply same_state_set_PTE. }
  assert (forall T i, aligned T -> slot i -> PTE (set_roots P4 P3h P3 P2 m) T i =
    if decide (P3 = T /\ 0 = i) then P2 + 103 else if decide (P4 = T /\ 0 = i) then P3 + 103
    else if decide (P3h = T) then i * P3_PAGE_SIZE + 227
    else if decide (P4 = T /\ 510 = i) then P3h + 99 else if decide (P4 = T /\ 511 = i) then P4 + 99
    else PTE m T i) as HP.
  { intros T i HT Hi. unfold set_roots.
    assert (slot 0 /\ slot 510 /\ slot 511) as (? & ? & ?) by (unfold slot; lia).
    rewrite PTE_set_PTE by done. case_decide; [done|]. rewrite PTE_set_PTE by done. case_decide; [done|].
    rewrite (proj2 (fill_table_spec P3h _ _ A3h)) by done. case_decide; [done|].
    rewrite PTE_set_PTE by done. case_decide; [done|]. by rewrite PTE_set_PTE. }
  split; [by apply same_state_frame|].
  assert (forall g T, own4 P4 P3h P3 P2 !! T = Some (NP2 g) -> T = P2 /\ g = 0) as O2'.
  { unfold own4. intros g T HT. repeat (apply lookup_insert_Some in HT as [[? ?]|[? HT]]; [naive_solver|]). done. }
  assert (forall q T, own4 P4 P3h P3 P2 !! T <> Some (NP1 q)) as O1'.
  { unfold own4. intros q T HT. repeat (apply lookup_insert_Some in HT as [[? ?]|[? HT]]; [done|]). done. }
  split; try done.
  - by eapply tabs_state.
  - rewrite HP by (done || unfold slot; lia). repeat (case_decide; [naive_solver|]). naive_solver.
  - rewrite HP by (done || unfold slot; lia). repeat (case_decide; [naive_solver|]). naive_solver.
  - rewrite HP by (done || unfold slot; lia). repeat (case_decide; [naive_solver|]). naive_solver.
  - intros i Hi ? ? ?. rewrite HP by done. repeat (case_decide; [naive_solver|]). by eapply Hz.
  - intros i Hi. rewrite HP by done. repeat (case_decide; [naive_solver|]). naive_solver.
  - intros g Hg Hlt. unfold slot in Hg. assert (g = 0) as -> by lia. exists P2. split; [done|].
    rewrite HP by (done || unfold slot; lia). rewrite decide_True; done.
  - intros g Hg Hle. rewrite HP by done. repeat (case_decide; [lia || naive_solver|]). by eapply Hz.
  - intros T g i HT Hi _. destruct (O2' _ _ HT) as [-> ->]. rewrite HP by done.
    repeat (case_decide; [lia || naive_solver|]). by eapply Hz.
  - intros q' Hq'. lia.
  - intros q' T1 i HT. by destruct (O1' _ _ HT).
Qed.

Lemma p1_entry_kernel map b q i :
  0 <= q < 8 -> slot i -> Z.lor (q * HUGE_PAGE_SIZE + i * PAGE_SIZE) kernel_flags = p1_entry map b q i.
Proof.
  intros Hq Hi. unfold p1_entry. rewrite (proj2 (Z.ltb_lt _ _)) by lia. rewrite kernel_flags_99.
  unfold slot in Hi. rewrite lor_flags; [done| |lia]. apply table_page_aligned; [|lia].
  change MAX_N_HUGE_PAGES with 261632. lia.
Qed.

Lemma map_kernel_page_ok own b P4 P3h P3 P2 q m :
  tree own b P4 P3h P3 1 q (4 + q) m -> 0 <= q < 8 ->
  own !! P2 = Some (NP2 0) -> PTE m P3 0 = P2 + 103 -> 12 <= 512 * rank (huge_page_map m) b ->
  exists m' own', map_kernel_page P2 q m = Some m' /\ same_frame m m' /\
    tree own' b P4 P3h P3 1 (q + 1) (4 + (q + 1)) m' /\ own' !! P2 = Some (NP2 0) /\ PTE m' P3 0 = P2 + 103.
Proof.
  intros Hr Hq H2 E3 Hc. assert (q / 512 = 0 /\ q mod 512 = q) as [Eq Em] by dlia.
  destruct (add_p1 own b P4 P3h P3 1 q (4 + q) m P2)
    as (t & m1 & _ & (m0 & Ea & Em1) & Hs & Hal & Hn & E3' & Hr');
    [done|lia|lia|by rewrite Eq|by rewrite Eq|lia|].
  assert (p2_flags q = 99) as Ef by (unfold p2_flags; by rewrite (proj2 (Z.ltb_lt _ _)) by lia).
  rewrite Ef, Em in Em1. unfold map_kernel_page. rewrite Ea. cbn [mbind option_bind].
  rewrite kernel_flags_99, (lor_flags t 99) by done. rewrite <- Em1. change (PAGE_SIZE / 8) with 512.
  fold (fill_table t (fun j => Z.lor (q * HUGE_PAGE_SIZE + j * PAGE_SIZE) 99) m1).
  rewrite (fill_table_ext t _ (p1_entry (huge_page_map m) b q)).
  2: { intros j Hj. rewrite <- kernel_flags_99. by apply p1_entry_kernel. }
  eexists _, (<[t := NP1 q]> own). split; [done|]. split.
  { eapply same_frame_trans; [done|]. by apply same_state_frame, fill_table_spec. }
  replace (4 + (q + 1)) with (4 + q + 1) by lia. split; [done|].
  split; [by rewrite lookup_insert_ne by congruence|]. by rewrite Eq in E3'.
Qed.

Lemma init_empty_eq m P4 m1 P3h m2 P3 m3 P2 m4 :
  page_table_alloc_zeroed m = Some (P4, m1) -> page_table_alloc_zeroed m1 = Some (P3h, m2) ->
  page_table_alloc_zeroed m2 = Some (P3, m3) -> page_table_alloc_zeroed m3 = Some (P2, m4) ->
  aligned P4 -> aligned P3h -> aligned P3 -> aligned P2 ->
  init_empty_kernel_page_table m =
    (m' ← forM_range 0 8 (map_kernel_page P2) (set_roots P4 P3h P3 P2 m4); Some (P4, m')).
Proof.
  intros E1 E2 E3 E4 A4 A3h A3 A2. unfold init_empty_kernel_page_table, set_roots.
  run_bind E1. run_bind E2. run_bind E3. run_bind E4.
  rewrite <- (lor_flags P4 99), <- (lor_flags P3h 99), <- (lor_flags P3 103), <- (lor_flags P2 103) by done.
  rewrite (fill_table_ext P3h _ (fun i => Z.lor (i * P3_PAGE_SIZE) 227)).
  2: { intros j Hj. symmetry. apply (lor_low _ _ 12); try lia. unfold P3_PAGE_SIZE. rewrite Z.mod_divide by lia.
       exists (j * 2 ^ 18). lia. }
  unfold fill_table. change (Z.lor kernel_flags PTE_USER) with 103. change (Z.lor kernel_flags PTE_HUGE) with 227.
  change kernel_flags with 99. change (PAGE_SIZE / 8) with 512. change (kernel_break / HUGE_PAGE_SIZE) with 8.
  reflexivity.
Qed.

Lemma init_empty_ok m b :
  alloc_inv m b 0 -> 12 <= 512 * rank (huge_page_map m) b ->
  exists P4 P3h P3 m' own, init_empty_kernel_page_table m = Some (P4, m') /\ same_frame m m' /\
    tree own b P4 P3h P3 1 8 12 m'.
Proof.
  intros Ha Hc.
  destruct (four_tables m b Ha) as (P4 & m1 & P3h & m2 & P3 & m3 & P2 & m4 & E1 & E2 & E3 & E4 & Ht & Hs & Hnd & Hz);
    [lia|].
  destruct (roots_tree P4 P3h P3 P2 m4 b Ht Hnd Hz) as [Hs5 Hr5].
  assert (forall T nd, own4 P4 P3h P3 P2 !! T = Some nd -> aligned T) as Hal by (intros; by eapply own_aligned).
  pose proof (Hal _ _ (tr_P4 _ _ _ _ _ _ _ _ _ Hr5)) as A4. pose proof (Hal _ _ (tr_P3h _ _ _ _ _ _ _ _ _ Hr5)) as A3h.
  pose proof (Hal _ _ (tr_P3 _ _ _ _ _ _ _ _ _ Hr5)) as A3.
  assert (own4 P4 P3h P3 P2 !! P2 = Some (NP2 0)) as O2 by (unfold own4; by simplify_map_eq).
  pose proof (Hal _ _ O2) as A2.
  rewrite (init_empty_eq m P4 m1 P3h m2 P3 m3 P2 m4) by done.
  assert (PTE (set_roots P4 P3h P3 P2 m4) P3 0 = P2 + 103) as E30.
  { unfold set_roots. rewrite PTE_set_PTE by (done || unfold slot; lia). by rewrite decide_True. }
  pose proof (same_frame_trans _ _ _ Hs Hs5) as HsA.
  destruct (forM_range_ind (fun i m' => same_frame m m' /\ exists own, tree own b P4 P3h P3 1 i (4 + i) m' /\
    own !! P2 = Some (NP2 0) /\ PTE m' P3 0 = P2 + 103) 0 8 (map_kernel_page P2) (set_roots P4 P3h P3 P2 m4))
    as (m' & -> & Hsm & own & Hr & _).
  - lia.
  - split; [done|]. by eexists.
  - intros i m' Hi (Hsm & own & Hr & HP2 & HE).
    destruct (map_kernel_page_ok own b P4 P3h P3 P2 i m' Hr) as (m'' & own' & E & Hs' & Hr' & H1 & H2);
      [lia|done|done|rewrite (sf_map _ _ Hsm); lia|].
    exists m''. split; [done|]. split; [by eapply same_frame_trans|]. by exists own'.
  - rewrite mbind_Some. by exists P4, P3h, P3, m', own.
Qed.
