(* ===== verification/MemoryInit.v ===== *)
(** * Page tables: initialisation as a whole

    The loop over the available huge pages against the invariant of
    [MemoryTables], and [init] on registered memory: it succeeds exactly when the
    tables it needs fit into the pages set aside for them. *)

From S2P Require Import Prelude Utils Memory MemoryProofs MemoryTables.

(** ** The user part *)

(** The tables in use when the virtual huge pages below [q] are mapped. *)
Definition tables_needed (q : Z) : Z := 4 + q + (q - 1) / 512.

Definition user_tree (b P4 P3h P3 q : Z) (m : memory) : Prop :=
  exists own, tree own b P4 P3h P3 ((q - 1) / 512 + 1) q (tables_needed q) m.

Lemma p1_entry_user map b q i j :
  8 <= q -> 0 <= i < MAX_N_HUGE_PAGES -> avail map i -> rank map i = rank map b + q - 8 -> slot j ->
  user_page_entry (i * HUGE_PAGE_SIZE + j * PAGE_SIZE) = p1_entry map b q j.
Proof.
  intros Hq Hi Ha Hr Hj. unfold p1_entry. rewrite (proj2 (Z.ltb_ge _ _)) by lia.
  rewrite <- Hr, page_of_rank by done. apply user_page_entry_spec. by apply table_page_aligned.
Qed.

Lemma user_indices q : 0 <= q < 262144 ->
  P4_index (q * HUGE_PAGE_SIZE) = 0 /\ P3_index (q * HUGE_PAGE_SIZE) = q / 512 /\
  P2_index (q * HUGE_PAGE_SIZE) = q mod 512 /\ slot (q / 512).
Proof.
  intros Hq. rewrite P4_index_spec, P3_index_spec, P2_index_spec. unfold slot.
  change HUGE_PAGE_SIZE with 2097152. change (2 ^ 39) with 549755813888.
  change (2 ^ 30) with 1073741824. change (2 ^ 21) with 2097152. split_and!; dlia.
Qed.

(** The second level table of the next page, made when it starts a GiB. *)
Lemma user_p2 own b P4 P3h P3 q m :
  tree own b P4 P3h P3 ((q - 1) / 512 + 1) q (tables_needed q) m -> 8 <= q < 262144 ->
  let G := q / 512 + 1 in
  let j := 3 + q + G in
  (j <= 512 * rank (huge_page_map m) b ->
   exists T2 m' own', PTE_create P3 (q / 512) user_table_flags m = Some (T2 + 103, m') /\ same_frame m m' /\
     aligned T2 /\ own' !! T2 = Some (NP2 (q / 512)) /\ PTE m' P3 (q / 512) = T2 + 103 /\
     tree own' b P4 P3h P3 G q j m') /\
  (512 * rank (huge_page_map m) b < j -> tables_needed q <= 512 * rank (huge_page_map m) b ->
   PTE_create P3 (q / 512) user_table_flags m = None).
Proof.
  intros Hr Hq G j. pose proof (tr_tabs _ _ _ _ _ _ _ _ _ Hr) as Ht.
  pose proof (tr_P3 _ _ _ _ _ _ _ _ _ Hr) as H3. rewrite user_table_flags_103.
  assert (slot (q / 512)) as Hsl by (unfold slot; dlia).
  destruct (decide (q mod 512 = 0)) as [E|E].
  - assert ((q - 1) / 512 + 1 = q / 512) as EG by dlia. rewrite EG in Hr.
    assert (tables_needed q = 3 + q + q / 512) as EN by (unfold tables_needed; lia).
    split; intros Hj.
    + destruct (add_p2 own b P4 P3h P3 (q / 512) q (tables_needed q) m Hr) as (t & m' & Ec & Hs & Hal & Hn & Hr');
        [done|dlia|lia|].
      destruct (tr_g _ _ _ _ _ _ _ _ _ Hr' (q / 512) Hsl ltac:(lia)) as (T2 & H2 & E2).
      assert (PTE m' P3 (q / 512) = t + 103) as E2'.
      { unfold PTE_create in Ec. rewrite (tr_g0 _ _ _ _ _ _ _ _ _ Hr (q / 512) Hsl ltac:(lia)) in Ec.
        cbn [Z.eqb] in Ec. destruct (page_table_alloc_zeroed m) as [[t0 m0]|]; [|done].
        rewrite mbind_Some in Ec. injection Ec as Et <-. rewrite Et.
        pose proof (own_aligned _ _ _ _ _ _ Ht H3). rewrite PTE_set_PTE by done. by rewrite decide_True. }
      exists t, m', (<[t := NP2 (q / 512)]> own). split_and!; try done.
      * by rewrite lookup_insert_eq.
      * subst G j. replace (3 + q + (q / 512 + 1)) with (tables_needed q + 1) by lia. done.
    + intros Hc. apply (create_fails own m b (tables_needed q) _ _ _ Ht); [|lia].
      exact (tr_g0 _ _ _ _ _ _ _ _ _ Hr (q / 512) Hsl (Z.le_refl _)).
  - assert ((q - 1) / 512 = q / 512) as EG by dlia.
    assert (tables_needed q = j) as EN by (unfold tables_needed; lia). rewrite EG, EN in Hr.
    split; intros Hj; [|lia].
    destruct (tr_g _ _ _ _ _ _ _ _ _ Hr (q / 512) Hsl ltac:(lia)) as (T2 & H2 & E2).
    pose proof (own_aligned _ _ _ _ _ _ Ht H2) as HalT. destruct (tb_own _ _ _ _ Ht _ _ H2) as [_ [Hpos _]].
    exists T2, m, own. rewrite create_old by lia. rewrite E2. split_and!; done.
Qed.

Lemma map_user_page_turn b P4 P3h P3 q m i :
  user_tree b P4 P3h P3 q m -> 8 <= q < 262144 -> 0 <= i < MAX_N_HUGE_PAGES ->
  avail (huge_page_map m) i -> rank (huge_page_map m) i = rank (huge_page_map m) b + q - 8 ->
  tables_needed q <= 512 * rank (huge_page_map m) b ->
  (tables_needed (q + 1) <= 512 * rank (huge_page_map m) b ->
   exists m', map_user_page P4 i (q * HUGE_PAGE_SIZE, m) = Some ((q + 1) * HUGE_PAGE_SIZE, m') /\
     same_frame m m' /\ user_tree b P4 P3h P3 (q + 1) m') /\
  (512 * rank (huge_page_map m) b < tables_needed (q + 1) ->
   map_user_page P4 i (q * HUGE_PAGE_SIZE, m) = None).
Proof.
  intros (own & Hr) Hq Hi Ha Hrk Hc.
  destruct (user_indices q) as (I4 & I3 & I2 & Hsl); [lia|].
  pose proof (tr_tabs _ _ _ _ _ _ _ _ _ Hr) as Ht.
  pose proof (tb_own _ _ _ _ Ht _ _ (tr_P3 _ _ _ _ _ _ _ _ _ Hr)) as [A3 [P3pos _]].
  assert (aread (huge_page_map m) i = Some true) as Er.
  { rewrite aread_ok; [by rewrite Ha|]. rewrite (ai_len _ _ _ (tb_alloc _ _ _ _ Ht)). done. }
  assert (PTE_create P4 0 user_table_flags m = Some (P3 + 103, m)) as E4.
  { rewrite create_old, (tr_e0 _ _ _ _ _ _ _ _ _ Hr); [done|]. rewrite (tr_e0 _ _ _ _ _ _ _ _ _ Hr). lia. }
  assert (tables_needed (q + 1) = 3 + q + (q / 512 + 1) + 1) as EN.
  { unfold tables_needed. replace (q + 1 - 1) with q by lia. lia. }
  unfold map_user_page. run_bind Er. cbn [negb]. rewrite I4, I3, I2. run_bind E4. rewrite (clear_entry P3 103) by done.
  destruct (user_p2 own b P4 P3h P3 q m Hr Hq) as [Hok Hfail].
  destruct (Z_le_gt_dec (3 + q + (q / 512 + 1)) (512 * rank (huge_page_map m) b)) as [Hle|Hgt].
  2: { split; [lia|]. intros _. rewrite Hfail by lia. apply mbind_None. }
  destruct (Hok Hle) as (T2 & m1 & own1 & E3 & Hs1 & Hal & H2 & E32 & Hr1). run_bind E3.
  rewrite (clear_entry T2 103) by done. pose proof (tr_tabs _ _ _ _ _ _ _ _ _ Hr1) as Ht1.
  assert (user_table_flags = p2_flags q) as Ef by (unfold p2_flags; by rewrite (proj2 (Z.ltb_ge _ _)) by lia).
  split; intros Hn.
  - destruct (add_p1 own1 b P4 P3h P3 (q / 512 + 1) q _ m1 T2 Hr1) as (t & m2 & E2 & _ & Hs2 & Halt & _ & _ & Hr2);
      [dlia|unfold slot in Hsl; lia|done|done|rewrite (sf_map _ _ Hs1); lia|].
    rewrite Ef. run_bind E2. rewrite clear_entry by (done || (rewrite <- Ef; done)).
    rewrite (for_range_ext 0 (PAGE_SIZE / 8) _ (fun j m => set_PTE t j (p1_entry (huge_page_map m1) b q j) m)).
    2: { intros j s Hj. rewrite (sf_map _ _ Hs1). f_equal.
         change (PAGE_SIZE / 8) with 512 in Hj. apply p1_entry_user; done || lia. }
    replace (q * HUGE_PAGE_SIZE + HUGE_PAGE_SIZE) with ((q + 1) * HUGE_PAGE_SIZE) by lia.
    eexists. split; [reflexivity|]. fold (fill_table t (p1_entry (huge_page_map m1) b q) m2). split.
    + do 2 (eapply same_frame_trans; [done|]). by apply same_state_frame, fill_table_spec.
    + exists (<[t := NP1 q]> own1). rewrite EN. by replace (q + 1 - 1) with q by lia.
  - rewrite (create_fails own1 m1 b (3 + q + (q / 512 + 1)) T2 (q mod 512) user_table_flags Ht1).
    + apply mbind_None.
    + eapply (tr_z _ _ _ _ _ _ _ _ _ Hr1); [done|apply slot_mod|]. dlia.
    + rewrite (sf_map _ _ Hs1). lia.
Qed.

Lemma tables_needed_mono q q' : q <= q' -> tables_needed q <= tables_needed q'.
Proof. unfold tables_needed. intros. dlia. Qed.

Lemma tree_8_user own b P4 P3h P3 m : tree own b P4 P3h P3 1 8 12 m -> user_tree b P4 P3h P3 8 m.
Proof. intros H. exists own. exact H. Qed.

(** The loop maps every available page from [b] on, or fails. *)
Section user_loop.
Context (b P4 P3h P3 : Z) (m : memory).
Let M := huge_page_map m.
Let Q i := 8 + rank M i - rank M b.
Hypothesis b_range : 0 <= b <= MAX_N_HUGE_PAGES.
Hypothesis tree8 : user_tree b P4 P3h P3 8 m.
Hypothesis room : tables_needed 8 <= 512 * rank M b.

Definition loop_inv (i : Z) (s : Z * memory) : Prop :=
  s.1 = Q i * HUGE_PAGE_SIZE /\ same_frame m s.2 /\ user_tree b P4 P3h P3 (Q i) s.2 /\
  tables_needed (Q i) <= 512 * rank M b.

Lemma loop_inv_start : loop_inv b (kernel_break, m).
Proof.
  unfold loop_inv, Q. replace (8 + rank M b - rank M b) with 8 by lia.
  split_and!; try done.
Qed.

Lemma Q_range i : b <= i < MAX_N_HUGE_PAGES -> 8 <= Q i < 262144.
Proof.
  intros Hi. unfold Q. pose proof (rank_mono M b i ltac:(lia)). change MAX_N_HUGE_PAGES with 261632 in *. lia.
Qed.

Lemma loop_turn i s : b <= i < MAX_N_HUGE_PAGES -> loop_inv i s ->
  (tables_needed (Q (i + 1)) <= 512 * rank M b ->
   exists s', map_user_page P4 i s = Some s' /\ loop_inv (i + 1) s') /\
  (512 * rank M b < tables_needed (Q (i + 1)) -> map_user_page P4 i s = None).
Proof.
  intros Hi (Es & Hs & Ht & Hn). destruct s as [vaddr m']. cbn [fst snd] in *. subst vaddr.
  pose proof (Q_range i Hi) as HQ. pose proof (sf_map _ _ Hs) as EM. fold M in EM.
  assert (alen M = MAX_N_HUGE_PAGES) as Hlen.
  { destruct Ht as (own & Hr). rewrite <- EM. apply (ai_len _ _ _ (tb_alloc _ _ _ _ (tr_tabs _ _ _ _ _ _ _ _ _ Hr))). }
  assert (Q (i + 1) = Q i + if decide (avail M i) then 1 else 0) as EQ by (unfold Q; rewrite rank_succ by lia; lia).
  destruct (decide (avail M i)) as [Ha|Ha].
  - rewrite EQ. destruct (map_user_page_turn b P4 P3h P3 (Q i) m' i Ht) as [Hok Hno];
      [done|lia|by rewrite EM|rewrite EM; unfold Q; lia|by rewrite EM|]. rewrite EM in Hok, Hno.
    split; intros Hc; [|by apply Hno].
    destruct (Hok Hc) as (m'' & -> & Hs' & Ht'). eexists. split; [done|]. unfold loop_inv. rewrite EQ.
    split_and!; try done. by eapply same_frame_trans.
  - rewrite EQ, Z.add_0_r. split; [intros _|lia]. unfold map_user_page.
    assert (aread (huge_page_map m') i = Some false) as Er.
    { rewrite EM, aread_ok by lia. by rewrite (not_true_is_false _ Ha). }
    run_bind Er. cbn [negb]. eexists. split; [done|]. unfold loop_inv. by rewrite EQ, Z.add_0_r.
Qed.

Lemma user_loop_ok :
  tables_needed (Q MAX_N_HUGE_PAGES) <= 512 * rank M b ->
  exists m', forM_range b MAX_N_HUGE_PAGES (map_user_page P4) (kernel_break, m) =
      Some (Q MAX_N_HUGE_PAGES * HUGE_PAGE_SIZE, m') /\
    same_frame m m' /\ user_tree b P4 P3h P3 (Q MAX_N_HUGE_PAGES) m'.
Proof.
  intros Hc. destruct (forM_range_ind loop_inv b MAX_N_HUGE_PAGES (map_user_page P4) (kernel_break, m))
    as ([v m'] & -> & Ev & Hs & Ht & _).
  - lia.
  - apply loop_inv_start.
  - intros i s Hi Hinv. apply (loop_turn i s Hi Hinv). etrans; [|exact Hc]. apply tables_needed_mono.
    unfold Q. pose proof (rank_mono M (i + 1) MAX_N_HUGE_PAGES ltac:(lia)). lia.
  - cbn [fst snd] in *. subst v. by exists m'.
Qed.

Lemma user_loop_fails :
  512 * rank M b < tables_needed (Q MAX_N_HUGE_PAGES) ->
  forM_range b MAX_N_HUGE_PAGES (map_user_page P4) (kernel_break, m) = None.
Proof.
  intros Hc. destruct (forM_range _ _ _ _) as [s|] eqn:E; [|done].
  assert (loop_inv MAX_N_HUGE_PAGES s) as (_ & _ & _ & Hn); [|lia].
  eapply (forM_range_partial loop_inv); [| |intros i s1 s2 Hi Hinv Hm|exact E].
  - lia.
  - apply loop_inv_start.
  - destruct (loop_turn i s1 Hi Hinv) as [Hok Hno].
    destruct (Z_le_gt_dec (tables_needed (Q (i + 1))) (512 * rank M b)) as [Hle|Hgt].
    + destruct (Hok Hle) as (s3 & E3 & H3). congruence.
    + rewrite Hno in Hm by lia. done.
Qed.
End user_loop.

(** ** Registered memory *)

Record registered (m : memory) : Prop := {
  rg_len : alen (huge_page_map m) = MAX_N_HUGE_PAGES;
  rg_low i : avail (huge_page_map m) i -> 8 <= i < MAX_N_HUGE_PAGES;
  rg_n : n_huge_pages m = rank (huge_page_map m) MAX_N_HUGE_PAGES;
  rg_next : next_page_table_address m = kernel_break;
  rg_break : page_table_break m = 0
}.

Lemma rank_none map x : 0 <= x -> (forall i, 0 <= i < x -> ~ avail map i) -> rank map x = 0.
Proof. intros Hx H. rewrite (rank_skip map 0 x) by (done || lia). apply rank_0. Qed.

Lemma registered_start ph c : registered (memory_start ph c).
Proof.
  split; [done| | |done|done].
  - intros i Ha. unfold avail in Ha. cbn in Ha. by rewrite aget_new in Ha.
  - cbn [memory_start n_huge_pages huge_page_map]. rewrite rank_none; [done|done|].
    intros i _ Ha. unfold avail in Ha. by rewrite aget_new in Ha.
Qed.

Lemma rank_ext map map' x : (forall i, 0 <= i < x -> avail map i <-> avail map' i) -> rank map x = rank map' x.
Proof.
  intros H. unfold rank. f_equal. f_equal. apply filter_ext_elem. intros i Hi. apply elem_of_seqZ in Hi. apply H. lia.
Qed.

Lemma rank_set map p x :
  0 <= p < x -> ~ avail map p -> rank (aset map p true) x = rank map x + 1.
Proof.
  intros Hp Hn. revert x Hp. 
  assert (forall n, rank (aset map p true) (p + 1 + Z.of_nat n) = rank map (p + 1 + Z.of_nat n) + 1 \/ p < 0) as H.
  { induction n as [|n IH].
    - destruct (Z.lt_ge_cases p 0); [by right|left]. rewrite Z.add_0_r, !rank_succ by lia.
      rewrite (decide_False (P := avail map p)) by done.
      rewrite decide_True by (unfold avail; by rewrite aget_set_eq).
      rewrite (rank_ext (aset map p true) map p); [lia|]. intros i Hi. unfold avail. by rewrite aget_set_ne by lia.
    - destruct IH as [IH|]; [|by right]. destruct (Z.lt_ge_cases p 0); [by right|left].
      replace (p + 1 + Z.of_nat (S n)) with (p + 1 + Z.of_nat n + 1) by lia. rewrite !rank_succ, IH by lia.
      assert (avail (aset map p true) (p + 1 + Z.of_nat n) <-> avail map (p + 1 + Z.of_nat n)) as Hiff.
      { unfold avail. by rewrite aget_set_ne by lia. }
      repeat case_decide; tauto || lia. }
  intros x Hp. destruct (H (Z.to_nat (x - p - 1))) as [E|]; [|lia].
  by replace (p + 1 + Z.of_nat (Z.to_nat (x - p - 1))) with x in E by lia.
Qed.

(** Registering keeps the count, for every address it accepts. *)
Lemma register_ok addr m :
  registered m -> addr mod HUGE_PAGE_SIZE = 0 -> 0 <= addr < MAX_MEMORY_SIZE ->
  exists m', register_available_huge_page addr m = Some m' /\ registered m' /\
    (forall i, avail (huge_page_map m') i <->
       avail (huge_page_map m) i \/ (i = addr / HUGE_PAGE_SIZE /\ kernel_break <= addr)) /\
    phys m' = phys m.
Proof.
  intros [Hl Hlo Hn Hnext Hb] Ha Hr. unfold register_available_huge_page.
  rewrite Ha. cbn [Z.eqb negb]. rewrite (proj2 (Z.ltb_lt _ _)) by lia. cbn [negb].
  destruct (Z.ltb_spec addr kernel_break) as [Hk|Hk].
  { exists m. split; [done|]. split; [by split|]. split; [|done]. intros i. split; [by left|]. intros [?|?]; [done|lia]. }
  set (p := addr / HUGE_PAGE_SIZE).
  assert (8 <= p < MAX_N_HUGE_PAGES) as Hp.
  { unfold p. change MAX_MEMORY_SIZE with 548682072064 in *. change kernel_break with 16777216 in *.
    change MAX_N_HUGE_PAGES with 261632. change HUGE_PAGE_SIZE with 2097152 in *. dlia. }
  rewrite aread_ok by lia. rewrite mbind_Some. destruct (aget (huge_page_map m) p) eqn:Ep.
  - exists m. split; [done|]. split; [by split|]. split; [|done]. intros i. split; [by left|].
    by intros [?|[-> _]].
  - rewrite awrite_ok by lia. rewrite mbind_Some. eexists. split; [done|].
    assert (~ avail (huge_page_map m) p) as Hna by (unfold avail; congruence).
    split; [|split; [|done]].
    + split; cbn [huge_page_map n_huge_pages next_page_table_address page_table_break]; try done.
      * intros i Hi. unfold avail in Hi. rewrite aget_set in Hi. case_decide; [lia|]. by apply Hlo.
      * rewrite rank_set by (done || lia). lia.
    + intros i. cbn [huge_page_map]. unfold avail. rewrite aget_set. case_decide as E.
      * subst i. split; [by right|done].
      * split; [by left|]. intros [?|[-> _]]; done.
Qed.

(** ** Initialisation *)

(** The huge pages set aside for tables. *)
Definition table_pages (n : Z) : Z := page_table_size n / HUGE_PAGE_SIZE.

(** The pages are found among the first [n] page numbers, and hold what the
    kernel and the other pages need. *)
Definition tables_fit (m : memory) : Prop :=
  let n := n_huge_pages m in
  table_pages n <= rank (huge_page_map m) n /\
  tables_needed (8 + n - table_pages n) <= 512 * table_pages n.

Lemma page_table_size_spec n : 0 <= n <= MAX_N_HUGE_PAGES ->
  page_table_size n = table_pages n * HUGE_PAGE_SIZE /\ 1 <= table_pages n.
Proof.
  intros Hn. change MAX_N_HUGE_PAGES with 261632 in Hn. unfold table_pages.
  assert (exists k, page_table_size n = k * HUGE_PAGE_SIZE /\ 1 <= k) as (k & -> & Hk).
  { unfold page_table_size, PAGE_SIZE, HUGE_PAGE_SIZE.
    destruct (round_up_spec (n * 8) 4096) as (a & -> & Ha); [lia|lia|lia|].
    destruct (round_up_spec (4096 * 4 + n * 4096 + a * 4096 + 4096 * 2) 2097152) as (k & -> & Hk); [lia|lia|lia|].
    exists k. split; [done|]. lia. }
  rewrite Z.div_mul by done. done.
Qed.

Lemma registered_alloc m b :
  registered m -> 0 <= b <= MAX_N_HUGE_PAGES -> alloc_inv (set_table_break (b * HUGE_PAGE_SIZE) m) b 0.
Proof.
  intros [Hl Hlo Hn Hnext Hb] Hr. split; try done. exists 8, 0. cbn [set_table_break huge_page_map next_page_table_address].
  rewrite rank_none; [|done|intros i Hi Ha; apply Hlo in Ha; lia]. split_and!; try lia. done.
Qed.

Lemma set_table_break_same m : page_table_break m = 0 -> set_table_break (0 * HUGE_PAGE_SIZE) m = m.
Proof. destruct m. cbn. by intros ->. Qed.

(** What the break is, and how many pages lie below it. *)
Lemma init_page_table_break_spec m :
  registered m ->
  let n := n_huge_pages m in
  exists b, init_page_table_break m = Some (set_table_break (b * HUGE_PAGE_SIZE) m) /\
    0 <= b <= MAX_N_HUGE_PAGES /\
    ((table_pages n <= rank (huge_page_map m) n /\ rank (huge_page_map m) b = table_pages n) \/
     (rank (huge_page_map m) n < table_pages n /\ b = 0)).
Proof.
  intros Hreg n. pose proof Hreg as [Hl Hlo Hn Hnext Hb].
  assert (0 <= n <= MAX_N_HUGE_PAGES) as Hnr.
  { unfold n. rewrite Hn. pose proof (rank_mono (huge_page_map m) 0 MAX_N_HUGE_PAGES ltac:(done)) as H.
    rewrite rank_0 in H. lia. }
  destruct (page_table_size_spec n Hnr) as [Es Hk]. unfold init_page_table_break. fold n.
  destruct (find_table_break_total (huge_page_map m) (Z.to_nat n) 0 0 (page_table_size n)) as (r & E); [lia|lia|].
  run_bind E. apply find_table_break_spec in E; [|lia|by rewrite rank_0|lia|rewrite Es; unfold HUGE_PAGE_SIZE; lia].
  rewrite Z2Nat.id in E by lia. rewrite Z.add_0_l, Es in E. change HUGE_PAGE_SIZE with 2097152 in *. destruct r as [br|].
  - destruct E as (y & Hy & -> & Hya & Hs). exists (y + 1). split; [done|]. split; [lia|]. left.
    pose proof (rank_mono (huge_page_map m) (y + 1) n ltac:(lia)). lia.
  - exists 0. split; [|split; [done|right; lia]]. f_equal. symmetry. by apply set_table_break_same.
Qed.

(** The walk root and the virtual break are not part of the tree. *)
Lemma tree_registers own b P4 P3h P3 G q j m v c :
  tree own b P4 P3h P3 G q j m -> tree own b P4 P3h P3 G q j (lcr3 c (set_vaddr_break v m)).
Proof. intros [[[Hl Hb Hbr Hp] Ho] H4 H3h H3 E1 E2 E3 Eo Hh Hg Hg0 Hz Hq Hf]. by split. Qed.

Lemma init_spec_ok ebss m :
  registered m -> ebss <= kernel_break -> tables_fit m ->
  exists m' own b P3h P3, let Q := 8 + n_huge_pages m - table_pages (n_huge_pages m) in
    init ebss m = Some m' /\ vaddr_break m' = Q * HUGE_PAGE_SIZE /\ page_table_break m' = b * HUGE_PAGE_SIZE /\
    rank (huge_page_map m) b = table_pages (n_huge_pages m) /\ 8 <= Q < 262144 /\ 0 <= b <= MAX_N_HUGE_PAGES /\
    huge_page_map m' = huge_page_map m /\ n_huge_pages m' = n_huge_pages m /\
    tree own b (cr3 m') P3h P3 ((Q - 1) / 512 + 1) Q (tables_needed Q) m'.
Proof.
  intros Hreg He [Hf1 Hf2]. pose proof Hreg as [Hl Hlo Hn Hnext Hb0]. unfold init. rewrite (proj2 (Z.leb_le _ _)) by done.
  unfold init_page_tables. destruct (init_page_table_break_spec m Hreg) as (b & Eb & Hb & [[_ Hrk]|[? _]]); [|lia].
  run_bind Eb. pose proof (registered_alloc m b Hreg Hb) as Ha.
  set (m0 := set_table_break (b * HUGE_PAGE_SIZE) m) in *.
  assert (1 <= table_pages (n_huge_pages m)) as Hk1.
  { apply page_table_size_spec. rewrite Hn. pose proof (rank_mono (huge_page_map m) 0 MAX_N_HUGE_PAGES ltac:(done)) as H.
    rewrite rank_0 in H. lia. }
  destruct (init_empty_ok m0 b Ha) as (P4 & P3h & P3 & m1 & own & E1 & Hs1 & Hr1);
    [change (huge_page_map m0) with (huge_page_map m); lia|].
  unfold init_page_table_4k. run_bind E1.
  assert (page_table_break m1 / HUGE_PAGE_SIZE = b) as ->.
  { rewrite (sf_tbreak _ _ Hs1). apply Z.div_mul. done. }
  assert (huge_page_map m1 = huge_page_map m) as EM1 by (by rewrite (sf_map _ _ Hs1)).
  destruct (user_loop_ok b P4 P3h P3 m1 Hb (tree_8_user _ _ _ _ _ _ Hr1)) as (m2 & E2 & Hs2 & own2 & Hr2).
  { rewrite EM1. change (tables_needed 8) with 12. lia. }
  { rewrite EM1, <- Hn, Hrk. done. }
  run_bind E2. rewrite EM1, <- Hn, Hrk in *. rewrite mbind_Some. 
  eexists _, own2, b, P3h, P3. cbv zeta. split; [reflexivity|]. cbn [vaddr_break lcr3 set_vaddr_break page_table_break huge_page_map n_huge_pages].
  split_and!; try done.
  - rewrite (sf_tbreak _ _ Hs2). by rewrite (sf_tbreak _ _ Hs1).
  - pose proof (rank_mono (huge_page_map m) b MAX_N_HUGE_PAGES ltac:(lia)). lia.
  - pose proof (rank_mono (huge_page_map m) b MAX_N_HUGE_PAGES ltac:(lia)). change MAX_N_HUGE_PAGES with 261632 in *. 
    assert (0 < b) by (destruct (decide (b = 0)) as [->|]; [rewrite rank_0 in *; lia|lia]). lia.
  - lia.
  - lia.
  - rewrite (sf_map _ _ Hs2). done.
  - rewrite (sf_n _ _ Hs2). by rewrite (sf_n _ _ Hs1).
  - by apply tree_registers.
Qed.

Lemma init_spec_fails ebss m : registered m -> ~ tables_fit m -> init ebss m = None.
Proof.
  intros Hreg Hnf. pose proof Hreg as [Hl Hlo Hn Hnext Hb0]. unfold init. case_if; [|done].
  unfold init_page_tables. destruct (init_page_table_break_spec m Hreg) as (b & Eb & Hb & Hcase).
  run_bind Eb. pose proof (registered_alloc m b Hreg Hb) as Ha.
  set (m0 := set_table_break (b * HUGE_PAGE_SIZE) m) in *. change (huge_page_map m) with (huge_page_map m0) in *.
  unfold init_page_table_4k. destruct Hcase as [[Hf1 Hrk]|[_ ->]].
  2: { unfold init_empty_kernel_page_table. rewrite (alloc_fails m0 0 0 Ha); [by rewrite !mbind_None|].
       by rewrite rank_0. }
  assert (1 <= table_pages (n_huge_pages m)) as Hk1.
  { apply page_table_size_spec. rewrite Hn. pose proof (rank_mono (huge_page_map m0) 0 MAX_N_HUGE_PAGES ltac:(done)) as H.
    rewrite rank_0 in H. lia. }
  destruct (init_empty_ok m0 b Ha) as (P4 & P3h & P3 & m1 & own & E1 & Hs1 & Hr1); [lia|]. run_bind E1.
  assert (page_table_break m1 / HUGE_PAGE_SIZE = b) as ->.
  { rewrite (sf_tbreak _ _ Hs1). apply Z.div_mul. done. }
  assert (huge_page_map m1 = huge_page_map m0) as EM1 by (by rewrite (sf_map _ _ Hs1)).
  rewrite (user_loop_fails b P4 P3h P3 m1 Hb (tree_8_user _ _ _ _ _ _ Hr1)); [by rewrite !mbind_None|..].
  - rewrite EM1. change (tables_needed 8) with 12. lia.
  - rewrite EM1, <- Hn, Hrk. apply Z.nle_gt. intros Hle. apply Hnf. split; [done|]. done.
Qed.
