(* ===== verification/MemoryPaging.v ===== *)
(** * Page tables in use: the recursive mapping and the flags of pages

    [paging] is what remains true of the tree while the flags of pages change;
    under it [get_P1] names the entry the processor uses, and an update of one
    entry leaves every other page alone. *)

From S2P Require Import Prelude Utils Memory MemoryProofs MemoryTables MemoryInit.

Record paging (own : gmap Z node) (Q : Z) (m : memory) : Prop := {
  pg_Q : 0 <= Q <= 262144;
  pg_own T nd : own !! T = Some nd -> aligned T /\ 0 < T;
  pg_P4 : own !! cr3 m = Some NP4;
  pg_e511 : PTE m (cr3 m) 511 = cr3 m + 99;
  pg_low : exists P3, own !! P3 = Some NP3 /\ PTE m (cr3 m) 0 = P3 + 103 /\
    forall q, 0 <= q < Q -> exists T1, reaches own m P3 q T1
}.

Lemma tree_paging own b P3h P3 G q j m :
  tree own b (cr3 m) P3h P3 G q j m -> 0 <= q <= 262144 -> paging own q m.
Proof.
  intros Hr Hq. destruct Hr as [Ht H4 H3h H3 E511 E510 E0 Eo Hh Hg Hg0 Hz Hqs Hf]. split; try done.
  - intros T nd HT. apply (tb_own _ _ _ _ Ht) in HT. naive_solver.
  - exists P3. done.
Qed.

(** The first level table of an address below 512 GiB and its entry. *)
Definition p1_table (m : memory) (v : Z) : Z :=
  frame (PTE m (frame (PTE m (frame (PTE m (cr3 m) 0)) (P3_index v))) (P2_index v)).

Definition entry (m : memory) (v : Z) : Z := PTE m (p1_table m v) (P1_index v).

(** The entries of the upper levels. *)
Definition upper (m : memory) (v : Z) : list Z :=
  let e4 := PTE m (cr3 m) 0 in
  let e3 := PTE m (frame e4) (P3_index v) in
  let e2 := PTE m (frame e3) (P2_index v) in [e2; e3; e4].

Section walk.
Context (own : gmap Z node) (Q : Z) (m : memory).
Hypothesis Hp : paging own Q m.

Lemma page_indices v : 0 <= v < Q * HUGE_PAGE_SIZE ->
  0 <= v / HUGE_PAGE_SIZE < Q /\ P4_index v = 0 /\ P3_index v = v / HUGE_PAGE_SIZE / 512 /\
  P2_index v = (v / HUGE_PAGE_SIZE) mod 512 /\ slot (v / HUGE_PAGE_SIZE / 512).
Proof.
  intros Hv. pose proof (pg_Q _ _ _ Hp). rewrite P4_index_spec, P3_index_spec, P2_index_spec. unfold slot.
  change HUGE_PAGE_SIZE with 2097152 in *. change (2 ^ 39) with 549755813888.
  change (2 ^ 30) with 1073741824. change (2 ^ 21) with 2097152. split_and!; dlia.
Qed.

(** The three upper entries, split into tables and flags. *)
Lemma walk_tables v : 0 <= v < Q * HUGE_PAGE_SIZE ->
  exists P3 T2 T1, PTE m (cr3 m) 0 = P3 + 103 /\ PTE m P3 (P3_index v) = T2 + 103 /\
    PTE m T2 (P2_index v) = T1 + p2_flags (v / HUGE_PAGE_SIZE) /\
    aligned P3 /\ aligned T2 /\ aligned T1 /\ own !! P3 = Some NP3 /\
    own !! T2 = Some (NP2 (v / HUGE_PAGE_SIZE / 512)) /\ own !! T1 = Some (NP1 (v / HUGE_PAGE_SIZE)) /\
    p1_table m v = T1 /\ upper m v = [T1 + p2_flags (v / HUGE_PAGE_SIZE); T2 + 103; P3 + 103].
Proof.
  intros Hv. destruct (page_indices v Hv) as (Hq & _ & I3 & I2 & Hs).
  destruct (pg_low _ _ _ Hp) as (P3 & H3 & E4 & Hlow).
  destruct (Hlow _ Hq) as (T1 & T2 & H2 & E3 & H1 & E2).
  destruct (pg_own _ _ _ Hp _ _ H3) as [A3 _]. destruct (pg_own _ _ _ Hp _ _ H2) as [A2 _].
  destruct (pg_own _ _ _ Hp _ _ H1) as [A1 _].
  assert (0 <= p2_flags (v / HUGE_PAGE_SIZE) < 4096) as Hf by (unfold p2_flags; case_if; lia).
  exists P3, T2, T1. rewrite I3, I2. split_and!; try done.
  - unfold p1_table. rewrite I3, I2, E4, (frame_entry P3 103) by done. rewrite E3, (frame_entry T2 103) by done.
    by rewrite E2, frame_entry.
  - unfold upper. cbv zeta. rewrite I3, I2, E4, (frame_entry P3 103) by done. rewrite E3, (frame_entry T2 103) by done.
    by rewrite E2.
Qed.

Lemma cr3_frame : frame (cr3 m) = cr3 m /\ aligned (cr3 m).
Proof. destruct (pg_own _ _ _ Hp _ _ (pg_P4 _ _ _ Hp)) as [H _]. split; [by apply frame_aligned|done]. Qed.

Lemma entry_bits t fl : aligned t -> fl = 99 \/ fl = 103 ->
  Z.testbit (t + fl) 0 = true /\ Z.testbit (t + fl) 7 = false.
Proof. intros Ha [->| ->]; rewrite !testbit_entry by (done || lia); done. Qed.

Lemma p2_flags_or q : p2_flags q = 99 \/ p2_flags q = 103.
Proof. unfold p2_flags. case_if; [by left|by right]. Qed.

(** The processor's walk uses [entry] at its last level. *)
Lemma translate_spec v : 0 <= v < Q * HUGE_PAGE_SIZE ->
  translate m v = if Z.testbit (entry m v) 0 then Some (frame (entry m v) + v mod 4096, entry m v :: upper m v) else None.
Proof.
  intros Hv. destruct (page_indices v Hv) as (_ & I4 & _ & _ & _).
  destruct (walk_tables v Hv) as (P3 & T2 & T1 & E4 & E3 & E2 & A3 & A2 & A1 & _ & _ & _ & ET & EU).
  unfold entry. rewrite ET, EU. unfold translate. rewrite (proj1 cr3_frame), I4, E4.
  destruct (entry_bits P3 103 A3) as [B0 B7]; [by right|]. rewrite B0. cbn [negb].
  rewrite (frame_entry P3 103), E3 by done.
  destruct (entry_bits T2 103 A2) as [C0 C7]; [by right|]. rewrite C0, C7. cbn [negb].
  rewrite (frame_entry T2 103), E2 by done.
  destruct (entry_bits T1 (p2_flags (v / HUGE_PAGE_SIZE)) A1) as [D0 D7]; [apply p2_flags_or|]. rewrite D0, D7. cbn [negb].
  rewrite frame_entry by (done || destruct (p2_flags_or (v / HUGE_PAGE_SIZE)) as [-> | ->]; lia).
  destruct (Z.testbit (PTE m T1 (P1_index v)) 0); done.
Qed.

Lemma get_P1_addr_spec v : 0 <= v < 2 ^ 39 -> get_P1_addr v = 2 ^ 64 - 2 ^ 39 + 8 * (v / 4096).
Proof.
  intros Hv. unfold get_P1_addr.
  change (2 ^ 64 - 8) with (2 ^ 64 - 2 ^ 3). rewrite land_range by lia.
  rewrite Z.lor_comm, (lor_low _ _ 39).
  - rewrite Z.shiftr_div_pow2 by lia. change (2 ^ 39) with 549755813888 in *. change (2 ^ 64) with 18446744073709551616.
    change (2 ^ 9) with 512. change (2 ^ 3) with 8. dlia.
  - lia.
  - done.
  - rewrite Z.shiftr_div_pow2 by lia. change (2 ^ 39) with 549755813888 in *. change (2 ^ 64) with 18446744073709551616.
    change (2 ^ 9) with 512. change (2 ^ 3) with 8. dlia.
Qed.

(** The recursive entry makes the walk of [get_P1_addr] end at the entry. *)
Lemma translate_P1_addr v : 0 <= v < Q * HUGE_PAGE_SIZE ->
  exists es, translate m (get_P1_addr v) = Some (PTE_addr (p1_table m v) (P1_index v), es).
Proof.
  intros Hv. pose proof (pg_Q _ _ _ Hp) as HQ.
  destruct (walk_tables v Hv) as (P3 & T2 & T1 & E4 & E3 & E2 & A3 & A2 & A1 & _ & _ & _ & ET & _).
  assert (0 <= v < 2 ^ 39) as Hv39 by (unfold HUGE_PAGE_SIZE in Hv; lia).
  assert (P4_index (get_P1_addr v) = 511 /\ P3_index (get_P1_addr v) = 0 /\
    P2_index (get_P1_addr v) = P3_index v /\ P1_index (get_P1_addr v) = P2_index v /\
    get_P1_addr v mod 2 ^ 12 = 8 * P1_index v) as (J4 & J3 & J2 & J1 & J0).
  { rewrite !P4_index_spec, !P3_index_spec, !P2_index_spec, !P1_index_spec, get_P1_addr_spec by done.
    change (2 ^ 39) with 549755813888 in *. change (2 ^ 64) with 18446744073709551616.
    change (2 ^ 30) with 1073741824. change (2 ^ 21) with 2097152. change (2 ^ 12) with 4096. split_and!; dlia. }
  unfold translate. rewrite (proj1 cr3_frame), J4, (pg_e511 _ _ _ Hp).
  destruct (entry_bits (cr3 m) 99) as [R0 _]; [apply cr3_frame|by left|]. rewrite R0. cbn [negb].
  rewrite (frame_entry (cr3 m) 99) by (apply cr3_frame || done). rewrite J3, E4.
  destruct (entry_bits P3 103 A3) as [B0 B7]; [by right|]. rewrite B0, B7. cbn [negb].
  rewrite (frame_entry P3 103), J2, E3 by done.
  destruct (entry_bits T2 103 A2) as [C0 C7]; [by right|]. rewrite C0, C7. cbn [negb].
  rewrite (frame_entry T2 103), J1, E2 by done.
  destruct (entry_bits T1 (p2_flags (v / HUGE_PAGE_SIZE)) A1) as [D0 D7]; [apply p2_flags_or|]. rewrite D0. cbn [negb].
  rewrite frame_entry by (done || destruct (p2_flags_or (v / HUGE_PAGE_SIZE)) as [-> | ->]; lia).
  rewrite ET, PTE_addr_spec by (done || apply P1_index_slot). rewrite J0. by eexists.
Qed.

Lemma get_P1_spec v : 0 <= v < Q * HUGE_PAGE_SIZE -> get_P1 m v = Some (entry m v).
Proof. intros Hv. unfold get_P1. destruct (translate_P1_addr v Hv) as (es & ->). done. Qed.

Lemma update_P1_spec v f : 0 <= v < Q * HUGE_PAGE_SIZE ->
  update_P1 v f m = Some (set_PTE (p1_table m v) (P1_index v) (f (entry m v)) m).
Proof. intros Hv. unfold update_P1. destruct (translate_P1_addr v Hv) as (es & ->). done. Qed.

(** Two addresses share their entry exactly when they share their page. *)
Lemma same_entry v v' : 0 <= v < Q * HUGE_PAGE_SIZE -> 0 <= v' < Q * HUGE_PAGE_SIZE ->
  p1_table m v = p1_table m v' /\ P1_index v = P1_index v' <-> v / 4096 = v' / 4096.
Proof.
  intros Hv Hv'.
  destruct (walk_tables v Hv) as (P3 & T2 & T1 & E4 & E3 & E2 & A3 & A2 & A1 & O3 & O2 & O1 & ET & _).
  destruct (walk_tables v' Hv') as (P3' & T2' & T1' & E4' & E3' & E2' & A3' & A2' & A1' & O3' & O2' & O1' & ET' & _).
  rewrite ET, ET', !P1_index_spec. change (2 ^ 12) with 4096. change HUGE_PAGE_SIZE with 2097152 in *. split.
  - intros [<- Ei]. rewrite O1 in O1'. injection O1' as Eq. dlia.
  - intros E. split; [|by rewrite E]. assert (v / 2097152 = v' / 2097152) as Eq by dlia.
    assert (P3' = P3) as -> by lia. assert (P3_index v = P3_index v') as EI3.
    { rewrite !P3_index_spec. change (2 ^ 30) with 1073741824. dlia. }
    assert (P2_index v = P2_index v') as EI2.
    { rewrite !P2_index_spec. change (2 ^ 21) with 2097152. dlia. }
    rewrite EI3 in E3. assert (T2' = T2) as -> by lia. rewrite EI2, Eq in E2. lia.
Qed.

(** Writing an entry of a first level table. *)
Lemma paging_update v x : 0 <= v < Q * HUGE_PAGE_SIZE ->
  let m' := set_PTE (p1_table m v) (P1_index v) x m in
  paging own Q m' /\
  (forall v', 0 <= v' < Q * HUGE_PAGE_SIZE ->
     upper m' v' = upper m v' /\ entry m' v' = if decide (v / 4096 = v' / 4096) then x else entry m v').
Proof.
  intros Hv m'.
  destruct (walk_tables v Hv) as (_ & _ & T1 & _ & _ & _ & _ & _ & A1 & _ & _ & O1 & ET & _).
  assert (forall T nd i, own !! T = Some nd -> (forall q, nd <> NP1 q) -> slot i -> PTE m' T i = PTE m T i) as Hk.
  { intros T nd i HT Hnd Hi. unfold m'. rewrite ET, PTE_set_PTE;
      [|done|apply P1_index_slot|by apply (pg_own _ _ _ Hp) in HT as [? _]|done].
    rewrite decide_False; [done|]. intros [<- _]. rewrite O1 in HT. injection HT as <-. by eapply Hnd. }
  assert (paging own Q m') as Hp'.
  { destruct Hp as [HQ Ho H4 E511 (P3 & H3 & E0 & Hq)]. split; try done.
    - rewrite (Hk _ _ _ H4); [done|done|unfold slot; lia].
    - exists P3. split; [done|]. split; [rewrite (Hk _ _ _ H4); [done|done|unfold slot; lia]|].
      intros q Hq'. destruct (Hq q Hq') as (T & T2 & H2 & E3 & H1 & E2). exists T, T2.
      split_and!; try done.
      + rewrite (Hk _ _ _ H3); [done|done|unfold slot; dlia].
      + rewrite (Hk _ _ _ H2); [done|done|apply slot_mod]. }
  split; [done|]. intros v' Hv'.
  destruct (walk_tables v' Hv') as (P3 & T2 & T1' & E4 & E3 & E2 & A3 & A2 & A1' & O3 & O2 & O1' & ET' & EU).
  assert (PTE m' (cr3 m) 0 = P3 + 103) as E4'.
  { rewrite (Hk _ _ _ (pg_P4 _ _ _ Hp)); [done|done|unfold slot; lia]. }
  assert (PTE m' P3 (P3_index v') = T2 + 103) as E3'.
  { rewrite (Hk _ _ _ O3); [done|done|apply P3_index_slot]. }
  assert (PTE m' T2 (P2_index v') = T1' + p2_flags (v' / HUGE_PAGE_SIZE)) as E2'.
  { rewrite (Hk _ _ _ O2); [done|done|apply P2_index_slot]. }
  assert (p1_table m' v' = T1') as ET1.
  { unfold p1_table. change (cr3 m') with (cr3 m). rewrite E4', (frame_entry P3 103), E3', (frame_entry T2 103), E2' by done.
    apply frame_entry; [done|]. destruct (p2_flags_or (v' / HUGE_PAGE_SIZE)) as [-> | ->]; lia. }
  split.
  - rewrite EU. unfold upper. cbv zeta. change (cr3 m') with (cr3 m).
    by rewrite E4', (frame_entry P3 103), E3', (frame_entry T2 103), E2' by done.
  - unfold entry. rewrite ET1, ET'. unfold m'. rewrite ET, PTE_set_PTE by (done || apply P1_index_slot).
    pose proof (same_entry v v' Hv Hv') as Hiff. rewrite ET, ET' in Hiff.
    do 2 case_decide; tauto || done.
Qed.
End walk.

(** ** Loops over pages *)

(** The page of an address is in the range. *)
Definition in_pages (start end_ v : Z) : Prop := start <= v < end_.

#[export] Instance in_pages_dec start end_ v : Decision (in_pages start end_ v).
Proof. unfold in_pages. apply _. Defined.

(** The state after the entries of the pages of a range went through [f]. *)
Record flags_updated (own : gmap Z node) (Q start end_ : Z) (f : Z -> Z) (m m' : memory) : Prop := {
  fu_paging : paging own Q m';
  fu_frame : same_state m m';
  fu_upper v : 0 <= v < Q * HUGE_PAGE_SIZE -> upper m' v = upper m v;
  fu_entry v : 0 <= v < Q * HUGE_PAGE_SIZE ->
    entry m' v = if decide (in_pages start end_ v) then f (entry m v) else entry m v
}.

Lemma for_pages_range {S} start end_ (body : Z -> S -> option S) s :
  start mod 4096 = 0 -> end_ mod 4096 = 0 -> 0 <= start <= end_ -> end_ < 2 ^ 64 ->
  for_pages start end_ body s =
    forM_range 0 ((end_ - start) / 4096) (fun i => body (u64 (start + i * PAGE_SIZE))) s.
Proof.
  intros H1 H2 H3 H4. unfold for_pages. change PAGE_SIZE with 4096. rewrite H1, H2. cbn [Z.eqb negb].
  rewrite wrap_small by (unfold is_uint; lia). done.
Qed.

Lemma update_pages own Q start end_ f m :
  paging own Q m -> start mod 4096 = 0 -> end_ mod 4096 = 0 -> 0 <= start <= end_ -> end_ <= Q * HUGE_PAGE_SIZE ->
  exists m', for_pages start end_ (fun a => update_P1 a f) m = Some m' /\ flags_updated own Q start end_ f m m'.
Proof.
  intros Hp H1 H2 H3 H4. pose proof (pg_Q _ _ _ Hp) as HQ. unfold HUGE_PAGE_SIZE in H4.
  rewrite for_pages_range by (done || lia).
  destruct (forM_range_ind (fun i m' => flags_updated own Q start (start + i * 4096) f m m') 0 ((end_ - start) / 4096)
    (fun i => update_P1 (u64 (start + i * PAGE_SIZE)) f) m) as (m' & -> & Hm).
  - dlia.
  - split; try done. intros v Hv. rewrite decide_False; [done|]. unfold in_pages. lia.
  - intros i m' Hi [Hp' Hs Hu He]. unfold PAGE_SIZE.
    assert (start + i * 4096 + 4096 <= end_) as Hle by dlia.
    rewrite wrap_small by (unfold is_uint; lia).
    assert (0 <= start + i * 4096 < Q * HUGE_PAGE_SIZE) as Hv by (unfold HUGE_PAGE_SIZE; lia).
    rewrite (update_P1_spec own Q m' Hp') by done.
    destruct (paging_update own Q m' Hp' (start + i * 4096) (f (entry m' (start + i * 4096))) Hv) as [Hp2 Hk].
    eexists. split; [done|]. split.
    + done.
    + eapply same_state_trans; [done|apply same_state_set_PTE].
    + intros v Hv'. rewrite (proj1 (Hk v Hv')). by apply Hu.
    + intros v Hv'. rewrite (proj2 (Hk v Hv')). unfold in_pages. case_decide as E.
      * rewrite (He _ Hv). rewrite decide_False by (unfold in_pages; lia).
        rewrite decide_True by dlia. f_equal.
        apply (same_entry own Q m Hp) in E as [ET EI]; [|done|done].
        unfold entry. by rewrite ET, EI.
      * rewrite He by done. unfold in_pages. do 2 case_decide; try done; exfalso; dlia.
  - exists m'. split; [done|]. replace (start + (end_ - start) / 4096 * 4096) with end_ in Hm by dlia. done.
Qed.
