(* ===== verification/MemoryFrames.v ===== *)
(** * Page frames: which physical pages the mapped pages use

    The frames of the user part are distinct available pages above the page
    tables, so that clearing a page can touch neither a table nor another page. *)

From S2P Require Import Prelude Utils Memory MemoryProofs MemoryTables MemoryInit MemoryPaging.

(** ** The available pages in order *)

Lemma rank_attained map n r : 0 <= r < rank map (Z.of_nat n) ->
  exists h, 0 <= h < Z.of_nat n /\ avail map h /\ rank map h = r.
Proof.
  induction n as [|n IH]; intros Hr; [change (Z.of_nat 0) with 0 in Hr; rewrite rank_0 in Hr; lia|].
  replace (Z.of_nat (S n)) with (Z.of_nat n + 1) in * by lia. rewrite rank_succ in Hr by lia.
  destruct (Z.lt_ge_cases r (rank map (Z.of_nat n))) as [Hlt|Hge].
  - destruct IH as (h & ? & ?); [lia|]. exists h. split; [lia|done].
  - case_decide as Ha; [|lia]. exists (Z.of_nat n). split_and!; try lia. done.
Qed.

Lemma page_of_spec map r : 0 <= r < rank map MAX_N_HUGE_PAGES ->
  avail map (page_of map r) /\ rank map (page_of map r) = r /\ 0 <= page_of map r < MAX_N_HUGE_PAGES.
Proof.
  intros Hr. destruct (rank_attained map (Z.to_nat MAX_N_HUGE_PAGES) r) as (h & Hh & Ha & <-).
  - rewrite Z2Nat.id by done. done.
  - rewrite Z2Nat.id in Hh by done. by rewrite page_of_rank.
Qed.

(** ** Frames above a limit, one per page *)

Record user_frames (own : gmap Z node) (Q L : Z) (m : memory) : Prop := {
  uf_tables T nd : own !! T = Some nd -> T + 4096 <= L;
  uf_above v : kernel_break <= v < Q * HUGE_PAGE_SIZE -> L <= frame (entry m v);
  uf_uint v : kernel_break <= v < Q * HUGE_PAGE_SIZE -> is_uint 64 (entry m v);
  uf_inj v v' : kernel_break <= v < Q * HUGE_PAGE_SIZE -> kernel_break <= v' < Q * HUGE_PAGE_SIZE ->
    frame (entry m v) = frame (entry m v') -> v / 4096 = v' / 4096
}.

Lemma tree_entry own b P3h P3 G Q j m v :
  tree own b (cr3 m) P3h P3 G Q j m -> Q <= 262144 -> 0 <= v < Q * HUGE_PAGE_SIZE ->
  entry m v = p1_entry (huge_page_map m) b (v / HUGE_PAGE_SIZE) (P1_index v).
Proof.
  intros Hr HQ Hv. assert (0 <= Q) as HQ0 by (unfold HUGE_PAGE_SIZE in Hv; lia).
  pose proof (tree_paging _ _ _ _ _ _ _ _ Hr (conj HQ0 HQ)) as Hp.
  destruct (walk_tables own Q m Hp v Hv) as (_ & _ & T1 & _ & _ & _ & _ & _ & _ & _ & _ & O1 & ET & _).
  unfold entry. rewrite ET. eapply (tr_f _ _ _ _ _ _ _ _ _ Hr); [done|apply P1_index_slot].
Qed.

(** The frame of page [v] of the user part after initialisation. *)
Definition user_frame (map : arr bool) (k v : Z) : Z :=
  page_of map (k + v / HUGE_PAGE_SIZE - 8) * HUGE_PAGE_SIZE + P1_index v * PAGE_SIZE.

Section after_init.
Context (own : gmap Z node) (b P3h P3 G Q j : Z) (m : memory).
Let M := huge_page_map m.
Hypothesis Hr : tree own b (cr3 m) P3h P3 G Q j m.
Hypothesis HQ : 8 <= Q < 262144.
Hypothesis Hb : 0 <= b <= MAX_N_HUGE_PAGES.
Hypothesis HQk : Q = 8 + rank M MAX_N_HUGE_PAGES - rank M b.

Lemma user_page v : kernel_break <= v < Q * HUGE_PAGE_SIZE ->
  let h := page_of M (rank M b + v / HUGE_PAGE_SIZE - 8) in
  avail M h /\ rank M h = rank M b + v / HUGE_PAGE_SIZE - 8 /\ b <= h < MAX_N_HUGE_PAGES.
Proof.
  intros Hv h. change kernel_break with 16777216 in Hv. change HUGE_PAGE_SIZE with 2097152 in *.
  pose proof (rank_nonneg M b) as Hk0.
  destruct (page_of_spec M (rank M b + v / 2097152 - 8)) as (Ha & Hrk & Hrange); [dlia|]. fold h in Ha, Hrk, Hrange.
  split; [done|]. split; [done|]. split; [|lia].
  destruct (Z.lt_ge_cases h b) as [Hlt|]; [|done].
  pose proof (rank_strict M h b ltac:(lia) Ha). dlia.
Qed.

Lemma user_frame_aligned v : kernel_break <= v < Q * HUGE_PAGE_SIZE -> aligned (user_frame M (rank M b) v).
Proof.
  intros Hv. destruct (user_page v Hv) as (_ & _ & Hh). apply table_page_aligned; [lia|apply P1_index_slot].
Qed.

Lemma init_entry v : kernel_break <= v < Q * HUGE_PAGE_SIZE -> entry m v = user_frame M (rank M b) v + 611.
Proof.
  intros Hv. rewrite (tree_entry own b P3h P3 G Q j m v Hr); [|lia|unfold kernel_break in Hv; lia].
  unfold p1_entry, user_frame. rewrite (proj2 (Z.ltb_ge _ _)).
  - fold M. done.
  - change kernel_break with 16777216 in Hv. change HUGE_PAGE_SIZE with 2097152. dlia.
Qed.

Lemma init_frame v : kernel_break <= v < Q * HUGE_PAGE_SIZE -> frame (entry m v) = user_frame M (rank M b) v.
Proof. intros Hv. rewrite init_entry by done. apply frame_entry; [by apply user_frame_aligned|lia]. Qed.

Lemma init_user_frames : user_frames own Q (page_table_break m) m.
Proof.
  pose proof (tr_tabs _ _ _ _ _ _ _ _ _ Hr) as Ht.
  pose proof (ai_break _ _ _ (tb_alloc _ _ _ _ Ht)) as HL.
  split; [intros T nd HT; by apply (tb_own _ _ _ _ Ht) in HT as (_ & _ & ?)|..].
  - intros v Hv. rewrite init_frame by done. destruct (user_page v Hv) as (_ & _ & Hh). unfold user_frame.
    pose proof (P1_index_slot v) as Hs. unfold slot in Hs. change HUGE_PAGE_SIZE with 2097152 in *.
    change PAGE_SIZE with 4096. lia.
  - intros v Hv. rewrite init_entry by done. destruct (user_frame_aligned v Hv) as [_ Hr']. unfold is_uint. lia.
  - intros v v' Hv Hv'. rewrite !init_frame by done. unfold user_frame.
    destruct (user_page v Hv) as (_ & Hrk & Hh). destruct (user_page v' Hv') as (_ & Hrk' & Hh'). cbv zeta in *.
    set (h := page_of M (rank M b + v / HUGE_PAGE_SIZE - 8)) in *.
    set (h' := page_of M (rank M b + v' / HUGE_PAGE_SIZE - 8)) in *. rewrite !P1_index_spec.
    change (2 ^ 12) with 4096. change HUGE_PAGE_SIZE with 2097152 in *. change PAGE_SIZE with 4096. intros E.
    assert (h = h') as Eh by dlia. rewrite Eh in Hrk. dlia.
Qed.

(** ** What the processor sees *)

Lemma init_paging : paging own Q m.
Proof. eapply tree_paging; [exact Hr|lia]. Qed.

Lemma upper_writable v : 0 <= v < Q * HUGE_PAGE_SIZE -> write_access (upper m v) = true.
Proof.
  intros Hv. destruct (walk_tables own Q m init_paging v Hv)
    as (P & T2 & T1 & _ & _ & _ & A3 & A2 & A1 & _ & _ & _ & _ & ->).
  cbn [write_access forallb].
  rewrite !testbit_entry by (done || lia || (destruct (p2_flags_or (v / HUGE_PAGE_SIZE)) as [-> | ->]; lia)).
  by destruct (p2_flags_or (v / HUGE_PAGE_SIZE)) as [-> | ->].
Qed.

(** A present entry with known flags at the last level. *)
Lemma translate_entry v t fl : 0 <= v < Q * HUGE_PAGE_SIZE -> entry m v = t + fl -> aligned t ->
  0 <= fl < 4096 -> Z.testbit fl 0 = true -> Z.testbit fl 1 = true -> Z.testbit fl 2 = false ->
  exists es, translate m v = Some (t + v mod 4096, es) /\ user_access es = false /\ write_access es = true.
Proof.
  intros Hv Ee Ha Hf B0 B1 B2. rewrite (translate_spec own Q m init_paging v Hv), Ee.
  rewrite testbit_entry, B0, frame_entry by (done || lia). eexists. split; [done|].
  unfold user_access, write_access. cbn [forallb]. rewrite !testbit_entry, B1, B2 by (done || lia).
  split; [done|]. by apply upper_writable.
Qed.

Lemma kernel_identity v : 0 <= v < kernel_break ->
  exists es, translate m v = Some (v, es) /\ user_access es = false /\ write_access es = true.
Proof.
  intros Hv. assert (0 <= v < Q * HUGE_PAGE_SIZE) as HvQ by (unfold kernel_break, HUGE_PAGE_SIZE in *; lia).
  destruct (translate_entry v (v / 4096 * 4096) 99 HvQ) as (es & E & Hu); try done.
  - rewrite (tree_entry own b P3h P3 _ Q _ m v Hr) by (done || lia). unfold p1_entry.
    rewrite P1_index_spec. change kernel_break with 16777216 in Hv. change HUGE_PAGE_SIZE with 2097152.
    change PAGE_SIZE with 4096. change (2 ^ 12) with 4096. rewrite (proj2 (Z.ltb_lt _ _)) by dlia. dlia.
  - unfold aligned. change kernel_break with 16777216 in Hv. change (2 ^ 52) with 4503599627370496. dlia.
  - exists es. split; [|exact Hu]. rewrite E. f_equal. f_equal. dlia.
Qed.

Lemma user_translation v : kernel_break <= v < Q * HUGE_PAGE_SIZE ->
  exists h es, avail M h /\ b <= h /\ rank M h = rank M b + (v - kernel_break) / HUGE_PAGE_SIZE /\
    translate m v = Some (h * HUGE_PAGE_SIZE + v mod HUGE_PAGE_SIZE, es) /\
    user_access es = false /\ write_access es = true.
Proof.
  intros Hv. destruct (user_page v Hv) as (Hav & Hrh & Hbh).
  assert (0 <= v < Q * HUGE_PAGE_SIZE) as HvQ by (unfold kernel_break in *; lia).
  destruct (translate_entry v (user_frame M (rank M b) v) 611 HvQ) as (es & E & Hu); try done.
  - by apply init_entry.
  - by apply user_frame_aligned.
  - eexists _, es. split; [exact Hav|]. split; [lia|]. split; [|split; [|exact Hu]].
    + rewrite Hrh. change kernel_break with 16777216. change HUGE_PAGE_SIZE with 2097152. dlia.
    + rewrite E. f_equal. f_equal. unfold user_frame. rewrite P1_index_spec. change (2 ^ 12) with 4096.
      change HUGE_PAGE_SIZE with 2097152. change PAGE_SIZE with 4096. dlia.
Qed.

Lemma remap_indices p : 0 <= p < 2 ^ 39 ->
  P4_index (remap p) = 510 /\ P3_index (remap p) = p / 2 ^ 30 /\ remap p mod 2 ^ 30 = p mod 2 ^ 30.
Proof.
  intros Hp. rewrite P4_index_spec, P3_index_spec. unfold remap, wrap.
  change (2 ^ 39) with 549755813888 in *. change (2 ^ 64) with 18446744073709551616.
  change (1024 * 2 ^ 30) with 1099511627776. change (2 ^ 30) with 1073741824. split_and!; dlia.
Qed.

Lemma remap_translation p : 0 <= p < 2 ^ 39 ->
  exists es, translate m (remap p) = Some (p, es) /\ user_access es = false.
Proof.
  intros Hpr. destruct (remap_indices p Hpr) as (I4 & I3 & I0). unfold translate.
  rewrite (proj1 (cr3_frame own Q m init_paging)), I4, (tr_e510 _ _ _ _ _ _ _ _ _ Hr).
  pose proof (own_aligned _ _ _ _ _ _ (tr_tabs _ _ _ _ _ _ _ _ _ Hr) (tr_P3h _ _ _ _ _ _ _ _ _ Hr)) as A3h.
  rewrite testbit_entry, frame_entry by (done || lia). change (Z.testbit 99 0) with true. cbn [negb].
  change (2 ^ 39) with 549755813888 in *. unfold P3_PAGE_SIZE in *.
  assert (slot (p / 2 ^ 30)) as Hs by (unfold slot; change (2 ^ 30) with 1073741824; dlia).
  rewrite I3, (tr_high _ _ _ _ _ _ _ _ _ Hr) by done. unfold P3_PAGE_SIZE.
  assert (aligned (p / 2 ^ 30 * 2 ^ 30)) as Ha.
  { unfold aligned, slot in *. change (2 ^ 30) with 1073741824 in *. change (2 ^ 52) with 4503599627370496. dlia. }
  rewrite !testbit_entry, frame_entry by (done || lia). change (Z.testbit 227 0) with true.
  change (Z.testbit 227 7) with true. cbn [negb]. cbv iota. rewrite I0. eexists.
  split; [f_equal; f_equal; change (2 ^ 30) with 1073741824; dlia|].
  unfold user_access. cbn [forallb]. by rewrite testbit_entry by (done || lia).
Qed.
End after_init.
