(* ===== verification/MemoryFlags.v ===== *)
(** * Entries under the flag operations, and clearing pages *)

From S2P Require Import Prelude Utils Memory MemoryProofs MemoryTables MemoryInit MemoryPaging MemoryFrames.

(** ** Bits of the entries the flag operations write *)

Lemma clear_page_flags_bits e i : is_uint 64 e -> 0 <= i ->
  Z.testbit (clear_page_flags e) i = ((9 <=? i) && (i <? 63)) && Z.testbit e i.
Proof.
  intros He Hi. rewrite clear_page_flags_spec by done. rewrite <- Z.shiftr_div_pow2, <- Z.shiftl_mul_pow2 by lia.
  destruct (Z.leb_spec 9 i) as [H9|H9]; cbn [andb].
  - rewrite Z.shiftl_spec, Z.shiftr_spec by lia. replace (i - 9 + 9) with i by lia.
    destruct (Z.ltb_spec i 63); [by rewrite Z.mod_pow2_bits_low by lia|by rewrite Z.mod_pow2_bits_high by lia].
  - by rewrite Z.shiftl_spec_low by lia.
Qed.

Lemma frame_bits e i : 0 <= i -> Z.testbit (frame e) i = ((12 <=? i) && (i <? 52)) && Z.testbit e i.
Proof.
  intros Hi. rewrite frame_spec. change 4096 with (2 ^ 12). rewrite <- Z.shiftr_div_pow2, <- Z.shiftl_mul_pow2 by lia.
  destruct (Z.leb_spec 12 i) as [H9|H9]; cbn [andb].
  - rewrite Z.shiftl_spec, Z.shiftr_spec by lia. replace (i - 12 + 12) with i by lia.
    destruct (Z.ltb_spec i 52); [by rewrite Z.mod_pow2_bits_low by lia|by rewrite Z.mod_pow2_bits_high by lia].
  - by rewrite Z.shiftl_spec_low by lia.
Qed.

(** Flags outside the address bits. *)
Definition flag_bits (fl : Z) : Prop := frame fl = 0.

Lemma frame_set_flags e fl : is_uint 64 e -> flag_bits fl -> frame (Z.lor (clear_page_flags e) fl) = frame e.
Proof.
  intros He Hf. apply Z.bits_inj'. intros i Hi. pose proof (frame_bits fl i Hi) as Hb. unfold flag_bits in Hf.
  rewrite Hf, Z.bits_0 in Hb. rewrite !frame_bits, Z.lor_spec, clear_page_flags_bits by done.
  destruct (Z.leb_spec 12 i), (Z.ltb_spec i 52); cbn [andb] in *; try done.
  rewrite (proj2 (Z.leb_le 9 i)), (proj2 (Z.ltb_lt i 63)) by lia. cbn [andb].
  destruct (Z.testbit fl i); [done|apply orb_false_r].
Qed.

Lemma testbit_set_flags e fl i :
  is_uint 64 e -> 0 <= i < 9 \/ i = 63 -> Z.testbit (Z.lor (clear_page_flags e) fl) i = Z.testbit fl i.
Proof.
  intros He Hi. rewrite Z.lor_spec, clear_page_flags_bits by (done || lia).
  destruct Hi as [Hi| ->]; [by rewrite (proj2 (Z.leb_gt 9 i)) by lia|done].
Qed.

Lemma uint_bits w e : 0 <= w -> 0 <= e -> (forall i, w <= i -> Z.testbit e i = false) -> is_uint w e.
Proof.
  intros Hw He Hb. unfold is_uint. split; [done|]. replace e with (e mod 2 ^ w); [by apply Z.mod_pos_bound, Z.pow_pos_nonneg|].
  apply Z.bits_inj'. intros i Hi. destruct (Z.ltb_spec i w); [by rewrite Z.mod_pow2_bits_low by lia|].
  rewrite Z.mod_pow2_bits_high by lia. symmetry. by apply Hb.
Qed.

Lemma uint_high_bit w e i : is_uint w e -> w <= i -> Z.testbit e i = false.
Proof.
  intros He Hi. unfold is_uint in He. destruct (Z.lt_ge_cases w 0); [rewrite Z.pow_neg_r in He; lia|].
  rewrite <- (Z.mod_small e (2 ^ w)) by done. by rewrite Z.mod_pow2_bits_high by lia.
Qed.

Lemma set_flags_uint e fl : is_uint 64 e -> is_uint 64 fl -> is_uint 64 (Z.lor (clear_page_flags e) fl).
Proof.
  intros He Hf. apply uint_bits; [lia| |].
  - apply Z.lor_nonneg. split; [|unfold is_uint in Hf; lia]. rewrite clear_page_flags_spec by done.
    change (2 ^ 9) with 512. change (2 ^ 63) with 9223372036854775808. dlia.
  - intros i Hi. rewrite Z.lor_spec, clear_page_flags_bits by (done || lia).
    rewrite (proj2 (Z.ltb_ge i 63)) by lia. rewrite andb_false_r. by apply (uint_high_bit 64).
Qed.

(** The four operations with the access they give: user, write, no-execute. *)
Definition flag_ops : list ((Z -> Z -> memory -> option memory) * (bool * bool * bool)) :=
  [(set_page_flags_user_writable, (true, true, true)); (set_page_flags_user_readonly, (true, false, true));
   (set_page_flags_user_executable, (true, false, false)); (set_page_flags_kernel, (false, true, false))].

(** Each is one pass over the pages that replaces the low flags. *)
Lemma flag_ops_spec op u w x : (op, (u, w, x)) ∈ flag_ops ->
  exists fl, (forall start end_, op start end_ = for_pages start end_ (fun a => update_P1 a (fun P1 => Z.lor (clear_page_flags P1) fl))) /\
    flag_bits fl /\ is_uint 64 fl /\ Z.testbit fl 0 = true /\ Z.testbit fl 2 = u /\ Z.testbit fl 1 = w /\ Z.testbit fl 63 = x.
Proof.
  intros Hin. unfold flag_ops in Hin. rewrite !elem_of_cons, elem_of_nil in Hin.
  destruct Hin as [E|[E|[E|[E|[]]]]]; injection E as -> -> -> ->; eexists; (split; [intros; reflexivity|]);
    vm_compute; split_and!; done.
Qed.

Lemma upper_access own Q m v : paging own Q m -> kernel_break <= v < Q * HUGE_PAGE_SIZE ->
  user_access (upper m v) = true /\ write_access (upper m v) = true /\ no_execute (upper m v) = false.
Proof.
  intros Hp Hv. assert (0 <= v < Q * HUGE_PAGE_SIZE) as Hv0 by (unfold kernel_break in Hv; lia).
  destruct (walk_tables own Q m Hp v Hv0) as (P & T2 & T1 & _ & _ & _ & A3 & A2 & A1 & _ & _ & _ & _ & ->).
  assert (p2_flags (v / HUGE_PAGE_SIZE) = 103) as ->.
  { unfold p2_flags. rewrite (proj2 (Z.ltb_ge _ _)); [done|]. change kernel_break with 16777216 in Hv.
    change HUGE_PAGE_SIZE with 2097152. dlia. }
  assert (forall t, aligned t -> Z.testbit (t + 103) 63 = false) as H63.
  { intros t [_ Ht]. rewrite <- (Z.mod_small (t + 103) (2 ^ 63)) by lia. by rewrite Z.mod_pow2_bits_high by lia. }
  cbn [user_access write_access no_execute forallb existsb]. rewrite !H63, !testbit_entry by (done || lia). done.
Qed.

(** ** Written pages *)

(** Word [i] of the page of [v]. *)
Definition page_word (m : memory) (v i : Z) : Z := word (phys m) (frame (entry m v) + 8 * i).

Definition written (e : Z) : bool := negb (Z.land e PTE_DUCK_WRITTEN =? 0).

Definition present (Q : Z) (m : memory) : Prop :=
  forall v, kernel_break <= v < Q * HUGE_PAGE_SIZE -> Z.testbit (entry m v) 0 = true.

Lemma frame_is_aligned e : aligned (frame e).
Proof. rewrite frame_spec. unfold aligned. change (2 ^ 52) with 4503599627370496. split; dlia. Qed.

Definition cleared_entry (e : Z) : Z := Z.land e (not64 (flags [PTE_DIRTY; PTE_DUCK_WRITTEN])).

Lemma cleared_entry_spec e : is_uint 64 e ->
  frame (cleared_entry e) = frame e /\ written (cleared_entry e) = false /\ is_uint 64 (cleared_entry e) /\
  Z.testbit (cleared_entry e) 0 = Z.testbit e 0.
Proof.
  intros He. unfold cleared_entry. change (flags [PTE_DIRTY; PTE_DUCK_WRITTEN]) with 576. rewrite not64_ldiff by done.
  split; [|split; [|split]].
  - apply Z.bits_inj'. intros i Hi. rewrite !frame_bits, Z.ldiff_spec by done.
    destruct (Z.leb_spec 12 i); [|done]. destruct (Z.ltb_spec i 52); [|done]. cbn [andb].
    replace (Z.testbit 576 i) with false; [by rewrite andb_true_r|].
    rewrite <- (Z.mod_small 576 (2 ^ 12)) by done. by rewrite Z.mod_pow2_bits_high by lia.
  - unfold written. change PTE_DUCK_WRITTEN with (2 ^ 9).
    replace (Z.land (Z.ldiff e 576) (2 ^ 9)) with 0; [done|]. symmetry. apply Z.bits_inj'. intros i Hi.
    rewrite Z.land_spec, Z.ldiff_spec, Z.bits_0, Z.pow2_bits_eqb by done.
    destruct (Z.eqb_spec 9 i) as [<-|]; [|apply andb_false_r]. by rewrite andb_false_r.
  - unfold is_uint in *. rewrite Z.ldiff_land. split.
    + apply Z.land_nonneg. lia.
    + assert (Z.land e (Z.lnot 576) = Z.land e (Z.lnot 576) mod 2 ^ 64) as ->; [|by apply Z.mod_pos_bound].
      apply Z.bits_inj'. intros i Hi. destruct (Z.ltb_spec i 64); [by rewrite Z.mod_pow2_bits_low by lia|].
      rewrite Z.mod_pow2_bits_high, Z.land_spec by lia. rewrite <- (Z.mod_small e (2 ^ 64)) by done.
      by rewrite Z.mod_pow2_bits_high by lia.
  - rewrite Z.ldiff_spec. apply andb_true_r.
Qed.

(** Memory with disjoint present user frames. *)
Record clean_frames (own : gmap Z node) (Q L : Z) (m : memory) : Prop := {
  cf_paging : paging own Q m;
  cf_frames : user_frames own Q L m;
  cf_present : present Q m
}.

(** A write outside the tables leaves the tree alone. *)
Lemma paging_keep own Q m m' :
  paging own Q m -> cr3 m' = cr3 m ->
  (forall T nd i, own !! T = Some nd -> slot i -> PTE m' T i = PTE m T i) ->
  paging own Q m' /\ forall v, 0 <= v < Q * HUGE_PAGE_SIZE ->
    entry m' v = entry m v /\ upper m' v = upper m v /\ p1_table m' v = p1_table m v.
Proof.
  intros Hp Ec Hk. split.
  - destruct Hp as [HQ Ho H4 E511 (P3 & H3 & E0 & Hq)]. split; rewrite ?Ec; try done.
    + rewrite (Hk _ _ _ H4); [done|unfold slot; lia].
    + exists P3. split; [done|]. split; [rewrite (Hk _ _ _ H4); [done|unfold slot; lia]|].
      intros q Hq'. destruct (Hq q Hq') as (T & T2 & H2 & E3 & H1 & E2). exists T, T2. split_and!; try done.
      * rewrite (Hk _ _ _ H3); [done|unfold slot; dlia].
      * rewrite (Hk _ _ _ H2); [done|apply slot_mod].
  - intros v Hv.
    destruct (walk_tables own Q m Hp v Hv) as (P3 & T2 & T1 & E4 & E3 & E2 & A3 & A2 & A1 & O3 & O2 & O1 & ET & EU).
    assert (p1_table m' v = T1 /\ upper m' v = upper m v) as [ET' EU'].
    { rewrite EU. unfold p1_table, upper. cbv zeta. rewrite Ec.
      rewrite !(Hk _ _ 0 (pg_P4 _ _ _ Hp)) by (unfold slot; lia). rewrite !E4, !(frame_entry P3 103) by done.
      rewrite !(Hk _ _ _ O3 (P3_index_slot v)), !E3, !(frame_entry T2 103) by done.
      rewrite !(Hk _ _ _ O2 (P2_index_slot v)), !E2. split; [|done]. apply frame_entry; [done|].
      destruct (p2_flags_or (v / HUGE_PAGE_SIZE)) as [-> | ->]; lia. }
    split; [|split; [done|congruence]]. unfold entry. rewrite ET', ET. by rewrite (Hk _ _ _ O1 (P1_index_slot v)).
Qed.

(** ** Memory closed to user code

    Outside the user part the walk meets an entry without the user bit, or
    none. *)

Record closed (own : gmap Z node) (Q : Z) (m : memory) : Prop := {
  cl_Q : 8 <= Q;
  cl_P4 i : slot i -> i <> 0 -> Z.testbit (PTE m (cr3 m) i) 2 = false;
  cl_kernel v : 0 <= v < kernel_break -> Z.testbit (entry m v) 2 = false;
  cl_top v : Q * HUGE_PAGE_SIZE <= v < 2 ^ 39 ->
    PTE m (frame (PTE m (cr3 m) 0)) (P3_index v) = 0 \/
    exists T2 g, own !! T2 = Some (NP2 g) /\ PTE m (frame (PTE m (cr3 m) 0)) (P3_index v) = T2 + 103 /\ PTE m T2 (P2_index v) = 0
}.

Lemma closed_access own Q m v p es : paging own Q m -> closed own Q m -> canonical v = true ->
  ~ (kernel_break <= v < Q * HUGE_PAGE_SIZE) -> translate m v = Some (p, es) -> user_access es = false.
Proof.
  intros Hp [HQ H4 Hk Ht] Hc Hv. destruct (decide (P4_index v = 0)) as [I4|I4].
  - assert (0 <= v < 2 ^ 39) as Hr.
    { rewrite P4_index_spec in I4. unfold canonical in Hc. change (2 ^ 39) with 549755813888 in *.
      change (2 ^ 47) with 140737488355328 in Hc. change (2 ^ 64) with 18446744073709551616 in Hc. dlia. }
    destruct (Z.lt_ge_cases v kernel_break) as [Hlo|Hhi].
    + rewrite (translate_spec own Q m Hp v) by (change kernel_break with 16777216 in Hlo; unfold HUGE_PAGE_SIZE; lia).
      case_if; [|done]. intros [= _ <-]. unfold user_access. cbn [forallb]. by rewrite Hk by lia.
    + assert (Q * HUGE_PAGE_SIZE <= v < 2 ^ 39) as Hv2 by lia. unfold translate. rewrite (proj1 (cr3_frame own Q m Hp)), I4.
      destruct (Z.testbit (PTE m (cr3 m) 0) 0); [|done]. cbn [negb].
      destruct (Ht v Hv2) as [->|(T2 & g & O2 & -> & E2)]; [done|].
      destruct (pg_own _ _ _ Hp _ _ O2) as [A2 _]. destruct (entry_bits T2 103 A2) as [B0 B7]; [by right|].
      rewrite B0, B7, (frame_entry T2 103), E2 by done. done.
  - pose proof (H4 _ (P4_index_slot v) I4) as H2. unfold translate. rewrite (proj1 (cr3_frame own Q m Hp)).
    set (e4 := PTE m (cr3 m) (P4_index v)) in *. repeat (case_if; try done); intros [= _ <-];
      unfold user_access; cbn [forallb]; rewrite H2, ?andb_false_r; done.
Qed.

Lemma closed_keep own Q m m' : paging own Q m -> closed own Q m -> cr3 m' = cr3 m ->
  (forall T nd i, own !! T = Some nd -> (forall q, nd <> NP1 q) -> slot i -> PTE m' T i = PTE m T i) ->
  (forall v, 0 <= v < kernel_break -> entry m' v = entry m v) -> closed own Q m'.
Proof.
  intros Hp [HQ H4 Hk Ht] Ec Hkeep He. destruct (pg_low _ _ _ Hp) as (P3 & H3 & E0 & _).
  pose proof (pg_P4 _ _ _ Hp) as O4. destruct (pg_own _ _ _ Hp _ _ H3) as [A3 _].
  assert (PTE m' (cr3 m) 0 = PTE m (cr3 m) 0) as E0' by (apply (Hkeep _ _ _ O4); [done|unfold slot; lia]).
  split; [done| | |]; rewrite ?Ec.
  - intros i Hi Hne. rewrite (Hkeep _ _ _ O4); [by apply H4|done|done].
  - intros v Hv. rewrite He by done. by apply Hk.
  - intros v Hv. rewrite E0', E0, (frame_entry P3 103) by done. rewrite (Hkeep _ _ _ H3); [|done|apply P3_index_slot].
    pose proof (Ht v Hv) as Htv. rewrite E0, (frame_entry P3 103) in Htv by done.
    destruct Htv as [|(T2 & g & O2 & E2 & E1)]; [by left|right]. exists T2, g. split; [done|]. split; [done|].
    rewrite (Hkeep _ _ _ O2); [done|done|apply P2_index_slot].
Qed.

(** An update of an entry of the user part. *)
Lemma closed_update own Q m v x : paging own Q m -> closed own Q m -> kernel_break <= v < Q * HUGE_PAGE_SIZE ->
  closed own Q (set_PTE (p1_table m v) (P1_index v) x m).
Proof.
  intros Hp Hc Hv. assert (0 <= v < Q * HUGE_PAGE_SIZE) as Hv0 by (unfold kernel_break in Hv; lia).
  destruct (paging_update own Q m Hp v x Hv0) as [_ Hk].
  destruct (walk_tables own Q m Hp v Hv0) as (_ & _ & T1 & _ & _ & _ & _ & _ & A1 & _ & _ & O1 & ET & _).
  eapply closed_keep; [done|done|done| |].
  - intros T nd i HT Hnd Hi. rewrite ET, PTE_set_PTE; [|done|apply P1_index_slot|by apply (pg_own _ _ _ Hp) in HT as [? _]|done].
    rewrite decide_False; [done|]. intros [<- _]. rewrite O1 in HT. injection HT as <-. by eapply Hnd.
  - intros a Ha. change kernel_break with 16777216 in *. rewrite (proj2 (Hk a ltac:(unfold HUGE_PAGE_SIZE in *; lia))).
    rewrite decide_False; [done|]. dlia.
Qed.

Lemma tree_closed own b P3h P3 Q j m : tree own b (cr3 m) P3h P3 ((Q - 1) / 512 + 1) Q j m -> 8 <= Q < 262144 -> closed own Q m.
Proof.
  intros Hr HQ. pose proof (tree_paging _ _ _ _ _ _ _ _ Hr ltac:(lia)) as Hp. split.
  - lia.
  - intros i Hi Hne. destruct (decide (i = 511)) as [->|]; [|destruct (decide (i = 510)) as [->|]].
    + rewrite (tr_e511 _ _ _ _ _ _ _ _ _ Hr). rewrite testbit_entry by (apply (cr3_frame own Q m Hp) || lia). done.
    + rewrite (tr_e510 _ _ _ _ _ _ _ _ _ Hr). destruct (pg_own _ _ _ Hp _ _ (tr_P3h _ _ _ _ _ _ _ _ _ Hr)) as [A _].
      rewrite testbit_entry by (done || lia). done.
    + by rewrite (tr_other _ _ _ _ _ _ _ _ _ Hr).
  - intros v Hv. change kernel_break with 16777216 in Hv.
    rewrite (tree_entry own b P3h P3 _ Q _ m v Hr) by (unfold HUGE_PAGE_SIZE; lia). unfold p1_entry.
    pose proof (P1_index_slot v) as Hs. unfold slot in Hs. change HUGE_PAGE_SIZE with 2097152.
    rewrite (proj2 (Z.ltb_lt _ _)) by dlia. assert (aligned (v / 2097152 * 2097152 + P1_index v * PAGE_SIZE)) as Ha.
    { unfold aligned. change PAGE_SIZE with 4096. change (2 ^ 52) with 4503599627370496. dlia. }
    rewrite testbit_entry by (done || lia). done.
  - intros v Hv. destruct (pg_own _ _ _ Hp _ _ (tr_P3 _ _ _ _ _ _ _ _ _ Hr)) as [A3 _].
    rewrite (tr_e0 _ _ _ _ _ _ _ _ _ Hr), (frame_entry P3 103) by done. pose proof (P3_index_slot v) as Hs3.
    destruct (Z.lt_ge_cases (P3_index v) ((Q - 1) / 512 + 1)) as [Hlt|Hge];
      [|left; by apply (tr_g0 _ _ _ _ _ _ _ _ _ Hr)].
    destruct (tr_g _ _ _ _ _ _ _ _ _ Hr _ Hs3 Hlt) as (T2 & O2 & E2). right. exists T2, (P3_index v).
    split; [done|]. split; [done|]. apply (tr_z _ _ _ _ _ _ _ _ _ Hr T2 (P3_index v)); [done|apply P2_index_slot|].
    rewrite P3_index_spec, P2_index_spec. unfold HUGE_PAGE_SIZE in Hv. change (2 ^ 39) with 549755813888 in Hv.
    change (2 ^ 30) with 1073741824. change (2 ^ 21) with 2097152. dlia.
Qed.

(** ** Clearing written pages *)

Lemma word_zero_page ph p a : word (zero_page p ph) a =
  if decide (p <= a < p + 4096 /\ (a - p) mod 8 = 0) then 0 else word ph a.
Proof.
  unfold zero_page. change (PAGE_SIZE / 8) with 512.
  pose proof (for_range_ind (fun n ph' => word ph' a =
    if decide (p <= a < p + 8 * n /\ (a - p) mod 8 = 0) then 0 else word ph a) 0 512
    (fun i ph => <[p + 8 * i := 0]> ph) ph) as H. cbv beta in H. rewrite H; clear H; [do 2 case_decide; done || lia|lia| |].
  - rewrite decide_False; [done|lia].
  - intros n ph' Hn IH. unfold word in *. rewrite lookup_insert. destruct (decide (p + 8 * n = a)) as [E|E].
    + rewrite decide_True; [done|]. split; [lia|]. subst a. replace (p + 8 * n - p) with (n * 8) by lia. by apply Z.mod_mul.
    + rewrite IH. do 2 case_decide; try done; exfalso; dlia.
Qed.

Lemma clear_page_turn own Q L m a :
  clean_frames own Q L m -> kernel_break <= a < Q * HUGE_PAGE_SIZE -> a mod 4096 = 0 ->
  exists m', clear_duck_written_page a m = Some m' /\ clean_frames own Q L m' /\ vaddr_break m' = vaddr_break m /\
    (closed own Q m -> closed own Q m') /\
    forall v, kernel_break <= v < Q * HUGE_PAGE_SIZE ->
      let hit := (v / 4096 =? a / 4096) && written (entry m v) in
      entry m' v = (if hit then cleared_entry (entry m v) else entry m v) /\
      forall i, slot i -> page_word m' v i = if hit then 0 else page_word m v i.
Proof.
  intros [Hp Hu Hpr] Ha Hal. assert (0 <= a < Q * HUGE_PAGE_SIZE) as Ha0 by (unfold kernel_break in Ha; lia).
  unfold clear_duck_written_page. rewrite (get_P1_spec own Q m Hp a Ha0), mbind_Some.
  fold (written (entry m a)). destruct (written (entry m a)) eqn:Ew.
  2: { exists m. split; [done|]. split; [by split|]. split; [done|]. split; [done|]. intros v Hv. cbv zeta. set (hit := (v / 4096 =? a / 4096) && written (entry m v)). assert (hit = false) as ->; [|done].
       unfold hit. destruct (Z.eqb_spec (v / 4096) (a / 4096)) as [E|]; [|done]. cbn [andb].
       assert (0 <= v < Q * HUGE_PAGE_SIZE) as Hv0 by (unfold kernel_break in Hv; lia).
       apply (same_entry own Q m Hp v a Hv0 Ha0) in E as [E1 E2]. unfold entry in *. by rewrite E1, E2. }
  rewrite (translate_spec own Q m Hp a Ha0), (Hpr a Ha), mbind_Some. cbn [fst]. rewrite Hal, Z.add_0_r.
  set (f := frame (entry m a)). pose proof (frame_is_aligned (entry m a)) as Hfa. fold f in Hfa.
  set (m1 := set_phys (zero_page f (phys m)) m).
  destruct (paging_keep own Q m m1 Hp eq_refl) as [Hp1 Hk1].
  { intros T nd i HT Hi. destruct (pg_own _ _ _ Hp _ _ HT) as [HTa _]. unfold m1. rewrite PTE_zero_page by done.
    rewrite decide_False; [done|]. intros E. pose proof (uf_tables _ _ _ _ Hu _ _ HT).
    pose proof (uf_above _ _ _ _ Hu a Ha). fold f in H0. lia. }
  rewrite (update_P1_spec own Q m1 Hp1 a _ Ha0). destruct (Hk1 a Ha0) as (Ee & _ & ET). rewrite Ee, ET.
  fold (cleared_entry (entry m a)). set (x := cleared_entry (entry m a)).
  pose proof (paging_update own Q m1 Hp1 a x Ha0) as [Hp2 Hk2]. cbv zeta in Hp2, Hk2. rewrite ET in Hp2, Hk2.
  set (m2 := set_PTE (p1_table m a) (P1_index a) x m1) in *.
  destruct (cleared_entry_spec (entry m a) (uf_uint _ _ _ _ Hu a Ha)) as (Cf & Cw & Cu & C0). fold x in Cf, Cw, Cu, C0.
  assert (forall v, kernel_break <= v < Q * HUGE_PAGE_SIZE ->
    entry m2 v = if decide (a / 4096 = v / 4096) then x else entry m v) as He.
  { intros v Hv. assert (0 <= v < Q * HUGE_PAGE_SIZE) as Hv0 by (unfold kernel_break in Hv; lia).
    rewrite (proj2 (Hk2 v Hv0)). case_decide; [done|]. apply (Hk1 v Hv0). }
  assert (forall v, kernel_break <= v < Q * HUGE_PAGE_SIZE -> a / 4096 = v / 4096 -> entry m v = entry m a) as Hsame.
  { intros v Hv E. assert (0 <= v < Q * HUGE_PAGE_SIZE) as Hv0 by (unfold kernel_break in Hv; lia).
    apply (same_entry own Q m Hp a v Ha0 Hv0) in E as [E1 E2]. unfold entry. by rewrite <- E1, <- E2. }
  assert (forall v, kernel_break <= v < Q * HUGE_PAGE_SIZE -> frame (entry m2 v) = frame (entry m v)) as Hf.
  { intros v Hv. rewrite He by done. case_decide as E; [|done]. by rewrite Cf, (Hsame v Hv E). }
  exists m2. split; [done|]. split.
  - split; [done| |].
    + split.
      * apply (uf_tables _ _ _ _ Hu).
      * intros v Hv. rewrite Hf by done. by apply (uf_above _ _ _ _ Hu).
      * intros v Hv. rewrite He by done. case_decide; [done|]. by apply (uf_uint _ _ _ _ Hu).
      * intros v v' Hv Hv'. rewrite !Hf by done. by apply (uf_inj _ _ _ _ Hu).
    + intros v Hv. rewrite He by done. case_decide; [rewrite C0; by apply Hpr|by apply Hpr].
  - split; [done|]. split.
    { intros Hcl. assert (m2 = set_PTE (p1_table m1 a) (P1_index a) x m1) as -> by (by rewrite ET).
      apply closed_update; [done| |done]. eapply closed_keep; [exact Hp|done|done| |].
      - intros T nd i HT _ Hi. destruct (pg_own _ _ _ Hp _ _ HT) as [HTa _]. unfold m1. rewrite PTE_zero_page by done.
        rewrite decide_False; [done|]. intros E. pose proof (uf_tables _ _ _ _ Hu _ _ HT).
        pose proof (uf_above _ _ _ _ Hu a Ha). fold f in H0. lia.
      - intros v Hv. apply Hk1. pose proof (cl_Q _ _ _ Hcl). change kernel_break with 16777216 in Hv. unfold HUGE_PAGE_SIZE. lia. }
    intros v Hv. cbv zeta. set (hit := (v / 4096 =? a / 4096) && written (entry m v)). rewrite He by done. split.
    + unfold hit. case_decide as E.
      * rewrite (proj2 (Z.eqb_eq _ _)) by done. rewrite (Hsame v Hv E), Ew. done.
      * rewrite (proj2 (Z.eqb_neq _ _)) by done. done.
    + intros i Hi. unfold page_word. rewrite Hf by done.
      assert (word (phys m2) (frame (entry m v) + 8 * i) = word (zero_page f (phys m)) (frame (entry m v) + 8 * i)) as ->.
      { unfold m2, set_PTE, m1, word. cbn [phys set_phys].
        destruct (walk_tables own Q m Hp a Ha0) as (_ & _ & T1 & _ & _ & _ & _ & _ & A1 & _ & _ & O1 & -> & _).
        rewrite PTE_addr_spec by (done || apply P1_index_slot). rewrite lookup_insert_ne; [done|].
        pose proof (uf_tables _ _ _ _ Hu _ _ O1). pose proof (uf_above _ _ _ _ Hu v Hv).
        pose proof (P1_index_slot a) as Hs. unfold slot in *. lia. }
      rewrite word_zero_page. unfold hit. unfold slot in Hi. pose proof (frame_is_aligned (entry m v)) as [Hva _].
      destruct (Z.eqb_spec (v / 4096) (a / 4096)) as [E|E]; cbn [andb].
      * rewrite (Hsame v Hv) by done. rewrite Ew. fold f. rewrite decide_True; [done|].
        split; [lia|]. replace (f + 8 * i - f) with (i * 8) by lia. by apply Z.mod_mul.
      * rewrite decide_False; [done|]. intros [Hin _].
        apply E. apply (uf_inj _ _ _ _ Hu v a Hv Ha). fold f. destruct Hfa as [Hfa _]. dlia.
Qed.

(** The pages of a range. *)
Lemma clear_pages own Q L m start end_ :
  clean_frames own Q L m -> start mod 4096 = 0 -> end_ mod 4096 = 0 ->
  kernel_break <= start <= end_ -> end_ <= Q * HUGE_PAGE_SIZE ->
  exists m', clear_duck_written_pages start end_ m = Some m' /\ clean_frames own Q L m' /\ vaddr_break m' = vaddr_break m /\ (closed own Q m -> closed own Q m') /\
    forall v, kernel_break <= v < Q * HUGE_PAGE_SIZE ->
      let hit := bool_decide (start <= v < end_) && written (entry m v) in
      entry m' v = (if hit then cleared_entry (entry m v) else entry m v) /\
      forall i, slot i -> page_word m' v i = if hit then 0 else page_word m v i.
Proof.
  intros Hc Hs He Hr HQ. pose proof (pg_Q _ _ _ (cf_paging _ _ _ _ Hc)) as HQ0.
  unfold HUGE_PAGE_SIZE in HQ. change kernel_break with 16777216 in Hr.
  unfold clear_duck_written_pages. rewrite for_pages_range by (done || lia).
  destruct (forM_range_ind (fun k m' => clean_frames own Q L m' /\ vaddr_break m' = vaddr_break m /\ (closed own Q m -> closed own Q m') /\
    forall v, kernel_break <= v < Q * HUGE_PAGE_SIZE ->
      let hit := bool_decide (start <= v < start + k * 4096) && written (entry m v) in
      entry m' v = (if hit then cleared_entry (entry m v) else entry m v) /\
      forall i, slot i -> page_word m' v i = if hit then 0 else page_word m v i) 0 ((end_ - start) / 4096)
    (fun i => clear_duck_written_page (u64 (start + i * PAGE_SIZE))) m) as (m' & -> & Hm').
  - dlia.
  - split; [done|]. split; [done|]. split; [done|]. intros v Hv. cbv zeta. rewrite bool_decide_eq_false_2 by lia. done.
  - intros k m' Hk (Hc' & Hb' & Hl' & Hm'). unfold PAGE_SIZE. assert (start + k * 4096 + 4096 <= end_) as Hle by dlia.
    rewrite wrap_small by (unfold is_uint; lia).
    destruct (clear_page_turn own Q L m' (start + k * 4096) Hc') as (m'' & -> & Hc'' & Hb'' & Hl'' & Hm'').
    + change kernel_break with 16777216. unfold HUGE_PAGE_SIZE. lia.
    + dlia.
    + exists m''. split; [done|]. split; [done|]. split; [congruence|]. split; [auto|]. intros v Hv. cbv zeta in *.
      destruct (Hm' v Hv) as [E' W']. destruct (Hm'' v Hv) as [E'' W'']. rewrite E'' in *. clear E''.
      destruct (Z.eqb_spec (v / 4096) ((start + k * 4096) / 4096)) as [Ep|Ep].
      * rewrite bool_decide_eq_false_2 in E', W' by dlia. rewrite bool_decide_eq_true_2 by dlia.
        cbn [andb] in *. rewrite E' in *. split; [done|]. intros i Hi. rewrite W'', W' by done. done.
      * replace (bool_decide (start <= v < start + (k + 1) * 4096)) with (bool_decide (start <= v < start + k * 4096)).
        2: { apply bool_decide_ext. dlia. }
        cbn [andb] in *. split; [done|]. intros i Hi. rewrite W'' by done. by apply W'.
  - replace (start + (end_ - start) / 4096 * 4096) with end_ in Hm' by dlia.
    exists m'. split; [done|]. exact Hm'.
Qed.
