(* ===== verification/Multiboot.v ===== *)
(** * lib/multiboot2_loader.cpp: the memory map of the boot loader

    The boot information is the list of its bytes, read with bounds checks; the
    loader walks its tags, registers the available huge pages and copies the
    command line. *)

From S2P Require Import Prelude Utils Memory MemoryProofs MemoryTables MemoryInit.

Definition MULTIBOOT_TAG_TYPE_END : Z := 0.
Definition MULTIBOOT_TAG_TYPE_CMDLINE : Z := 1.
Definition MULTIBOOT_TAG_TYPE_MMAP : Z := 6.
Definition MULTIBOOT_MEMORY_AVAILABLE : Z := 1.

(** An [n]-byte field at an offset. *)
Definition field (n off : nat) (info : list Z) : option Z :=
  if (off + n <=? length info)%nat then Some (load_le n off info) else None.

Record multiboot_mmap_entry := mkEntry { e_addr : Z; e_len : Z; e_type : Z }.

Definition read_entry (off : nat) (info : list Z) : option multiboot_mmap_entry :=
  addr ← field 8 off info;
  len ← field 8 (off + 8) info;
  type ← field 4 (off + 16) info;
  Some (mkEntry addr len type).

(** The pages [start, end) in steps of a huge page; both are multiples. *)
Definition register_pages (start end_ : Z) : memory -> option memory :=
  forM_range 0 ((end_ - start) / HUGE_PAGE_SIZE)
    (fun i => register_available_huge_page (start + i * HUGE_PAGE_SIZE)).

(** The body of the loop of [load_mmap]; [ebss] is the end of the kernel. *)
Definition load_entry (ebss : Z) (e : multiboot_mmap_entry) (m : memory) : option memory :=
  if e_type e =? MULTIBOOT_MEMORY_AVAILABLE then
    let start := round_up (e_addr e) HUGE_PAGE_SIZE in
    let end_ := round_down (u64 (e_addr e + e_len e)) HUGE_PAGE_SIZE in
    let start := if start <? ebss then round_up ebss HUGE_PAGE_SIZE else start in
    register_pages start end_ m
  else Some m.

(** [while (e != mmap + size)]; [fuel] bounds the entries. *)
Fixpoint load_entries (fuel : nat) (ebss : Z) (e last entry_size : nat) (info : list Z) (m : memory) : option memory :=
  if (e =? last)%nat then Some m
  else
    match fuel with
    | O => None
    | S fuel' =>
        en ← read_entry e info;
        m ← load_entry ebss en m;
        load_entries fuel' ebss (e + entry_size) last entry_size info m
    end.

Definition load_mmap (ebss : Z) (mmap : nat) (info : list Z) (m : memory) : option memory :=
  size ← field 4 (mmap + 4) info;
  entry_size ← field 4 (mmap + 8) info;
  load_entries (length info) ebss (mmap + 16) (mmap + Z.to_nat size) (Z.to_nat entry_size) info m.

Definition MAX_LENGTH : nat := 256.

(** [strncpy(dst, src, n)]: the [n] bytes written. *)
Definition strncpy (n : nat) (src : list Z) : option (list Z) :=
  let s := take_while (fun c => negb (c =? 0)) src in
  if (n <=? length s)%nat then Some (take n s)
  else if (length s <? length src)%nat then Some (s ++ replicate (n - length s) 0) else None.

Record loader := mkLoader { ld_mem : memory; ld_cmd : list Z }.

(** The loop of [load] from the tag at [tag]. *)
Fixpoint load_tags (fuel : nat) (ebss : Z) (tag : nat) (info : list Z) (s : loader) : option loader :=
  type ← field 4 tag info;
  if type =? MULTIBOOT_TAG_TYPE_END then Some s
  else
    match fuel with
    | O => None
    | S fuel' =>
        s ← (if type =? MULTIBOOT_TAG_TYPE_MMAP then
               m ← load_mmap ebss tag info (ld_mem s); Some (mkLoader m (ld_cmd s))
             else if type =? MULTIBOOT_TAG_TYPE_CMDLINE then
               c ← strncpy (MAX_LENGTH - 1) (drop (tag + 8) info);
               Some (mkLoader (ld_mem s) (splice 0 c (ld_cmd s)))
             else Some s);
        size ← field 4 (tag + 4) info;
        load_tags fuel' ebss (tag + 8 * Z.to_nat (u32 (size + 7) / 8)) info s
    end.

(** The first tag follows the eight bytes of the header. *)
Definition load (ebss : Z) (info : list Z) (s : loader) : option loader :=
  load_tags (length info) ebss 8 info s.

(** ** Registering *)

Lemma register_pages_ok start end_ m :
  registered m -> start mod HUGE_PAGE_SIZE = 0 -> end_ mod HUGE_PAGE_SIZE = 0 -> 0 <= start ->
  end_ <= MAX_MEMORY_SIZE ->
  exists m', register_pages start end_ m = Some m' /\ registered m' /\ phys m' = phys m /\
    (forall i, avail (huge_page_map m') i <-> avail (huge_page_map m) i \/
       (8 <= i /\ start <= i * HUGE_PAGE_SIZE < end_)).
Proof.
  intros Hreg Hs He Hs0 Hmax. unfold register_pages. change HUGE_PAGE_SIZE with 2097152 in *.
  destruct (Z.le_gt_cases start end_) as [Hle|Hgt].
  2: { unfold forM_range. replace (Z.to_nat ((end_ - start) / 2097152 - 0)) with 0%nat by dlia.
       exists m. split; [done|]. split_and!; try done. intros i. split; [by left|]. intros [?|?]; [done|lia]. }
  destruct (forM_range_ind (fun k m' => registered m' /\ phys m' = phys m /\
    (forall i, avail (huge_page_map m') i <-> avail (huge_page_map m) i \/
       (8 <= i /\ start <= i * 2097152 < start + k * 2097152))) 0 ((end_ - start) / 2097152)
    (fun i => register_available_huge_page (start + i * 2097152)) m) as (m' & -> & Hr & Hp & Ha).
  - dlia.
  - split; [done|]. split; [done|]. intros i. split; [by left|]. intros [?|?]; [done|lia].
  - intros k m' Hk (Hr & Hp & Ha).
    destruct (register_ok (start + k * 2097152) m' Hr) as (m'' & -> & Hr' & Ha' & Hp').
    + change HUGE_PAGE_SIZE with 2097152. dlia.
    + dlia.
    + exists m''. split; [done|]. split; [done|]. split; [by rewrite Hp'|]. intros i. rewrite Ha', Ha.
      change kernel_break with 16777216. change HUGE_PAGE_SIZE with 2097152.
      split; [intros [[?|?]|?]|intros [?|?]]; [by left|right; lia|right; dlia|by left; left|].
      destruct (Z.eq_dec (i * 2097152) (start + k * 2097152)); [right; dlia|left; right; dlia].
  - exists m'. split; [done|]. split; [done|]. split; [done|]. intros i. rewrite Ha.
    replace (start + (end_ - start) / 2097152 * 2097152) with end_ by dlia. done.
Qed.

(** A huge page that lies inside an available entry and after the kernel. *)
Definition covers (ebss : Z) (e : multiboot_mmap_entry) (i : Z) : Prop :=
  e_type e = MULTIBOOT_MEMORY_AVAILABLE /\ 8 <= i /\ ebss <= i * HUGE_PAGE_SIZE /\
  e_addr e <= i * HUGE_PAGE_SIZE /\ (i + 1) * HUGE_PAGE_SIZE <= e_addr e + e_len e.

Definition entry_ok (e : multiboot_mmap_entry) : Prop :=
  0 <= e_addr e /\ 0 <= e_len e /\ e_addr e + e_len e <= MAX_MEMORY_SIZE /\ is_uint 32 (e_type e).

Lemma load_entry_ok ebss e m :
  registered m -> entry_ok e -> 0 <= ebss <= kernel_break ->
  exists m', load_entry ebss e m = Some m' /\ registered m' /\ phys m' = phys m /\
    (forall i, avail (huge_page_map m') i <-> avail (huge_page_map m) i \/ covers ebss e i).
Proof.
  intros Hreg (Ha & Hl & Hm & _) Hb. unfold load_entry, covers.
  destruct (Z.eqb_spec (e_type e) MULTIBOOT_MEMORY_AVAILABLE) as [Et|Et].
  2: { exists m. split_and!; try done. intros i. split; [by left|]. intros [?|[? _]]; done. }
  change MAX_MEMORY_SIZE with 548682072064 in *. change kernel_break with 16777216 in *.
  assert (0 < HUGE_PAGE_SIZE) as Hpos by done.
  destruct (round_up_spec (e_addr e) HUGE_PAGE_SIZE) as (a & Ea & Ba); [done|done|unfold HUGE_PAGE_SIZE; lia|].
  destruct (round_up_spec ebss HUGE_PAGE_SIZE) as (c & Ec & Bc); [done|lia|unfold HUGE_PAGE_SIZE; lia|].
  rewrite (wrap_small 64 (e_addr e + e_len e)) by (unfold is_uint; lia).
  destruct (round_down_spec (e_addr e + e_len e) HUGE_PAGE_SIZE) as (d & Ed & Bd); [done|unfold is_uint; lia|].
  rewrite Ea, Ec, Ed. change HUGE_PAGE_SIZE with 2097152 in *.
  set (s := if a * 2097152 <? ebss then c else a).
  assert ((if a * 2097152 <? ebss then c * 2097152 else a * 2097152) = s * 2097152) as -> by (unfold s; by case_if).
  destruct (register_pages_ok (s * 2097152) (d * 2097152) m Hreg) as (m' & -> & Hr & Hp & Hav);
    change HUGE_PAGE_SIZE with 2097152.
  - apply Z.mod_mul. done.
  - apply Z.mod_mul. done.
  - unfold s. case_if; lia.
  - change MAX_MEMORY_SIZE with 548682072064. lia.
  - exists m'. split_and!; try done. intros i. rewrite Hav. change HUGE_PAGE_SIZE with 2097152. unfold s.
    case_if; (split; (intros [?|Hc]; [by left|right])); split_and?; try done; lia.
Qed.
