(* ===== verification/MultibootClaims.v ===== *)
(** * What the loader does with well-formed boot information

    Tags are written the way the Multiboot2 specification lays them out, each
    padded to eight bytes; the loader is proved against the list of tags. *)

From S2P Require Import Prelude Utils Memory MemoryProofs MemoryTables MemoryInit Multiboot.

(** ** The layout of tags *)

Inductive tag :=
  | TMmap (entries : list multiboot_mmap_entry)
  | TCmdline (string : list Z)
  | TOther (type : Z) (body : list Z).

Definition tag_type (t : tag) : Z :=
  match t with
  | TMmap _ => MULTIBOOT_TAG_TYPE_MMAP
  | TCmdline _ => MULTIBOOT_TAG_TYPE_CMDLINE
  | TOther type _ => type
  end.

Definition encode_entry (e : multiboot_mmap_entry) : list Z :=
  le_bytes 8 (e_addr e) ++ le_bytes 8 (e_len e) ++ le_bytes 4 (e_type e) ++ le_bytes 4 0.

Definition tag_body (t : tag) : list Z :=
  match t with
  | TMmap entries => le_bytes 4 24 ++ le_bytes 4 0 ++ concat (encode_entry <$> entries)
  | TCmdline s => s ++ [0]
  | TOther _ body => body
  end.

Definition padding (n : nat) : nat := (8 * ((n + 7) / 8) - n)%nat.

Definition encode_tag (t : tag) : list Z :=
  let body := tag_body t in
  le_bytes 4 (tag_type t) ++ le_bytes 4 (8 + Z.of_nat (length body)) ++ body ++ replicate (padding (length body)) 0.

Definition end_tag : list Z := le_bytes 4 0 ++ le_bytes 4 8.

Definition tag_ok (t : tag) : Prop :=
  Z.of_nat (length (tag_body t)) < 2 ^ 31 /\
  match t with
  | TMmap entries => Forall entry_ok entries
  | TCmdline s => (length s < 255)%nat /\ Forall (fun c => c <> 0) s
  | TOther type _ => is_uint 32 type /\ type <> 0 /\ type <> 1 /\ type <> 6
  end.

(** ** Reading fields of a concatenation *)

Lemma field_app n pre v post :
  field n (length pre) (pre ++ le_bytes n v ++ post) = Some (v mod 2 ^ (8 * Z.of_nat n)).
Proof.
  unfold field. rewrite !length_app, length_le_bytes.
  rewrite (proj2 (Nat.leb_le _ _)) by lia. unfold load_le, sub_bytes. rewrite drop_app_length.
  rewrite take_app_length' by (by rewrite length_le_bytes). by rewrite le_val_le_bytes.
Qed.

Lemma field_at n off info pre v post :
  info = pre ++ le_bytes n v ++ post -> off = length pre -> 0 <= v < 2 ^ (8 * Z.of_nat n) ->
  field n off info = Some v.
Proof. intros -> -> Hv. rewrite field_app. by rewrite Z.mod_small. Qed.

Lemma length_encode_entry e : length (encode_entry e) = 24%nat.
Proof. unfold encode_entry. by rewrite !length_app, !length_le_bytes. Qed.

Lemma length_encode_entries es : length (concat (encode_entry <$> es)) = (24 * length es)%nat.
Proof. induction es as [|e es IH]; [done|]. cbn [fmap list_fmap concat length]. rewrite length_app, length_encode_entry. rewrite IH. lia. Qed.

Lemma read_entry_at pre e post :
  entry_ok e -> read_entry (length pre) (pre ++ encode_entry e ++ post) = Some e.
Proof.
  intros (Ha & Hl & Hm & Ht). change MAX_MEMORY_SIZE with 548682072064 in Hm. unfold is_uint in Ht.
  unfold read_entry, encode_entry. rewrite <- !app_assoc.
  rewrite (field_at 8 (length pre) _ pre (e_addr e) (le_bytes 8 (e_len e) ++ le_bytes 4 (e_type e) ++ le_bytes 4 0 ++ post));
    [|done|done|change (2 ^ (8 * Z.of_nat 8)) with (2 ^ 64); lia]. rewrite mbind_Some.
  rewrite (field_at 8 (length pre + 8) _ (pre ++ le_bytes 8 (e_addr e)) (e_len e) (le_bytes 4 (e_type e) ++ le_bytes 4 0 ++ post));
    [|by rewrite <- !app_assoc|by rewrite length_app, length_le_bytes|change (2 ^ (8 * Z.of_nat 8)) with (2 ^ 64); lia].
  rewrite mbind_Some.
  rewrite (field_at 4 (length pre + 16) _ (pre ++ le_bytes 8 (e_addr e) ++ le_bytes 8 (e_len e)) (e_type e) (le_bytes 4 0 ++ post));
    [|by rewrite <- !app_assoc|rewrite !length_app, !length_le_bytes; lia|done].
  rewrite mbind_Some. by destruct e.
Qed.

(** ** The loops *)

Section loops.
Context (ebss : Z).
Hypothesis ebss_ok : 0 <= ebss <= kernel_break.

(** The memory after all entries of a map. *)
Definition loads (P : Z -> Prop) (m m' : memory) : Prop :=
  registered m' /\ phys m' = phys m /\
  forall i, avail (huge_page_map m') i <-> avail (huge_page_map m) i \/ P i.

Lemma loads_trans P1 P2 (P : Z -> Prop) m m1 m2 :
  (forall i, P i <-> P1 i \/ P2 i) -> loads P1 m m1 -> loads P2 m1 m2 -> loads P m m2.
Proof.
  intros HP (R1 & E1 & A1) (R2 & E2 & A2). split; [done|]. split; [congruence|].
  intros i. rewrite A2, A1, HP. tauto.
Qed.

Lemma load_entries_ok es pre post fuel m :
  Forall entry_ok es -> registered m -> (length es <= fuel)%nat ->
  exists m', load_entries fuel ebss (length pre) (length pre + 24 * length es) 24
      (pre ++ concat (encode_entry <$> es) ++ post) m = Some m' /\
    loads (fun i => exists e, e ∈ es /\ covers ebss e i) m m'.
Proof.
  intros Hok. revert pre fuel m. induction Hok as [|e es He Hes IH]; intros pre fuel m Hreg Hf.
  - exists m. cbn [length]. rewrite Nat.mul_0_r, Nat.add_0_r. split; [by destruct fuel; cbn; rewrite Nat.eqb_refl|].
    split; [done|]. split; [done|]. intros i. set_solver.
  - destruct fuel as [|fuel]; [cbn in Hf; lia|]. cbn [length] in *. cbn [load_entries].
    rewrite (proj2 (Nat.eqb_neq _ _)) by lia. cbn [fmap list_fmap concat].
    rewrite <- app_assoc, read_entry_at by done. rewrite mbind_Some.
    destruct (load_entry_ok ebss e m Hreg He ebss_ok) as (m1 & -> & Hr1 & Hp1 & Ha1). rewrite mbind_Some.
    destruct (IH (pre ++ encode_entry e) fuel m1 Hr1) as (m' & E & Hl); [lia|].
    rewrite length_app, length_encode_entry, <- app_assoc in E.
    replace (length pre + 24 + 24 * length es)%nat with (length pre + 24 * S (length es))%nat in E by lia.
    exists m'. split; [exact E|].
    eapply (loads_trans (covers ebss e)); [|by split_and!|exact Hl].
    intros i. split; [intros (e' & Hin & Hc)|intros [?|(e' & ? & ?)]].
    + apply elem_of_cons in Hin as [->|?]; [by left|right; eauto].
    + exists e. split; [by left|done].
    + exists e'. split; [by right|done].
Qed.

(** What one tag adds to the state. *)
Definition tag_effect (t : tag) (s s' : loader) : Prop :=
  match t with
  | TMmap es => ld_cmd s' = ld_cmd s /\ loads (fun i => exists e, e ∈ es /\ covers ebss e i) (ld_mem s) (ld_mem s')
  | TCmdline c => ld_mem s' = ld_mem s /\ ld_cmd s' = (c ++ replicate (255 - length c) 0) ++ drop 255 (ld_cmd s)
  | TOther _ _ => s' = s
  end.

Lemma length_encode_tag t : length (encode_tag t) = (8 + 8 * ((length (tag_body t) + 7) / 8))%nat.
Proof.
  unfold encode_tag. rewrite !length_app, !length_le_bytes, length_replicate. unfold padding.
  pose proof (Nat.div_mod_eq (length (tag_body t) + 7) 8).
  pose proof (Nat.mod_upper_bound (length (tag_body t) + 7) 8). lia.
Qed.

Lemma encode_tag_size t : tag_ok t ->
  (8 * Z.to_nat (u32 (8 + Z.of_nat (length (tag_body t)) + 7) / 8))%nat = length (encode_tag t).
Proof.
  intros [Hl _]. rewrite length_encode_tag. rewrite wrap_small by (unfold is_uint; lia).
  rewrite <- (Nat2Z.id (8 + 8 * ((length (tag_body t) + 7) / 8))).
  rewrite Nat2Z.inj_add, Nat2Z.inj_mul, Nat2Z.inj_div. dlia.
Qed.

Lemma tag_type_range t : tag_ok t -> 0 <= tag_type t < 2 ^ 32 /\ tag_type t <> 0.
Proof. intros [_ H]. destruct t; cbn in *; unfold is_uint in *; [done|done|lia]. Qed.

Lemma tag_fields pre t post : tag_ok t ->
  field 4 (length pre) (pre ++ encode_tag t ++ post) = Some (tag_type t) /\
  field 4 (length pre + 4) (pre ++ encode_tag t ++ post) = Some (8 + Z.of_nat (length (tag_body t))).
Proof.
  intros Hok. pose proof (tag_type_range t Hok) as [Ht _]. destruct Hok as [Hl _]. unfold encode_tag. rewrite <- !app_assoc.
  split.
  - eapply field_at; [reflexivity|done|]. change (2 ^ (8 * Z.of_nat 4)) with (2 ^ 32). lia.
  - eapply (field_at 4 _ _ (pre ++ le_bytes 4 (tag_type t))); [by rewrite <- app_assoc|by rewrite length_app, length_le_bytes|].
    change (2 ^ (8 * Z.of_nat 4)) with (2 ^ 32). lia.
Qed.

Lemma mmap_tag_ok pre es post m :
  tag_ok (TMmap es) -> registered m ->
  exists m', load_mmap ebss (length pre) (pre ++ encode_tag (TMmap es) ++ post) m = Some m' /\
    loads (fun i => exists e, e ∈ es /\ covers ebss e i) m m'.
Proof.
  intros Hok Hreg. pose proof (tag_fields pre (TMmap es) post Hok) as [_ Hs]. destruct Hok as [Hl Hes]. cbn in Hes.
  unfold load_mmap. rewrite Hs, mbind_Some. clear Hs.
  set (hd := le_bytes 4 6 ++ le_bytes 4 (8 + Z.of_nat (length (tag_body (TMmap es))))).
  assert (pre ++ encode_tag (TMmap es) ++ post = (pre ++ hd ++ le_bytes 4 24 ++ le_bytes 4 0) ++
    concat (encode_entry <$> es) ++ replicate (padding (length (tag_body (TMmap es)))) 0 ++ post) as ->.
  { unfold encode_tag, hd. cbn [tag_body tag_type]. by rewrite <- !app_assoc. }
  rewrite (field_at 4 _ _ (pre ++ hd) 24 (le_bytes 4 0 ++ concat (encode_entry <$> es) ++
    replicate (padding (length (tag_body (TMmap es)))) 0 ++ post)).
  2: by rewrite <- !app_assoc.
  2: unfold hd; rewrite !length_app, !length_le_bytes; lia.
  2: done.
  rewrite mbind_Some. change (Z.to_nat 24) with 24%nat.
  destruct (load_entries_ok es (pre ++ hd ++ le_bytes 4 24 ++ le_bytes 4 0)
    (replicate (padding (length (tag_body (TMmap es)))) 0 ++ post)
    (length ((pre ++ hd ++ le_bytes 4 24 ++ le_bytes 4 0) ++ concat (encode_entry <$> es) ++
       replicate (padding (length (tag_body (TMmap es)))) 0 ++ post)) m Hes Hreg) as (m' & E & Hm).
  { rewrite !length_app, length_encode_entries. lia. }
  exists m'. split; [|exact Hm]. rewrite <- E. f_equal.
  - unfold hd. rewrite !length_app, !length_le_bytes. lia.
  - unfold hd. rewrite !length_app, !length_le_bytes. cbn [tag_body].
    rewrite !length_app, !length_le_bytes, length_encode_entries. lia.
Qed.

Lemma strncpy_terminated n s post :
  (length s < n)%nat -> Forall (fun c => c <> 0) s ->
  strncpy n (s ++ [0] ++ post) = Some (s ++ replicate (n - length s) 0).
Proof.
  intros Hn Hs. unfold strncpy.
  assert (take_while (fun c => negb (c =? 0)) (s ++ [0] ++ post) = s) as ->.
  { clear Hn. induction Hs as [|c s Hc Hs IH]; [done|]. cbn [app take_while].
    rewrite (proj2 (Z.eqb_neq _ _)) by done. cbn [negb]. f_equal. apply IH. }
  rewrite (proj2 (Nat.leb_gt _ _)) by done. rewrite (proj2 (Nat.ltb_lt _ _)); [done|].
  rewrite !length_app. cbn. lia.
Qed.

Lemma cmdline_tag_ok pre c post :
  tag_ok (TCmdline c) ->
  strncpy (MAX_LENGTH - 1) (drop (length pre + 8) (pre ++ encode_tag (TCmdline c) ++ post)) =
    Some (c ++ replicate (255 - length c) 0).
Proof.
  intros [_ [Hc H0]]. unfold encode_tag. cbn [tag_body tag_type].
  rewrite <- drop_drop, drop_app_length. rewrite <- !app_assoc.
  replace (le_bytes 4 MULTIBOOT_TAG_TYPE_CMDLINE ++ le_bytes 4 (8 + Z.of_nat (length (c ++ [0]))) ++ c ++ [0] ++
    replicate (padding (length (c ++ [0]))) 0 ++ post) with
    ((le_bytes 4 MULTIBOOT_TAG_TYPE_CMDLINE ++ le_bytes 4 (8 + Z.of_nat (length (c ++ [0])))) ++ c ++ [0] ++
    (replicate (padding (length (c ++ [0]))) 0 ++ post)) by (by rewrite <- !app_assoc).
  rewrite drop_app_length' by (by rewrite length_app, !length_le_bytes).
  by apply strncpy_terminated.
Qed.

Inductive effects : list tag -> loader -> loader -> Prop :=
  | effects_nil s : effects [] s s
  | effects_cons t ts s s1 s' : tag_effect t s s1 -> effects ts s1 s' -> effects (t :: ts) s s'.

Lemma load_tags_ok ts pre fuel s :
  Forall tag_ok ts -> registered (ld_mem s) -> length (ld_cmd s) = 256%nat -> (length ts <= fuel)%nat ->
  exists s', load_tags fuel ebss (length pre) (pre ++ concat (encode_tag <$> ts) ++ end_tag) s = Some s' /\
    effects ts s s' /\ registered (ld_mem s').
Proof.
  intros Hok. revert pre fuel s. induction Hok as [|t ts Ht Hts IH]; intros pre fuel s Hreg Hlen Hf.
  - exists s. split; [|split; [constructor|done]]. cbn [fmap list_fmap concat app].
    assert (field 4 (length pre) (pre ++ end_tag) = Some 0) as E by (by apply (field_at 4 _ _ pre 0 (le_bytes 4 8))).
    destruct fuel; cbn [load_tags]; by run_bind E.
  - destruct fuel as [|fuel]; [cbn in Hf; lia|]. cbn [length] in Hf. cbn [fmap list_fmap concat].
    rewrite <- app_assoc. set (post := concat (encode_tag <$> ts) ++ end_tag).
    pose proof (tag_fields pre t post Ht) as [E1 E2]. pose proof (tag_type_range t Ht) as [_ Hnz].
    assert (exists s1, tag_effect t s s1 /\ registered (ld_mem s1) /\ length (ld_cmd s1) = 256%nat /\
      (if tag_type t =? MULTIBOOT_TAG_TYPE_MMAP then
         m ← load_mmap ebss (length pre) (pre ++ encode_tag t ++ post) (ld_mem s); Some (mkLoader m (ld_cmd s))
       else if tag_type t =? MULTIBOOT_TAG_TYPE_CMDLINE then
         c ← strncpy (MAX_LENGTH - 1) (drop (length pre + 8) (pre ++ encode_tag t ++ post));
         Some (mkLoader (ld_mem s) (splice 0 c (ld_cmd s)))
       else Some s) = Some s1) as (s1 & He & Hr1 & Hl1 & Estep).
    { destruct t as [es|c|ty body]; cbn [tag_type].
      - destruct (mmap_tag_ok pre es post (ld_mem s) Ht Hreg) as (m' & E & Hl).
        exists (mkLoader m' (ld_cmd s)). split; [by split|]. split; [apply Hl|]. split; [done|].
        change (MULTIBOOT_TAG_TYPE_MMAP =? MULTIBOOT_TAG_TYPE_MMAP) with true. by rewrite E, mbind_Some.
      - pose proof Ht as [_ [Hc _]].
        assert (length (c ++ replicate (255 - length c) 0) = 255%nat) as Hcl.
        { rewrite length_app, length_replicate. lia. }
        exists (mkLoader (ld_mem s) (splice 0 (c ++ replicate (255 - length c) 0) (ld_cmd s))).
        split; [|split; [done|split]].
        + split; [done|]. cbn [ld_cmd]. unfold splice. by rewrite take_0, app_nil_l, Hcl.
        + cbn [ld_cmd]. rewrite length_splice; [done|]. rewrite Hcl. lia.
        + change (MULTIBOOT_TAG_TYPE_CMDLINE =? MULTIBOOT_TAG_TYPE_MMAP) with false.
          change (MULTIBOOT_TAG_TYPE_CMDLINE =? MULTIBOOT_TAG_TYPE_CMDLINE) with true. cbv iota.
          rewrite (cmdline_tag_ok pre c post Ht). by rewrite mbind_Some.
      - exists s. destruct Ht as [_ (_ & _ & H1 & H6)]. split; [done|]. split; [done|]. split; [done|].
        rewrite (proj2 (Z.eqb_neq ty MULTIBOOT_TAG_TYPE_MMAP)) by done.
        by rewrite (proj2 (Z.eqb_neq ty MULTIBOOT_TAG_TYPE_CMDLINE)). }
    destruct (IH (pre ++ encode_tag t) fuel s1 Hr1 Hl1) as (s' & E' & Hef & Hr'); [lia|].
    exists s'. split; [|split; [by econstructor|done]]. cbn [load_tags]. run_bind E1.
    rewrite (proj2 (Z.eqb_neq (tag_type t) MULTIBOOT_TAG_TYPE_END)) by done. rewrite Estep, mbind_Some.
    run_bind E2. rewrite encode_tag_size by done. rewrite <- E', length_app, <- app_assoc. done.
Qed.
End loops.

(** The huge pages inside the available entries of all maps. *)
Definition available (ebss : Z) (ts : list tag) (i : Z) : Prop :=
  exists es e, TMmap es ∈ ts /\ e ∈ es /\ covers ebss e i.

Lemma effects_available ebss ts s s' :
  effects ebss ts s s' ->
  phys (ld_mem s') = phys (ld_mem s) /\
  forall i, avail (huge_page_map (ld_mem s')) i <-> avail (huge_page_map (ld_mem s)) i \/ available ebss ts i.
Proof.
  induction 1 as [s|t ts s s1 s' Ht _ [IHp IHa]].
  - split; [done|]. intros i. split; [by left|]. intros [?|(es & e & Hin & _)]; [done|set_solver].
  - assert (phys (ld_mem s1) = phys (ld_mem s) /\ forall i, avail (huge_page_map (ld_mem s1)) i <->
      avail (huge_page_map (ld_mem s)) i \/ exists es e, t = TMmap es /\ e ∈ es /\ covers ebss e i) as [Hp Ha].
    { destruct t as [es|c|ty body]; cbn in Ht.
      - destruct Ht as [_ (_ & Hp & Ha)]. split; [done|]. intros i. rewrite Ha. naive_solver.
      - destruct Ht as [-> _]. split; [done|]. naive_solver.
      - subst s1. split; [done|]. naive_solver. }
    split; [congruence|]. intros i. rewrite IHa, Ha. unfold available. setoid_rewrite elem_of_cons. naive_solver.
Qed.

Lemma load_ok ebss ts m cmd :
  0 <= ebss <= kernel_break -> Forall tag_ok ts -> registered m -> length cmd = 256%nat ->
  exists s', load ebss (replicate 8 0 ++ concat (encode_tag <$> ts) ++ end_tag) (mkLoader m cmd) = Some s' /\
    registered (ld_mem s') /\ phys (ld_mem s') = phys m /\ effects ebss ts (mkLoader m cmd) s' /\
    (forall i, avail (huge_page_map (ld_mem s')) i <-> avail (huge_page_map m) i \/ available ebss ts i).
Proof.
  intros He Hts Hreg Hc. unfold load.
  destruct (load_tags_ok ebss He ts (replicate 8 0) (length (replicate 8 0 ++ concat (encode_tag <$> ts) ++ end_tag))
    (mkLoader m cmd) Hts Hreg Hc) as (s' & E & Hef & Hr).
  - rewrite !length_app. assert (length ts <= length (concat (encode_tag <$> ts)))%nat; [|lia].
    clear. induction ts as [|t ts IH]; [done|]. rewrite fmap_cons. cbn [concat length].
    rewrite length_app, length_encode_tag. lia.
  - exists s'. rewrite length_replicate in E. split; [exact E|]. split; [done|].
    destruct (effects_available _ _ _ _ Hef) as [Hp Ha]. done.
Qed.


(** One entry with [n] huge pages after 16 MiB. *)
Definition example_entry (n : Z) : multiboot_mmap_entry := mkEntry kernel_break (n * HUGE_PAGE_SIZE) 1.

