(* ===== verification/MemoryClaims.v ===== *)
(** * What the memory manager guarantees

    Initialisation, the flags of pages, the clearing of written pages, the
    kernel's own virtual memory and the check of user pointers. *)

From S2P Require Import Prelude Utils Memory MemoryProofs MemoryTables MemoryInit MemoryPaging MemoryFrames MemoryFlags Multiboot.

(** ** A concrete memory *)

Lemma rank_contiguous map n x :
  (forall i, avail map i <-> 8 <= i < 8 + n) -> 0 <= n -> 0 <= x -> rank map x = Z.min n (Z.max 0 (x - 8)).
Proof.
  intros Ha Hn Hx. rewrite <- (Z2Nat.id x) by done. induction (Z.to_nat x) as [|k IH].
  - change (Z.of_nat 0) with 0. rewrite rank_0. lia.
  - replace (Z.of_nat (S k)) with (Z.of_nat k + 1) by lia. rewrite rank_succ by lia. rewrite IH.
    case_decide as H; rewrite Ha in H; lia.
Qed.

(** The [n] huge pages after the kernel. *)
Lemma contiguous_memory n : 0 <= n <= 261624 ->
  exists m, register_pages kernel_break (kernel_break + n * HUGE_PAGE_SIZE) (memory_start ∅ 0) = Some m /\
    registered m /\ n_huge_pages m = n /\
    (forall x, 0 <= x -> rank (huge_page_map m) x = Z.min n (Z.max 0 (x - 8))).
Proof.
  intros Hn. destruct (register_pages_ok kernel_break (kernel_break + n * HUGE_PAGE_SIZE) (memory_start ∅ 0))
    as (m & E & Hr & _ & Ha).
  - apply registered_start.
  - done.
  - rewrite Z.mod_add by done. done.
  - done.
  - change kernel_break with 16777216. change HUGE_PAGE_SIZE with 2097152. change MAX_MEMORY_SIZE with 548682072064. lia.
  - exists m. assert (forall x, 0 <= x -> rank (huge_page_map m) x = Z.min n (Z.max 0 (x - 8))) as Hrk.
    { intros x Hx. apply rank_contiguous; [|lia|done]. intros i. rewrite Ha.
      change kernel_break with 16777216. change HUGE_PAGE_SIZE with 2097152.
      split; [intros [H|?]; [|lia]|intros ?; right; lia]. change (aget (anew MAX_N_HUGE_PAGES) i = true) in H.
      by rewrite aget_new in H. }
    split; [done|]. split; [done|]. split; [|done]. rewrite (rg_n _ Hr), Hrk by done.
    change MAX_N_HUGE_PAGES with 261632. lia.
Qed.

(** ** Initialisation *)

Lemma memory_init_ok ebss m :
  registered m -> ebss <= kernel_break -> tables_fit m ->
  exists m', init ebss m = Some m' /\
    vaddr_break m' = kernel_break + (n_huge_pages m - table_pages (n_huge_pages m)) * HUGE_PAGE_SIZE /\
    (forall v, 0 <= v < kernel_break -> exists es, translate m' v = Some (v, es) /\ user_access es = false /\
       write_access es = true) /\
    (forall v, kernel_break <= v < vaddr_break m' -> exists h es,
       avail (huge_page_map m) h /\ page_table_break m' <= h * HUGE_PAGE_SIZE /\
       rank (huge_page_map m) h = table_pages (n_huge_pages m) + (v - kernel_break) / HUGE_PAGE_SIZE /\
       translate m' v = Some (h * HUGE_PAGE_SIZE + v mod HUGE_PAGE_SIZE, es) /\
       user_access es = false /\ write_access es = true) /\
    (forall p, 0 <= p < 2 ^ 39 -> exists es, translate m' (remap p) = Some (p, es) /\ user_access es = false).
Proof.
  intros Hreg He Hfit.
  destruct (init_spec_ok ebss m Hreg He Hfit) as (m' & own & b & P3h & P3 & E & Hvb & Htb & Hrk & HQ & Hb & EM & En & Hr).
  set (Q := 8 + n_huge_pages m - table_pages (n_huge_pages m)) in *.
  assert (Q = 8 + rank (huge_page_map m') MAX_N_HUGE_PAGES - rank (huge_page_map m') b) as EQ.
  { by rewrite EM, Hrk, <- (rg_n _ Hreg). }
  exists m'. split; [done|]. split; [rewrite Hvb; unfold Q, kernel_break, HUGE_PAGE_SIZE; lia|].
  split; [|split].
  - intros v Hv. by eapply kernel_identity.
  - intros v Hv. rewrite Hvb in Hv.
    destruct (user_translation own b P3h P3 _ Q _ m' Hr HQ Hb EQ v Hv) as (h & es & Hav & Hbh & Hrh & Ht & Hu).
    rewrite EM in Hav, Hrh. rewrite Hrk in Hrh. exists h, es. split; [done|].
    split; [rewrite Htb; unfold HUGE_PAGE_SIZE; lia|]. split; [done|]. split; [done|exact Hu].
  - intros p Hpr. by eapply remap_translation.
Qed.

(** C17: On registered memory whose tables fit, initialisation succeeds and
    builds the whole address space: the first 16 MiB map to themselves; every
    address from there to [vaddr_break] maps into the available huge page of the
    matching rank above the tables; all physical memory below 512 GiB appears
    at -1024 GiB; nothing is accessible to user code yet. *)
Theorem memory_init_maps ebss m :
  registered m -> ebss <= kernel_break -> tables_fit m ->
  exists m', init ebss m = Some m' /\
    vaddr_break m' = kernel_break + (n_huge_pages m - table_pages (n_huge_pages m)) * HUGE_PAGE_SIZE /\
    (forall v, 0 <= v < kernel_break -> exists es, translate m' v = Some (v, es) /\ user_access es = false /\
       write_access es = true) /\
    (forall v, kernel_break <= v < vaddr_break m' -> exists h es,
       avail (huge_page_map m) h /\ page_table_break m' <= h * HUGE_PAGE_SIZE /\
       rank (huge_page_map m) h = table_pages (n_huge_pages m) + (v - kernel_break) / HUGE_PAGE_SIZE /\
       translate m' v = Some (h * HUGE_PAGE_SIZE + v mod HUGE_PAGE_SIZE, es) /\
       user_access es = false /\ write_access es = true) /\
    (forall p, 0 <= p < 2 ^ 39 -> exists es, translate m' (remap p) = Some (p, es) /\ user_access es = false).
Proof. exact (memory_init_ok ebss m). Qed.

Lemma example_fits : exists m, registered m /\ tables_fit m /\ n_huge_pages m = 100.
Proof.
  destruct (contiguous_memory 100) as (m & _ & Hr & Hn & Hrk); [lia|]. exists m. split; [done|]. split; [|done].
  unfold tables_fit. rewrite Hn, Hrk by lia. change (table_pages 100) with 1. done.
Qed.

Lemma memory_init_maps_witness :
  exists m m', init 1048576 m = Some m' /\ vaddr_break m' = kernel_break + 99 * HUGE_PAGE_SIZE.
Proof.
  destruct example_fits as (m & Hr & Hf & Hn). exists m.
  destruct (memory_init_maps 1048576 m Hr) as (m' & E & Hv & _).
  - unfold kernel_break. lia.
  - exact Hf.
  - exists m'. split; [exact E|]. rewrite Hn in Hv. exact Hv.
Defined.

(** The size reserved for tables does not count the first level tables of a
    16 MiB kernel: when the tables do not fit, and that includes a machine with
    the 503 huge pages of 1 GiB, initialisation stops at the assertion. *)
Theorem memory_init_exhausted ebss m : registered m -> ~ tables_fit m -> init ebss m = None.
Proof. apply init_spec_fails. Qed.

Lemma memory_init_exhausted_witness :
  exists m, register_pages kernel_break (kernel_break + 503 * HUGE_PAGE_SIZE) (memory_start ∅ 0) = Some m /\
    init 1048576 m = None.
Proof.
  destruct (contiguous_memory 503) as (m & E & Hr & Hn & Hrk); [lia|]. exists m. split; [exact E|].
  apply (memory_init_exhausted 1048576 m Hr). unfold tables_fit. rewrite Hn. change (table_pages 503) with 1.
  intros [_ H]. revert H. change (tables_needed (8 + 503 - 1)) with 514. lia.
Defined.

(** ** Memory in use *)

(** The state after initialisation, with its user part. *)
Lemma init_clean ebss m :
  registered m -> ebss <= kernel_break -> tables_fit m ->
  exists m' own, init ebss m = Some m' /\
    clean_frames own (8 + n_huge_pages m - table_pages (n_huge_pages m)) (page_table_break m') m' /\
    vaddr_break m' = (8 + n_huge_pages m - table_pages (n_huge_pages m)) * HUGE_PAGE_SIZE.
Proof.
  intros Hreg He Hfit.
  destruct (init_spec_ok ebss m Hreg He Hfit) as (m' & own & b & P3h & P3 & E & Hvb & Htb & Hrk & HQ & Hb & EM & En & Hr).
  assert (8 + n_huge_pages m - table_pages (n_huge_pages m) =
    8 + rank (huge_page_map m') MAX_N_HUGE_PAGES - rank (huge_page_map m') b) as EQ.
  { by rewrite EM, Hrk, <- (rg_n _ Hreg). }
  exists m', own. split; [done|]. split; [|done]. split.
  - eapply init_paging; [exact Hr|done].
  - by eapply init_user_frames.
  - intros v Hv. rewrite (init_entry _ _ _ _ _ _ _ _ Hr HQ v Hv).
    pose proof (user_frame_aligned _ _ _ Hb EQ v Hv). by rewrite testbit_entry by (done || lia).
Qed.

Lemma example_clean : exists m own Q L, clean_frames own Q L m /\ Q = 107 /\ vaddr_break m = Q * HUGE_PAGE_SIZE.
Proof.
  destruct example_fits as (m & Hr & Hf & Hn).
  destruct (init_clean 1048576 m Hr) as (m' & own & _ & Hc & Hv); [unfold kernel_break; lia|done|].
  rewrite Hn in Hc, Hv. change (8 + 100 - table_pages 100) with 107 in Hc, Hv. by exists m', own, 107, (page_table_break m').
Qed.

(** C19: Each of the four operations that set the flags of a range of mapped
    pages leaves every page at its physical page, gives the pages of the range
    exactly the access of the operation (user, write, no-execute), and leaves
    the translation of all other pages unchanged. *)
Theorem page_flags_exact own Q L op u w x m start end_ :
  (op, (u, w, x)) ∈ flag_ops -> clean_frames own Q L m ->
  start mod 4096 = 0 -> end_ mod 4096 = 0 -> kernel_break <= start <= end_ -> end_ <= Q * HUGE_PAGE_SIZE ->
  exists m', op start end_ m = Some m' /\ clean_frames own Q L m' /\
    (forall v, start <= v < end_ -> exists p es es', translate m v = Some (p, es) /\ translate m' v = Some (p, es') /\
       user_access es' = u /\ write_access es' = w /\ no_execute es' = x) /\
    (forall v, 0 <= v < Q * HUGE_PAGE_SIZE -> ~ (start <= v < end_) -> translate m' v = translate m v).
Proof.
  intros Hop [Hp Hu Hpr] Hs He Hr HQ. assert (0 <= start) as H0 by (unfold kernel_break in Hr; lia).
  destruct (flag_ops_spec op u w x Hop) as (fl & Eop & Hfb & Hfu & B0 & Bu & Bw & Bx).
  destruct (update_pages own Q start end_ (fun P1 => Z.lor (clear_page_flags P1) fl) m Hp Hs He) as (m' & E & Hfl);
    [lia|done|]. rewrite <- Eop in E. destruct Hfl as [Hp' Hst Hup Hen].
  assert (forall v, kernel_break <= v < Q * HUGE_PAGE_SIZE -> 0 <= v < Q * HUGE_PAGE_SIZE) as Hv0 by (unfold kernel_break; lia).
  assert (forall v, kernel_break <= v < Q * HUGE_PAGE_SIZE -> frame (entry m' v) = frame (entry m v)) as Hfr.
  { intros v Hv. rewrite Hen by auto. case_decide; [|done]. apply frame_set_flags; [by apply (uf_uint _ _ _ _ Hu)|done]. }
  exists m'. split; [done|]. split; [split; [done|split|]|split].
  - apply (uf_tables _ _ _ _ Hu).
  - intros v Hv. rewrite Hfr by done. by apply (uf_above _ _ _ _ Hu).
  - intros v Hv. rewrite Hen by auto. case_decide; [|by apply (uf_uint _ _ _ _ Hu)].
    apply set_flags_uint; [by apply (uf_uint _ _ _ _ Hu)|done].
  - intros v v' Hv Hv'. rewrite !Hfr by done. by apply (uf_inj _ _ _ _ Hu).
  - intros v Hv. rewrite Hen by auto. case_decide; [|by apply Hpr].
    rewrite testbit_set_flags; [done|by apply (uf_uint _ _ _ _ Hu)|lia].
  - intros v Hv. assert (kernel_break <= v < Q * HUGE_PAGE_SIZE) as Hv1 by lia. pose proof (uf_uint _ _ _ _ Hu v Hv1) as Hi.
    rewrite (translate_spec own Q m Hp v), (translate_spec own Q m' Hp' v) by auto. rewrite Hpr by done.
    rewrite Hen by auto. rewrite decide_True by done. rewrite testbit_set_flags, B0, frame_set_flags by (done || lia).
    eexists _, _, _. split; [done|]. split; [done|]. rewrite Hup by auto.
    destruct (upper_access own Q m v Hp Hv1) as (U & W & X).
    unfold user_access, write_access, no_execute in *. cbn [forallb existsb]. rewrite U, W, X, !testbit_set_flags by (done || lia).
    rewrite Bu, Bw, Bx, !andb_true_r, orb_false_r. done.
  - intros v Hv Hout. rewrite (translate_spec own Q m Hp v), (translate_spec own Q m' Hp' v) by done.
    rewrite Hen, Hup by done. by rewrite decide_False.
Qed.

Lemma page_flags_exact_witness :
  exists m m', set_page_flags_user_readonly kernel_break (kernel_break + 8192) m = Some m' /\
    exists p es, translate m' (kernel_break + 4096) = Some (p, es) /\ user_access es = true /\ write_access es = false.
Proof.
  destruct example_clean as (m & own & Q & L & Hc & EQ & _). exists m.
  destruct (page_flags_exact own Q L set_page_flags_user_readonly true false true m kernel_break (kernel_break + 8192))
    as (m' & E & _ & Ht & _).
  - right. left.
  - exact Hc.
  - reflexivity.
  - reflexivity.
  - lia.
  - subst Q. vm_compute. discriminate.
  - exists m'. split; [exact E|]. destruct (Ht (kernel_break + 4096)) as (p & es & es' & _ & H & Hu & Hw & _); [lia|].
    exists p, es'. split; [exact H|]. split; [exact Hu|exact Hw].
Defined.



(** ** The kernel's virtual memory and user pointers *)

(** A request that fits gets the top of the free user memory, aligned to
    a huge page and at least as large as asked, and shrinks the user part by
    the same region; a request that does not fit changes nothing, and
    [can_allocate_virtual_memory] tells the two apart. *)
Theorem allocate_virtual_memory_spec size m :
  0 <= size < 2 ^ 63 -> kernel_break <= vaddr_break m < 2 ^ 39 -> vaddr_break m mod HUGE_PAGE_SIZE = 0 ->
  match allocate_virtual_memory size m with
  | (Some a, m') => can_allocate_virtual_memory size m = true /\ kernel_break <= a /\
      a mod HUGE_PAGE_SIZE = 0 /\ vaddr_break m' = a /\
      size <= vaddr_break m - a < size + HUGE_PAGE_SIZE /\ phys m' = phys m
  | (None, m') => can_allocate_virtual_memory size m = false /\ m' = m /\
      vaddr_break m - kernel_break < size + HUGE_PAGE_SIZE
  end.
Proof.
  intros Hs Hv Hal. unfold allocate_virtual_memory, can_allocate_virtual_memory.
  destruct (round_up_spec size HUGE_PAGE_SIZE) as (k & -> & Hk); [done|lia|unfold HUGE_PAGE_SIZE; lia|].
  rewrite wrap_small by (unfold is_uint, kernel_break in *; lia).
  change HUGE_PAGE_SIZE with 2097152 in *. case_if.
  - rewrite (proj2 (Z.leb_gt _ _)) by lia. split_and!; [done|done|lia].
  - rewrite (proj2 (Z.leb_le _ _)) by lia. cbn [vaddr_break set_vaddr_break phys].
    change kernel_break with 16777216 in *. split_and!; try done; try lia. dlia.
Qed.

Lemma allocate_virtual_memory_spec_witness :
  exists m, vaddr_break m = kernel_break + 99 * HUGE_PAGE_SIZE /\
    can_allocate_virtual_memory 4194304 m = true /\ fst (allocate_virtual_memory 4194304 m) = Some 220200960.
Proof.
  set (m := set_vaddr_break (kernel_break + 99 * HUGE_PAGE_SIZE) (memory_start ∅ 0)).
  pose proof (allocate_virtual_memory_spec 4194304 m ltac:(lia) ltac:(vm_compute; split; [discriminate|reflexivity])
    ltac:(vm_compute; reflexivity)) as H.
  assert (allocate_virtual_memory 4194304 m = (Some 220200960, set_vaddr_break 220200960 m)) as E by reflexivity.
  rewrite E in H. exists m. split; [reflexivity|]. split; [exact (proj1 H)|]. rewrite E. reflexivity.
Defined.

Lemma land_6 e : (Z.land e 6 =? 6) = Z.testbit e 1 && Z.testbit e 2.
Proof.
  destruct (Z.eqb_spec (Z.land e 6) 6) as [E|E].
  - assert (Z.testbit (Z.land e 6) 1 = true /\ Z.testbit (Z.land e 6) 2 = true) as [H1 H2] by (rewrite E; done).
    rewrite Z.land_spec in H1, H2. change (Z.testbit 6 1) with true in H1. change (Z.testbit 6 2) with true in H2.
    rewrite andb_true_r in H1, H2. by rewrite H1, H2.
  - symmetry. apply not_true_is_false. intros H. apply andb_prop in H as [H1 H2]. apply E.
    apply Z.bits_inj'. intros i Hi. rewrite Z.land_spec.
    destruct (decide (i = 1)) as [->|]; [by rewrite H1|]. destruct (decide (i = 2)) as [->|]; [by rewrite H2|].
    replace (Z.testbit 6 i) with false; [apply andb_false_r|]. symmetry.
    change 6 with (Z.lor (2 ^ 1) (2 ^ 2)). rewrite Z.lor_spec, !Z.pow2_bits_eqb by lia.
    rewrite !(proj2 (Z.eqb_neq _ _)) by done. done.
Qed.

(** [user_writable_check] answers for every address, and says yes exactly
    when the address lies in the user part and the processor would let user code
    write there. *)
Theorem user_writable_check_exact own Q L m addr :
  clean_frames own Q L m -> vaddr_break m <= Q * HUGE_PAGE_SIZE ->
  exists r, user_writable_check addr m = Some r /\
    (r = true <-> kernel_break <= addr < vaddr_break m /\
       exists p es, translate m addr = Some (p, es) /\ user_access es = true /\ write_access es = true).
Proof.
  intros [Hp Hu Hpr] Hv. unfold user_writable_check.
  destruct (Z.ltb_spec addr kernel_break); [exists false; split; [done|]; split; [done|lia]|].
  destruct (Z.leb_spec (vaddr_break m) addr); [exists false; split; [done|]; split; [done|lia]|].
  assert (kernel_break <= addr < Q * HUGE_PAGE_SIZE) as Ha by lia.
  assert (0 <= addr < Q * HUGE_PAGE_SIZE) as Ha0 by (unfold kernel_break in Ha; lia).
  rewrite (get_P1_spec own Q m Hp addr Ha0), mbind_Some. cbv zeta.
  change (flags [PTE_USER; PTE_WRITABLE]) with 6. rewrite land_6. eexists. split; [done|].
  rewrite (translate_spec own Q m Hp addr Ha0), (Hpr addr Ha).
  destruct (upper_access own Q m addr Hp Ha) as (U & W & _). unfold user_access, write_access in *. split.
  - intros Hb. apply andb_prop in Hb as [H1 H2]. split; [done|]. eexists _, _. split; [done|]. cbn [forallb].
    by rewrite H1, H2, U, W.
  - intros [_ (p & es & [= <- <-] & H1 & H2)]. cbn [forallb] in H1, H2. apply andb_prop in H1 as [H1 _].
    apply andb_prop in H2 as [H2 _]. by rewrite H1, H2.
Qed.

Lemma user_writable_check_exact_witness :
  exists m r, user_writable_check (kernel_break + 5) m = Some r.
Proof.
  destruct example_clean as (m & own & Q & L & Hc & EQ & Hv). exists m.
  destruct (user_writable_check_exact own Q L m (kernel_break + 5) Hc) as (r & E & _).
  - lia.
  - exists r. exact E.
Defined.
