(* ===== verification/Interrupts.v ===== *)
(** * Interrupt controllers

    lib/pic.cpp drives the two 8259A chips: each is modelled by its documented
    registers, which the initialisation sequence fills one after the other.
    lib/lapic.cpp finds the controller through the ACPI tables in low memory
    (bytes at physical addresses) and programs it; the local APIC is the list of
    the register writes. *)

From S2P Require Import Prelude Timer Memory.

(** ** The 8259A *)

(** [init_step]: 0 in operation, else the number of the next initialisation
    word. *)
Record chip := mkChip { init_step : Z; need_icw4 : bool; cascaded : bool; vector_base : Z; cascade : Z; icw4 : Z; imr : Z }.

(** A write to the command port. *)
Definition chip_command (v : Z) (c : chip) : chip :=
  if Z.testbit v 4 then mkChip 2 (Z.testbit v 0) (negb (Z.testbit v 1)) (vector_base c) (cascade c) 0 0
  else c.

(** A write to the data port. *)
Definition chip_data (v : Z) (c : chip) : chip :=
  match init_step c with
  | 2 => mkChip (if cascaded c then 3 else if need_icw4 c then 4 else 0) (need_icw4 c) (cascaded c) (Z.land v 0xF8) (cascade c) (icw4 c) (imr c)
  | 3 => mkChip (if need_icw4 c then 4 else 0) (need_icw4 c) (cascaded c) (vector_base c) v (icw4 c) (imr c)
  | 4 => mkChip 0 (need_icw4 c) (cascaded c) (vector_base c) (cascade c) v (imr c)
  | _ => mkChip 0 (need_icw4 c) (cascaded c) (vector_base c) (cascade c) (icw4 c) v
  end.

(** ** lib/pic.cpp *)

Definition IO_PIC1 : Z := 0x20.
Definition IO_PIC2 : Z := 0xA0.
Definition IRQ_SLAVE : Z := 2.
Definition IRQ_OFFSET : Z := 32.

Record pic := mkPic { mask_8259A : Z; did_init : bool; chip1 : chip; chip2 : chip }.

Definition pic_static (c1 c2 : chip) : pic := mkPic (Z.land 0xFFFF (Z.lnot (Z.shiftl 1 IRQ_SLAVE))) false c1 c2.

Definition outb (port v : Z) (p : pic) : pic :=
  let v := u8 v in
  if port =? IO_PIC1 then mkPic (mask_8259A p) (did_init p) (chip_command v (chip1 p)) (chip2 p)
  else if port =? IO_PIC1 + 1 then mkPic (mask_8259A p) (did_init p) (chip_data v (chip1 p)) (chip2 p)
  else if port =? IO_PIC2 then mkPic (mask_8259A p) (did_init p) (chip1 p) (chip_command v (chip2 p))
  else if port =? IO_PIC2 + 1 then mkPic (mask_8259A p) (did_init p) (chip1 p) (chip_data v (chip2 p))
  else p.

(** The log message with the open lines is left out. *)
Definition set_mask_8259A (mask : Z) (p : pic) : pic :=
  let p := mkPic mask (did_init p) (chip1 p) (chip2 p) in
  if negb (did_init p) then p
  else
    let p := outb (IO_PIC1 + 1) mask p in
    outb (IO_PIC2 + 1) (Z.shiftr mask 8) p.

Definition pic_eoi (p : pic) : pic := outb IO_PIC2 0x20 (outb IO_PIC1 0x20 p).

Definition enable (irq : Z) (p : pic) : pic := set_mask_8259A (u16 (Z.land (mask_8259A p) (Z.lnot (Z.shiftl 1 irq)))) p.
Definition disable (irq : Z) (p : pic) : pic := set_mask_8259A (u16 (Z.lor (mask_8259A p) (Z.shiftl 1 irq))) p.

Definition pic_init (p : pic) : pic :=
  let p := mkPic (mask_8259A p) true (chip1 p) (chip2 p) in
  let p := outb (IO_PIC1 + 1) 0xFF p in
  let p := outb (IO_PIC2 + 1) 0xFF p in
  let p := outb IO_PIC1 0x11 p in
  let p := outb (IO_PIC1 + 1) IRQ_OFFSET p in
  let p := outb (IO_PIC1 + 1) (Z.shiftl 1 IRQ_SLAVE) p in
  let p := outb (IO_PIC1 + 1) 0x3 p in
  let p := outb IO_PIC2 0x11 p in
  let p := outb (IO_PIC2 + 1) (IRQ_OFFSET + 8) p in
  let p := outb (IO_PIC2 + 1) IRQ_SLAVE p in
  let p := outb (IO_PIC2 + 1) 0x01 p in
  let p := outb IO_PIC1 0x68 p in
  let p := outb IO_PIC1 0x0a p in
  let p := outb IO_PIC2 0x68 p in
  let p := outb IO_PIC2 0x0a p in
  if negb (mask_8259A p =? 0xFFFF) then set_mask_8259A (mask_8259A p) p else p.

(** ** ACPI tables *)

Section acpi.
Context (mem : Z -> Z).

Definition ld (n : nat) (a : Z) : Z := le_val ((fun i => mem (a + Z.of_nat i)) <$> seq 0 n).

Definition memcmp_eq (a : Z) (s : string) : bool :=
  bool_decide ((fun i => mem (a + Z.of_nat i)) <$> seq 0 (String.length s) = bytes_of_string s).

(** The sum of [len] bytes, modulo 256. *)
Definition sum (addr len : Z) : Z := for_range 0 len (fun i s => u8 (s + mem (addr + i))) 0.

Definition sizeof_RDSP : Z := 36.

Definition is_rdsp (p : Z) : bool := memcmp_eq p "RSD PTR " && (sum p 20 =? 0).

(** The address of the structure, or 0. *)
Fixpoint scan_loop (fuel : nat) (p len : Z) : Z :=
  match fuel with
  | O => 0
  | S fuel =>
      if negb (sizeof_RDSP <=? len) then 0
      else if is_rdsp p then p
      else scan_loop fuel (p + 4) (u32 (len - 4))
  end.

Definition scan_rdsp (base len : Z) : Z := scan_loop (Z.to_nat len) base len.

Definition find_rdsp : Z :=
  let pa := u32 (Z.shiftl (ld 2 0x40e) 4) in
  let rdsp := if pa =? 0 then 0 else scan_rdsp pa 1024 in
  if negb (rdsp =? 0) then rdsp else scan_rdsp 0xe0000 0x20000.

Definition sizeof_RSDT : Z := 36.

(** The number of entries, as an [int]. *)
Definition rsdt_count (rsdt : Z) : Z := s32 (u64 (ld 4 (rsdt + 4) - sizeof_RSDT) / 4).

(** The last MADT and FADT among the entries, 0 for none. *)
Definition scan_rsdt (rsdt : Z) : Z * Z :=
  for_range 0 (rsdt_count rsdt) (fun i '(madt, fadt) =>
    let hdr := ld 4 (rsdt + sizeof_RSDT + 4 * i) in
    if memcmp_eq hdr "APIC" then (hdr, fadt)
    else if memcmp_eq hdr "FACP" then (madt, hdr)
    else (madt, fadt)) (0, 0).

(** ** lib/lapic.cpp *)

Definition ID : Z := 0x20 / 4.
Definition VER : Z := 0x30 / 4.
Definition TPR : Z := 0x80 / 4.
Definition EOI : Z := 0xB0 / 4.
Definition SVR : Z := 0xF0 / 4.
Definition ESR : Z := 0x280 / 4.
Definition ICRLO : Z := 0x300 / 4.
Definition ICRHI : Z := 0x310 / 4.
Definition TIMER : Z := 0x320 / 4.
Definition PCINT : Z := 0x340 / 4.
Definition LINT1 : Z := 0x360 / 4.
Definition ERROR : Z := 0x370 / 4.
Definition TICR : Z := 0x380 / 4.
Definition TDCR : Z := 0x3E0 / 4.
Definition ENABLE : Z := 0x100.
Definition MASKED : Z := 0x10000.
Definition PERIODIC : Z := 0x20000.
Definition X1 : Z := 0xB.
Definition INIT : Z := 0x500.
Definition LEVEL : Z := 0x8000.
Definition BCAST : Z := 0x80000.
Definition DELIVS : Z := 0x1000.
Definition IRQ_TIMER : Z := 0.

(** The address of the registers, the writes so far (last first) and the count
    of ticks the trap entry counts down. *)
Record lapic := mkLapic { lapic_addr : Z; lapic_writes : list (Z * Z); lapic_timer_cnt : Z }.

Definition lapicw (index value : Z) (l : lapic) : lapic :=
  mkLapic (lapic_addr l) ((index, u32 value) :: lapic_writes l) (lapic_timer_cnt l).

Definition timer_disable : lapic -> lapic := lapicw TICR (-1).
Definition lapic_eoi : lapic -> lapic := lapicw EOI 0.

(** The count for [ns] nanoseconds; the assertion is [None]. *)
Definition timer_count (ext_freq ns : Z) : option Z :=
  let to_set := u64 (u128 (ns * ext_freq) / 1000000000) in
  if to_set <? 4000000000 then Some to_set else None.

Definition timer_single_shot_ns (t : Timer.clock) (ns : Z) (l : lapic) : option lapic :=
  to_set ← timer_count (Timer.ext_freq t) ns;
  let l := mkLapic (lapic_addr l) (lapic_writes l) 1 in
  Some (lapicw TICR to_set (lapicw TIMER (IRQ_OFFSET + IRQ_TIMER) l)).

Definition timer_periodic_ns (t : Timer.clock) (ns cnt : Z) (l : lapic) : option lapic :=
  to_set ← timer_count (Timer.ext_freq t) ns;
  let l := mkLapic (lapic_addr l) (lapic_writes l) cnt in
  Some (lapicw TICR to_set (lapicw TIMER (Z.lor PERIODIC (IRQ_OFFSET + IRQ_TIMER)) l)).

(** Polling until the bit appears or goes away; [readings] are what the register
    gives, [None] when they end first. *)
Fixpoint poll (done : Z -> bool) (readings : list Z) : option (list Z) :=
  match readings with
  | [] => None
  | v :: readings => if done v then Some readings else poll done readings
  end.

(** The command sent to the SMI port, if any, and the remaining readings of the
    control port. *)
Definition switch_to_acpi_mode (fadt : Z) (pm1 : list Z) : option (option (Z * Z) * list Z) :=
  let SMI_CommandPort := ld 4 (fadt + 48) in
  let ACPI_Enable := ld 1 (fadt + 52) in
  if SMI_CommandPort =? 0 then Some (None, pm1)
  else if ACPI_Enable =? 0 then Some (None, pm1)
  else pm1 ← poll (fun v => negb (Z.land v 1 =? 0)) pm1; Some (Some (u16 SMI_CommandPort, ACPI_Enable), pm1).

(** [ver] is the version register, [icr] the readings of the command register. *)
Definition lapic_init (t : Timer.clock) (ver : Z) (icr pm1 : list Z) : option (option (Z * Z) * lapic) :=
  let rdsp := find_rdsp in
  let rsdt := ld 4 (rdsp + 16) in
  let '(madt, fadt) := scan_rsdt rsdt in
  if madt =? 0 then None
  else
    r ← (if negb (fadt =? 0) then switch_to_acpi_mode fadt pm1 else Some (None, pm1));
    let l := mkLapic (remap (ld 4 (madt + 36))) [] 0 in
    let l := lapicw SVR (Z.lor ENABLE MASKED) l in
    let l := lapicw TDCR X1 l in
    let l := lapicw TIMER (IRQ_OFFSET + IRQ_TIMER) l in
    let l := lapicw LINT1 MASKED l in
    let l := if 4 <=? Z.land (Z.shiftr ver 16) 0xFF then lapicw PCINT MASKED l else l in
    let l := lapicw ERROR MASKED l in
    let l := lapicw ESR 0 (lapicw ESR 0 l) in
    let l := lapicw EOI 0 l in
    let l := lapicw ICRHI 0 l in
    let l := lapicw ICRLO (Z.lor BCAST (Z.lor INIT LEVEL)) l in
    _ ← poll (fun v => Z.land v DELIVS =? 0) icr;
    let l := lapicw TPR 0 l in
    if Timer.ext_freq t =? 0 then None else Some (r.1, l).
End acpi.
