(* ===== verification/InterruptsClaims.v ===== *)
(** * Interrupts reach their handlers

    The masks of the two chips follow the calls of [enable] and [disable], and
    line [i] arrives at vector 32 + i. The search for the ACPI pointer finds the
    first candidate, and the timer is set to the largest count that is not too
    long. *)

From S2P Require Import Prelude Timer Interrupts.

Inductive pic_op := Enable (irq : Z) | Disable (irq : Z).

Definition op_irq (o : pic_op) : Z := match o with Enable i | Disable i => i end.
Definition pic_step (p : pic) (o : pic_op) : pic := match o with Enable i => enable i p | Disable i => disable i p end.

(** Whether line [i] is open after some calls: at first only the line of the
    second chip is. *)
Definition open_after (ops : list pic_op) (i : Z) : bool :=
  foldl (fun b o => if op_irq o =? i then match o with Enable _ => true | Disable _ => false end else b) (i =? IRQ_SLAVE) ops.

(** The mask register of the chip of a line, and its vector. *)
Definition chip_of (p : pic) (i : Z) : chip := if i <? 8 then chip1 p else chip2 p.
Definition line_open (p : pic) (i : Z) : bool := negb (Z.testbit (imr (chip_of p i)) (i mod 8)).
Definition line_vector (p : pic) (i : Z) : Z := vector_base (chip_of p i) + i mod 8.

(** The two chips in operation: where lines go and how the chips are joined. *)
Record wired (p : pic) : Prop := {
  wi_init : did_init p = true;
  wi_step1 : init_step (chip1 p) = 0;
  wi_step2 : init_step (chip2 p) = 0;
  wi_base1 : vector_base (chip1 p) = 32;
  wi_base2 : vector_base (chip2 p) = 40;
  wi_cascade1 : cascade (chip1 p) = 2 ^ IRQ_SLAVE;
  wi_cascade2 : cascade (chip2 p) = IRQ_SLAVE;
  wi_mode1 : Z.testbit (icw4 (chip1 p)) 0 = true;
  wi_mode2 : Z.testbit (icw4 (chip2 p)) 0 = true;
  wi_mask1 : imr (chip1 p) = u8 (mask_8259A p);
  wi_mask2 : imr (chip2 p) = u8 (Z.shiftr (mask_8259A p) 8)
}.

Record masks (ops : list pic_op) (p : pic) : Prop := {
  ma_range : is_uint 16 (mask_8259A p);
  ma_bits i : 0 <= i < 16 -> Z.testbit (mask_8259A p) i = negb (open_after ops i)
}.

Lemma u16_bits z i : 0 <= i < 16 -> Z.testbit (u16 z) i = Z.testbit z i.
Proof. intros Hi. unfold wrap. apply Z.mod_pow2_bits_low. lia. Qed.

Lemma bit_testbit k i : 0 <= k -> 0 <= i -> Z.testbit (Z.shiftl 1 k) i = (i =? k).
Proof.
  intros Hk Hi. rewrite Z.shiftl_spec by done. destruct (Z.eqb_spec i k) as [->|Hne]; [by rewrite Z.sub_diag|].
  destruct (decide (i < k)); [by rewrite Z.testbit_neg_r by lia|]. apply Z.bits_above_log2; cbn; lia.
Qed.

(** The two data ports. *)
Lemma outb_data1 v p : outb (IO_PIC1 + 1) v p = mkPic (mask_8259A p) (did_init p) (chip_data (u8 v) (chip1 p)) (chip2 p).
Proof. reflexivity. Qed.

Lemma outb_data2 v p : outb (IO_PIC2 + 1) v p = mkPic (mask_8259A p) (did_init p) (chip1 p) (chip_data (u8 v) (chip2 p)).
Proof. reflexivity. Qed.

(** Writing the masks. *)
Lemma set_mask_spec mask p : let p' := set_mask_8259A mask p in mask_8259A p' = mask /\ did_init p' = did_init p /\ (wired p -> wired p').
Proof.
  unfold set_mask_8259A. cbn [did_init]. destruct (did_init p) eqn:Ei; cbn [negb]; cycle 1.
  { split_and!; [done..|]. intros []. congruence. }
  cbv zeta. rewrite outb_data2, outb_data1. cbn [mask_8259A did_init chip1 chip2].
  split_and!; [done..|]. intros [I S1 S2 B1 B2 C1 C2 M1 M2 K1 K2]. unfold chip_data. rewrite S1, S2. by split.
Qed.

Lemma step_masks ops o p : masks ops p -> 0 <= op_irq o < 16 -> masks (ops ++ [o]) (pic_step p o).
Proof.
  intros [Hr Hb] Ho. unfold pic_step, enable, disable.
  destruct o as [k|k]; cbn [op_irq] in Ho; destruct (set_mask_spec (u16 (Z.land (mask_8259A p) (Z.lnot (Z.shiftl 1 k)))) p) as (E1 & _);
    destruct (set_mask_spec (u16 (Z.lor (mask_8259A p) (Z.shiftl 1 k))) p) as (E2 & _); cbv zeta in E1, E2.
  - split; rewrite E1; [apply wrap_range; lia|]. intros i Hi. rewrite u16_bits, Z.land_spec, Z.lnot_spec, bit_testbit, Hb by lia.
    unfold open_after. rewrite foldl_app. cbn [foldl op_irq]. rewrite (Z.eqb_sym k i). destruct (i =? k); [by rewrite andb_false_r|by rewrite andb_true_r].
  - split; rewrite E2; [apply wrap_range; lia|]. intros i Hi. rewrite u16_bits, Z.lor_spec, bit_testbit, Hb by lia.
    unfold open_after. rewrite foldl_app. cbn [foldl op_irq]. rewrite (Z.eqb_sym k i). destruct (i =? k); [by rewrite orb_true_r|by rewrite orb_false_r].
Qed.

Lemma step_wired o p : wired p -> wired (pic_step p o).
Proof. intros H. destruct o; by apply set_mask_spec. Qed.

Lemma steps_masks ops more p : masks ops p -> Forall (fun o => 0 <= op_irq o < 16) more -> masks (ops ++ more) (foldl pic_step p more).
Proof.
  revert ops p. induction more as [|o more IH]; intros ops p Hm Ho; [by rewrite app_nil_r|]. apply Forall_cons in Ho as [Ho Hmore].
  cbn [foldl]. rewrite cons_middle, app_assoc. apply IH; [by apply step_masks|done].
Qed.

Lemma steps_wired more p : wired p -> wired (foldl pic_step p more).
Proof. revert p. induction more as [|o more IH]; intros p H; [done|]. apply IH. by apply step_wired. Qed.

(** Whatever the chips did before, initialisation wires them up. *)
Lemma init_wired p : is_uint 16 (mask_8259A p) -> mask_8259A p <> 0xFFFF -> wired (pic_init p) /\ mask_8259A (pic_init p) = mask_8259A p.
Proof.
  intros Hr Hm. destruct p as [mask di [s1 n1 a1 v1 k1 w1 i1] [s2 n2 a2 v2 k2 w2 i2]]. cbn [mask_8259A] in *. unfold pic_init.
  match goal with |- context [if negb (mask_8259A ?q =? 65535) then _ else _] => set (p1 := q) end.
  assert (p1 = mkPic mask true (mkChip 0 true true 32 4 3 0) (mkChip 0 true true 40 2 1 0)) as -> by reflexivity.
  cbn [mask_8259A]. rewrite (proj2 (Z.eqb_neq _ _) Hm). cbn [negb]. split; [|apply set_mask_spec]. by split.
Qed.

(** At first only the cascade line is open. *)
Lemma static_masks c1 c2 : masks [] (pic_static c1 c2).
Proof.
  split; [by vm_compute|]. intros i Hi. unfold open_after. cbn [foldl pic_static mask_8259A].
  change (Z.land 65535 (Z.lnot (Z.shiftl 1 IRQ_SLAVE))) with (Z.land (Z.ones 16) (Z.lnot (Z.shiftl 1 2))).
  by rewrite Z.land_spec, Z.lnot_spec, bit_testbit, Z.ones_spec_low by lia.
Qed.

Lemma init_masks ops p : masks ops p -> mask_8259A p <> 0xFFFF -> wired (pic_init p) /\ masks ops (pic_init p).
Proof. intros [Hr Hb] Hne. destruct (init_wired p Hr Hne) as [W E]. split; [done|]. split; by rewrite E. Qed.

(** Where a line goes and whether it is open. *)
Lemma wired_line ops p i : wired p -> masks ops p -> 0 <= i < 16 -> line_vector p i = 32 + i /\ line_open p i = open_after ops i.
Proof.
  intros [_ _ _ B1 B2 _ _ _ _ K1 K2] [_ Hbits] Hi. unfold line_vector, line_open, chip_of. specialize (Hbits i Hi).
  destruct (Z.ltb_spec i 8).
  - rewrite B1, K1, Z.mod_small by lia. split; [done|]. unfold wrap. rewrite Z.mod_pow2_bits_low, Hbits by lia. apply negb_involutive.
  - replace (i mod 8) with (i - 8) by dlia. rewrite B2, K2. split; [lia|]. unfold wrap.
    rewrite Z.mod_pow2_bits_low, Z.shiftr_spec by lia. replace (i - 8 + 8) with i by lia. rewrite Hbits. apply negb_involutive.
Qed.



(** ** The ACPI pointer *)

(** The scan looks at every fourth address at which the structure still fits
    and stops at the first candidate. *)
Lemma scan_loop_first mem fuel p len :
  0 < p -> 0 <= len < 2 ^ 32 -> len <= Z.of_nat fuel ->
  let r := scan_loop mem fuel p len in
  let fits k := 0 <= k /\ 4 * k + sizeof_RDSP <= len in
  (r = 0 /\ forall k, fits k -> is_rdsp mem (p + 4 * k) = false) \/
  (exists k, fits k /\ r = p + 4 * k /\ is_rdsp mem r = true /\ forall j, 0 <= j < k -> is_rdsp mem (p + 4 * j) = false).
Proof.
  revert p len. induction fuel as [|fuel IH]; intros p len Hp Hl Hf; cbn [scan_loop]; unfold sizeof_RDSP.
  { left. split; [done|]. intros k Hk. lia. }
  destruct (Z.leb_spec 36 len); cbn [negb]; [|left; split; [done|]; intros k Hk; lia].
  destruct (is_rdsp mem p) eqn:E.
  { right. exists 0. rewrite Z.mul_0_r, Z.add_0_r. split_and!; [lia..|done|]. intros j Hj. lia. }
  replace (u32 (len - 4)) with (len - 4) by (symmetry; apply wrap_small; unfold is_uint; lia).
  specialize (IH (p + 4) (len - 4) ltac:(lia) ltac:(lia) ltac:(lia)). unfold sizeof_RDSP in IH. cbv zeta in IH.
  assert (forall k (P : Z -> Prop), (k = 0 -> P p) -> (k <> 0 -> P (p + 4 + 4 * (k - 1))) -> P (p + 4 * k)) as Hstep.
  { intros k P H0 H1. destruct (decide (k = 0)) as [->|]; [rewrite Z.mul_0_r, Z.add_0_r; by apply H0|]. replace (p + 4 * k) with (p + 4 + 4 * (k - 1)) by lia. by apply H1. }
  destruct IH as [[Hr Hall]|(k & Hk & Hr & Hc & Hall)].
  - left. split; [done|]. intros k Hk. apply (Hstep k (fun a => is_rdsp mem a = false)); [done|]. intros. apply Hall. lia.
  - right. exists (k + 1). split_and!; [lia..|done|]. intros j Hj. apply (Hstep j (fun a => is_rdsp mem a = false)); [done|]. intros. apply Hall. lia.
Qed.

(** ** The timer *)

(** The count is the largest one that does not take longer than asked for; the
    call stops when that is four thousand million or more. *)
Lemma timer_count_exact f ns : 0 <= ns < 2 ^ 61 -> 0 <= f < 2 ^ 32 ->
  match timer_count f ns with
  | Some c => c < 4 * 10 ^ 9 /\ c * 10 ^ 9 <= ns * f < (c + 1) * 10 ^ 9
  | None => 4 * 10 ^ 18 <= ns * f
  end.
Proof.
  intros Hn Hf. unfold timer_count. set (q := ns * f). assert (0 <= q < 2 ^ 93) by (unfold q; change (2 ^ 93) with (2 ^ 61 * 2 ^ 32); nia). clearbody q.
  assert (0 <= q / 1000000000 < 2 ^ 64).
  { split; [apply Z.div_pos; lia|]. apply Z.div_lt_upper_bound; [lia|]. change (2 ^ 93) with 9903520314283042199192993792 in *. change (2 ^ 64) with 18446744073709551616. lia. }
  rewrite (wrap_small 128) by (unfold is_uint; lia). rewrite wrap_small by done.
  pose proof (Z.div_mod q 1000000000 ltac:(lia)). pose proof (Z.mod_pos_bound q 1000000000 ltac:(lia)). destruct (Z.ltb_spec (q / 1000000000) 4000000000); lia.
Qed.
