(* ===== verification/ByteMem.v ===== *)
(** * Byte-addressed memory of the drivers

    The memory shared with a device is a finite map from physical addresses to
    bytes; [memcpy] is a write of a list of bytes, a bus-master transfer reads or
    writes the same way. *)

From S2P Require Import Prelude.

Abbreviation bytemem := (gmap Z Z).

Definition mget (m : bytemem) (a : Z) : Z := default 0 (m !! a).

Fixpoint mwrite (a : Z) (l : list Z) (m : bytemem) : bytemem :=
  match l with
  | [] => m
  | b :: l' => mwrite (a + 1) l' (<[a := b]> m)
  end.

Definition mread (m : bytemem) (a n : Z) : list Z := (fun i => mget m (a + i)) <$> seqZ 0 n.

Lemma mget_mwrite m a l x :
  mget (mwrite a l m) x =
    if decide (a <= x < a + Z.of_nat (length l)) then default 0 (l !! Z.to_nat (x - a)) else mget m x.
Proof.
  revert a m. induction l as [|b l IH]; intros a m; cbn [mwrite length].
  - rewrite decide_False by lia. done.
  - rewrite IH. destruct (decide (x = a)) as [->|Hne].
    + rewrite decide_False by lia. rewrite decide_True by lia. unfold mget. rewrite lookup_insert_eq.
      by replace (Z.to_nat (a - a)) with 0%nat by lia.
    + unfold mget at 1. rewrite lookup_insert_ne by done. do 2 case_decide; try lia; [|done].
      replace (Z.to_nat (x - a)) with (S (Z.to_nat (x - (a + 1)))) by lia. done.
Qed.

Lemma length_mread m a n : 0 <= n -> Z.of_nat (length (mread m a n)) = n.
Proof. intros Hn. unfold mread. rewrite length_fmap, length_seqZ. lia. Qed.

(** Reading back what was written. *)
Lemma mread_mwrite_same m a l : mread (mwrite a l m) a (Z.of_nat (length l)) = l.
Proof.
  apply list_eq. intros i. unfold mread. rewrite list_lookup_fmap.
  destruct (Nat.lt_ge_cases i (length l)) as [Hi|Hi].
  - rewrite lookup_seqZ_lt by lia. cbn [fmap option_fmap option_map]. rewrite mget_mwrite, decide_True by lia.
    replace (Z.to_nat (a + (0 + Z.of_nat i) - a)) with i by lia.
    destruct (lookup_lt_is_Some_2 l i Hi) as [b Hb]. by rewrite Hb.
  - rewrite lookup_seqZ_ge by lia. by rewrite lookup_ge_None_2 by lia.
Qed.

(** A write elsewhere does not change what is read. *)
Lemma mread_mwrite_disjoint m a l x n :
  x + n <= a \/ a + Z.of_nat (length l) <= x -> mread (mwrite a l m) x n = mread m x n.
Proof.
  intros Hd. unfold mread. apply list_fmap_ext. intros i y Hy. apply lookup_seqZ in Hy as [-> Hi].
  rewrite mget_mwrite, decide_False by lia. done.
Qed.

(** Reading back the second part of what was written. *)
Lemma mread_mwrite_app m a l1 l2 :
  mread (mwrite a (l1 ++ l2) m) (a + Z.of_nat (length l1)) (Z.of_nat (length l2)) = l2.
Proof.
  apply list_eq. intros i. unfold mread. rewrite list_lookup_fmap.
  destruct (Nat.lt_ge_cases i (length l2)) as [Hi|Hi].
  - rewrite lookup_seqZ_lt by lia. cbn [fmap option_fmap option_map]. rewrite mget_mwrite, length_app, decide_True by lia.
    replace (Z.to_nat (a + Z.of_nat (length l1) + (0 + Z.of_nat i) - a)) with (length l1 + i)%nat by lia.
    rewrite lookup_app_r by lia. replace (length l1 + i - length l1)%nat with i by lia.
    destruct (lookup_lt_is_Some_2 l2 i Hi) as [b Hb]. by rewrite Hb.
  - rewrite lookup_seqZ_ge by lia. by rewrite lookup_ge_None_2 by lia.
Qed.
