(* ===== verification/E1000.v ===== *)
(** * lib/e1000.cpp: the Intel network card driver

    The driver's rings, buffers and indices are a record; the registers of the
    card are a map that both sides access. [dev_tx] and [dev_rx] are what the
    card's documentation promises: it sends the descriptor at TDH until TDH
    reaches TDT, and fills the descriptor at RDH until RDH reaches RDT. The
    addresses of the static arrays are parameters. *)

From S2P Require Import Prelude ByteMem Memory.

Record TransDesc := mkTransDesc {
  t_addr : Z; t_length : Z; t_cso : Z; t_cmd : Z; t_status : Z; t_css : Z; t_special : Z
}.

Record RecvDesc := mkRecvDesc {
  r_addr : Z; r_length : Z; r_chksum : Z; r_status : Z; r_errors : Z; r_special : Z
}.

Definition TQ_FLUSH_COUNT : Z := 32.
Definition RQ_FLUSH_COUNT : Z := 128.
Definition TQSIZE : Z := PAGE_SIZE / 16.
Definition RQSIZE : Z := PAGE_SIZE * 1 / 16.

(** Register offsets. *)
Definition CTRL : Z := 0x0.
Definition STATUS : Z := 0x8.
Definition TDH : Z := 0x3810.
Definition TDT : Z := 0x3818.
Definition RDH : Z := 0x2810.
Definition RDT : Z := 0x2818.

(** Where the linker put the static arrays. *)
Class Layout := { tq_base : Z; rq_base : Z; tq_pages : Z; rq_pages : Z }.

Record e1000 := mkE1000 {
  tq : list TransDesc;
  rq : list RecvDesc;
  tq_addrs : list Z;
  rq_addrs : list Z;
  last_tq_page_id : Z;
  last_tq_page_offset : Z;
  e1000_rdt : Z;
  e1000_rdt_real : Z;
  e1000_tdt : Z;
  e1000_tdh : Z;
  e1000_tdt_real : Z;
  dma : bytemem;
  regs : gmap Z Z
}.

Definition reg (r : Z) (s : e1000) : Z := default 0 (regs s !! r).

Definition set_reg (r v : Z) (s : e1000) : e1000 :=
  mkE1000 (tq s) (rq s) (tq_addrs s) (rq_addrs s) (last_tq_page_id s) (last_tq_page_offset s) (e1000_rdt s)
    (e1000_rdt_real s) (e1000_tdt s) (e1000_tdh s) (e1000_tdt_real s) (dma s) (<[r := v]> (regs s)).

Definition set_tdh (v : Z) (s : e1000) : e1000 :=
  mkE1000 (tq s) (rq s) (tq_addrs s) (rq_addrs s) (last_tq_page_id s) (last_tq_page_offset s) (e1000_rdt s)
    (e1000_rdt_real s) (e1000_tdt s) v (e1000_tdt_real s) (dma s) (regs s).

Definition set_tx (q : list TransDesc) (tdt : Z) (s : e1000) : e1000 :=
  mkE1000 q (rq s) (tq_addrs s) (rq_addrs s) (last_tq_page_id s) (last_tq_page_offset s) (e1000_rdt s)
    (e1000_rdt_real s) tdt (e1000_tdh s) (e1000_tdt_real s) (dma s) (regs s).

Definition set_tdt_real (v : Z) (s : e1000) : e1000 :=
  mkE1000 (tq s) (rq s) (tq_addrs s) (rq_addrs s) (last_tq_page_id s) (last_tq_page_offset s) (e1000_rdt s)
    (e1000_rdt_real s) (e1000_tdt s) (e1000_tdh s) v (dma s) (regs s).

Definition set_page (id off : Z) (s : e1000) : e1000 :=
  mkE1000 (tq s) (rq s) (tq_addrs s) (rq_addrs s) id off (e1000_rdt s)
    (e1000_rdt_real s) (e1000_tdt s) (e1000_tdh s) (e1000_tdt_real s) (dma s) (regs s).

Definition set_dma (m : bytemem) (s : e1000) : e1000 :=
  mkE1000 (tq s) (rq s) (tq_addrs s) (rq_addrs s) (last_tq_page_id s) (last_tq_page_offset s) (e1000_rdt s)
    (e1000_rdt_real s) (e1000_tdt s) (e1000_tdh s) (e1000_tdt_real s) m (regs s).

Definition set_rx (q : list RecvDesc) (rdt rdt_real : Z) (s : e1000) : e1000 :=
  mkE1000 (tq s) q (tq_addrs s) (rq_addrs s) (last_tq_page_id s) (last_tq_page_offset s) rdt
    rdt_real (e1000_tdt s) (e1000_tdh s) (e1000_tdt_real s) (dma s) (regs s).

Section driver.
Context `{Layout}.

(** ** Sending *)

(** The virtual and the physical address of the fragment. *)
Definition tq_frag_alloc (cnt : Z) (s : e1000) : option (Z * Z * e1000) :=
  let cnt := u64 (cnt + Z.land (u64 (- cnt)) (64 - 1)) in
  if last_tq_page_offset s + cnt <=? PAGE_SIZE then
    addr ← tq_addrs s !! Z.to_nat (last_tq_page_id s);
    Some (tq_pages + last_tq_page_id s * PAGE_SIZE + last_tq_page_offset s, addr + last_tq_page_offset s,
          set_page (last_tq_page_id s) (last_tq_page_offset s + cnt) s)
  else if cnt <=? PAGE_SIZE then
    let id := (last_tq_page_id s + 1) mod (TQSIZE / 2) in
    addr ← tq_addrs s !! Z.to_nat id;
    Some (tq_pages + id * PAGE_SIZE, addr, set_page id cnt s)
  else None.

(** Tell the card about new descriptors. *)
Definition flush (s : e1000) : Z * e1000 :=
  if negb (e1000_tdt s =? e1000_tdt_real s) then (0, set_tdt_real (e1000_tdt s) (set_reg TDT (e1000_tdt s) s))
  else (0, s).

Definition full (s : e1000) : bool := (e1000_tdt s + 1) mod TQSIZE =? e1000_tdh s.

Definition td_cmd : Z := Z.lor (Z.lor (Z.land 0 (Z.lnot (2 ^ 5))) (Z.lor (2 ^ 3) (2 ^ 0))) (2 ^ 1).

(** [buf] holds at least [cnt] bytes. *)
Definition send (buf : list Z) (cnt : Z) (s : e1000) : Z * e1000 :=
  if (cnt <? 0) || (1500 <? cnt) then (-1, s)
  else
    let s := if full s then set_tdh (reg TDH s) s else s in
    if full s then (-1, s)
    else
      match tq_frag_alloc cnt s with
      | None => (-1, s)
      | Some (va, pa, s) =>
          let s := set_dma (mwrite va (take (Z.to_nat cnt) buf) (dma s)) s in
          let td := mkTransDesc (u32 pa) cnt 0 td_cmd 0 0 0 in
          let s := set_tx (<[Z.to_nat (e1000_tdt s) := td]> (tq s)) ((e1000_tdt s + 1) mod TQSIZE) s in
          let s := if e1000_tdt s mod TQ_FLUSH_COUNT =? 0
                   then set_tdt_real (e1000_tdt s) (set_reg TDT (e1000_tdt s) s) else s in
          let '(_, s) := flush s in
          (0, s)
      end.

(** ** Receiving *)

Definition clear_dd (rd : RecvDesc) : RecvDesc :=
  mkRecvDesc (r_addr rd) (r_length rd) (r_chksum rd) (Z.land (r_status rd) (Z.lnot 1)) (r_errors rd) (r_special rd).

(** The length or -1, and the bytes copied to the buffer. *)
Definition receive (s : e1000) : option (Z * list Z * e1000) :=
  let idx := (e1000_rdt s + 1) mod RQSIZE in
  rd ← rq s !! Z.to_nat idx;
  if Z.land (r_status rd) 1 =? 0 then Some (-1, [], s)
  else
    let len := r_length rd in
    if len <? 0 then Some (-1, [], s)
    else
      let len := if PAGE_SIZE / 2 <? len then PAGE_SIZE / 2 else len in
      addr ← rq_addrs s !! Z.to_nat idx;
      let bytes := mread (dma s) addr len in
      let s := set_rx (<[Z.to_nat idx := clear_dd rd]> (rq s)) idx (e1000_rdt_real s) s in
      let s := if e1000_rdt s mod RQ_FLUSH_COUNT =? 0
               then set_rx (rq s) (e1000_rdt s) (e1000_rdt s) (set_reg RDT (e1000_rdt s) s) else s in
      Some (len, bytes, s).

(** ** Initialisation *)

(** The accesses to the card in order. *)
Inductive io := Wr (r v : Z) | Rd (r : Z) | Delay (us : Z).

Definition RAL (mac : list Z) : Z :=
  for_range 0 4 (fun i v => Z.lor v (u32 (Z.shiftl (default 0 (mac !! Z.to_nat i)) (i * 8)))) 0.
Definition RAH (mac : list Z) : Z :=
  for_range 0 2 (fun i v => Z.lor v (u32 (Z.shiftl (default 0 (mac !! Z.to_nat (i + 4))) (i * 8)))) 0.

Definition rx_addr (i : Z) : Z := rq_pages + i / 2 * PAGE_SIZE + i mod 2 * PAGE_SIZE / 2.

(** [ctrl0], [ctrl1] and [ctrl2] are the values read from CTRL, [waits] the
    number of times the link was not yet up. *)
Definition init_accesses (maxMTA : Z) (mac : list Z) (ctrl0 ctrl1 ctrl2 : Z) (waits : nat) : list io :=
  [Rd STATUS; Wr 0x400 0; Wr 0x100 0; Wr 0xd8 0xffffffff; Rd CTRL; Wr CTRL (Z.lor ctrl0 0x04000000);
   Delay 1; Wr 0xd8 0xffffffff; Rd CTRL; Wr CTRL (Z.lor ctrl1 0x80000000); Delay 10000; Wr CTRL ctrl1; Rd CTRL;
   Wr CTRL (Z.lor (Z.land ctrl2 (not64 (Z.lor (2 ^ 11) (2 ^ 12)))) (2 ^ 6))] ++
  concat (replicate waits [Rd STATUS; Delay 100000]) ++
  [Rd STATUS; Wr 0x3800 (u32 tq_base); Wr 0x3804 0; Wr 0x3808 (TQSIZE * 16); Wr TDH 0; Wr TDT 0;
   Wr 0x3828 (Z.lor (Z.lor (2 ^ 22) (3 * 2 ^ 16)) (Z.lor (4 * 2 ^ 8) 3));
   Wr 0x400 (Z.lor (Z.lor (2 ^ 1) (2 ^ 3)) (Z.lor (Z.lor (0x10 * 2 ^ 4) (0x40 * 2 ^ 12)) (2 ^ 28)));
   Wr 0x410 0x00602006; Wr 0x5400 (RAL mac); Wr 0x5404 (Z.lor (RAH mac) (2 ^ 31))] ++
  ((fun k => Wr (0x5200 + 4 * k) 0) <$> seqZ 0 ((maxMTA - 0x5200 + 3) / 4)) ++
  [Wr 0xd8 0xffffffff; Rd 0xc0; Wr 0xd0 0; Wr 0x2800 (u32 rq_base); Wr 0x2804 0; Wr 0x2808 (RQSIZE * 16);
   Wr RDH 0; Wr RDT (RQSIZE - 1); Wr 0x100 (Z.lor (Z.lor (2 ^ 1) (2 ^ 15)) (2 ^ 26)); Rd STATUS].

(** The register file after the writes. *)
Fixpoint run_accesses (l : list io) (r : gmap Z Z) : gmap Z Z :=
  match l with
  | [] => r
  | Wr a v :: l' => run_accesses l' (<[a := v]> r)
  | _ :: l' => run_accesses l' r
  end.

Definition set_rx_addr (i : Z) (rd : RecvDesc) : RecvDesc :=
  mkRecvDesc (u32 (rx_addr i)) (r_length rd) (r_chksum rd) (r_status rd) (r_errors rd) (r_special rd).

Definition e1000_init (maxMTA : Z) (mac : list Z) (ctrl0 ctrl1 ctrl2 : Z) (waits : nat) (s : e1000) : Z * e1000 :=
  let addrs := (fun i => tq_pages + i * PAGE_SIZE) <$> seqZ 0 TQSIZE in
  let raddrs := rx_addr <$> seqZ 0 RQSIZE in
  let q := imap (fun i rd => set_rx_addr (Z.of_nat i) rd) (rq s) in
  (0, mkE1000 (tq s) q addrs raddrs 0 0 (RQSIZE - 1) (RQSIZE - 1) 0 0 0 (dma s)
        (run_accesses (init_accesses maxMTA mac ctrl0 ctrl1 ctrl2 waits) (regs s))).

(** The cards the driver knows: vendor, device, end of the multicast table. *)
Definition cards : list (Z * Z * Z) :=
  [(0x8086, 0x15a3, 0x5280); (0x8086, 0x10d3, 0x5280); (0x8086, 0x100e, 0x5400); (0x8086, 0x15bc, 0x5400);
   (0x8086, 0x15b8, 0x5400); (0x8086, 0x0d55, 0x5400); (0x8086, 0x15fa, 0x5400)].

(** [map_device] is [PCI::map_device] on the card's window. *)
Fixpoint _init (map_device : Z -> Z -> option Z) (l : list (Z * Z * Z)) (mac : list Z) (ctrl0 ctrl1 ctrl2 : Z)
    (waits : nat) (s : e1000) : Z * e1000 :=
  match l with
  | [] => (-1, s)
  | (vendor, device, maxMTA) :: l' =>
      match map_device vendor device with
      | Some _ => e1000_init maxMTA mac ctrl0 ctrl1 ctrl2 waits s
      | None => _init map_device l' mac ctrl0 ctrl1 ctrl2 waits s
      end
  end.

Definition init (map_device : Z -> Z -> option Z) (mac : list Z) (ctrl0 ctrl1 ctrl2 : Z) (waits : nat) (s : e1000)
    : bool * e1000 :=
  let '(r, s) := _init map_device cards mac ctrl0 ctrl1 ctrl2 waits s in
  (negb (r <? 0), s).

(** The zeroed static data. *)
Definition e1000_static (m : bytemem) (r : gmap Z Z) : e1000 :=
  mkE1000 (replicate 256 (mkTransDesc 0 0 0 0 0 0 0)) (replicate 256 (mkRecvDesc 0 0 0 0 0 0))
    (replicate 256 0) (replicate 256 0) 0 0 0 0 0 0 0 m r.
End driver.

(** ** The card *)

(** Send the packet of the descriptor at TDH. *)
Definition dev_tx (s : e1000) : option (list Z * e1000) :=
  let h := reg TDH s in
  if h =? reg TDT s then None
  else
    td ← tq s !! Z.to_nat h;
    Some (mread (dma s) (t_addr td) (t_length td), set_reg TDH ((h + 1) mod TQSIZE) s).

(** Put a packet of at most 2048 bytes into the descriptor at RDH. *)
Definition dev_rx (pkt : list Z) (s : e1000) : option e1000 :=
  let h := reg RDH s in
  if (h =? reg RDT s) || (2048 <? Z.of_nat (length pkt)) then None
  else
    rd ← rq s !! Z.to_nat h;
    let rd' := mkRecvDesc (r_addr rd) (Z.of_nat (length pkt)) (r_chksum rd) (Z.lor (r_status rd) 1)
                 (r_errors rd) (r_special rd) in
    Some (set_reg RDH ((h + 1) mod RQSIZE)
            (set_rx (<[Z.to_nat h := rd']> (rq s)) (e1000_rdt s) (e1000_rdt_real s)
               (set_dma (mwrite (r_addr rd) pkt (dma s)) s))).
