(* ===== verification/E1000Proofs.v ===== *)
(** * The rings of the network card as queues

    Ghost counters number the packets from the start: the ring indices are the
    counters modulo 256, and the transmit buffers are taken from 128 pages in
    turn. A page is left only when it holds two fragments, so a fragment is
    never reused while its packet may still be waiting. *)

From S2P Require Import Prelude ByteMem Memory E1000.

(** The arrays lie below 4 GiB and do not overlap. *)
Class LayoutOk `{Layout} := {
  tq_pages_ok : 0 <= tq_pages /\ tq_pages + 524288 < 2 ^ 32;
  rq_pages_ok : 0 <= rq_pages /\ rq_pages + 524288 < 2 ^ 32;
  pages_disjoint : tq_pages + 524288 <= rq_pages \/ rq_pages + 524288 <= tq_pages
}.

(** ** Modular counters *)

Lemma mod256_eq a b : a mod 256 = b mod 256 -> -256 < a - b < 256 -> a = b.
Proof. intros. dlia. Qed.

Lemma to_nat_mod_lt x n : 0 < n -> (Z.to_nat (x mod n) < Z.to_nat n)%nat.
Proof. intros. pose proof (Z.mod_pos_bound x n). lia. Qed.

Lemma insert_mod_ne {A} (l : list A) i j (x : A) :
  i mod 256 <> j mod 256 -> <[Z.to_nat (i mod 256) := x]> l !! Z.to_nat (j mod 256) = l !! Z.to_nat (j mod 256).
Proof. intros Hn. apply list_lookup_insert_ne. pose proof (Z.mod_pos_bound i 256). pose proof (Z.mod_pos_bound j 256). lia. Qed.

Lemma insert_mod_eq {A} (l : list A) i (x : A) :
  length l = 256%nat -> <[Z.to_nat (i mod 256) := x]> l !! Z.to_nat (i mod 256) = Some x.
Proof. intros Hl. apply list_lookup_insert_eq. rewrite Hl. pose proof (Z.mod_pos_bound i 256). lia. Qed.

Section rings.
Context `{L : Layout} `{LO : !LayoutOk}.

(** ** Transmit buffers *)

Definition frag_addr (V o : Z) : Z := tq_pages + V mod 128 * PAGE_SIZE + o.

(** Packet number [i] of [A] is intact in its buffer and its descriptor; [V] is
    the number of the current page counted from the start, [off] its fill and
    [n] the fragments on it. *)
Record frag_ok (q : list TransDesc) (m : bytemem) (A V off n i : Z) (pkt : list Z) (Vi oi ci : Z) : Prop := {
  fo_range : 0 <= oi /\ oi + ci <= PAGE_SIZE /\ Z.of_nat (length pkt) <= ci;
  fo_page : 0 <= Vi <= V;
  fo_cur : Vi = V -> oi + ci <= off;
  fo_old : Vi < V -> 2 * (V - Vi) - 2 + Z.min 2 n <= A - 1 - i;
  fo_desc : q !! Z.to_nat (i mod 256) =
    Some (mkTransDesc (frag_addr Vi oi) (Z.of_nat (length pkt)) 0 td_cmd 0 0 0);
  fo_data : mread m (frag_addr Vi oi) (Z.of_nat (length pkt)) = pkt
}.

(** [acc] are the accepted packets, [T] of which were sent; the driver knows of
    the first [K]. *)
Record tx_inv (s : e1000) (acc : list (list Z)) (T K V n : Z) : Prop := {
  tx_len : length (tq s) = 256%nat;
  tx_addrs : tq_addrs s = (fun i => tq_pages + i * PAGE_SIZE) <$> seqZ 0 256;
  tx_tdt : e1000_tdt s = Z.of_nat (length acc) mod 256;
  tx_real : e1000_tdt_real s = e1000_tdt s;
  tx_TDT : reg TDT s = e1000_tdt s;
  tx_TDH : reg TDH s = T mod 256;
  tx_tdh : e1000_tdh s = K mod 256;
  tx_order : 0 <= K <= T /\ T <= Z.of_nat (length acc) <= K + 255;
  tx_page : last_tq_page_id s = V mod 128 /\ 0 <= V;
  tx_off : 0 <= last_tq_page_offset s <= PAGE_SIZE /\ last_tq_page_offset s <= 1536 * n /\ 0 <= n;
  tx_frag i pkt : K <= Z.of_nat i -> acc !! i = Some pkt ->
    exists Vi oi ci, frag_ok (tq s) (dma s) (Z.of_nat (length acc)) V (last_tq_page_offset s) n (Z.of_nat i) pkt Vi oi ci
}.

(** A change outside the transmit side. *)
Lemma tx_inv_keep s s' acc T K V n :
  tx_inv s acc T K V n -> tq s' = tq s -> tq_addrs s' = tq_addrs s -> e1000_tdt s' = e1000_tdt s ->
  e1000_tdt_real s' = e1000_tdt_real s -> e1000_tdh s' = e1000_tdh s -> last_tq_page_id s' = last_tq_page_id s ->
  last_tq_page_offset s' = last_tq_page_offset s -> reg TDT s' = reg TDT s -> reg TDH s' = reg TDH s ->
  (forall a k, tq_pages <= a -> a + k <= tq_pages + 524288 -> mread (dma s') a k = mread (dma s) a k) ->
  tx_inv s' acc T K V n.
Proof.
  intros [] E1 E2 E3 E4 E5 E6 E7 E8 E9 Hm. split; rewrite ?E1, ?E2, ?E3, ?E4, ?E5, ?E6, ?E7, ?E8, ?E9; try done.
  intros i pkt Hi Hp. destruct (tx_frag0 i pkt Hi Hp) as (Vi & oi & ci & [Hr Hpg Hc Ho Hd Hda]).
  exists Vi, oi, ci. split; try done. rewrite Hm; [done|..]; unfold frag_addr, PAGE_SIZE in *.
  - pose proof (Z.mod_pos_bound Vi 128). lia.
  - pose proof (Z.mod_pos_bound Vi 128). lia.
Qed.

Lemma full_spec s acc T K V n : tx_inv s acc T K V n -> full s = (Z.of_nat (length acc) =? K + 255).
Proof.
  intros Hi. unfold full. rewrite (tx_tdt _ _ _ _ _ _ Hi), (tx_tdh _ _ _ _ _ _ Hi). change TQSIZE with 256.
  pose proof (tx_order _ _ _ _ _ _ Hi) as Ho.
  destruct (Z.eqb_spec (Z.of_nat (length acc)) (K + 255)) as [E|E].
  - apply Z.eqb_eq. dlia.
  - apply Z.eqb_neq. intros Em. apply E. assert (Z.of_nat (length acc) + 1 = K + 256); [|lia].
    apply mod256_eq; [|lia]. dlia.
Qed.

Lemma tx_inv_refresh s acc T K V n : tx_inv s acc T K V n -> tx_inv (set_tdh (reg TDH s) s) acc T T V n.
Proof.
  intros []. split; try done; [lia|]. intros i pkt Hi. apply tx_frag0. lia.
Qed.

Lemma round_64 cnt : 0 <= cnt <= 1500 -> u64 (cnt + Z.land (u64 (- cnt)) (64 - 1)) = (cnt + 63) / 64 * 64.
Proof.
  intros Hc. change (64 - 1) with (2 ^ 6 - 1). rewrite land_mask by lia. unfold wrap.
  change (2 ^ 6) with 64. change (2 ^ 64) with 18446744073709551616. dlia.
Qed.

(** Where the next fragment goes. *)
Lemma frag_alloc_ok s acc T K V n cnt :
  tx_inv s acc T K V n -> 0 <= cnt <= 1500 ->
  exists V' o c n', tq_frag_alloc cnt s = Some (frag_addr V' o, frag_addr V' o, set_page (V' mod 128) (o + c) s) /\
    cnt <= c <= 1536 /\ 0 <= o /\ o + c <= PAGE_SIZE /\ o + c <= 1536 * n' /\ 0 <= n' /\
    ((V' = V /\ o = last_tq_page_offset s /\ n' = n + 1) \/ (V' = V + 1 /\ o = 0 /\ n' = 1 /\ 2 <= n)).
Proof.
  intros Hi Hc. destruct (tx_page _ _ _ _ _ _ Hi) as [Ep HV]. destruct (tx_off _ _ _ _ _ _ Hi) as (Ho & Hn & Hn0).
  unfold tq_frag_alloc. rewrite round_64 by done. set (c := (cnt + 63) / 64 * 64).
  assert (cnt <= c <= 1536) as Hcc by (unfold c; dlia). rewrite (tx_addrs _ _ _ _ _ _ Hi), Ep.
  change PAGE_SIZE with 4096 in *. change (TQSIZE / 2) with 128.
  assert (forall x, ((fun i : Z => tq_pages + i * 4096) <$> seqZ 0 256) !! Z.to_nat (x mod 128) = Some (tq_pages + x mod 128 * 4096)) as Hlk.
  { intros x. pose proof (Z.mod_pos_bound x 128). rewrite list_lookup_fmap, lookup_seqZ_lt by lia. cbn. f_equal. lia. }
  destruct (Z.leb_spec (last_tq_page_offset s + c) 4096) as [Hle|Hgt].
  - rewrite Hlk, mbind_Some. exists V, (last_tq_page_offset s), c, (n + 1). split; [done|]. split_and!; lia.
  - rewrite (proj2 (Z.leb_le c 4096)) by lia. rewrite Zplus_mod_idemp_l, Hlk, mbind_Some.
    exists (V + 1), 0, c, 1. split; [unfold frag_addr; change PAGE_SIZE with 4096; by rewrite !Z.add_0_r, Z.add_0_l|].
    split_and!; lia.
Qed.

(** Flushing always leaves the tail register up to date. *)
Lemma flush_spec s : snd (flush s) = set_tdt_real (e1000_tdt s) (set_reg TDT (e1000_tdt s) s) \/
  (snd (flush s) = s /\ e1000_tdt_real s = e1000_tdt s).
Proof. unfold flush. case_if; cbn [snd]; [by left|right; split; [done|lia]]. Qed.

(** The descriptor written, before the tail is announced. *)
Definition queued (buf : list Z) (cnt V o c : Z) (s : e1000) : e1000 :=
  let s := set_page (V mod 128) (o + c) s in
  let s := set_dma (mwrite (frag_addr V o) (take (Z.to_nat cnt) buf) (dma s)) s in
  set_tx (<[Z.to_nat (e1000_tdt s) := mkTransDesc (frag_addr V o) cnt 0 td_cmd 0 0 0]> (tq s)) ((e1000_tdt s + 1) mod 256) s.

Lemma frag_addr_range V o c : 0 <= o -> 0 <= c -> o + c <= PAGE_SIZE ->
  tq_pages <= frag_addr V o /\ frag_addr V o + c <= tq_pages + 524288.
Proof. intros. unfold frag_addr, PAGE_SIZE in *. pose proof (Z.mod_pos_bound V 128). lia. Qed.

(** The old packets survive and the new one is in place. *)
Lemma queued_frags s acc T K V n buf cnt V' o c n' :
  tx_inv s acc T K V n -> Z.of_nat (length acc) < K + 255 -> 0 <= cnt <= Z.of_nat (length buf) ->
  cnt <= c <= 1536 -> 0 <= o -> o + c <= PAGE_SIZE -> o + c <= 1536 * n' -> 0 <= n' ->
  ((V' = V /\ o = last_tq_page_offset s /\ n' = n + 1) \/ (V' = V + 1 /\ o = 0 /\ n' = 1 /\ 2 <= n)) ->
  forall i pkt, K <= Z.of_nat i -> (acc ++ [take (Z.to_nat cnt) buf]) !! i = Some pkt ->
    exists Vi oi ci, frag_ok (tq (queued buf cnt V' o c s)) (dma (queued buf cnt V' o c s)) (Z.of_nat (length acc) + 1) V' (o + c) n' (Z.of_nat i) pkt Vi oi ci.
Proof.
  intros Hi Hroom Hcnt Hc Ho Hoc Hon Hn' Hcase i pkt HiH Hpkt.
  destruct (tx_off _ _ _ _ _ _ Hi) as (Hoff & Hn & Hn0). destruct (tx_page _ _ _ _ _ _ Hi) as [_ HV].
  pose proof (tx_len _ _ _ _ _ _ Hi) as Hlen.
  assert (length (take (Z.to_nat cnt) buf) = Z.to_nat cnt) as Hlt by (rewrite length_take; lia).
  apply lookup_app_Some in Hpkt as [Hold|[Hge Hnew]].
  - pose proof (lookup_lt_Some _ _ _ Hold) as HiA.
    destruct (tx_frag _ _ _ _ _ _ Hi i pkt HiH Hold) as (Vi & oi & ci & [(R1 & R2 & R3) Hpg Hcur Holdp Hd Hda]).
    exists Vi, oi, ci.
    assert (Vi = V' -> oi + ci <= o) as Hsame by (destruct Hcase as [(-> & -> & _)|(-> & _ & _ & _)]; [done|lia]).
    assert (Vi < V' -> V' - Vi <= 127) as Hdist by (destruct Hcase as [(-> & _ & _)|(-> & _ & _ & ?)]; lia).
    assert (Vi <= V') as HVle by (destruct Hcase as [(-> & _ & _)|(-> & _ & _ & ?)]; lia).
    split.
    + done.
    + lia.
    + intros E. specialize (Hsame E). lia.
    + intros Hlt'. destruct Hcase as [(-> & _ & ->)|(-> & _ & -> & ?)]; lia.
    + cbn [queued tq set_tx set_dma set_page e1000_tdt]. rewrite (tx_tdt _ _ _ _ _ _ Hi), insert_mod_ne; [done|].
      intros E. apply mod256_eq in E; lia.
    + cbn [queued dma set_tx set_dma set_page]. rewrite mread_mwrite_disjoint; [done|]. rewrite Hlt, Z2Nat.id by lia.
      unfold frag_addr. change PAGE_SIZE with 4096 in *.
      destruct (decide (Vi = V')) as [->|Hne].
      * specialize (Hsame eq_refl). left. lia.
      * assert (Vi mod 128 <> V' mod 128) as Hm by dlia. destruct (Z.lt_ge_cases (Vi mod 128) (V' mod 128)); [left|right]; lia.
  - apply list_lookup_singleton_Some in Hnew as [Hz <-]. assert (i = length acc) as -> by lia.
    exists V', o, c. split.
    + rewrite Hlt. lia.
    + lia.
    + lia.
    + lia.
    + cbn [queued tq set_tx set_dma set_page e1000_tdt]. rewrite (tx_tdt _ _ _ _ _ _ Hi), insert_mod_eq by done.
      rewrite Hlt, Z2Nat.id by lia. done.
    + cbn [queued dma set_tx set_dma set_page]. apply mread_mwrite_same.
Qed.

(** The state after the tail was announced. *)
Definition announced (s : e1000) : e1000 := set_tdt_real (e1000_tdt s) (set_reg TDT (e1000_tdt s) s).

Lemma reg_set_eq r v s : reg r (set_reg r v s) = v.
Proof. unfold reg. cbn. by rewrite lookup_insert_eq. Qed.

Lemma reg_set_ne r r' v s : r <> r' -> reg r (set_reg r' v s) = reg r s.
Proof. intros Hn. unfold reg. cbn. by rewrite lookup_insert_ne. Qed.

Lemma send_tail s : exists s', (let s1 := if e1000_tdt s mod TQ_FLUSH_COUNT =? 0
    then set_tdt_real (e1000_tdt s) (set_reg TDT (e1000_tdt s) s) else s in
  let '(_, s2) := flush s1 in (0, s2)) = (0, s') /\
  (s' = announced s \/ (s' = s /\ e1000_tdt_real s = e1000_tdt s)).
Proof.
  unfold flush, announced. destruct (e1000_tdt s mod TQ_FLUSH_COUNT =? 0); cbv zeta.
  - cbn [e1000_tdt e1000_tdt_real set_tdt_real set_reg]. rewrite Z.eqb_refl. cbn [negb]. eexists. split; [done|by left].
  - case_if; eexists; (split; [done|]); [by left|right; split; [done|lia]].
Qed.

Lemma tx_push s acc T K V n buf cnt V' o c n' :
  tx_inv s acc T K V n -> Z.of_nat (length acc) < K + 255 -> 0 <= cnt <= Z.of_nat (length buf) ->
  cnt <= c <= 1536 -> 0 <= o -> o + c <= PAGE_SIZE -> o + c <= 1536 * n' -> 0 <= n' ->
  ((V' = V /\ o = last_tq_page_offset s /\ n' = n + 1) \/ (V' = V + 1 /\ o = 0 /\ n' = 1 /\ 2 <= n)) ->
  tx_inv (announced (queued buf cnt V' o c s)) (acc ++ [take (Z.to_nat cnt) buf]) T K V' n'.
Proof.
  intros Hi Hroom Hcnt Hc Ho Hoc Hon Hn' Hcase.
  pose proof (queued_frags s acc T K V n buf cnt V' o c n' Hi Hroom Hcnt Hc Ho Hoc Hon Hn' Hcase) as Hf.
  destruct Hi as [Hlen Had Htdt Hreal HTDT HTDH Htdh Hord [Hp HV] Hoff Hfr].
  assert (Z.of_nat (length (acc ++ [take (Z.to_nat cnt) buf])) = Z.of_nat (length acc) + 1) as El.
  { rewrite length_app. cbn. lia. }
  split; rewrite ?El; try done.
  - cbn. by rewrite length_insert.
  - cbn [announced queued set_tdt_real set_reg set_tx set_dma set_page e1000_tdt]. rewrite Htdt. apply Zplus_mod_idemp_l.
  - unfold announced. unfold reg. cbn. by rewrite lookup_insert_eq.
  - rewrite <- HTDH. unfold announced, reg. cbn. by rewrite lookup_insert_ne.
  - lia.
  - cbn. split; [done|]. destruct Hcase as [(-> & _)|(-> & _)]; lia.
  - cbn [announced queued set_tdt_real set_reg set_tx set_dma set_page last_tq_page_offset]. lia.
Qed.

(** Sending accepts the packet unless 255 packets wait in the card. *)
Lemma send_spec s acc T K V n buf cnt :
  tx_inv s acc T K V n -> 0 <= cnt <= 1500 -> cnt <= Z.of_nat (length buf) ->
  exists s' K' V' n', rq s' = rq s /\ rq_addrs s' = rq_addrs s /\ e1000_rdt s' = e1000_rdt s /\
    e1000_rdt_real s' = e1000_rdt_real s /\ reg RDH s' = reg RDH s /\ reg RDT s' = reg RDT s /\
    (forall a k, a + k <= tq_pages \/ tq_pages + 524288 <= a -> mread (dma s') a k = mread (dma s) a k) /\
    ((send buf cnt s = (0, s') /\ tx_inv s' (acc ++ [take (Z.to_nat cnt) buf]) T K' V' n') \/
     (send buf cnt s = (-1, s') /\ tx_inv s' acc T K' V' n' /\ Z.of_nat (length acc) = T + 255)).
Proof.
  intros Hi Hc Hb. unfold send. rewrite (proj2 (Z.ltb_ge cnt 0)), (proj2 (Z.ltb_ge 1500 cnt)) by lia. cbn [orb].
  assert (exists s1 K1, (if full s then set_tdh (reg TDH s) s else s) = s1 /\ tx_inv s1 acc T K1 V n /\
    (s1 = s \/ s1 = set_tdh (reg TDH s) s) /\ (full s1 = true -> K1 = T)) as (s1 & K1 & -> & Hi1 & Hs1 & HK).
  { destruct (full s) eqn:Ef.
    - exists (set_tdh (reg TDH s) s), T. split; [done|]. split; [by eapply tx_inv_refresh|]. split; [by right|done].
    - exists s, K. split; [done|]. split; [done|]. split; [by left|congruence]. }
  assert (rq s1 = rq s /\ rq_addrs s1 = rq_addrs s /\ e1000_rdt s1 = e1000_rdt s /\ e1000_rdt_real s1 = e1000_rdt_real s /\
    regs s1 = regs s /\ dma s1 = dma s) as (Q1 & Q2 & Q3 & Q4 & Q5 & Q6) by (destruct Hs1 as [-> | ->]; done).
  rewrite <- Q1, <- Q2, <- Q3, <- Q4, <- Q6. unfold reg. rewrite <- Q5. clear Q1 Q2 Q3 Q4 Q5 Q6 Hs1 Hi s.
  destruct (full s1) eqn:Ef.
  - exists s1, K1, V, n. split_and!; try done. right. split; [done|]. split; [done|].
    specialize (HK eq_refl). rewrite (full_spec _ _ _ _ _ _ Hi1) in Ef. bprop. lia.
  - rewrite (full_spec _ _ _ _ _ _ Hi1) in Ef. bprop.
    destruct (frag_alloc_ok s1 acc T K1 V n cnt Hi1 Hc) as (V' & o & c & n' & -> & Hcc & Ho & Hoc & Hon & Hn' & Hcase).
    destruct (frag_addr_range V' o c) as [R1 R2]; [done|lia|done|]. pose proof tq_pages_ok as [P1 P2].
    rewrite (wrap_small 32 (frag_addr V' o)) by (unfold is_uint; lia).
    change (set_tx _ _ _) with (queued buf cnt V' o c s1).
    assert (tx_inv (announced (queued buf cnt V' o c s1)) (acc ++ [take (Z.to_nat cnt) buf]) T K1 V' n') as Hpush.
    { apply (tx_push s1 acc T K1 V n); try done; [pose proof (tx_order _ _ _ _ _ _ Hi1); lia|lia]. }
    assert (forall a k, a + k <= tq_pages \/ tq_pages + 524288 <= a ->
      mread (dma (queued buf cnt V' o c s1)) a k = mread (dma s1) a k) as Hmem.
    { intros a k Hd. cbn [queued dma set_tx set_dma set_page]. apply mread_mwrite_disjoint.
      rewrite length_take. lia. }
    destruct (send_tail (queued buf cnt V' o c s1)) as (s' & E & Hs'). exists s', K1, V', n'.
    destruct Hs' as [->|[-> Er]].
    + split_and!; try done; [unfold reg; cbn; by rewrite lookup_insert_ne|unfold reg; cbn; by rewrite lookup_insert_ne|by left].
    + exfalso. cbn in Er. rewrite (tx_real _ _ _ _ _ _ Hi1), (tx_tdt _ _ _ _ _ _ Hi1) in Er. dlia.
Qed.

(** The card sends the packets in the order they were accepted. *)
Lemma dev_tx_spec s acc T K V n :
  tx_inv s acc T K V n ->
  (T = Z.of_nat (length acc) /\ dev_tx s = None) \/
  (exists pkt, acc !! Z.to_nat T = Some pkt /\
     dev_tx s = Some (pkt, set_reg TDH ((reg TDH s + 1) mod TQSIZE) s) /\
     tx_inv (set_reg TDH ((reg TDH s + 1) mod TQSIZE) s) acc (T + 1) K V n).
Proof.
  intros Hi. pose proof (tx_order _ _ _ _ _ _ Hi) as Ho. unfold dev_tx.
  rewrite (tx_TDT _ _ _ _ _ _ Hi), (tx_tdt _ _ _ _ _ _ Hi), (tx_TDH _ _ _ _ _ _ Hi).
  destruct (Z.eqb_spec (T mod 256) (Z.of_nat (length acc) mod 256)) as [E|E].
  - left. split; [|done]. apply mod256_eq in E; lia.
  - right. assert (T < Z.of_nat (length acc)) as Hlt by (destruct (Z.eq_dec T (Z.of_nat (length acc))); [congruence|lia]).
    destruct (lookup_lt_is_Some_2 acc (Z.to_nat T)) as [pkt Hp]; [lia|]. exists pkt. split; [done|].
    destruct (tx_frag _ _ _ _ _ _ Hi (Z.to_nat T) pkt) as (Vi & oi & ci & [_ _ _ _ Hd Hda]); [lia|done|].
    rewrite Z2Nat.id in Hd by lia. rewrite Hd, mbind_Some. cbn [t_addr t_length]. rewrite Hda. split; [done|].
    destruct Hi. split; try done.
    + rewrite reg_set_ne by done. done.
    + rewrite reg_set_eq. change TQSIZE with 256. apply Zplus_mod_idemp_l.
    + lia.
Qed.

(** ** Receive ring *)

Record rx_inv (s : e1000) (dep : list (list Z)) (R F : Z) : Prop := {
  rx_len : length (rq s) = 256%nat;
  rx_addrs : rq_addrs s = rx_addr <$> seqZ 0 256;
  rx_rdt : e1000_rdt s = (R + 255) mod 256;
  rx_RDT : reg RDT s = (F + 255) mod 256;
  rx_RDH : reg RDH s = Z.of_nat (length dep) mod 256;
  rx_order : 0 <= F <= R /\ R <= Z.of_nat (length dep) <= F + 255;
  rx_desc i rd : rq s !! i = Some rd -> r_addr rd = rx_addr (Z.of_nat i);
  rx_full i pkt : R <= Z.of_nat i -> dep !! i = Some pkt -> exists rd, rq s !! Z.to_nat (Z.of_nat i mod 256) = Some rd /\
    Z.land (r_status rd) 1 = 1 /\ r_length rd = Z.of_nat (length pkt) /\ Z.of_nat (length pkt) <= 2048 /\
    mread (dma s) (rx_addr (Z.of_nat i mod 256)) (Z.of_nat (length pkt)) = pkt;
  rx_empty i : Z.of_nat (length dep) <= i < R + 256 -> exists rd, rq s !! Z.to_nat (i mod 256) = Some rd /\
    Z.land (r_status rd) 1 = 0
}.

Lemma rx_addr_spec i : 0 <= i < 256 -> rx_addr i = rq_pages + 2048 * i.
Proof. intros Hi. unfold rx_addr. change PAGE_SIZE with 4096. dlia. Qed.

Lemma rx_addr_range i : 0 <= i < 256 -> rq_pages <= rx_addr i /\ rx_addr i + 2048 <= rq_pages + 524288.
Proof. intros Hi. rewrite rx_addr_spec by done. lia. Qed.

Lemma rx_inv_keep s s' dep R F :
  rx_inv s dep R F -> rq s' = rq s -> rq_addrs s' = rq_addrs s -> e1000_rdt s' = e1000_rdt s ->
  reg RDT s' = reg RDT s -> reg RDH s' = reg RDH s ->
  (forall a k, rq_pages <= a -> a + k <= rq_pages + 524288 -> mread (dma s') a k = mread (dma s) a k) ->
  rx_inv s' dep R F.
Proof.
  intros [] E1 E2 E3 E4 E5 Hm. split; rewrite ?E1, ?E2, ?E3, ?E4, ?E5; try done.
  intros i pkt Hi Hp. destruct (rx_full0 i pkt Hi Hp) as (rd & H1 & H2 & H3 & H4 & H5). exists rd. split_and!; try done.
  pose proof (Z.mod_pos_bound (Z.of_nat i) 256). destruct (rx_addr_range (Z.of_nat i mod 256)) as [? ?]; [lia|].
  rewrite Hm by lia. done.
Qed.

(** The card fills the next descriptor, in its own half page. *)
Lemma dev_rx_spec s dep R F pkt s' :
  rx_inv s dep R F -> dev_rx pkt s = Some s' ->
  rx_inv s' (dep ++ [pkt]) R F /\ tq s' = tq s /\ tq_addrs s' = tq_addrs s /\ e1000_tdt s' = e1000_tdt s /\
  e1000_tdt_real s' = e1000_tdt_real s /\ e1000_tdh s' = e1000_tdh s /\ last_tq_page_id s' = last_tq_page_id s /\
  last_tq_page_offset s' = last_tq_page_offset s /\ reg TDT s' = reg TDT s /\ reg TDH s' = reg TDH s /\
  (forall a k, a + k <= rq_pages \/ rq_pages + 524288 <= a -> mread (dma s') a k = mread (dma s) a k).
Proof.
  intros Hi. pose proof (rx_order _ _ _ _ Hi) as Ho. pose proof (rx_len _ _ _ _ Hi) as Hlen. unfold dev_rx.
  rewrite (rx_RDT _ _ _ _ Hi), (rx_RDH _ _ _ _ Hi). set (D := Z.of_nat (length dep)) in *.
  destruct (Z.eqb_spec (D mod 256) ((F + 255) mod 256)) as [E|E]; [done|]. cbn [orb].
  destruct (Z.ltb_spec 2048 (Z.of_nat (length pkt))) as [|Hpl]; [done|].
  assert (D < F + 255) as HD by (destruct (Z.eq_dec D (F + 255)); [congruence|lia]).
  destruct (rx_empty _ _ _ _ Hi D) as (rd & Hrd & Hst); [lia|]. rewrite Hrd, mbind_Some. intros [= <-].
  pose proof (Z.mod_pos_bound D 256 ltac:(lia)) as HDm.
  pose proof (rx_desc _ _ _ _ Hi _ _ Hrd) as Had. rewrite Z2Nat.id in Had by lia.
  destruct (rx_addr_range (D mod 256) HDm) as [Ra Rb]. rewrite Had.
  set (rd' := mkRecvDesc _ _ _ _ _ _).
  split; [|split_and!; try done].
  2: by rewrite reg_set_ne. 2: by rewrite reg_set_ne.
  2: { intros a k Hd. cbn [dma set_reg set_rx set_dma]. apply mread_mwrite_disjoint. lia. }
  assert (Z.of_nat (length (dep ++ [pkt])) = D + 1) as El by (rewrite length_app; cbn; lia).
  destruct Hi. split; rewrite ?El; try done.
  - cbn. by rewrite length_insert.
  - rewrite reg_set_ne by done. done.
  - rewrite reg_set_eq. change RQSIZE with 256. apply Zplus_mod_idemp_l.
  - lia.
  - cbn [rq set_reg set_rx]. intros i rd0. destruct (decide (i = Z.to_nat (D mod 256))) as [->|Hne].
    + rewrite insert_mod_eq by done. intros [= <-]. cbn. rewrite Z2Nat.id by lia. done.
    + rewrite list_lookup_insert_ne by done. apply rx_desc0.
  - cbn [rq set_reg set_rx dma set_dma]. intros i p HiR Hp. apply lookup_app_Some in Hp as [Hp|[Hge Hp]].
    + pose proof (lookup_lt_Some _ _ _ Hp) as Hli.
      destruct (rx_full0 i p HiR Hp) as (rd0 & A1 & A2 & A3 & A4 & A5). exists rd0.
      assert (D mod 256 <> Z.of_nat i mod 256) as Hne by (intros Em; apply mod256_eq in Em; lia).
      rewrite insert_mod_ne by done. split_and!; try done. rewrite mread_mwrite_disjoint; [done|].
      pose proof (Z.mod_pos_bound (Z.of_nat i) 256 ltac:(lia)). rewrite !rx_addr_spec by lia. lia.
    + apply list_lookup_singleton_Some in Hp as [Hz <-]. assert (Z.of_nat i = D) as -> by lia. exists rd'.
      rewrite insert_mod_eq by done. split_and!; try done.
      * cbn. change 1 with (Z.ones 1). rewrite Z.land_lor_distr_l. change (Z.ones 1) with 1. by rewrite Hst.
      * apply mread_mwrite_same.
  - cbn [rq set_reg set_rx]. intros i Hir. rewrite insert_mod_ne; [apply rx_empty0; lia|].
    intros Em. apply mod256_eq in Em; lia.
Qed.

Lemma dev_rx_ok s dep R F pkt :
  rx_inv s dep R F -> Z.of_nat (length dep) < F + 255 -> Z.of_nat (length pkt) <= 2048 ->
  exists s', dev_rx pkt s = Some s'.
Proof.
  intros Hi HD Hp. pose proof (rx_order _ _ _ _ Hi) as Ho. unfold dev_rx.
  rewrite (rx_RDT _ _ _ _ Hi), (rx_RDH _ _ _ _ Hi), (proj2 (Z.eqb_neq _ _)), (proj2 (Z.ltb_ge _ _));
    [|done|intros E; apply mod256_eq in E; lia].
  destruct (rx_empty _ _ _ _ Hi (Z.of_nat (length dep))) as (rd & Hrd & _); [lia|]. cbn [orb].
  rewrite Hrd, mbind_Some. by eexists.
Qed.

(** Receiving takes the oldest packet. *)
Lemma receive_spec s dep R F :
  rx_inv s dep R F ->
  exists r bytes s' R' F', receive s = Some (r, bytes, s') /\ rx_inv s' dep R' F' /\
    tq s' = tq s /\ tq_addrs s' = tq_addrs s /\ e1000_tdt s' = e1000_tdt s /\
    e1000_tdt_real s' = e1000_tdt_real s /\ e1000_tdh s' = e1000_tdh s /\ last_tq_page_id s' = last_tq_page_id s /\
    last_tq_page_offset s' = last_tq_page_offset s /\ reg TDT s' = reg TDT s /\ reg TDH s' = reg TDH s /\
    dma s' = dma s /\
    ((R = Z.of_nat (length dep) /\ r = -1 /\ bytes = [] /\ R' = R) \/
     (dep !! Z.to_nat R = Some bytes /\ r = Z.of_nat (length bytes) /\ R' = R + 1)).
Proof.
  intros Hi. pose proof (rx_order _ _ _ _ Hi) as Ho. pose proof (rx_len _ _ _ _ Hi) as Hlen. unfold receive.
  rewrite (rx_rdt _ _ _ _ Hi). change RQSIZE with 256.
  replace (((R + 255) mod 256 + 1) mod 256) with (R mod 256) by dlia.
  destruct (Z.eq_dec R (Z.of_nat (length dep))) as [E|E].
  - destruct (rx_empty _ _ _ _ Hi R) as (rd & -> & Hst); [lia|]. rewrite mbind_Some, Hst. cbn [Z.eqb].
    exists (-1), [], s, R, F. split_and!; try done. by left.
  - destruct (lookup_lt_is_Some_2 dep (Z.to_nat R)) as [pkt Hp]; [lia|].
    destruct (rx_full _ _ _ _ Hi (Z.to_nat R) pkt) as (rd & Hrd & Hst & Hl & Hle & Hda); [lia|done|].
    rewrite Z2Nat.id in Hrd, Hda by lia. rewrite Hrd, mbind_Some, Hst. cbn [Z.eqb].
    rewrite Hl, (proj2 (Z.ltb_ge _ 0)), (proj2 (Z.ltb_ge (PAGE_SIZE / 2) _)) by (done || lia).
    pose proof (Z.mod_pos_bound R 256 ltac:(lia)) as HRm.
    rewrite (rx_addrs _ _ _ _ Hi), list_lookup_fmap, lookup_seqZ_lt by lia. cbn [fmap option_fmap option_map].
    rewrite mbind_Some. rewrite Z2Nat.id, Z.add_0_l, Hda by lia.
    set (s1 := set_rx _ _ _ s).
    assert (rx_inv s1 dep (R + 1) F) as Hi1.
    { pose proof (rx_desc _ _ _ _ Hi _ _ Hrd) as Had. destruct Hi. split; try done.
      - cbn. by rewrite length_insert.
      - cbn. dlia.
      - lia.
      - cbn [s1 rq set_rx]. intros i rd0. destruct (decide (i = Z.to_nat (R mod 256))) as [->|Hne].
        + rewrite insert_mod_eq by done. intros [= <-]. done.
        + rewrite list_lookup_insert_ne by done. apply rx_desc0.
      - cbn [s1 rq set_rx dma]. intros i p HiR Hpi. pose proof (lookup_lt_Some _ _ _ Hpi) as Hli.
        rewrite insert_mod_ne; [apply rx_full0; [lia|done]|]. intros Em. apply mod256_eq in Em; lia.
      - cbn [s1 rq set_rx]. intros i Hir. destruct (Z.eq_dec i (R + 256)) as [->|Hne].
        + replace ((R + 256) mod 256) with (R mod 256) by dlia. rewrite insert_mod_eq by done. eexists. split; [done|].
          cbn. by rewrite <- Z.land_assoc, Z.land_0_r.
        + rewrite insert_mod_ne; [apply rx_empty0; lia|]. intros Em. apply mod256_eq in Em; lia. }
    change (e1000_rdt s1) with (R mod 256). destruct (Z.eqb_spec (R mod 256 mod RQ_FLUSH_COUNT) 0) as [Ef|Ef].
    + eexists _, _, _, (R + 1), (R + 1). split; [reflexivity|]. split.
      * destruct Hi1. split; try done.
        -- unfold reg. cbn. rewrite lookup_insert_eq. cbn. dlia.
        -- unfold reg. cbn. rewrite lookup_insert_ne by done. done.
        -- lia.
      * split_and!; try done; [unfold reg; cbn; by rewrite lookup_insert_ne|unfold reg; cbn; by rewrite lookup_insert_ne|by right].
    + eexists _, _, _, (R + 1), F. split; [reflexivity|]. split_and!; try done. by right.
Qed.
End rings.
