(* ===== verification/E1000Claims.v ===== *)
(** * The network card driver and the card together

    Any interleaving of calls of the driver and steps of the card, from
    initialisation on. *)

From S2P Require Import Prelude ByteMem Memory E1000 E1000Proofs.

(** ** Registers after initialisation *)

Lemma run_accesses_app l1 l2 r : run_accesses (l1 ++ l2) r = run_accesses l2 (run_accesses l1 r).
Proof. revert r. induction l1 as [|x l1 IH]; intros r; [done|]. destruct x; cbn; apply IH. Qed.

Lemma run_accesses_silent l r : Forall (fun x => match x with Wr _ _ => False | _ => True end) l -> run_accesses l r = r.
Proof. intros Hl. induction Hl as [|x l Hx Hl IH]; [done|]. destruct x; done. Qed.

Lemma run_accesses_other a l r : Forall (fun x => match x with Wr b _ => b <> a | _ => True end) l ->
  run_accesses l r !! a = r !! a.
Proof.
  intros Hl. revert r. induction Hl as [|x l Hx Hl IH]; intros r; [done|]. destruct x; cbn; rewrite IH; [|done..].
  by rewrite lookup_insert_ne.
Qed.

Section runs.
Context `{L : Layout} `{LO : !LayoutOk}.

Lemma init_regs maxMTA mac c0 c1 c2 waits r :
  let r' := run_accesses (init_accesses maxMTA mac c0 c1 c2 waits) r in
  r' !! TDH = Some 0 /\ r' !! TDT = Some 0 /\ r' !! RDH = Some 0 /\ r' !! RDT = Some 255.
Proof.
  intros r'. unfold r', init_accesses. rewrite !run_accesses_app.
  rewrite (run_accesses_silent (concat _)).
  2: { apply Forall_concat. apply Forall_forall. intros x Hx. apply elem_of_replicate in Hx as [-> _]. by repeat constructor. }
  set (r1 := run_accesses [Rd STATUS; Wr 0x400 0; Wr 0x100 0; Wr 0xd8 0xffffffff; Rd CTRL; _; _; _; _; _; _; _; _; _] r).
  set (mta := _ <$> seqZ 0 _).
  assert (forall a, a < 0x5200 -> forall r0, run_accesses mta r0 !! a = r0 !! a) as Hmta.
  { intros a Ha r0. apply run_accesses_other. unfold mta. apply Forall_forall. intros x Hx.
    apply list_elem_of_fmap in Hx as (k & -> & Hk). apply elem_of_seqZ in Hk. lia. }
  clearbody r1 mta. cbn [run_accesses].
  split_and!; cbn -[TDH TDT RDH RDT]; repeat (rewrite lookup_insert_ne by done); rewrite ?lookup_insert_eq; try done;
    rewrite Hmta by done; repeat (rewrite lookup_insert_ne by done); by rewrite lookup_insert_eq.
Qed.

(** The state the driver is in after [e1000_init]. *)
Definition started (s : e1000) : Prop :=
  exists maxMTA mac c0 c1 c2 waits m r, s = snd (e1000_init maxMTA mac c0 c1 c2 waits (e1000_static m r)).

Lemma started_inv s : started s -> tx_inv s [] 0 0 0 0 /\ rx_inv s [] 0 0.
Proof.
  intros (maxMTA & mac & c0 & c1 & c2 & waits & m & r & ->).
  destruct (init_regs maxMTA mac c0 c1 c2 waits r) as (R1 & R2 & R3 & R4). cbv zeta in *.
  unfold e1000_init. cbn [snd]. split.
  - split; try done.
    + unfold reg. cbn [regs e1000_static]. by rewrite R2.
    + unfold reg. cbn [regs e1000_static]. by rewrite R1.
  - split; try done.
    + unfold reg. cbn [regs e1000_static]. by rewrite R4.
    + unfold reg. cbn [regs e1000_static]. by rewrite R3.
    + cbn [rq e1000_static]. intros i rd Hi. apply list_lookup_imap_Some in Hi as (rd0 & Hr & ->).
      apply lookup_replicate in Hr as [_ Hlt]. cbn.
      pose proof rq_pages_ok as [P1 P2]. destruct (rx_addr_range (Z.of_nat i)) as [? ?]; [lia|].
      apply wrap_small. unfold is_uint. lia.
    + cbn [rq e1000_static length]. intros i Hi. pose proof (Z.mod_pos_bound i 256 ltac:(lia)).
      rewrite list_lookup_imap, lookup_replicate_2 by lia. by eexists.
Qed.

(** ** Interleavings *)

(** The packets accepted and sent, delivered by the card and received. *)
Inductive run (s0 : e1000) : e1000 -> list (list Z) -> list (list Z) -> list (list Z) -> list (list Z) -> Prop :=
  | run_start : run s0 s0 [] [] [] []
  | run_send s a t d r buf cnt s' : run s0 s a t d r -> 0 <= cnt <= Z.of_nat (length buf) ->
      send buf cnt s = (0, s') -> run s0 s' (a ++ [take (Z.to_nat cnt) buf]) t d r
  | run_refuse s a t d r buf cnt s' : run s0 s a t d r -> cnt <= Z.of_nat (length buf) ->
      send buf cnt s = (-1, s') -> run s0 s' a t d r
  | run_flush s a t d r s' : run s0 s a t d r -> flush s = (0, s') -> run s0 s' a t d r
  | run_receive s a t d r len bytes s' : run s0 s a t d r -> receive s = Some (len, bytes, s') ->
      run s0 s' a t d (if len <? 0 then r else r ++ [bytes])
  | run_dev_tx s a t d r pkt s' : run s0 s a t d r -> dev_tx s = Some (pkt, s') -> run s0 s' a (t ++ [pkt]) d r
  | run_dev_rx s a t d r pkt s' : run s0 s a t d r -> dev_rx pkt s = Some s' -> run s0 s' a t (d ++ [pkt]) r.

Definition run_inv (s : e1000) (a t d r : list (list Z)) : Prop :=
  exists K V n F, tx_inv s a (Z.of_nat (length t)) K V n /\ t = take (length t) a /\
    rx_inv s d (Z.of_nat (length r)) F /\ r = take (length r) d.

Lemma prefix_snoc {A} (l p : list A) x : p = take (length p) l -> l !! length p = Some x ->
  p ++ [x] = take (length (p ++ [x])) l.
Proof.
  intros Hp Hx. rewrite length_app. cbn [length]. rewrite Nat.add_1_r, (take_S_r _ _ x) by done. by rewrite <- Hp at 1.
Qed.

Lemma prefix_grow {A} (l p : list A) x : p = take (length p) l -> p = take (length p) (l ++ [x]).
Proof.
  intros Hp. destruct (Nat.le_gt_cases (length p) (length l)) as [Hle|Hgt].
  - rewrite take_app_le by done. done.
  - pose proof (f_equal length Hp) as Hl. rewrite length_take in Hl. lia.
Qed.

Lemma disjoint_read (s s' : e1000) :
  (forall a k, a + k <= rq_pages \/ rq_pages + 524288 <= a -> mread (dma s') a k = mread (dma s) a k) ->
  forall a k, tq_pages <= a -> a + k <= tq_pages + 524288 -> mread (dma s') a k = mread (dma s) a k.
Proof. intros Hd a k H1 H2. apply Hd. destruct pages_disjoint; lia. Qed.

Lemma run_inv_send s a t d r buf cnt v s' :
  run_inv s a t d r -> 0 <= cnt <= 1500 -> cnt <= Z.of_nat (length buf) -> send buf cnt s = (v, s') ->
  (v = 0 /\ run_inv s' (a ++ [take (Z.to_nat cnt) buf]) t d r) \/
  (v = -1 /\ run_inv s' a t d r /\ length a = (length t + 255)%nat).
Proof.
  intros (K & V & n & F & Htx & Ht & Hrx & Hr) Hc Hb E.
  destruct (send_spec s a _ K V n buf cnt Htx Hc Hb) as (s1 & K' & V' & n' & Q1 & Q2 & Q3 & Q4 & Q5 & Q6 & Hm & Hcase).
  assert (rx_inv s1 d (Z.of_nat (length r)) F) as Hrx1.
  { apply (rx_inv_keep s); try done. intros x k H1 H2. apply Hm. destruct pages_disjoint; lia. }
  destruct Hcase as [[E1 Hi]|(E1 & Hi & Hlen)]; rewrite E in E1; injection E1 as -> ->.
  - left. split; [done|]. exists K', V', n', F. split_and!; try done. by apply prefix_grow.
  - right. split; [done|]. split; [|lia]. by exists K', V', n', F.
Qed.

Lemma run_invariant s0 s a t d r : started s0 -> run s0 s a t d r -> run_inv s a t d r.
Proof.
  intros H0. induction 1 as [|s a t d r buf cnt s' _ IH Hc E|s a t d r buf cnt s' _ IH Hb E|s a t d r s' _ IH E
    |s a t d r len bytes s' _ IH E|s a t d r pkt s' _ IH E|s a t d r pkt s' _ IH E].
  - destruct (started_inv s0 H0). by exists 0, 0, 0, 0.
  - destruct (Z.le_gt_cases cnt 1500) as [Hle|Hgt].
    + destruct (run_inv_send s a t d r buf cnt 0 s' IH) as [[_ ?]|(? & _)]; [lia|lia|done|done|done].
    + unfold send in E. rewrite (proj2 (Z.ltb_lt 1500 cnt)), orb_true_r in E by done. done.
  - destruct ((cnt <? 0) || (1500 <? cnt)) eqn:Ec.
    + unfold send in E. rewrite Ec in E. by injection E as <-.
    + bprop. destruct (run_inv_send s a t d r buf cnt (-1) s' IH) as [[? _]|(_ & ? & _)]; [lia|done|done|done|done].
  - destruct IH as (K & V & n & F & Htx & Ht & Hrx & Hr). unfold flush in E. rewrite (tx_real _ _ _ _ _ _ Htx), Z.eqb_refl in E.
    cbn in E. injection E as <-. by exists K, V, n, F.
  - destruct IH as (K & V & n & F & Htx & Ht & Hrx & Hr).
    destruct (receive_spec s d _ F Hrx) as (len' & bytes' & s1 & R' & F' & E1 & Hrx' & Q1 & Q2 & Q3 & Q4 & Q5 & Q6 & Q7 & Q8 & Q9 & Q10 & Hcase).
    rewrite E in E1. injection E1 as <- <- <-.
    assert (tx_inv s' a (Z.of_nat (length t)) K V n) as Htx' by (apply (tx_inv_keep s); try done; intros; by rewrite Q10).
    exists K, V, n, F'. destruct Hcase as [(_ & -> & _ & ->)|(Hd & -> & ->)].
    + change (-1 <? 0) with true. cbv iota. done.
    + rewrite (proj2 (Z.ltb_ge _ 0)) by lia. rewrite Nat2Z.id in Hd. split; [done|]. split; [done|]. split.
      * rewrite length_app. cbn [length]. by replace (Z.of_nat (length r + 1)) with (Z.of_nat (length r) + 1) by lia.
      * by apply prefix_snoc.
  - destruct IH as (K & V & n & F & Htx & Ht & Hrx & Hr).
    destruct (dev_tx_spec s a _ K V n Htx) as [[_ E1]|(p & Hp & E1 & Hi)]; rewrite E in E1; [done|]. injection E1 as -> ->.
    rewrite Nat2Z.id in Hp. exists K, V, n, F. split; [|split; [by apply prefix_snoc|split; [|done]]].
    + rewrite length_app. cbn [length]. by replace (Z.of_nat (length t + 1)) with (Z.of_nat (length t) + 1) by lia.
    + apply (rx_inv_keep s); try done; by rewrite reg_set_ne.
  - destruct IH as (K & V & n & F & Htx & Ht & Hrx & Hr).
    destruct (dev_rx_spec s d _ F pkt s' Hrx E) as (Hrx' & Q1 & Q2 & Q3 & Q4 & Q5 & Q6 & Q7 & Q8 & Q9 & Hm).
    exists K, V, n, F. split; [|split; [done|split; [done|by apply prefix_grow]]].
    apply (tx_inv_keep s); try done. by apply disjoint_read.
Qed.

(** C21: In every interleaving of driver calls and card steps the card sends
    exactly the accepted packets, complete, unchanged and in order; what is not
    sent yet is at most 255 packets, the card has work exactly while some wait,
    and a packet of legal length is refused only when 255 wait. *)
Theorem e1000_tx_fifo s0 s a t d r :
  started s0 -> run s0 s a t d r ->
  exists waiting, a = t ++ waiting /\ (length waiting <= 255)%nat /\
    (forall pkt rest, waiting = pkt :: rest -> exists s', dev_tx s = Some (pkt, s')) /\
    (waiting = [] -> dev_tx s = None) /\
    (forall buf cnt s', 0 <= cnt <= 1500 -> cnt <= Z.of_nat (length buf) -> send buf cnt s = (-1, s') -> length waiting = 255%nat).
Proof.
  intros H0 Hrun. pose proof (run_invariant _ _ _ _ _ _ H0 Hrun) as Hinv.
  pose proof Hinv as (K & V & n & F & Htx & Ht & Hrx & Hr).
  pose proof (tx_order _ _ _ _ _ _ Htx) as Ho. exists (drop (length t) a).
  assert (t ++ drop (length t) a = a) as Ha by (rewrite Ht at 1; apply take_drop).
  split; [done|]. rewrite length_drop. split; [lia|].
  destruct (dev_tx_spec s a _ K V n Htx) as [[El En]|(p & Hp & Ep & _)].
  - split; [|split].
    + intros pkt rest E. apply (f_equal length) in E. rewrite length_drop in E. cbn in E. lia.
    + done.
    + intros buf cnt s' Hc Hb E. destruct (run_inv_send s a t d r buf cnt (-1) s' Hinv Hc Hb E) as [[? _]|(_ & _ & ?)]; [done|lia].
  - rewrite Nat2Z.id in Hp. split; [|split].
    + intros pkt rest E. assert (a !! length t = Some pkt) as Hp'.
      { rewrite <- Ha, lookup_app_r, Nat.sub_diag, E by done. done. }
      assert (p = pkt) as -> by congruence. by eexists.
    + intros E. apply (f_equal length) in E. rewrite length_drop in E. apply lookup_lt_Some in Hp. cbn in E. lia.
    + intros buf cnt s' Hc Hb E. destruct (run_inv_send s a t d r buf cnt (-1) s' Hinv Hc Hb E) as [[? _]|(_ & _ & ?)]; [done|lia].
Qed.

(** C22: In every interleaving the driver receives exactly the packets the card
    delivered, complete, unchanged and in order; a call returns the oldest one
    with its length while one waits, and -1 otherwise, without a fault. *)
Theorem e1000_rx_fifo s0 s a t d r :
  started s0 -> run s0 s a t d r ->
  exists waiting, d = r ++ waiting /\
    match waiting with
    | pkt :: _ => exists s', receive s = Some (Z.of_nat (length pkt), pkt, s')
    | [] => exists s', receive s = Some (-1, [], s')
    end.
Proof.
  intros H0 Hrun. pose proof (run_invariant _ _ _ _ _ _ H0 Hrun) as (K & V & n & F & Htx & Ht & Hrx & Hr).
  exists (drop (length r) d). assert (r ++ drop (length r) d = d) as Hd by (rewrite Hr at 1; apply take_drop).
  split; [done|]. destruct (receive_spec s d _ F Hrx) as (v & bytes & s' & R' & F' & E & Hrx' & Hrest).
  destruct Hrest as (_ & _ & _ & _ & _ & _ & _ & _ & _ & _ & [(El & -> & -> & ->)|(Hp & -> & ->)]).
  - assert (drop (length r) d = []) as -> by (apply drop_ge; lia).
    by exists s'.
  - rewrite Nat2Z.id in Hp. destruct (drop (length r) d) as [|pkt rest] eqn:Ed.
    + apply lookup_lt_Some in Hp. apply (f_equal length) in Ed. rewrite length_drop in Ed. cbn in Ed. lia.
    + assert (d !! length r = Some pkt) as Hp' by (rewrite <- Hd, lookup_app_r, Nat.sub_diag by done; done).
      assert (pkt = bytes) as -> by congruence. by exists s'.
Qed.
End runs.

(** ** Witnesses *)

#[export] Instance example_layout : Layout :=
  {| tq_base := 0x200000; rq_base := 0x201000; tq_pages := 0x300000; rq_pages := 0x380000 |}.

#[export] Instance example_layout_ok : LayoutOk.
Proof. split; cbn; lia. Qed.

Definition example_card : e1000 := snd (e1000_init 0x5400 [0x52; 0x54; 0; 0x12; 0x34; 0x56] 0 0 0 2 (e1000_static ∅ ∅)).

Lemma example_started : started example_card.
Proof. by exists 0x5400, [0x52; 0x54; 0; 0x12; 0x34; 0x56], 0, 0, 0, 2%nat, ∅, ∅. Qed.

Lemma e1000_tx_fifo_witness :
  exists s waiting, run example_card s [[7; 8; 9]] [] [] [] /\ [[7; 8; 9]] = [] ++ waiting.
Proof.
  destruct (started_inv example_card example_started) as [Htx _].
  destruct (send_spec example_card [] 0 0 0 0 [7; 8; 9] 3 Htx) as (s & K & V & n & _ & _ & _ & _ & _ & _ & _ & [[E _]|(_ & _ & E)]).
  - lia.
  - cbn. lia.
  - exists s. assert (run example_card s [[7; 8; 9]] [] [] []) as Hrun.
    { apply (run_send example_card example_card [] [] [] [] [7; 8; 9] 3); [apply run_start|cbn; lia|exact E]. }
    destruct (e1000_tx_fifo example_card _ _ _ _ _ example_started Hrun) as (w & Ew & _).
    exists w. split; [exact Hrun|exact Ew].
  - discriminate E.
Defined.

Lemma e1000_rx_fifo_witness :
  exists s waiting, run example_card s [] [] [[7; 8; 9]] [] /\ [[7; 8; 9]] = [] ++ waiting.
Proof.
  destruct (started_inv example_card example_started) as [_ Hrx].
  destruct (dev_rx_ok example_card [] 0 0 [7; 8; 9] Hrx) as (s & Es).
  - cbn. lia.
  - cbn. lia.
  - exists s. assert (run example_card s [] [] [[7; 8; 9]] []) as Hrun.
    { apply (run_dev_rx example_card example_card [] [] [] [] [7; 8; 9] s); [apply run_start|exact Es]. }
    destruct (e1000_rx_fifo example_card _ _ _ _ _ example_started Hrun) as (w & Ew & _).
    exists w. split; [exact Hrun|exact Ew].
Defined.
