(* ===== verification/Pci.v ===== *)
(** * lib/pci.cpp: enumeration of the PCI bus

    The configuration mechanism is the pair of ports 0xcf8 and 0xcfc; the
    machine behind the ports is an interface. A failed assertion is [None], and
    the recursion over bridges takes fuel. *)

From S2P Require Import Prelude Utils Memory.

(** ** Registers (inc/pcireg.h) *)

Definition PCI_ID_REG : Z := 0x00.
Definition PCI_COMMAND_STATUS_REG : Z := 0x04.
Definition PCI_CLASS_REG : Z := 0x08.
Definition PCI_BHLC_REG : Z := 0x0c.
Definition PCI_MAPREG_START : Z := 0x10.
Definition PCI_MAPREG_END : Z := 0x28.
Definition PCI_BRIDGE_BUS_REG : Z := 0x18.
Definition PCI_BRIDGE_STATIO_REG : Z := 0x1c.
Definition PCI_INTERRUPT_REG : Z := 0x3c.
Definition PCI_COMMAND_IO_ENABLE : Z := 1.
Definition PCI_COMMAND_MEM_ENABLE : Z := 2.
Definition PCI_COMMAND_MASTER_ENABLE : Z := 4.

Definition PCI_VENDOR (id : Z) : Z := Z.land (Z.shiftr id 0) 0xffff.
Definition PCI_PRODUCT (id : Z) : Z := Z.land (Z.shiftr id 16) 0xffff.
Definition PCI_CLASS (cr : Z) : Z := Z.land (Z.shiftr cr 24) 0xff.
Definition PCI_SUBCLASS (cr : Z) : Z := Z.land (Z.shiftr cr 16) 0xff.
Definition PCI_HDRTYPE (bhlcr : Z) : Z := Z.land (Z.shiftr bhlcr 16) 0xff.
Definition PCI_HDRTYPE_TYPE (bhlcr : Z) : Z := Z.land (PCI_HDRTYPE bhlcr) 0x7f.
Definition PCI_HDRTYPE_MULTIFN (bhlcr : Z) : bool := negb (Z.land (PCI_HDRTYPE bhlcr) 0x80 =? 0).
Definition PCI_INTERRUPT_LINE (icr : Z) : Z := Z.land (Z.shiftr icr 0) 0xff.
Definition PCI_BRIDGE_IO_32BITS (reg : Z) : bool := Z.land reg 0xf =? 1.
Definition PCI_MAPREG_TYPE (mr : Z) : Z := Z.land mr 1.
Definition PCI_MAPREG_MEM_TYPE (mr : Z) : Z := Z.land mr 6.
Definition PCI_MAPREG_MEM_TYPE_64BIT : Z := 4.
Definition PCI_MAPREG_MEM_ADDR (mr : Z) : Z := Z.land mr 0xfffffff0.
Definition PCI_MAPREG_MEM_SIZE (mr : Z) : Z := Z.land (PCI_MAPREG_MEM_ADDR mr) (u32 (- PCI_MAPREG_MEM_ADDR mr)).
Definition PCI_MAPREG_IO_ADDR (mr : Z) : Z := Z.land mr 0xfffffffc.
Definition PCI_MAPREG_IO_SIZE (mr : Z) : Z := Z.land (PCI_MAPREG_IO_ADDR mr) (u32 (- PCI_MAPREG_IO_ADDR mr)).
Definition PCI_MAPREG_NUM (offset : Z) : Z := (offset - PCI_MAPREG_START) / 4.
Definition PCI_CLASS_BRIDGE : Z := 6.
Definition PCI_SUBCLASS_BRIDGE_PCI : Z := 4.

(** ** Data *)

(** [parent_bridge] is the bus, device and function of the bridge. *)
Record Bus := mkBus { parent_bridge : option (Z * Z * Z); busno : Z }.

Record Func := mkFunc {
  bus : Bus; dev : Z; func : Z; dev_id : Z; dev_class : Z;
  reg_base : list Z; reg_size : list Z; reg_is_io : list bool; irq_line : Z
}.

(** [memset(&df, 0, sizeof(df)); df.bus = bus;] with a device and function. *)
Definition blank_func (b : Bus) (d fn : Z) : Func :=
  mkFunc b d fn 0 0 (replicate 6 0) (replicate 6 0) (replicate 6 false) 0.

Definition set_ids (id intr cls : Z) (f : Func) : Func :=
  mkFunc (bus f) (dev f) (func f) id cls (reg_base f) (reg_size f) (reg_is_io f) (PCI_INTERRUPT_LINE intr).

Definition set_region (n : Z) (is_io : bool) (base size : Z) (f : Func) : Func :=
  mkFunc (bus f) (dev f) (func f) (dev_id f) (dev_class f) (<[Z.to_nat n := base]> (reg_base f))
    (<[Z.to_nat n := size]> (reg_size f)) (<[Z.to_nat n := is_io]> (reg_is_io f)) (irq_line f).

(** The machine behind the 32-bit ports. *)
Class PortIO (M : Type) := { inl : Z -> M -> Z * M; outl : Z -> Z -> M -> M }.

Inductive attachfn := pci_store_fn | pci_bridge_attach_fn.

Record Driver := mkDriver { key1 : Z; key2 : Z; attach_fn : attachfn }.

Definition pci_attach_class : list Driver := [mkDriver PCI_CLASS_BRIDGE PCI_SUBCLASS_BRIDGE_PCI pci_bridge_attach_fn].

Definition pci_attach_vendor : list Driver :=
  [mkDriver 0x8086 0x15a3 pci_store_fn; mkDriver 0x8086 0x10d3 pci_store_fn; mkDriver 0x8086 0x100e pci_store_fn;
   mkDriver 0x8086 0x15bc pci_store_fn; mkDriver 0x8086 0x15b8 pci_store_fn; mkDriver 0x8086 0x0d55 pci_store_fn;
   mkDriver 0x8086 0x15fa pci_store_fn; mkDriver 0x1af4 0x1000 pci_store_fn].

Definition MAX_N_PCI_DEVICES : Z := 128.
Definition pci_conf1_addr_ioport : Z := 0x0cf8.
Definition pci_conf1_data_ioport : Z := 0x0cfc.

Record pci (M : Type) := mkPci { machine : M; stored_pci_devices : list Func }.
Arguments mkPci {M} _ _.
Arguments machine {M} _.
Arguments stored_pci_devices {M} _.

Definition n_stored_pci_devices {M} (s : pci M) : Z := Z.of_nat (length (stored_pci_devices s)).

Section pci.
Context {M : Type} `{PortIO M}.

(** ** Configuration space *)

Definition conf1_addr (bus dev func offset : Z) : Z :=
  Z.lor (Z.lor (Z.lor (Z.lor (2 ^ 31) (u32 (Z.shiftl bus 16))) (u32 (Z.shiftl dev 11))) (u32 (Z.shiftl func 8))) offset.

Definition pci_conf1_set_addr (bus dev func offset : Z) (m : M) : option M :=
  if (bus <? 256) && (dev <? 32) && (func <? 8) && (offset <? 256) && (Z.land offset 3 =? 0)
  then Some (outl pci_conf1_addr_ioport (conf1_addr bus dev func offset) m) else None.

Definition pci_conf_read (f : Func) (off : Z) (m : M) : option (Z * M) :=
  m ← pci_conf1_set_addr (busno (bus f)) (dev f) (func f) off m;
  Some (inl pci_conf1_data_ioport m).

Definition pci_conf_write (f : Func) (off v : Z) (m : M) : option M :=
  m ← pci_conf1_set_addr (busno (bus f)) (dev f) (func f) off m;
  Some (outl pci_conf1_data_ioport v m).

(** ** Enabling a function *)

(** One turn of the loop over the base address registers: the width of the
    register, the function and the machine. *)
Definition probe_bar (bar : Z) (f : Func) (m : M) : option (Z * Func * M) :=
  '(oldv, m) ← pci_conf_read f bar m;
  m ← pci_conf_write f bar 0xffffffff m;
  '(rv, m) ← pci_conf_read f bar m;
  if rv =? 0 then Some (4, f, m)
  else
    let regnum := PCI_MAPREG_NUM bar in
    let '(bar_width, is_io, size, base) :=
      if PCI_MAPREG_TYPE rv =? 0 then
        (if PCI_MAPREG_MEM_TYPE rv =? PCI_MAPREG_MEM_TYPE_64BIT then 8 else 4,
         false, PCI_MAPREG_MEM_SIZE rv, PCI_MAPREG_MEM_ADDR oldv)
      else (4, true, PCI_MAPREG_IO_SIZE rv, PCI_MAPREG_IO_ADDR oldv) in
    m ← pci_conf_write f bar oldv m;
    Some (bar_width, set_region regnum is_io base size f, m).

(** At most six turns. *)
Fixpoint probe_bars (fuel : nat) (bar : Z) (f : Func) (m : M) : option (Func * M) :=
  if bar <? PCI_MAPREG_END then
    match fuel with
    | O => None
    | S fuel' => '(bar_width, f, m) ← probe_bar bar f m; probe_bars fuel' (bar + bar_width) f m
    end
  else Some (f, m).

Definition pci_func_enable (f : Func) (m : M) : option (Func * M) :=
  m ← pci_conf_write f PCI_COMMAND_STATUS_REG
        (Z.lor (Z.lor PCI_COMMAND_IO_ENABLE PCI_COMMAND_MEM_ENABLE) PCI_COMMAND_MASTER_ENABLE) m;
  probe_bars 6 PCI_MAPREG_START f m.

Definition pci_store (f : Func) (s : pci M) : option (Z * Func * pci M) :=
  if n_stored_pci_devices s <? MAX_N_PCI_DEVICES then
    '(f, m) ← pci_func_enable f (machine s);
    Some (0, f, mkPci m (stored_pci_devices s ++ [f]))
  else Some (-1, f, s).

(** ** Scanning *)

Section scan.
(** [pci_scan_bus], which a bridge calls for its secondary bus. *)
Variable scan : Bus -> pci M -> option (Z * pci M).

Definition pci_bridge_attach (f : Func) (s : pci M) : option (Z * Func * pci M) :=
  '(ioreg, m) ← pci_conf_read f PCI_BRIDGE_STATIO_REG (machine s);
  '(busreg, m) ← pci_conf_read f PCI_BRIDGE_BUS_REG m;
  let s := mkPci m (stored_pci_devices s) in
  if PCI_BRIDGE_IO_32BITS ioreg then Some (0, f, s)
  else
    let nbus := mkBus (Some (busno (bus f), dev f, func f)) (Z.land (Z.shiftr busreg 8) 0xff) in
    '(_, s) ← scan nbus s;
    Some (1, f, s).

Definition run_attachfn (a : attachfn) : Func -> pci M -> option (Z * Func * pci M) :=
  match a with
  | pci_store_fn => pci_store
  | pci_bridge_attach_fn => pci_bridge_attach
  end.

Fixpoint pci_attach_match (k1 k2 : Z) (l : list Driver) (f : Func) (s : pci M) : option (Z * Func * pci M) :=
  match l with
  | [] => Some (0, f, s)
  | d :: l' =>
      if (key1 d =? k1) && (key2 d =? k2) then
        '(r, f, s) ← run_attachfn (attach_fn d) f s;
        if 0 <? r then Some (r, f, s) else pci_attach_match k1 k2 l' f s
      else pci_attach_match k1 k2 l' f s
  end.

(** The value of the disjunction, which stops at a positive first operand. *)
Definition pci_attach (f : Func) (s : pci M) : option (bool * pci M) :=
  '(r, f, s) ← pci_attach_match (PCI_CLASS (dev_class f)) (PCI_SUBCLASS (dev_class f)) pci_attach_class f s;
  if negb (r =? 0) then Some (true, s)
  else
    '(r, f, s) ← pci_attach_match (PCI_VENDOR (dev_id f)) (PCI_PRODUCT (dev_id f)) pci_attach_vendor f s;
    Some (negb (r =? 0), s).

(** The body of the loop over the functions of a device. *)
Definition scan_func (b : Bus) (d fn : Z) (s : pci M) : option (pci M) :=
  let f := blank_func b d fn in
  '(id, m) ← pci_conf_read f PCI_ID_REG (machine s);
  if PCI_VENDOR id =? 0xffff then Some (mkPci m (stored_pci_devices s))
  else
    '(intr, m) ← pci_conf_read f PCI_INTERRUPT_REG m;
    '(cls, m) ← pci_conf_read f PCI_CLASS_REG m;
    '(_, s) ← pci_attach (set_ids id intr cls f) (mkPci m (stored_pci_devices s));
    Some s.

(** The body of the loop over the devices of a bus. *)
Definition scan_dev (b : Bus) (d : Z) (a : Z * pci M) : option (Z * pci M) :=
  let '(totaldev, s) := a in
  '(bhlc, m) ← pci_conf_read (blank_func b d 0) PCI_BHLC_REG (machine s);
  let s := mkPci m (stored_pci_devices s) in
  if 1 <? PCI_HDRTYPE_TYPE bhlc then Some (totaldev, s)
  else
    s ← forM_range 0 (if PCI_HDRTYPE_MULTIFN bhlc then 8 else 1) (scan_func b d) s;
    Some (totaldev + 1, s).
End scan.

(** [fuel] bounds the depth of bridges. *)
Fixpoint pci_scan_bus (fuel : nat) (b : Bus) (s : pci M) : option (Z * pci M) :=
  match fuel with
  | O => None
  | S fuel' => forM_range 0 32 (scan_dev (pci_scan_bus fuel') b) (0, s)
  end.

(** There are 256 bus numbers. *)
Definition init (s : pci M) : option (Z * pci M) := pci_scan_bus 256 (mkBus None 0) s.
End pci.

(** ** Lookup by drivers *)

Definition device_matches (k1 k2 : Z) (f : Func) : bool :=
  (PCI_VENDOR (dev_id f) =? k1) && (PCI_PRODUCT (dev_id f) =? k2).

(** The first stored device with the keys whose register [bar] is of the
    kind: base and size. *)
Fixpoint find_region (k1 k2 : Z) (bar : nat) (is_io : bool) (l : list Func) : option (Z * Z) :=
  match l with
  | [] => None
  | f :: l' =>
      if device_matches k1 k2 f && eqb (default false (reg_is_io f !! bar)) is_io
      then Some (default 0 (reg_base f !! bar), default 0 (reg_size f !! bar))
      else find_region k1 k2 bar is_io l'
  end.

Definition map_device {M} (key1 key2 base maxlen bar : Z) (s : pci M) (mem : memory) : option (Z * memory) :=
  match find_region key1 key2 (Z.to_nat bar) false (stored_pci_devices s) with
  | Some (reg_base, reg_size) =>
      let maxlen := Z.min reg_size maxlen in
      let end_ := u64 (base + round_up maxlen PAGE_SIZE) in
      mem ← map_region_cache_disabled base end_ reg_base mem;
      Some (maxlen, mem)
  | None => Some (2 ^ 64 - 1, mem)
  end.

Definition get_device_reg_base {M} (key1 key2 bar : Z) (s : pci M) : Z :=
  match find_region key1 key2 (Z.to_nat bar) true (stored_pci_devices s) with
  | Some (reg_base, _) => reg_base
  | None => 2 ^ 64 - 1
  end.
