(* ===== verification/PciProofs.v ===== *)
(** * Configuration accesses, base address registers and the bus scan *)

From S2P Require Import Prelude Utils Memory Pci.

(** ** Bit fields *)

(** A register of which only the bits of [mask] can be written. *)
Definition merge (mask v old : Z) : Z := Z.lor (Z.land v mask) (Z.ldiff old mask).

Ltac bits :=
  let i := fresh "i" in
  apply Z.bits_inj'; intros i ?; rewrite ?Z.lor_spec, ?Z.land_spec, ?Z.ldiff_spec, ?Z.lor_spec, ?Z.land_spec, ?Z.ldiff_spec, ?Z.bits_0.

Lemma merge_idemp mask v old : merge mask v (merge mask v old) = merge mask v old.
Proof. unfold merge. bits. by destruct (Z.testbit v i), (Z.testbit mask i), (Z.testbit old i). Qed.

(** Writing back the old value restores the register. *)
Lemma merge_restore mask v old : merge mask old (merge mask v old) = old.
Proof. unfold merge. bits. by destruct (Z.testbit v i), (Z.testbit mask i), (Z.testbit old i). Qed.

(** The location of a function on the buses. *)
Definition loc_ok (b d fn : Z) : Prop := 0 <= b < 256 /\ 0 <= d < 32 /\ 0 <= fn < 8.

Lemma conf1_addr_sum b d fn off : loc_ok b d fn -> 0 <= off < 256 ->
  conf1_addr b d fn off = 2 ^ 31 + b * 65536 + d * 2048 + fn * 256 + off.
Proof.
  intros (Hb & Hd & Hf) Ho. unfold conf1_addr. rewrite !Z.shiftl_mul_pow2 by lia.
  rewrite !(wrap_small 32) by (unfold is_uint; lia).
  rewrite (lor_low (2 ^ 31) _ 24), (lor_low _ (d * 2 ^ 11) 16), (lor_low _ (fn * 2 ^ 8) 11), (lor_low _ off 8); [lia|..].
  all: try lia; dlia.
Qed.

(** Different registers have different addresses. *)
Lemma conf1_addr_inj b d fn off b' d' fn' off' :
  loc_ok b d fn -> 0 <= off < 256 -> loc_ok b' d' fn' -> 0 <= off' < 256 ->
  conf1_addr b d fn off = conf1_addr b' d' fn' off' -> b = b' /\ d = d' /\ fn = fn' /\ off = off'.
Proof.
  intros Hl Ho Hl' Ho' E. rewrite !conf1_addr_sum in E by done. unfold loc_ok in *. lia.
Qed.

(** ** The configuration mechanism

    The value last written to 0xcf8 selects the register that 0xcfc accesses.
    [conf_rw] are the bits of a register that a write changes; the law for
    writes is stated for the command bits and for the base address registers of
    ordinary functions, not for registers whose bits are cleared by ones. *)

Class ConfigView (M : Type) := {
  latch : M -> Z;
  conf_regs : M -> Z -> Z;
  conf_rw : Z -> Z
}.

Definition header_type (R : Z -> Z) (b d fn : Z) : Z := PCI_HDRTYPE_TYPE (R (conf1_addr b d fn PCI_BHLC_REG)).

(** A write of [v] to register [off] of a function that has no side effects. *)
Definition plain_write (R : Z -> Z) (b d fn off v : Z) : Prop :=
  (off = PCI_COMMAND_STATUS_REG /\ 0 <= v < 2 ^ 16) \/
  (PCI_MAPREG_START <= off < PCI_MAPREG_END /\ header_type R b d fn = 0).

Class ConfigLaws (M : Type) `{PortIO M} `{ConfigView M} := {
  regs_range m a : is_uint 32 (conf_regs m a);
  latch_out v m : latch (outl pci_conf1_addr_ioport v m) = v;
  regs_latch v m a : conf_regs (outl pci_conf1_addr_ioport v m) a = conf_regs m a;
  data_in m : fst (inl pci_conf1_data_ioport m) = conf_regs m (latch m);
  regs_in m a : conf_regs (snd (inl pci_conf1_data_ioport m)) a = conf_regs m a;
  regs_out b d fn off v m a : loc_ok b d fn -> 0 <= off < 256 -> latch m = conf1_addr b d fn off ->
    plain_write (conf_regs m) b d fn off v -> is_uint 32 v ->
    conf_regs (outl pci_conf1_data_ioport v m) a =
      if decide (a = latch m) then merge (conf_rw a) v (conf_regs m a) else conf_regs m a
}.

Section access.
Context {M : Type} `{PM : PortIO M} `{VM : !ConfigView M} `{LM : !ConfigLaws M}.

Definition func_ok (f : Func) : Prop := loc_ok (busno (bus f)) (dev f) (func f).

(** The address of register [off] of a function. *)
Definition faddr (f : Func) (off : Z) : Z := conf1_addr (busno (bus f)) (dev f) (func f) off.

Lemma faddr_inj f f' off off' : func_ok f -> func_ok f' -> 0 <= off < 256 -> 0 <= off' < 256 ->
  faddr f off = faddr f' off' -> busno (bus f) = busno (bus f') /\ dev f = dev f' /\ func f = func f' /\ off = off'.
Proof. intros Hf Hf' Ho Ho' E. exact (conf1_addr_inj _ _ _ _ _ _ _ _ Hf Ho Hf' Ho' E). Qed.

Lemma set_addr_ok f off (m : M) : func_ok f -> 0 <= off < 256 -> off mod 4 = 0 ->
  pci_conf1_set_addr (busno (bus f)) (dev f) (func f) off m = Some (outl pci_conf1_addr_ioport (faddr f off) m).
Proof.
  intros (Hb & Hd & Hf) Ho Hm. unfold pci_conf1_set_addr.
  rewrite !(proj2 (Z.ltb_lt _ _)) by lia. change 3 with (2 ^ 2 - 1). rewrite land_mask by done.
  by rewrite (proj2 (Z.eqb_eq _ 0)).
Qed.

Lemma conf_read_ok f off (m : M) : func_ok f -> 0 <= off < 256 -> off mod 4 = 0 ->
  exists m', pci_conf_read f off m = Some (conf_regs m (faddr f off), m') /\
    forall a, conf_regs m' a = conf_regs m a.
Proof.
  intros Hf Ho Hm. unfold pci_conf_read. rewrite set_addr_ok by done. rewrite mbind_Some.
  set (m1 := outl _ _ m). exists (snd (inl pci_conf1_data_ioport m1)). split.
  - rewrite (surjective_pairing (inl pci_conf1_data_ioport m1)). rewrite data_in. unfold m1.
    by rewrite latch_out, regs_latch.
  - intros a. rewrite regs_in. unfold m1. by rewrite regs_latch.
Qed.

Lemma header_type_ext R R' b d fn : (forall a, R a = R' a) -> header_type R b d fn = header_type R' b d fn.
Proof. intros E. unfold header_type. by rewrite E. Qed.

Lemma conf_write_ok f off v (m : M) : func_ok f -> 0 <= off < 256 -> off mod 4 = 0 -> is_uint 32 v ->
  plain_write (conf_regs m) (busno (bus f)) (dev f) (func f) off v ->
  exists m', pci_conf_write f off v m = Some m' /\
    forall a, conf_regs m' a = if decide (a = faddr f off) then merge (conf_rw a) v (conf_regs m a) else conf_regs m a.
Proof.
  intros Hf Ho Hm Hv Hp. unfold pci_conf_write. rewrite set_addr_ok by done. rewrite mbind_Some.
  eexists. split; [done|]. intros a.
  rewrite (regs_out (busno (bus f)) (dev f) (func f) off); try done.
  - rewrite latch_out. by rewrite !regs_latch.
  - by rewrite latch_out.
  - destruct Hp as [?|[? Ht]]; [by left|right]. split; [done|].
    rewrite <- Ht. apply header_type_ext. intros x. apply regs_latch.
Qed.

(** ** Base address registers *)

(** What a card implements at one register, or at a pair of registers: a
    region of [2 ^ k] bytes with the type bits [t]. An I/O region may decode
    only [n] address bits. *)
Inductive region :=
  | Unused
  | Mem32 (k base t : Z)
  | Mem64 (k base t : Z)
  | Io (k n base : Z).

(** The address bits of a region. *)
Definition addr_mask (k n : Z) : Z := 2 ^ n - 2 ^ k.

Definition width (r : region) : nat := match r with Mem64 _ _ _ => 2 | _ => 1 end.

(** The register [a] with contents [R a] and writable bits [conf_rw a] implements
    the region. *)
Definition implements (R : Z -> Z) (a : Z) (r : region) : Prop :=
  match r with
  | Unused => R a = 0 /\ conf_rw a = 0
  | Mem32 k base t => 4 <= k < 32 /\ t ∈ [0; 2; 8; 10] /\ 0 <= base < 2 ^ 32 /\ Z.ldiff base (addr_mask k 32) = 0 /\
      R a = Z.lor base t /\ conf_rw a = addr_mask k 32
  | Mem64 k base t => 4 <= k < 32 /\ t ∈ [4; 12] /\ 0 <= base < 2 ^ 32 /\ Z.ldiff base (addr_mask k 32) = 0 /\
      R a = Z.lor base t /\ conf_rw a = addr_mask k 32
  | Io k n base => 2 <= k < n /\ n ∈ [16; 32] /\ 0 <= base < 2 ^ n /\ Z.ldiff base (addr_mask k n) = 0 /\
      R a = Z.lor base 1 /\ conf_rw a = addr_mask k n
  end.

(** The registers from number [i] on. *)
Fixpoint layout_from (R : Z -> Z) (f : Func) (i : nat) (l : list region) : Prop :=
  match l with
  | [] => True
  | r :: l' => implements R (faddr f (PCI_MAPREG_START + 4 * Z.of_nat i)) r /\ layout_from R f (i + width r) l'
  end.

Definition total_width (l : list region) : nat := sum_list_with width l.

(** Base, size and kind recorded for each register. *)
Definition recorded (r : region) : list (Z * Z * bool) :=
  match r with
  | Unused => [(0, 0, false)]
  | Mem32 k base _ => [(base, 2 ^ k, false)]
  | Mem64 k base _ => [(base, 2 ^ k, false); (0, 0, false)]
  | Io k _ base => [(base, 2 ^ k, true)]
  end.

Definition with_regions (f : Func) (l : list (Z * Z * bool)) : Func :=
  mkFunc (bus f) (dev f) (func f) (dev_id f) (dev_class f) (l.*1.*1) (l.*1.*2) (l.*2) (irq_line f).

Lemma merge_ones mask v base t : Z.land v mask = mask -> Z.ldiff base mask = 0 -> Z.ldiff t mask = t ->
  merge mask v (Z.lor base t) = Z.lor mask t.
Proof.
  intros E1 E2 E3. unfold merge. rewrite E1. bits.
  apply (f_equal (fun x => Z.testbit x i)) in E2, E3. rewrite Z.ldiff_spec in E2, E3. rewrite Z.bits_0 in E2.
  by destruct (Z.testbit base i), (Z.testbit mask i), (Z.testbit t i).
Qed.

Lemma land_addr mask base t A : Z.ldiff base mask = 0 -> Z.land mask A = mask -> Z.land t A = 0 ->
  Z.land (Z.lor base t) A = base.
Proof.
  intros E1 E2 E3. bits. apply (f_equal (fun x => Z.testbit x i)) in E1, E2, E3.
  rewrite Z.ldiff_spec, Z.bits_0 in E1. rewrite Z.land_spec in E2, E3. rewrite Z.bits_0 in E3.
  by destruct (Z.testbit base i), (Z.testbit mask i), (Z.testbit t i), (Z.testbit A i).
Qed.

(** The value read after writing ones, for every size and type. *)
Definition mask_check (k n t A : Z) : bool :=
  let mask := addr_mask k n in
  let rv := Z.lor mask t in
  (Z.land 0xffffffff mask =? mask) && (Z.ldiff t mask =? t) && (Z.land mask A =? mask) && (Z.land t A =? 0) &&
  negb (rv =? 0) && (PCI_MAPREG_TYPE rv =? Z.land t 1) && (Z.land (Z.land rv A) (u32 (- Z.land rv A)) =? 2 ^ k).

Lemma mem_masks k t : 4 <= k < 32 -> t ∈ [0; 2; 8; 10; 4; 12] ->
  mask_check k 32 t 0xfffffff0 && (PCI_MAPREG_MEM_TYPE (Z.lor (addr_mask k 32) t) =? Z.land t 6) = true.
Proof.
  intros Hk Ht.
  assert (forallb (fun k => forallb (fun t => mask_check k 32 t 0xfffffff0 && (PCI_MAPREG_MEM_TYPE (Z.lor (addr_mask k 32) t) =? Z.land t 6))
    [0; 2; 8; 10; 4; 12]) (seqZ 4 28) = true) as Hall by (vm_compute; reflexivity).
  rewrite forallb_forall in Hall. specialize (Hall k). rewrite forallb_forall in Hall.
  apply Hall; apply list_elem_of_In; [apply elem_of_seqZ; lia|done].
Qed.

Lemma io_masks k n : 2 <= k < n -> n ∈ [16; 32] -> mask_check k n 1 0xfffffffc = true.
Proof.
  intros Hk Hn.
  assert (forallb (fun n => forallb (fun k => mask_check k n 1 0xfffffffc) (seqZ 2 (n - 2))) [16; 32] = true) as Hall by (vm_compute; reflexivity).
  rewrite forallb_forall in Hall. specialize (Hall n). rewrite forallb_forall in Hall.
  apply Hall; apply list_elem_of_In; [done|apply elem_of_seqZ; lia].
Qed.


(** What the probe of a memory register sees. *)
Lemma mem_values k base t : 4 <= k < 32 -> t ∈ [0; 2; 8; 10; 4; 12] -> Z.ldiff base (addr_mask k 32) = 0 ->
  let rv := merge (addr_mask k 32) 0xffffffff (Z.lor base t) in
  (rv =? 0) = false /\ PCI_MAPREG_TYPE rv = Z.land t 1 /\ PCI_MAPREG_MEM_TYPE rv = Z.land t 6 /\
  PCI_MAPREG_MEM_SIZE rv = 2 ^ k /\ PCI_MAPREG_MEM_ADDR (Z.lor base t) = base.
Proof.
  intros Hk Ht Hl rv. pose proof (mem_masks k t Hk Ht) as Hc. unfold mask_check in Hc. cbv zeta in Hc.
  repeat (apply andb_prop in Hc as [Hc ?]). unfold rv. bprop. clear rv.
  rewrite merge_ones; [|assumption..]. split; [apply Z.eqb_neq; assumption|]. split; [assumption|]. split; [assumption|].
  split; [assumption|]. unfold PCI_MAPREG_MEM_ADDR. eapply land_addr; eassumption.
Qed.

Lemma io_values k n base : 2 <= k < n -> n ∈ [16; 32] -> Z.ldiff base (addr_mask k n) = 0 ->
  let rv := merge (addr_mask k n) 0xffffffff (Z.lor base 1) in
  (rv =? 0) = false /\ PCI_MAPREG_TYPE rv = 1 /\
  PCI_MAPREG_IO_SIZE rv = 2 ^ k /\ PCI_MAPREG_IO_ADDR (Z.lor base 1) = base.
Proof.
  intros Hk Hn Hl rv. pose proof (io_masks k n Hk Hn) as Hc. unfold mask_check in Hc. cbv zeta in Hc.
  repeat (apply andb_prop in Hc as [Hc ?]). unfold rv. bprop. clear rv.
  rewrite merge_ones; [|assumption..]. split; [apply Z.eqb_neq; assumption|]. split; [assumption|].
  split; [assumption|]. unfold PCI_MAPREG_IO_ADDR. eapply land_addr; eassumption.
Qed.

(** The registers of a function other than the command register are those of
    [R]; its header is an ordinary one. *)
Definition bar_of (i : nat) : Z := PCI_MAPREG_START + 4 * Z.of_nat i.

Lemma bar_of_ok i : (i < 6)%nat -> 0 <= bar_of i < 256 /\ bar_of i mod 4 = 0 /\ PCI_MAPREG_START <= bar_of i < PCI_MAPREG_END /\
  PCI_MAPREG_NUM (bar_of i) = Z.of_nat i.
Proof. intros Hi. unfold bar_of, PCI_MAPREG_NUM, PCI_MAPREG_START, PCI_MAPREG_END. split_and!; dlia. Qed.

Definition ordinary (R : Z -> Z) (f : Func) : Prop := header_type R (busno (bus f)) (dev f) (func f) = 0.

Lemma bar_not_header f i : func_ok f -> (i < 6)%nat -> faddr f (bar_of i) <> faddr f PCI_BHLC_REG.
Proof.
  intros Hf Hi E. destruct (bar_of_ok i Hi) as (Ho & _ & Hb & _).
  apply faddr_inj in E as (_ & _ & _ & E); [|done..|]; unfold PCI_MAPREG_START, PCI_BHLC_REG in *; lia.
Qed.

(** Reading the register, and reading it again after writing ones. *)
Lemma probe_reads f i (m : M) : func_ok f -> (i < 6)%nat -> ordinary (conf_regs m) f ->
  exists m1 m2 m3, pci_conf_read f (bar_of i) m = Some (conf_regs m (faddr f (bar_of i)), m1) /\
    pci_conf_write f (bar_of i) 0xffffffff m1 = Some m2 /\
    pci_conf_read f (bar_of i) m2 =
      Some (merge (conf_rw (faddr f (bar_of i))) 0xffffffff (conf_regs m (faddr f (bar_of i))), m3) /\
    ordinary (conf_regs m3) f /\
    forall a, conf_regs m3 a = if decide (a = faddr f (bar_of i))
      then merge (conf_rw a) 0xffffffff (conf_regs m a) else conf_regs m a.
Proof.
  intros Hf Hi Hh. destruct (bar_of_ok i Hi) as (Ho & Hm & Hb & _).
  destruct (conf_read_ok f (bar_of i) m Hf Ho Hm) as (m1 & E1 & R1).
  destruct (conf_write_ok f (bar_of i) 0xffffffff m1 Hf Ho Hm) as (m2 & E2 & R2).
  { unfold is_uint. lia. }
  { right. split; [done|]. rewrite <- Hh. by apply header_type_ext. }
  destruct (conf_read_ok f (bar_of i) m2 Hf Ho Hm) as (m3 & E3 & R3).
  exists m1, m2, m3. split; [done|]. split; [done|]. split; [|split].
  - rewrite E3, R2, decide_True, R1 by done. done.
  - unfold ordinary, header_type in *. rewrite <- Hh. rewrite R3, R2, decide_False, R1; [done|].
    intros E. by apply (bar_not_header f i Hf Hi).
  - intros a. rewrite R3, R2, !R1. done.
Qed.

(** Writing the old value back restores every register. *)
Lemma probe_restore f i (m m3 : M) : func_ok f -> (i < 6)%nat -> ordinary (conf_regs m3) f ->
  (forall a, conf_regs m3 a = if decide (a = faddr f (bar_of i))
      then merge (conf_rw a) 0xffffffff (conf_regs m a) else conf_regs m a) ->
  exists m', pci_conf_write f (bar_of i) (conf_regs m (faddr f (bar_of i))) m3 = Some m' /\
    forall a, conf_regs m' a = conf_regs m a.
Proof.
  intros Hf Hi Hh HR. destruct (bar_of_ok i Hi) as (Ho & Hm & Hb & _).
  destruct (conf_write_ok f (bar_of i) (conf_regs m (faddr f (bar_of i))) m3 Hf Ho Hm) as (m' & E & R').
  { apply regs_range. }
  { by right. }
  exists m'. split; [done|]. intros a. rewrite R'. case_decide as Ha; rewrite HR.
  - rewrite decide_True by done. subst a. apply merge_restore.
  - by rewrite decide_False.
Qed.

(** What one turn records. *)
Definition record_region (i : nat) (r : region) (f : Func) : Func :=
  match r with
  | Unused => f
  | Mem32 k base _ | Mem64 k base _ => set_region (Z.of_nat i) false base (2 ^ k) f
  | Io k _ base => set_region (Z.of_nat i) true base (2 ^ k) f
  end.

Lemma probe_bar_ok f i r (m : M) : func_ok f -> (i < 6)%nat -> ordinary (conf_regs m) f ->
  implements (conf_regs m) (faddr f (bar_of i)) r ->
  exists m', probe_bar (bar_of i) f m = Some (4 * Z.of_nat (width r), record_region i r f, m') /\
    forall a, conf_regs m' a = conf_regs m a.
Proof.
  intros Hf Hi Hh Hr. destruct (probe_reads f i m Hf Hi Hh) as (m1 & m2 & m3 & E1 & E2 & E3 & Hh3 & R3).
  destruct (probe_restore f i m m3 Hf Hi Hh3 R3) as (m' & E4 & R4).
  destruct (bar_of_ok i Hi) as (_ & _ & _ & Enum).
  unfold probe_bar. run_bind E1. run_bind E2. run_bind E3.
  destruct r as [|k base t|k base t|k n base]; cbn [implements] in Hr.
  - destruct Hr as [E0 Ew]. rewrite E0, Ew. change (merge 0 _ 0 =? 0) with true. cbv iota. exists m3. split; [done|].
    intros a. rewrite R3. case_decide as Ha; [|done]. subst a. by rewrite E0, Ew.
  - destruct Hr as (Hk & Ht & Hb & Hl & ER & Ew). rewrite ER in *. rewrite Ew.
    destruct (mem_values k base t Hk ltac:(set_solver) Hl) as (V1 & V2 & V3 & V4 & V5).
    assert ((Z.land t 1 =? 0) = true /\ (Z.land t 6 =? PCI_MAPREG_MEM_TYPE_64BIT) = false) as [T1 T2].
    { apply list_elem_of_In in Ht. cbn in Ht. by destruct Ht as [<-|[<-|[<-|[<-|[]]]]]. }
    rewrite V1, V2, V3, V4, V5, T1, T2. cbv beta iota. rewrite E4, mbind_Some, Enum. by exists m'.
  - destruct Hr as (Hk & Ht & Hb & Hl & ER & Ew). rewrite ER in *. rewrite Ew.
    destruct (mem_values k base t Hk ltac:(set_solver) Hl) as (V1 & V2 & V3 & V4 & V5).
    assert ((Z.land t 1 =? 0) = true /\ (Z.land t 6 =? PCI_MAPREG_MEM_TYPE_64BIT) = true) as [T1 T2].
    { apply list_elem_of_In in Ht. cbn in Ht. by destruct Ht as [<-|[<-|[]]]. }
    rewrite V1, V2, V3, V4, V5, T1, T2. cbv beta iota. rewrite E4, mbind_Some, Enum. by exists m'.
  - destruct Hr as (Hk & Hn & Hb & Hl & ER & Ew). rewrite ER in *. rewrite Ew.
    destruct (io_values k n base Hk Hn Hl) as (V1 & V2 & V4 & V5).
    rewrite V1, V2, V4, V5. change (1 =? 0) with false. cbv iota beta. rewrite E4, mbind_Some, Enum. by exists m'.
Qed.

Lemma width_pos r : (1 <= width r <= 2)%nat.
Proof. destruct r; cbn; lia. Qed.

Lemma set_region_at f done b sz io rest x :
  set_region (Z.of_nat (length done)) io b sz (with_regions f (done ++ x :: rest)) =
    with_regions f (done ++ (b, sz, io) :: rest).
Proof.
  unfold set_region, with_regions. rewrite Nat2Z.id. cbn. f_equal.
  - rewrite !fmap_app. cbn. rewrite insert_app_r_alt, length_fmap, length_fmap, Nat.sub_diag by (by rewrite !length_fmap). done.
  - rewrite !fmap_app. cbn. rewrite insert_app_r_alt, length_fmap, length_fmap, Nat.sub_diag by (by rewrite !length_fmap). done.
  - rewrite !fmap_app. cbn. rewrite insert_app_r_alt, length_fmap, Nat.sub_diag by (by rewrite !length_fmap). done.
Qed.

Lemma record_region_at f done r n : (width r <= n)%nat ->
  record_region (length done) r (with_regions f (done ++ replicate n (0, 0, false))) =
    with_regions f ((done ++ recorded r) ++ replicate (n - width r) (0, 0, false)).
Proof.
  intros Hn. rewrite <- app_assoc. destruct r as [|k base t|k base t|k w base]; cbn [width record_region recorded] in *.
  - destruct n as [|n]; [lia|]. cbn. by rewrite Nat.sub_0_r.
  - destruct n as [|n]; [lia|]. cbn [replicate]. rewrite set_region_at. cbn. by rewrite Nat.sub_0_r.
  - destruct n as [|[|n]]; [lia|lia|]. cbn [replicate]. rewrite set_region_at. cbn. by rewrite Nat.sub_0_r.
  - destruct n as [|n]; [lia|]. cbn [replicate]. rewrite set_region_at. cbn. by rewrite Nat.sub_0_r.
Qed.

Lemma length_recorded r : length (recorded r) = width r.
Proof. by destruct r. Qed.

Lemma implements_ext R R' a r : (forall a, R' a = R a) -> implements R a r -> implements R' a r.
Proof. intros E. destruct r; cbn; by rewrite E. Qed.

Lemma layout_ext R R' f l : (forall a, R' a = R a) -> forall i, layout_from R f i l -> layout_from R' f i l.
Proof.
  intros E. induction l as [|r l IH]; intros i; [done|]. cbn [layout_from]. intros [H1 H2].
  split; [by eapply implements_ext|by apply IH].
Qed.

Lemma probe_bars_ok f l : func_ok f -> forall done fuel (m : M), (length l <= fuel)%nat ->
  (length done + total_width l = 6)%nat -> ordinary (conf_regs m) f -> layout_from (conf_regs m) f (length done) l ->
  exists m', probe_bars fuel (bar_of (length done)) (with_regions f (done ++ replicate (total_width l) (0, 0, false))) m =
      Some (with_regions f (done ++ flat_map recorded l), m') /\ forall a, conf_regs m' a = conf_regs m a.
Proof.
  intros Hf. induction l as [|r l IH]; intros done fuel m Hfuel Hw Hh Hl.
  - cbn in Hw. exists m. split; [|done]. assert (length done = 6)%nat as -> by lia. by destruct fuel.
  - pose proof (width_pos r). cbn [length] in Hfuel. destruct fuel as [|fuel]; [lia|].
    change (total_width (r :: l)) with (width r + total_width l)%nat in *. destruct Hl as [Hr Hl].
    assert (length done < 6)%nat as Hi by lia. cbn [probe_bars].
    destruct (bar_of_ok (length done) Hi) as (_ & _ & Hb & _). rewrite (proj2 (Z.ltb_lt _ _)) by lia.
    set (f1 := with_regions f _).
    destruct (probe_bar_ok f1 (length done) r m) as (m1 & E1 & R1); [done|done|done|done|].
    run_bind E1. unfold f1. rewrite record_region_at by lia. replace (width r + total_width l - width r)%nat with (total_width l) by lia.
    replace (bar_of (length done) + 4 * Z.of_nat (width r)) with (bar_of (length (done ++ recorded r)))
      by (rewrite length_app, length_recorded; unfold bar_of; lia).
    destruct (IH (done ++ recorded r) fuel m1) as (m' & E' & R').
    + lia.
    + rewrite length_app, length_recorded. lia.
    + unfold ordinary in *. rewrite <- Hh. by apply header_type_ext.
    + rewrite length_app, length_recorded. by eapply layout_ext.
    + exists m'. cbn [flat_map]. rewrite app_assoc. split; [done|]. intros a. by rewrite R', R1.
Qed.

(** The command register after enabling. *)
Definition enabled_regs (R : Z -> Z) (f : Func) (a : Z) : Z :=
  if decide (a = faddr f PCI_COMMAND_STATUS_REG) then merge (conf_rw a) 7 (R a) else R a.

(** The card behind a function: an ordinary header and six registers. *)
Definition card_ok (R : Z -> Z) (f : Func) (l : list region) : Prop :=
  ordinary R f /\ total_width l = 6%nat /\ layout_from R f 0 l.

Definition blank (f : Func) : Prop := f = with_regions f (replicate 6 (0, 0, false)).

Lemma length_total_width l : (length l <= total_width l)%nat.
Proof. unfold total_width. induction l as [|r l IH]; cbn; [lia|]. pose proof (width_pos r). lia. Qed.

Lemma command_not_header f : func_ok f -> faddr f PCI_BHLC_REG <> faddr f PCI_COMMAND_STATUS_REG.
Proof. intros Hf E. apply faddr_inj in E as (_ & _ & _ & E); [|done..|]; unfold PCI_COMMAND_STATUS_REG, PCI_BHLC_REG in *; lia. Qed.

Lemma layout_enabled R f l : func_ok f -> forall i, (i + total_width l <= 6)%nat ->
  layout_from R f i l -> layout_from (enabled_regs R f) f i l.
Proof.
  intros Hf. induction l as [|r l IH]; intros i Hw; [done|]. cbn [layout_from]. intros [H1 H2].
  change (total_width (r :: l)) with (width r + total_width l)%nat in *. pose proof (width_pos r).
  split; [|apply IH; [lia|done]]. destruct (bar_of_ok i) as (Ho & _ & Hb & _); [lia|]. fold (bar_of i) in *.
  assert (enabled_regs R f (faddr f (bar_of i)) = R (faddr f (bar_of i))) as E.
  { unfold enabled_regs. rewrite decide_False; [done|]. intros E.
    apply faddr_inj in E as (_ & _ & _ & E); [|done..|]; unfold PCI_MAPREG_START, PCI_COMMAND_STATUS_REG in *; lia. }
  destruct r; cbn [implements] in *; by rewrite E.
Qed.

Lemma func_enable_ok f l (m : M) : func_ok f -> blank f -> card_ok (conf_regs m) f l ->
  exists m', pci_func_enable f m = Some (with_regions f (flat_map recorded l), m') /\
    forall a, conf_regs m' a = enabled_regs (conf_regs m) f a.
Proof.
  intros Hf Hbl (Hh & Hw & Hl). unfold pci_func_enable.
  destruct (conf_write_ok f PCI_COMMAND_STATUS_REG 7 m Hf) as (m1 & E1 & R1); [done|done|done|by left|].
  change (Z.lor _ _) with 7. run_bind E1.
  destruct (probe_bars_ok f l Hf [] 6 m1) as (m' & E' & R').
  - pose proof (length_total_width l). lia.
  - done.
  - unfold ordinary, header_type in *. rewrite R1, decide_False; [done|]. by apply command_not_header.
  - eapply layout_ext; [|apply layout_enabled; [done|cbn; lia|exact Hl]]. done.
  - exists m'. rewrite Hw in E'. change ([] ++ replicate 6 (0, 0, false)) with (replicate 6 (0, 0, false)) in E'. rewrite <- Hbl in E'.
    split; [exact E'|]. intros a. rewrite R'. apply R1.
Qed.
End access.
