(* ===== verification/PciClaims.v ===== *)
(** * The scan of the PCI buses

    The walk over buses, devices and functions is described by [walk], which
    reads the configuration registers as they were before the scan. *)

From S2P Require Import Prelude Utils Memory Pci PciProofs.

#[local] Opaque conf1_addr.

(** ** The topology *)

Section topology.
Variable R : Z -> Z.

Definition bhlc (b d : Z) : Z := R (conf1_addr b d 0 PCI_BHLC_REG).

Definition present (b d : Z) : bool := PCI_HDRTYPE_TYPE (bhlc b d) <=? 1.

Definition n_functions (b d : Z) : Z := if PCI_HDRTYPE_MULTIFN (bhlc b d) then 8 else 1.

Definition exists_function (b d fn : Z) : bool := negb (PCI_VENDOR (R (conf1_addr b d fn PCI_ID_REG)) =? 0xffff).

(** The function as found, before it is enabled. *)
Definition found (b : Bus) (d fn : Z) : Func :=
  set_ids (R (conf1_addr (busno b) d fn PCI_ID_REG)) (R (conf1_addr (busno b) d fn PCI_INTERRUPT_REG))
    (R (conf1_addr (busno b) d fn PCI_CLASS_REG)) (blank_func b d fn).

Definition bridge_class (f : Func) : bool :=
  (PCI_CLASS (dev_class f) =? PCI_CLASS_BRIDGE) && (PCI_SUBCLASS (dev_class f) =? PCI_SUBCLASS_BRIDGE_PCI).

(** A bridge the scan descends into. *)
Definition is_bridge (f : Func) : bool :=
  bridge_class f && negb (PCI_BRIDGE_IO_32BITS (R (faddr f PCI_BRIDGE_STATIO_REG))).

Definition secondary (f : Func) : Bus :=
  mkBus (Some (busno (bus f), dev f, func f)) (Z.land (Z.shiftr (R (faddr f PCI_BRIDGE_BUS_REG)) 8) 0xff).

(** The functions reached, in order; bridges are replaced by what is behind
    them. *)
Fixpoint walk (depth : nat) (b : Bus) : list Func :=
  match depth with
  | O => []
  | S depth' =>
      flat_map (fun d => if present (busno b) d then
        flat_map (fun fn => if exists_function (busno b) d fn then
          if is_bridge (found b d fn) then walk depth' (secondary (found b d fn)) else [found b d fn]
        else []) (seqZ 0 (n_functions (busno b) d))
      else []) (seqZ 0 32)
  end.
End topology.

(** The functions the vendor table names. *)
Definition table_has (l : list Driver) (k1 k2 : Z) : bool := existsb (fun d => (key1 d =? k1) && (key2 d =? k2)) l.
Definition supported (f : Func) : bool := table_has pci_attach_vendor (PCI_VENDOR (dev_id f)) (PCI_PRODUCT (dev_id f)).

Section scan.
Context {M : Type} `{PM : PortIO M} `{VM : !ConfigView M} `{LM : !ConfigLaws M}.

(** The registers before the scan and what the supported cards implement. *)
Variable R : Z -> Z.
Variable layout : Func -> list region.

Definition enabled (f : Func) : Func := with_regions f (flat_map recorded (layout f)).

Definition command (f : Func) : Z := faddr f PCI_COMMAND_STATUS_REG.

(** The registers when the functions of [l] have been enabled. *)
Definition regs_with (l : list Func) (a : Z) : Z :=
  if decide (a ∈ (command <$> l)) then merge (conf_rw a) 7 (R a) else R a.

Definition regs_are (l : list Func) (m : M) : Prop := forall a, conf_regs m a = regs_with l a.

(** After reaching the functions [L]. *)
Record scan_inv (L : list Func) (s : pci M) : Prop := {
  si_stored : stored_pci_devices s = take 128 (enabled <$> filter supported L);
  si_ok : Forall func_ok (stored_pci_devices s);
  si_regs : regs_are (stored_pci_devices s) (machine s)
}.

(** Registers other than the command register keep their values. *)
Lemma regs_with_other l f off : Forall func_ok l -> func_ok f -> 0 <= off < 256 -> off <> PCI_COMMAND_STATUS_REG ->
  regs_with l (faddr f off) = R (faddr f off).
Proof.
  intros Hl Hf Ho Hne. unfold regs_with. rewrite decide_False; [done|]. intros Hin.
  apply list_elem_of_fmap in Hin as (g & E & Hg). rewrite Forall_forall in Hl.
  destruct (faddr_inj f g off PCI_COMMAND_STATUS_REG Hf (Hl g Hg) Ho ltac:(done) E) as (_ & _ & _ & ?). done.
Qed.

Lemma read_ok l f off (m : M) : regs_are l m -> Forall func_ok l -> func_ok f -> 0 <= off < 256 -> off mod 4 = 0 ->
  off <> PCI_COMMAND_STATUS_REG ->
  exists m', pci_conf_read f off m = Some (R (faddr f off), m') /\ regs_are l m'.
Proof.
  intros Hr Hl Hf Ho Hm Hne. destruct (conf_read_ok f off m Hf Ho Hm) as (m' & E & R').
  exists m'. rewrite E, Hr, regs_with_other by done. split; [done|]. intros a. by rewrite R'.
Qed.

Lemma layout_other R' f l : func_ok f ->
  (forall off, 0 <= off < 256 -> off <> PCI_COMMAND_STATUS_REG -> R' (faddr f off) = R (faddr f off)) ->
  forall i, (i + total_width l <= 6)%nat -> layout_from R f i l -> layout_from R' f i l.
Proof.
  intros Hf HR. induction l as [|r l IH]; intros i Hle; [done|]. cbn [layout_from].
  change (total_width (r :: l)) with (width r + total_width l)%nat in Hle. pose proof (width_pos r). intros [H1 H2].
  split; [|apply IH; [lia|done]]. destruct (bar_of_ok i) as (Ho & _ & Hb & _); [lia|]. fold (bar_of i) in *.
  assert (R' (faddr f (bar_of i)) = R (faddr f (bar_of i))) as E
    by (apply HR; [done|unfold PCI_MAPREG_START, PCI_COMMAND_STATUS_REG in *; lia]).
  destruct r; cbn [implements] in *; by rewrite E.
Qed.

Lemma card_ok_other R' f l : func_ok f ->
  (forall off, 0 <= off < 256 -> off <> PCI_COMMAND_STATUS_REG -> R' (faddr f off) = R (faddr f off)) ->
  card_ok R f l -> card_ok R' f l.
Proof.
  intros Hf HR (Hh & Hw & Hl). split; [|split; [done|apply layout_other; [done|done|lia|done]]].
  unfold ordinary, header_type in *. fold (faddr f PCI_BHLC_REG) in *. by rewrite HR.
Qed.

Lemma store_ok L f (s : pci M) : scan_inv L s -> func_ok f -> blank f -> supported f = true -> card_ok R f (layout f) ->
  exists r f' s', pci_store f s = Some (r, f', s') /\ r <= 0 /\ scan_inv (L ++ [f]) s'.
Proof.
  intros [Hst Hok Hr] Hf Hbl Hsup Hc. unfold pci_store, n_stored_pci_devices, MAX_N_PCI_DEVICES.
  pose proof (f_equal length Hst) as Hlen. rewrite length_take, length_fmap in Hlen.
  assert (filter supported (L ++ [f]) = filter supported L ++ [f]) as Efil.
  { rewrite filter_app. f_equal. apply (filter_cons_True (fun x => supported x)). by apply Is_true_true. }
  case_if.
  - destruct (func_enable_ok f (layout f) (machine s) Hf Hbl) as (m' & E1 & R1).
    { apply card_ok_other; [done| |done]. intros off Ho Hne. rewrite Hr. by apply regs_with_other. }
    run_bind E1. eexists 0, _, _. split; [done|]. split; [done|].
    split; cbn [stored_pci_devices machine].
    + set (F := filter _ L) in *. rewrite Efil, fmap_app. rewrite take_ge in Hst by (rewrite length_fmap; lia).
      rewrite Hst, take_ge; [done|]. rewrite length_app, length_fmap. cbn. lia.
    + by apply Forall_app_2, Forall_singleton.
    + intros a. rewrite R1. unfold enabled_regs, regs_with. rewrite Hr. unfold regs_with. rewrite fmap_app.
      change (command <$> [_]) with [command f]. unfold command at 2.
      destruct (decide (a ∈ command <$> stored_pci_devices s)) as [Ha|Ha].
      * rewrite (decide_True _ _ (proj2 (elem_of_app _ _ _) (or_introl Ha))). case_decide; [apply merge_idemp|done].
      * case_decide as Hc'; [rewrite decide_True; [done|set_solver]|rewrite decide_False; [done|set_solver]].
  - exists (-1), f, s. split; [done|]. split; [lia|]. split; [|done|done].
    rewrite Efil, fmap_app, take_app_le; [done|]. rewrite length_fmap. lia.
Qed.

Lemma scan_inv_skip L f (s : pci M) : scan_inv L s -> supported f = false -> scan_inv (L ++ [f]) s.
Proof.
  intros [Hst Hok Hr] Hsup. split; [|done|done]. rewrite filter_app, filter_cons_False, filter_nil, app_nil_r; [done|].
  rewrite Hsup. by intros [].
Qed.

Lemma scan_inv_machine L (s : pci M) m : scan_inv L s -> regs_are (stored_pci_devices s) m ->
  scan_inv L (mkPci m (stored_pci_devices s)).
Proof. intros [? ? ?] ?. by split. Qed.

(** ** Attaching *)

Section attach.
Variable scan : Bus -> pci M -> option (Z * pci M).

Lemma match_none k1 k2 l f (s : pci M) : table_has l k1 k2 = false -> pci_attach_match scan k1 k2 l f s = Some (0, f, s).
Proof.
  unfold table_has. induction l as [|d l IH]; [done|]. cbn [existsb pci_attach_match].
  intros E. apply orb_false_elim in E as [-> E]. by apply IH.
Qed.

(** The keys of the vendor table are distinct. *)
Lemma match_store k1 k2 l f (s : pci M) r f' s' :
  Forall (fun d => attach_fn d = pci_store_fn) l -> NoDup ((fun d => (key1 d, key2 d)) <$> l) ->
  table_has l k1 k2 = true -> pci_store f s = Some (r, f', s') -> r <= 0 ->
  pci_attach_match scan k1 k2 l f s = Some (0, f', s').
Proof.
  intros Hl Hnd Hin Hs Hr. induction Hl as [|d l Hd _ IH]; [done|]. cbn [pci_attach_match]. unfold table_has in Hin. cbn [existsb] in Hin.
  apply NoDup_cons in Hnd as [Hni Hnd]. destruct ((key1 d =? k1) && (key2 d =? k2)) eqn:E.
  - rewrite Hd. cbn [run_attachfn]. run_bind Hs. rewrite (proj2 (Z.ltb_ge 0 r)) by lia.
    apply match_none. apply not_true_is_false. intros Ht. apply Hni. unfold table_has in Ht. apply existsb_exists in Ht as (d' & Hd' & E').
    apply list_elem_of_fmap. exists d'. split; [|by apply list_elem_of_In]. bprop. f_equal; lia.
  - by apply IH.
Qed.

Lemma vendor_table : Forall (fun d => attach_fn d = pci_store_fn) pci_attach_vendor /\
  NoDup ((fun d => (key1 d, key2 d)) <$> pci_attach_vendor).
Proof. split; [repeat constructor|]. apply (bool_decide_unpack _). by vm_compute. Qed.

(** A function that is not descended into. *)
Lemma attach_vendor_ok L f (s : pci M) : scan_inv L s -> func_ok f -> blank f ->
  (supported f = true -> card_ok R f (layout f)) ->
  exists r f' s', pci_attach_match scan (PCI_VENDOR (dev_id f)) (PCI_PRODUCT (dev_id f)) pci_attach_vendor f s = Some (r, f', s') /\
    scan_inv (L ++ [f]) s'.
Proof.
  intros Hi Hf Hbl Hc. destruct (supported f) eqn:Hsup.
  - destruct (store_ok L f s Hi Hf Hbl Hsup (Hc eq_refl)) as (r & f' & s' & E & Hr & Hi').
    destruct vendor_table as [V1 V2]. exists 0, f', s'. split; [by eapply match_store|done].
  - exists 0, f, s. split; [by apply match_none|by apply scan_inv_skip].
Qed.

Definition scans (b : Bus) (W : list Func) : Prop :=
  forall L s, scan_inv L s -> exists n s', scan b s = Some (n, s') /\ scan_inv (L ++ W) s'.

Lemma attach_ok L f (s : pci M) W : scan_inv L s -> func_ok f -> blank f ->
  (supported f = true -> card_ok R f (layout f)) ->
  (if is_bridge R f then scans (secondary R f) W else W = [f]) ->
  exists r s', pci_attach scan f s = Some (r, s') /\ scan_inv (L ++ W) s'.
Proof.
  intros Hi Hf Hbl Hc HW. unfold pci_attach. cbn [pci_attach_match pci_attach_class key1 key2 attach_fn run_attachfn].
  unfold is_bridge, bridge_class in HW. rewrite (Z.eqb_sym PCI_CLASS_BRIDGE), (Z.eqb_sym PCI_SUBCLASS_BRIDGE_PCI).
  destruct (_ && (PCI_SUBCLASS _ =? _)) eqn:Ecls; cbn [andb] in HW.
  - unfold pci_bridge_attach. destruct Hi as [Hst Hok Hr].
    destruct (read_ok _ f PCI_BRIDGE_STATIO_REG (machine s) Hr Hok Hf) as (m1 & E1 & R1); [done..|].
    destruct (read_ok _ f PCI_BRIDGE_BUS_REG m1 R1 Hok Hf) as (m2 & E2 & R2); [done..|].
    assert (scan_inv L (mkPci m2 (stored_pci_devices s))) as Hi2 by (by split).
    rewrite E1, mbind_Some. cbv beta iota. rewrite E2, mbind_Some. cbv beta iota zeta.
    destruct (PCI_BRIDGE_IO_32BITS _); cbn [negb] in HW.
    + rewrite mbind_Some. cbv beta iota. change (0 <? 0) with false. cbv iota. rewrite mbind_Some. cbv beta iota. change (negb (0 =? 0)) with false. cbv iota.
      destruct (attach_vendor_ok L f _ Hi2 Hf Hbl Hc) as (r & f' & s' & -> & Hi'). rewrite HW, mbind_Some. by eexists _, _.
    + destruct (HW L _ Hi2) as (n & s' & E & Hi'). unfold secondary in E. rewrite E, mbind_Some. cbv beta iota. rewrite mbind_Some.
      cbv beta iota. change (0 <? 1) with true. cbv iota. rewrite mbind_Some. by eexists _, _.
  - rewrite mbind_Some. cbv beta iota. change (negb (0 =? 0)) with false. cbv iota.
    destruct (attach_vendor_ok L f _ Hi Hf Hbl Hc) as (r & f' & s' & -> & Hi'). rewrite HW, mbind_Some. by eexists _, _.
Qed.
End attach.

(** ** Buses *)

(** Firmware numbers the bus behind a bridge higher than the bus in front. *)
Definition buses_numbered : Prop := forall b d fn, loc_ok (busno b) d fn ->
  is_bridge R (found R b d fn) = true -> busno b < busno (secondary R (found R b d fn)).

Definition cards_described : Prop := forall b d fn, loc_ok (busno b) d fn ->
  supported (found R b d fn) = true -> card_ok R (found R b d fn) (layout (found R b d fn)).

Hypothesis Hnum : buses_numbered.
Hypothesis Hcards : cards_described.

(** What is reached at one function and at one device. *)
Definition walk_func (n : nat) (b : Bus) (d fn : Z) : list Func :=
  if exists_function R (busno b) d fn then
    if is_bridge R (found R b d fn) then walk R n (secondary R (found R b d fn)) else [found R b d fn]
  else [].

Definition walk_dev (n : nat) (b : Bus) (d : Z) : list Func :=
  if present R (busno b) d then flat_map (walk_func n b d) (seqZ 0 (n_functions R (busno b) d)) else [].

Lemma scan_func_ok scan n b d fn L (s : pci M) : loc_ok (busno b) d fn -> scan_inv L s ->
  (is_bridge R (found R b d fn) = true -> scans scan (secondary R (found R b d fn)) (walk R n (secondary R (found R b d fn)))) ->
  exists s', scan_func scan b d fn s = Some s' /\ scan_inv (L ++ walk_func n b d fn) s'.
Proof.
  intros Hloc Hi Hscan. pose proof Hi as [Hst Hok Hr]. unfold scan_func, walk_func, exists_function.
  set (f := blank_func b d fn). assert (func_ok f) as Hf by done.
  destruct (read_ok _ f PCI_ID_REG (machine s) Hr Hok Hf) as (m1 & E1 & R1); [done..|].
  rewrite E1, mbind_Some. cbv beta iota. change (faddr f PCI_ID_REG) with (conf1_addr (busno b) d fn PCI_ID_REG).
  destruct (PCI_VENDOR _ =? 0xffff); cbn [negb].
  { eexists. split; [done|]. rewrite app_nil_r. by apply scan_inv_machine. }
  destruct (read_ok _ f PCI_INTERRUPT_REG m1 R1 Hok Hf) as (m2 & E2 & R2); [done..|].
  destruct (read_ok _ f PCI_CLASS_REG m2 R2 Hok Hf) as (m3 & E3 & R3); [done..|].
  rewrite E2, mbind_Some. cbv beta iota. rewrite E3, mbind_Some. cbv beta iota.
  change (set_ids _ _ _ f) with (found R b d fn).
  destruct (attach_ok scan L (found R b d fn) (mkPci m3 (stored_pci_devices s))
    (if is_bridge R (found R b d fn) then walk R n (secondary R (found R b d fn)) else [found R b d fn])) as (r & s' & -> & Hi').
  - by apply scan_inv_machine.
  - done.
  - done.
  - by apply Hcards.
  - destruct (is_bridge R (found R b d fn)); [by apply Hscan|done].
  - rewrite mbind_Some. by exists s'.
Qed.

Lemma flat_map_snoc {A B} (f : A -> list B) l x : flat_map f (l ++ [x]) = flat_map f l ++ f x.
Proof. rewrite flat_map_app. cbn. by rewrite app_nil_r. Qed.

Lemma scan_dev_ok scan n b d k L (s : pci M) : 0 <= busno b < 256 -> 0 <= d < 32 -> scan_inv L s ->
  (forall fn, 0 <= fn < 8 -> is_bridge R (found R b d fn) = true ->
    scans scan (secondary R (found R b d fn)) (walk R n (secondary R (found R b d fn)))) ->
  exists s', scan_dev scan b d (k, s) = Some (if present R (busno b) d then k + 1 else k, s') /\
    scan_inv (L ++ walk_dev n b d) s'.
Proof.
  intros Hb Hd Hi Hscan. pose proof Hi as [Hst Hok Hr]. unfold scan_dev, walk_dev.
  set (f := blank_func b d 0). assert (func_ok f) as Hf by (unfold func_ok, loc_ok; cbn; lia).
  destruct (read_ok _ f PCI_BHLC_REG (machine s) Hr Hok Hf) as (m1 & E1 & R1); [done..|].
  rewrite E1, mbind_Some. cbv beta iota zeta. change (R (faddr f PCI_BHLC_REG)) with (bhlc R (busno b) d).
  apply (scan_inv_machine L s m1) in Hi; [|done]. rewrite Z.ltb_antisym. fold (present R (busno b) d).
  destruct (present R (busno b) d); cbn [negb].
  2: { eexists. split; [done|]. by rewrite app_nil_r. }
  fold (n_functions R (busno b) d). set (nf := n_functions R (busno b) d).
  assert (0 <= nf <= 8) as Hnf by (unfold nf, n_functions; case_if; lia).
  destruct (forM_range_ind (fun i s => scan_inv (L ++ flat_map (walk_func n b d) (seqZ 0 i)) s) 0 nf (scan_func scan b d)
    (mkPci m1 (stored_pci_devices s))) as (s' & -> & Hi').
  - lia.
  - by rewrite app_nil_r.
  - intros i s1 Hi1 Hs1. rewrite seqZ_succ, flat_map_snoc, app_assoc by lia. rewrite Z.add_0_l.
    apply scan_func_ok; [unfold loc_ok; lia|done|]. apply Hscan. lia.
  - rewrite mbind_Some. by exists s'.
Qed.

Lemma walk_S n b : walk R (S n) b = flat_map (walk_dev n b) (seqZ 0 32).
Proof. done. Qed.

Lemma seqZ_snoc i : 0 <= i -> seqZ 0 (i + 1) = seqZ 0 i ++ [i].
Proof. intros. by rewrite seqZ_succ. Qed.

(** The devices counted by the scan. *)
Definition n_devices (b : Bus) (hi : Z) : Z := Z.of_nat (length (List.filter (present R (busno b)) (seqZ 0 hi))).

Lemma scan_bus_ok n : forall b L (s : pci M), 0 <= busno b < 256 -> 256 - busno b <= Z.of_nat n -> scan_inv L s ->
  exists s', pci_scan_bus n b s = Some (n_devices b 32, s') /\ scan_inv (L ++ walk R n b) s'.
Proof.
  induction n as [|n IH]; intros b L s Hb Hn Hi; [lia|]. rewrite walk_S. cbn [pci_scan_bus].
  destruct (forM_range_ind (fun i a => fst a = n_devices b i /\ scan_inv (L ++ flat_map (walk_dev n b) (seqZ 0 i)) (snd a))
    0 32 (scan_dev (pci_scan_bus n) b) (0, s)) as ((k & s') & -> & Ek & Hi').
  - lia.
  - cbn. by rewrite app_nil_r.
  - intros i [k s1] Hi1 [Ek Hs1]. cbn [fst snd] in *.
    destruct (scan_dev_ok (pci_scan_bus n) n b i k _ s1 Hb Hi1 Hs1) as (s2 & E2 & Hs2).
    { intros fn Hfn Hbr L' s3 Hs3.
      assert (busno b < busno (secondary R (found R b i fn))) by (apply Hnum; [unfold loc_ok; lia|done]).
      destruct (IH (secondary R (found R b i fn)) L' s3) as (s4 & E4 & Hs4); [|lia|done|by eexists _, _].
      split; [lia|]. cbn [secondary busno]. change 0xff with (2 ^ 8 - 1). rewrite land_mask by lia. apply Z.mod_pos_bound. lia. }
    eexists. split; [exact E2|]. cbn [fst snd]. rewrite seqZ_snoc, flat_map_snoc, app_assoc by lia. split; [|done].
    subst k. unfold n_devices. rewrite seqZ_snoc, List.filter_app, length_app by lia. cbn.
    destruct (present R (busno b) i); cbn [length]; lia.
  - cbn [fst snd] in *. subst k. by exists s'.
Qed.
End scan.

Section claims.
Context {M : Type} `{PM : PortIO M} `{VM : !ConfigView M} `{LM : !ConfigLaws M}.


(** C24: On any tree of buses numbered downwards the scan ends, descends into
    every bridge, counts the devices of the root bus, and stores exactly the
    first 128 supported functions of the walk, in order and enabled. *)
Theorem pci_init_finds (m : M) layout :
  buses_numbered (conf_regs m) -> cards_described (conf_regs m) layout ->
  exists s', init (mkPci m []) = Some (n_devices (conf_regs m) (mkBus None 0) 32, s') /\
    stored_pci_devices s' = take 128 (enabled layout <$> filter supported (walk (conf_regs m) 256 (mkBus None 0))).
Proof.
  intros Hnum Hcards.
  destruct (scan_bus_ok (conf_regs m) layout Hnum Hcards 256 (mkBus None 0) [] (mkPci m [])) as (s' & E & Hi).
  - cbn. lia.
  - cbn. lia.
  - split; [done|constructor|]. intros a. done.
  - exists s'. split; [exact E|]. rewrite app_nil_l in Hi. exact (si_stored _ _ _ _ Hi).
Qed.
End claims.

#[local] Transparent conf1_addr.

(** ** Witnesses: a bridge at 0:1.0 and a card at 1:0.0 *)

Definition example_rw (a : Z) : Z :=
  if a =? conf1_addr 1 0 0 0x04 then 7
  else if a =? conf1_addr 1 0 0 0x10 then addr_mask 17 32
  else if a =? conf1_addr 1 0 0 0x14 then addr_mask 6 16
  else 0.

Definition example_regs (a : Z) : Z :=
  if a =? conf1_addr 0 1 0 0x00 then 0x29188086
  else if a =? conf1_addr 0 1 0 0x08 then 0x06040000
  else if a =? conf1_addr 0 1 0 0x0c then 0x00010000
  else if a =? conf1_addr 0 1 0 0x18 then 0x00010100
  else if a / 256 =? conf1_addr 0 1 0 0 / 256 then 0
  else if a =? conf1_addr 1 0 0 0x00 then 0x100e8086
  else if a =? conf1_addr 1 0 0 0x08 then 0x02000000
  else if a =? conf1_addr 1 0 0 0x10 then 0xfeb00000
  else if a =? conf1_addr 1 0 0 0x14 then 0xc001
  else if a / 256 =? conf1_addr 1 0 0 0 / 256 then 0
  else 0xffffffff.

(** The latched address and the registers. *)
Definition example_machine : Type := Z * (Z -> Z).

#[export] Instance example_view : ConfigView example_machine :=
  {| latch := fst; conf_regs := fun m a => u32 (snd m a); conf_rw := example_rw |}.

#[export] Instance example_ports : PortIO example_machine := {|
  inl := fun p m => (if p =? pci_conf1_data_ioport then u32 (snd m (fst m)) else 0, m);
  outl := fun p v m =>
    if p =? pci_conf1_addr_ioport then (v, snd m)
    else (fst m, fun a => if decide (a = fst m) then merge (example_rw a) v (u32 (snd m a)) else snd m a)
|}.

Lemma merge_uint mask v old : is_uint 32 v -> is_uint 32 old -> u32 (merge mask v old) = merge mask v old.
Proof.
  intros Hv Ho. unfold wrap, merge. rewrite <- Z.land_ones by lia. rewrite <- (wrap_small 32 v Hv) at 2. rewrite <- (wrap_small 32 old Ho) at 2.
  unfold wrap. rewrite <- !Z.land_ones by lia. bits.
  by destruct (Z.testbit v i), (Z.testbit mask i), (Z.testbit old i), (Z.testbit (Z.ones 32) i).
Qed.

#[export] Instance example_laws : ConfigLaws example_machine.
Proof.
  split; try done.
  - intros m a. by apply wrap_range.
  - intros b d fn off v m a Hl Ho Hlat Hp Hv. cbn [conf_regs example_view outl example_ports latch snd]. change (_ =? _) with false.
    cbv iota. cbn [snd]. case_decide; [|done]. apply merge_uint; [done|by apply wrap_range].
Qed.

Definition example_layout (f : Func) : list region := [Mem32 17 0xfeb00000 0; Io 6 16 0xc000; Unused; Unused; Unused; Unused].

Definition example_bus : example_machine := (0, example_regs).

(** The functions that answer. *)
Lemma example_found b d fn : loc_ok (busno b) d fn ->
  (busno b = 0 /\ d = 1 /\ fn = 0) \/ (busno b = 1 /\ d = 0 /\ fn = 0) \/
  (forall off, 0 <= off < 256 -> conf_regs example_bus (conf1_addr (busno b) d fn off) = 0xffffffff).
Proof.
  intros Hl. destruct (decide (busno b = 0 /\ d = 1 /\ fn = 0)) as [|H1]; [by left|]. right.
  destruct (decide (busno b = 1 /\ d = 0 /\ fn = 0)) as [|H2]; [by left|]. right. intros off Ho.
  cbn [conf_regs example_view example_bus snd]. unfold example_regs.
  assert (loc_ok 0 1 0 /\ loc_ok 1 0 0) as [L1 L2] by (unfold loc_ok; lia).
  change (conf1_addr 0 1 0 0 / 256) with (2 ^ 23 + 8). change (conf1_addr 1 0 0 0 / 256) with (2 ^ 23 + 256).
  rewrite !conf1_addr_sum by (done || lia). unfold loc_ok in *.
  replace ((2 ^ 31 + busno b * 65536 + d * 2048 + fn * 256 + off) / 256)
    with (2 ^ 23 + busno b * 256 + d * 8 + fn) by (apply (Z.div_unique_pos _ _ _ off); lia).
  repeat (rewrite (proj2 (Z.eqb_neq _ _)) by lia). done.
Qed.

Lemma example_numbered : buses_numbered (conf_regs example_bus).
Proof.
  intros b d fn Hl Hbr. destruct (example_found b d fn Hl) as [(E1 & -> & ->)|[(E1 & -> & ->)|Hff]]; destruct b as [p n]; try (cbn in E1; subst n).
  - vm_compute. reflexivity.
  - vm_compute in Hbr. discriminate Hbr.
  - unfold is_bridge, bridge_class, found, set_ids in Hbr. cbn [dev_class] in Hbr. rewrite (Hff PCI_CLASS_REG) in Hbr by done. discriminate Hbr.
Qed.

Lemma example_cards : cards_described (conf_regs example_bus) example_layout.
Proof.
  intros b d fn Hl Hs. destruct (example_found b d fn Hl) as [(E1 & -> & ->)|[(E1 & -> & ->)|Hff]]; destruct b as [p n]; try (cbn in E1; subst n).
  - vm_compute in Hs. discriminate Hs.
  - split; [by vm_compute|]. split; [done|]. cbn [layout_from example_layout implements].
    split_and!; try (vm_compute; reflexivity); try exact I; try (apply list_elem_of_In; cbn; tauto); vm_compute; done.
  - unfold supported, found, set_ids in Hs. cbn [dev_id] in Hs. rewrite (Hff PCI_ID_REG) in Hs by done. discriminate Hs.
Qed.

(** The card as it is found. *)
Definition example_card : Func := found (conf_regs example_bus) (mkBus (Some (0, 1, 0)) 1) 0 0.


Lemma pci_init_finds_witness :
  exists s', init (mkPci example_bus []) = Some (1, s') /\ dev_id <$> stored_pci_devices s' = [0x100e8086].
Proof.
  destruct (pci_init_finds example_bus example_layout example_numbered example_cards) as (s' & E & Es).
  exists s'. split.
  - rewrite E. vm_compute. reflexivity.
  - rewrite Es. vm_compute. reflexivity.
Defined.
