(* ===== verification/VirtioNet.v ===== *)
(** * lib/virtio_net.cpp: the virtio network driver

    A queue is the record of its descriptor table and of the two rings it
    shares with the device; the buffers are byte memory. The registers are an
    interface: a read or a write of an address, at a port or in memory. The
    device takes the entries of the available ring in order and may complete
    them in any order, as the virtio specification allows. *)

From S2P Require Import Prelude ByteMem Utils Memory Pci.

(** ** Registers *)

(** [vio_read mmio addr size], with the value of the size. *)
Class VirtioRegs (M : Type) := {
  vio_read : bool -> Z -> Z -> M -> Z * M;
  vio_write : bool -> Z -> Z -> Z -> M -> M
}.

Record io_reg := mkIoReg { io_offset : Z; io_size : Z }.

Record VirtIOCommonRegs := mkCommonRegs {
  device_features : io_reg; driver_features : io_reg; queue_address : io_reg; queue_size_reg : io_reg;
  queue_select : io_reg; queue_notify : io_reg; device_status : io_reg; ISR_status : io_reg; mac_regs : list io_reg
}.

Definition common_regs : VirtIOCommonRegs :=
  mkCommonRegs (mkIoReg 0 4) (mkIoReg 4 4) (mkIoReg 8 4) (mkIoReg 12 2) (mkIoReg 14 2) (mkIoReg 16 2) (mkIoReg 18 1)
    (mkIoReg 19 1) ((fun i => mkIoReg (20 + i) 1) <$> seqZ 0 6).

(** ** Queues *)

Definition VIRTQ_DESC_F_WRITE : Z := 2.
Definition VIRTQ_AVAIL_F_NO_INTERRUPT : Z := 1.
Definition VIRTQ_USED_F_NO_NOTIFY : Z := 1.

Record VirtQueueDesc := mkDesc { d_addr : Z; d_len : Z; d_flags : Z; d_next : Z }.

Record VirtQueueUsedElement := mkUsed { u_id : Z; u_len : Z }.

(** [queue_base] is the address of the descriptor table; the rings follow. *)
Record VirtQueue := mkQueue {
  queue_id : Z;
  queue_size : Z;
  queue_base : Z;
  desc : list VirtQueueDesc;
  avail_flags : Z;
  avail_idx : Z;
  avail_ring : list Z;
  used_flags : Z;
  used_idx : Z;
  used_ring : list VirtQueueUsedElement;
  cur_used_idx : Z
}.

Definition set_avail (idx : Z) (ring : list Z) (q : VirtQueue) : VirtQueue :=
  mkQueue (queue_id q) (queue_size q) (queue_base q) (desc q) (avail_flags q) idx ring (used_flags q) (used_idx q)
    (used_ring q) (cur_used_idx q).
Definition set_used (idx : Z) (ring : list VirtQueueUsedElement) (q : VirtQueue) : VirtQueue :=
  mkQueue (queue_id q) (queue_size q) (queue_base q) (desc q) (avail_flags q) (avail_idx q) (avail_ring q)
    (used_flags q) idx ring (cur_used_idx q).
Definition set_cur (c : Z) (q : VirtQueue) : VirtQueue :=
  mkQueue (queue_id q) (queue_size q) (queue_base q) (desc q) (avail_flags q) (avail_idx q) (avail_ring q)
    (used_flags q) (used_idx q) (used_ring q) c.
Definition set_desc (d : list VirtQueueDesc) (q : VirtQueue) : VirtQueue :=
  mkQueue (queue_id q) (queue_size q) (queue_base q) d (avail_flags q) (avail_idx q) (avail_ring q)
    (used_flags q) (used_idx q) (used_ring q) (cur_used_idx q).
Definition set_id (id size : Z) (q : VirtQueue) : VirtQueue :=
  mkQueue id size (queue_base q) (desc q) (avail_flags q) (avail_idx q) (avail_ring q)
    (used_flags q) (used_idx q) (used_ring q) (cur_used_idx q).

(** Past the end of the ring the store would hit other memory. *)
Definition add_avail (desc_id : Z) (q : VirtQueue) : option VirtQueue :=
  let idx := u16 (Z.land (avail_idx q) (u32 (queue_size q - 1))) in
  if idx <? Z.of_nat (length (avail_ring q))
  then Some (set_avail (u16 (avail_idx q + 1)) (<[Z.to_nat idx := desc_id]> (avail_ring q)) q)
  else None.

(** 0xffff, or the identifier and the length written by the device. *)
Definition pop_used (q : VirtQueue) : option (Z * Z * VirtQueue) :=
  let new_idx := used_idx q in
  if new_idx =? cur_used_idx q then Some (0xffff, 0, q)
  else
    e ← used_ring q !! Z.to_nat (Z.land (cur_used_idx q) (u32 (queue_size q - 1)));
    Some (u16 (u_id e), u_len e, set_cur (u16 (cur_used_idx q + 1)) q).

(** ** The driver *)

Definition MAX_SUPPORTED_QUEUE_SIZE : Z := 4096.
Definition QUEUE_MEMORY_SIZE : Z := MAX_SUPPORTED_QUEUE_SIZE * (18 + 8) + 2 * PAGE_SIZE.
Definition BUFFER_LEN : Z := 1600.
Definition MAX_ACTUAL_QUEUE_SIZE : Z := 128.
Definition QUEUE_BUFFER_POOL_SIZE : Z := MAX_ACTUAL_QUEUE_SIZE * BUFFER_LEN.

(** Where the linker put the static arrays. *)
Class PoolLayout := { queue_memory_pool : Z; queue_buffer_pool : Z; mmio : Z }.

Record vnet (M : Type) := mkVnet {
  device : M;
  is_mmio : bool;
  regio_base : Z;
  mmio_base : Z;
  queue_memory_pool_allocated : Z;
  queue_buffer_pool_allocated : Z;
  receive_queue : VirtQueue;
  transmit_queue : VirtQueue;
  bufs : bytemem;
  buffer : list Z
}.
Arguments mkVnet {M}.
Arguments device {M} _.
Arguments is_mmio {M} _.
Arguments regio_base {M} _.
Arguments mmio_base {M} _.
Arguments queue_memory_pool_allocated {M} _.
Arguments queue_buffer_pool_allocated {M} _.
Arguments receive_queue {M} _.
Arguments transmit_queue {M} _.
Arguments bufs {M} _.
Arguments buffer {M} _.

Section driver.
Context {M : Type} `{VR : VirtioRegs M} `{PL : PoolLayout}.
Implicit Type s : vnet M.

Definition set_device (m : M) s : vnet M :=
  mkVnet m (is_mmio s) (regio_base s) (mmio_base s) (queue_memory_pool_allocated s) (queue_buffer_pool_allocated s)
    (receive_queue s) (transmit_queue s) (bufs s) (buffer s).
Definition set_base (mm : bool) (rb mb : Z) s : vnet M :=
  mkVnet (device s) mm rb mb (queue_memory_pool_allocated s) (queue_buffer_pool_allocated s)
    (receive_queue s) (transmit_queue s) (bufs s) (buffer s).
Definition set_allocated (a b : Z) s : vnet M :=
  mkVnet (device s) (is_mmio s) (regio_base s) (mmio_base s) a b
    (receive_queue s) (transmit_queue s) (bufs s) (buffer s).
Definition set_receive_queue (q : VirtQueue) s : vnet M :=
  mkVnet (device s) (is_mmio s) (regio_base s) (mmio_base s) (queue_memory_pool_allocated s)
    (queue_buffer_pool_allocated s) q (transmit_queue s) (bufs s) (buffer s).
Definition set_transmit_queue (q : VirtQueue) s : vnet M :=
  mkVnet (device s) (is_mmio s) (regio_base s) (mmio_base s) (queue_memory_pool_allocated s)
    (queue_buffer_pool_allocated s) (receive_queue s) q (bufs s) (buffer s).
Definition set_bufs (b : bytemem) s : vnet M :=
  mkVnet (device s) (is_mmio s) (regio_base s) (mmio_base s) (queue_memory_pool_allocated s)
    (queue_buffer_pool_allocated s) (receive_queue s) (transmit_queue s) b (buffer s).
Definition set_buffer (b : list Z) s : vnet M :=
  mkVnet (device s) (is_mmio s) (regio_base s) (mmio_base s) (queue_memory_pool_allocated s)
    (queue_buffer_pool_allocated s) (receive_queue s) (transmit_queue s) (bufs s) b.

(** *** Registers *)

Definition reg_addr (r : io_reg) s : Z :=
  if is_mmio s then u64 (mmio_base s + io_offset r) else u32 (regio_base s + io_offset r).

(** Sizes 4 and 2, and 1 by default. *)
Definition reg_width (r : io_reg) : Z := if io_size r =? 4 then 4 else if io_size r =? 2 then 2 else 1.

Definition read (r : io_reg) s : Z * vnet M :=
  let '(v, m) := vio_read (is_mmio s) (reg_addr r s) (reg_width r) (device s) in
  (wrap (8 * reg_width r) v, set_device m s).

Definition write (r : io_reg) (value : Z) s : vnet M :=
  set_device (vio_write (is_mmio s) (reg_addr r s) (reg_width r) (wrap (8 * reg_width r) value) (device s)) s.

Definition write_or (r : io_reg) (value : Z) s : vnet M :=
  let '(v, s) := read r s in write r (Z.lor v value) s.

(** *** Pools *)

Definition alloc_queue_memory (size : Z) s : option (Z * vnet M) :=
  if u32 (size + queue_memory_pool_allocated s) <=? QUEUE_MEMORY_SIZE * 2 then
    Some (queue_memory_pool + queue_memory_pool_allocated s,
          set_allocated (u32 (queue_memory_pool_allocated s + size)) (queue_buffer_pool_allocated s) s)
  else None.

Definition alloc_queue_buffer (size : Z) s : option (Z * vnet M) :=
  if u32 (size + queue_buffer_pool_allocated s) <=? QUEUE_BUFFER_POOL_SIZE * 2 then
    Some (queue_buffer_pool + queue_buffer_pool_allocated s,
          set_allocated (queue_memory_pool_allocated s) (u32 (queue_buffer_pool_allocated s + size)) s)
  else None.

(** *** Queue initialisation *)

(** One descriptor of the table. *)
Definition init_desc (actual flags id : Z) (a : list VirtQueueDesc * vnet M) : option (list VirtQueueDesc * vnet M) :=
  let '(d, s) := a in
  if id <? actual then
    '(addr, s) ← alloc_queue_buffer BUFFER_LEN s;
    Some (d ++ [mkDesc addr BUFFER_LEN flags 0], s)
  else Some (d ++ [mkDesc 0 0 0 0], s).

(** The transmit ring as if the device had returned every descriptor. *)
Definition unpop (size id : Z) (ring : list VirtQueueUsedElement) : list VirtQueueUsedElement :=
  alter (fun e => mkUsed id (u_len e)) (Z.to_nat (Z.land (u32 (- id)) (u32 (size - 1)))) ring.

Definition total_queue_size (size : Z) : Z * Z :=
  let desc_size := u32 (16 * size) in
  let avail_size := u32 (6 + 2 * size) in
  let used_size := u32 (6 + 8 * size) in
  let part1_size := u32 (round_up (u32 (desc_size + avail_size)) PAGE_SIZE) in
  (part1_size, round_up (u32 (part1_size + used_size)) PAGE_SIZE).

(** [q] is the queue as it was; the pool is zeroed memory, so are the rings. *)
Definition queue_init (id : Z) (is_receive : bool) (q : VirtQueue) s : option (VirtQueue * vnet M) :=
  let s := write (queue_select common_regs) id s in
  let '(size, s) := read (queue_size_reg common_regs) s in
  let actual := Z.min MAX_ACTUAL_QUEUE_SIZE size in
  '(base, s) ← alloc_queue_memory (u32 (snd (total_queue_size size))) s;
  '(d, s) ← forM_range 0 size (init_desc actual (if is_receive then VIRTQ_DESC_F_WRITE else 0)) ([], s);
  let q := mkQueue (queue_id q) (queue_size q) base d VIRTQ_AVAIL_F_NO_INTERRUPT 0 (replicate (Z.to_nat size) 0)
             VIRTQ_USED_F_NO_NOTIFY 0 (replicate (Z.to_nat size) (mkUsed 0 0)) 0 in
  q ← (if is_receive then forM_range 0 actual add_avail q
       else Some (set_cur (u16 (- actual)) (set_used 0 (for_range 0 actual (unpop size) (used_ring q)) q)));
  let s := write (queue_address common_regs) (u32 (base / PAGE_SIZE)) s in
  let s := write (queue_notify common_regs) id s in
  Some (set_id id size q, s).

Definition init_queues s : option (vnet M) :=
  '(q, s) ← queue_init 0 true (receive_queue s) s;
  let s := set_receive_queue q s in
  '(q, s) ← queue_init 1 false (transmit_queue s) s;
  Some (set_transmit_queue q s).

Definition init_queue s (mem : memory) : option (vnet M * memory) :=
  mem ← map_region_cache_disabled queue_memory_pool (queue_memory_pool + QUEUE_MEMORY_SIZE * 2) queue_memory_pool mem;
  mem ← map_region_cache_disabled queue_buffer_pool (queue_buffer_pool + QUEUE_BUFFER_POOL_SIZE * 2) queue_buffer_pool mem;
  s ← init_queues s;
  Some (s, mem).

(** *** Device initialisation *)

Definition init_virtio_net_regs {N} (vendor_id device_id : Z) (p : pci N) s (mem : memory)
    : option (bool * vnet M * memory) :=
  let r := get_device_reg_base vendor_id device_id 0 p in
  if negb (r =? 2 ^ 64 - 1) then Some (true, set_base false (u32 r) (mmio_base s) s, mem)
  else
    '(r, mem) ← map_device vendor_id device_id mmio PAGE_SIZE 0 p mem;
    if negb (r =? 2 ^ 64 - 1) then Some (true, set_base true (regio_base s) mmio s, mem)
    else Some (false, s, mem).

(** [while (status != 0);], at most [fuel] reads. *)
Fixpoint wait_reset (fuel : nat) s : option (vnet M) :=
  match fuel with
  | O => None
  | S fuel' =>
      let '(v, s) := read (device_status common_regs) s in
      if v =? 0 then Some s else wait_reset fuel' s
  end.

Definition log_status s : vnet M := snd (read (device_status common_regs) s).

Definition read_mac s : list Z * vnet M :=
  foldl (fun '(l, s) r => let '(v, s) := read r s in (l ++ [u8 v], s)) ([], s) (mac_regs common_regs).

(** The result, the address of the card, the driver and the page tables. *)
Definition init {N} (fuel : nat) (p : pci N) (mac : list Z) s (mem : memory) : option (bool * list Z * vnet M * memory) :=
  '(ok, s, mem) ← init_virtio_net_regs 0x1af4 0x1000 p s mem;
  if negb ok then Some (false, mac, s, mem)
  else
    let s := log_status s in
    let s := write (device_status common_regs) 0 s in
    s ← wait_reset fuel s;
    let s := log_status s in
    let s := write_or (device_status common_regs) 1 s in
    let s := write_or (device_status common_regs) 2 s in
    let s := log_status s in
    let '(features, s) := read (device_features common_regs) s in
    let supported_features := Z.lor (2 ^ 5) (2 ^ 16) in
    let s := write (driver_features common_regs) (Z.land supported_features features) s in
    let s := write_or (device_status common_regs) 8 s in
    let s := log_status (log_status s) in
    let '(mac, s) := read_mac s in
    '(s, mem) ← init_queue s mem;
    let s := write_or (device_status common_regs) 4 s in
    Some (true, mac, log_status s, mem).

(** *** Sending and receiving *)

Definition queue_send (buf : list Z) (len : Z) s : option (bool * vnet M) :=
  '(desc_id, _, q) ← pop_used (transmit_queue s);
  let s := set_transmit_queue q s in
  if desc_id =? 0xffff then Some (false, s)
  else
    d ← desc q !! Z.to_nat desc_id;
    let s := set_bufs (mwrite (d_addr d) (take (Z.to_nat len) buf) (bufs s)) s in
    let q := set_desc (<[Z.to_nat desc_id := mkDesc (d_addr d) (u32 len) (d_flags d) (d_next d)]> (desc q)) q in
    q ← add_avail desc_id q;
    let s := write (queue_notify common_regs) (queue_id q) (set_transmit_queue q s) in
    Some (true, s).

(** -1, or the length and the bytes stored in the caller's buffer. *)
Definition queue_recv (offset : Z) s : option (Z * list Z * vnet M) :=
  let s := write (queue_notify common_regs) (queue_id (receive_queue s)) s in
  '(desc_id, len, q) ← pop_used (receive_queue s);
  let s := set_receive_queue q s in
  if desc_id =? 0xffff then Some (-1, [], s)
  else if len <? offset then Some (-1, [], s)
  else
    d ← desc q !! Z.to_nat desc_id;
    let bytes := mread (bufs s) (d_addr d + offset) (len - offset) in
    q ← add_avail desc_id q;
    Some (s32 len, bytes, set_receive_queue q s).

(** [sizeof(VirtIONetHeader)]: flags, gso_type and four 16-bit words. *)
Definition HEADER : Z := 10.

Definition VIRTIO_NET_HDR_GSO_NONE : Z := 0.

(** [buf] holds at least [len] bytes. *)
Definition send (buf : list Z) (len : Z) s : option (Z * vnet M) :=
  if (len <? 0) || (1500 <? len) then Some (-1, s)
  else
    let b := [0; VIRTIO_NET_HDR_GSO_NONE] ++ drop 2 (buffer s) in
    let b := take 10 b ++ take (Z.to_nat len) buf ++ drop (Z.to_nat (HEADER + len)) b in
    r ← queue_send b (HEADER + len) (set_buffer b s);
    Some (if (fst r : bool) then len else -1, snd r).

Definition receive s : option (Z * list Z * vnet M) := queue_recv HEADER s.

Definition flush s : Z * vnet M := (0, s).

(** The zeroed static data. *)
Definition zero_queue : VirtQueue := mkQueue 0 0 0 [] 0 0 [] 0 0 [] 0.

Definition vnet_static (m : M) (mm : bool) (rb mb : Z) (b : bytemem) : vnet M :=
  mkVnet m mm rb mb 0 0 zero_queue zero_queue b (replicate 1510 0).
End driver.

(** ** The device *)

(** What the device holds of one queue: its place in the available ring and
    the descriptors it has not returned. *)
Record devq := mkDevq { next_avail : Z; taken : list Z }.

(** Take the next available descriptor. *)
Definition dev_take (q : VirtQueue) (d : devq) : option (Z * devq) :=
  if next_avail d =? avail_idx q then None
  else
    id ← avail_ring q !! Z.to_nat (next_avail d mod queue_size q);
    Some (id, mkDevq (u16 (next_avail d + 1)) (taken d ++ [id])).

(** Return the descriptor at place [i] with the number of bytes written. *)
Definition dev_return (i : nat) (len : Z) (q : VirtQueue) (d : devq) : option (VirtQueue * devq) :=
  id ← taken d !! i;
  Some (set_used (u16 (used_idx q + 1)) (<[Z.to_nat (used_idx q mod queue_size q) := mkUsed id len]> (used_ring q)) q,
        mkDevq (next_avail d) (delete i (taken d))).
