(* ===== verification/VirtioProofs.v ===== *)
(** * The virtio rings as queues

    Counters number the entries of each ring from the start; an index is the
    counter modulo [2 ^ 16] and a slot is the counter modulo the queue size.
    Every descriptor is at exactly one place: waiting in the available ring,
    with the device, returned in the used ring, or held by the driver. *)

From S2P Require Import Prelude ByteMem Utils Memory Pci VirtioNet.

(** ** Slots *)

Definition pow2_size (qs : Z) : Prop := exists k, 0 <= k <= 12 /\ qs = 2 ^ k.

Lemma pow2_bounds qs : pow2_size qs -> 1 <= qs <= 4096 /\ (qs | 65536).
Proof.
  intros (k & Hk & ->). split.
  - split; [pose proof (Z.pow_pos_nonneg 2 k); lia|]. change 4096 with (2 ^ 12). apply Z.pow_le_mono_r; lia.
  - exists (2 ^ (16 - k)). rewrite <- Z.pow_add_r by lia. replace (16 - k + k) with 16 by lia. done.
Qed.

Lemma slot_mask qs c : pow2_size qs -> Z.land (c mod 65536) (u32 (qs - 1)) = c mod qs.
Proof.
  intros Hp. destruct (pow2_bounds qs Hp) as [Hb Hd]. rewrite wrap_small by (unfold is_uint; lia).
  destruct Hp as (k & Hk & ->). rewrite land_mask by lia. by apply Z.mod_mod_divide.
Qed.

Lemma mod_mod_slot qs c : pow2_size qs -> (c mod 65536) mod qs = c mod qs.
Proof. intros Hp. apply Z.mod_mod_divide, (pow2_bounds qs Hp). Qed.

(** Counters that are close have different slots. *)
Lemma slot_ne qs a b : a < b < a + qs -> Z.to_nat (a mod qs) <> Z.to_nat (b mod qs).
Proof.
  intros Hab E. assert (0 < qs) as Hq by lia.
  pose proof (Z.mod_pos_bound a qs Hq). pose proof (Z.mod_pos_bound b qs Hq).
  assert (a mod qs = b mod qs) as Em by lia.
  pose proof (Z.div_mod a qs ltac:(lia)) as Da. pose proof (Z.div_mod b qs ltac:(lia)) as Db.
  assert (b - a = qs * (b / qs - a / qs)) as E' by (rewrite Z.mul_sub_distr_l; lia).
  clear - E' Hab Hq. generalize dependent (b / qs - a / qs). intros x E'. destruct (Z.le_gt_cases x 0); nia.
Qed.

Lemma slot_lt qs a : 0 < qs -> (Z.to_nat (a mod qs) < Z.to_nat qs)%nat.
Proof. intros Hq. pose proof (Z.mod_pos_bound a qs Hq). lia. Qed.

(** A ring holds the list from counter [c] on. *)
Definition ring_at {A} (qs : Z) (ring : list A) (c : Z) (l : list A) : Prop :=
  forall i x, l !! i = Some x -> ring !! Z.to_nat ((c + Z.of_nat i) mod qs) = Some x.

Lemma ring_at_tail {A} qs (ring : list A) c x l : ring_at qs ring c (x :: l) -> ring_at qs ring (c + 1) l.
Proof. intros H i y Hy. rewrite <- (H (S i) y Hy). do 3 f_equal. lia. Qed.

Lemma ring_at_head {A} qs (ring : list A) c x l : ring_at qs ring c (x :: l) -> ring !! Z.to_nat (c mod qs) = Some x.
Proof. intros H. rewrite <- (H O x eq_refl). do 3 f_equal. lia. Qed.

Lemma ring_at_snoc {A} qs (ring : list A) c l x : 0 < qs -> length ring = Z.to_nat qs -> Z.of_nat (length l) < qs ->
  ring_at qs ring c l -> ring_at qs (<[Z.to_nat ((c + Z.of_nat (length l)) mod qs) := x]> ring) c (l ++ [x]).
Proof.
  intros Hq Hlen Hl H i y Hy. apply lookup_app_Some in Hy as [Hy|[Hi Hy]].
  - pose proof (lookup_lt_Some _ _ _ Hy). rewrite list_lookup_insert_ne; [by apply H|].
    apply not_eq_sym, slot_ne. lia.
  - apply list_lookup_singleton_Some in Hy as [Hz <-]. assert (i = length l) as -> by lia.
    apply list_lookup_insert_eq. rewrite Hlen. by apply slot_lt.
Qed.

Lemma Forall2_impl_in {A B} (P Q : A -> B -> Prop) l k :
  Forall2 P l k -> (forall x y, x ∈ l -> y ∈ k -> P x y -> Q x y) -> Forall2 Q l k.
Proof.
  induction 1 as [|x y l k Hp _ IH]; intros H; constructor.
  - apply H; [left|left|done].
  - apply IH. intros. apply H; [by right|by right|done].
Qed.

(** ** Queues *)

(** [T] entries were taken and [pending] wait; [C] entries were popped and
    [done] wait; [held] descriptors are with the driver. *)
Record q_inv (qs n : Z) (q : VirtQueue) (dv : devq) (T C : Z) (pending : list Z) (done : list VirtQueueUsedElement)
    (held : list Z) : Prop := {
  qi_pow : pow2_size qs;
  qi_n : 0 < n <= 128 /\ n <= qs;
  qi_size : queue_size q = qs;
  qi_alen : length (avail_ring q) = Z.to_nat qs;
  qi_ulen : length (used_ring q) = Z.to_nat qs;
  qi_avail : avail_idx q = (T + Z.of_nat (length pending)) mod 65536;
  qi_next : next_avail dv = T mod 65536;
  qi_used : used_idx q = (C + Z.of_nat (length done)) mod 65536;
  qi_cur : cur_used_idx q = C mod 65536;
  qi_pending : ring_at qs (avail_ring q) T pending;
  qi_done : ring_at qs (used_ring q) C done;
  qi_perm : pending ++ taken dv ++ (u_id <$> done) ++ held ≡ₚ seqZ 0 n
}.

Section queue.
Context (qs n : Z) (q : VirtQueue) (dv : devq) (T C : Z) (pending : list Z) (done : list VirtQueueUsedElement) (held : list Z).
Hypothesis Hq : q_inv qs n q dv T C pending done held.

Lemma q_count : (length pending + length (taken dv) + length done + length held = Z.to_nat n)%nat.
Proof.
  pose proof (Permutation_length (qi_perm _ _ _ _ _ _ _ _ _ Hq)) as E.
  rewrite !length_app, length_fmap, length_seqZ in E. lia.
Qed.

Lemma q_ids x : x ∈ pending \/ x ∈ taken dv \/ x ∈ u_id <$> done \/ x ∈ held -> 0 <= x < n.
Proof.
  intros Hx. assert (x ∈ seqZ 0 n) as H%elem_of_seqZ; [|lia].
  rewrite <- (qi_perm _ _ _ _ _ _ _ _ _ Hq). rewrite !elem_of_app. tauto.
Qed.

Lemma q_nodup : NoDup (pending ++ taken dv ++ (u_id <$> done) ++ held).
Proof. rewrite (qi_perm _ _ _ _ _ _ _ _ _ Hq). apply NoDup_seqZ. Qed.

Lemma q_held_ne id x : id ∈ held -> x ∈ pending \/ x ∈ taken dv \/ x ∈ u_id <$> done -> x <> id.
Proof.
  intros Hid Hx ->. pose proof q_nodup as Hnd. rewrite !NoDup_app in Hnd.
  destruct Hnd as (_ & N1 & _ & N2 & _ & N3 & _). specialize (N1 id). specialize (N2 id). specialize (N3 id).
  rewrite ?elem_of_app in *. tauto.
Qed.

Lemma pop_empty : done = [] -> pop_used q = Some (0xffff, 0, q).
Proof.
  intros Hd. unfold pop_used. rewrite (qi_used _ _ _ _ _ _ _ _ _ Hq), (qi_cur _ _ _ _ _ _ _ _ _ Hq), Hd.
  cbn [length]. by rewrite Z.add_0_r, Z.eqb_refl.
Qed.

Lemma pop_first e rest : done = e :: rest ->
  pop_used q = Some (u_id e, u_len e, set_cur ((C + 1) mod 65536) q) /\ 0 <= u_id e < n /\
  q_inv qs n (set_cur ((C + 1) mod 65536) q) dv T (C + 1) pending rest (u_id e :: held).
Proof.
  intros Hd. pose proof q_count as Hc. destruct (qi_n _ _ _ _ _ _ _ _ _ Hq) as [Hn Hnq].
  assert (0 <= u_id e < n) as Hid. { apply q_ids. right. right. left. rewrite Hd. left. }
  split; [|split; [done|]].
  - unfold pop_used. rewrite (qi_used _ _ _ _ _ _ _ _ _ Hq), (qi_cur _ _ _ _ _ _ _ _ _ Hq), Hd. rewrite Hd in Hc. cbn [length] in *.
    rewrite (proj2 (Z.eqb_neq _ _)) by dlia.
    rewrite (qi_size _ _ _ _ _ _ _ _ _ Hq), slot_mask by apply Hq.
    pose proof (qi_done _ _ _ _ _ _ _ _ _ Hq) as Hr. rewrite Hd in Hr. rewrite (ring_at_head _ _ _ _ _ Hr), mbind_Some.
    rewrite (wrap_small 16 (u_id e)) by (unfold is_uint; lia). unfold wrap. change (2 ^ 16) with 65536.
    by rewrite Zplus_mod_idemp_l.
  - destruct Hq as [P1 P2 P3 P4 P5 P6 P7 P8 P9 P10 P11 P12]. rewrite Hd in *. split; try done.
    + cbn [used_idx set_cur]. rewrite P8. cbn [length]. f_equal. lia.
    + by apply (ring_at_tail _ _ _ e).
    + rewrite <- P12. cbn [fmap list_fmap]. change ((u_id e :: list_fmap _ _ u_id rest) ++ held) with (u_id e :: (u_id <$> rest) ++ held).
      do 2 apply Permutation_app_head. symmetry. apply Permutation_middle.
Qed.

Lemma add_held id h : held = id :: h ->
  exists q', add_avail id q = Some q' /\ desc q' = desc q /\ queue_id q' = queue_id q /\
    q_inv qs n q' dv T C (pending ++ [id]) done h.
Proof.
  intros Hh. pose proof q_count as Hc. rewrite Hh in Hc. cbn [length] in Hc.
  destruct (qi_n _ _ _ _ _ _ _ _ _ Hq) as [Hn Hnq]. pose proof (qi_pow _ _ _ _ _ _ _ _ _ Hq) as Hp.
  destruct (pow2_bounds qs Hp) as [Hb _].
  assert (u16 (Z.land (avail_idx q) (u32 (queue_size q - 1))) = (T + Z.of_nat (length pending)) mod qs) as Eidx.
  { rewrite (qi_avail _ _ _ _ _ _ _ _ _ Hq), (qi_size _ _ _ _ _ _ _ _ _ Hq), slot_mask by done.
    apply wrap_small. unfold is_uint. pose proof (Z.mod_pos_bound (T + Z.of_nat (length pending)) qs). lia. }
  unfold add_avail. rewrite Eidx, (qi_alen _ _ _ _ _ _ _ _ _ Hq).
  rewrite (proj2 (Z.ltb_lt _ _)) by (pose proof (Z.mod_pos_bound (T + Z.of_nat (length pending)) qs); lia).
  eexists. split; [done|]. split; [done|]. split; [done|].
  destruct Hq as [P1 P2 P3 P4 P5 P6 P7 P8 P9 P10 P11 P12]. split; try done.
  - cbn [avail_ring set_avail]. by rewrite length_insert.
  - cbn [avail_idx set_avail]. rewrite P6. unfold wrap. change (2 ^ 16) with 65536. rewrite Zplus_mod_idemp_l, length_app. cbn [length]. f_equal. lia.
  - cbn [avail_ring set_avail]. apply ring_at_snoc; try done; lia.
  - rewrite <- P12, Hh. rewrite <- app_assoc. apply Permutation_app_head. cbn [app].
    rewrite !app_assoc. apply Permutation_middle.
Qed.

Lemma take_empty : pending = [] -> dev_take q dv = None.
Proof.
  intros Hp. unfold dev_take. rewrite (qi_next _ _ _ _ _ _ _ _ _ Hq), (qi_avail _ _ _ _ _ _ _ _ _ Hq), Hp.
  cbn [length]. by rewrite Z.add_0_r, Z.eqb_refl.
Qed.

Lemma take_first id rest : pending = id :: rest -> exists dv', dev_take q dv = Some (id, dv') /\
  taken dv' = taken dv ++ [id] /\ q_inv qs n q dv' (T + 1) C rest done held.
Proof.
  intros Hp. pose proof q_count as Hc. rewrite Hp in Hc. cbn [length] in Hc.
  destruct (qi_n _ _ _ _ _ _ _ _ _ Hq) as [Hn Hnq]. eexists. split; [|split].
  - unfold dev_take. rewrite (qi_next _ _ _ _ _ _ _ _ _ Hq), (qi_avail _ _ _ _ _ _ _ _ _ Hq), Hp. cbn [length].
    rewrite (proj2 (Z.eqb_neq _ _)) by dlia. rewrite (qi_size _ _ _ _ _ _ _ _ _ Hq), mod_mod_slot by apply Hq.
    pose proof (qi_pending _ _ _ _ _ _ _ _ _ Hq) as Hr. rewrite Hp in Hr. by rewrite (ring_at_head _ _ _ _ _ Hr), mbind_Some.
  - done.
  - destruct Hq as [P1 P2 P3 P4 P5 P6 P7 P8 P9 P10 P11 P12]. rewrite Hp in *. split; try done.
    + rewrite P6. cbn [length]. f_equal. lia.
    + cbn [next_avail]. unfold wrap. change (2 ^ 16) with 65536. by rewrite Zplus_mod_idemp_l.
    + by apply (ring_at_tail _ _ _ id).
    + rewrite <- P12. cbn [taken]. rewrite <- (app_assoc (taken dv) [id]).
      change (([id] ++ ?l)) with (id :: l). change ((id :: rest) ++ ?l) with (id :: rest ++ l).
      rewrite (app_assoc rest (taken dv) (id :: _)), <- Permutation_middle. by rewrite <- app_assoc.
Qed.

Lemma return_at i id len : taken dv !! i = Some id -> exists q' dv', dev_return i len q dv = Some (q', dv') /\
  desc q' = desc q /\ queue_id q' = queue_id q /\ taken dv' = delete i (taken dv) /\
  q_inv qs n q' dv' T C pending (done ++ [mkUsed id len]) held.
Proof.
  intros Hi. pose proof q_count as Hc. pose proof (lookup_lt_Some _ _ _ Hi) as Hlt.
  destruct (qi_n _ _ _ _ _ _ _ _ _ Hq) as [Hn Hnq]. pose proof (qi_pow _ _ _ _ _ _ _ _ _ Hq) as Hp.
  destruct (pow2_bounds qs Hp) as [Hb _].
  unfold dev_return. rewrite Hi, mbind_Some. eexists _, _. split; [done|]. split; [done|]. split; [done|]. split; [done|].
  destruct Hq as [P1 P2 P3 P4 P5 P6 P7 P8 P9 P10 P11 P12]. split; try done.
  - cbn [used_ring set_used]. by rewrite length_insert.
  - cbn [used_idx set_used]. rewrite P8. unfold wrap. change (2 ^ 16) with 65536. rewrite Zplus_mod_idemp_l, length_app. cbn [length]. f_equal. lia.
  - cbn [used_ring set_used]. rewrite P8, P3, mod_mod_slot by done. apply ring_at_snoc; try done; lia.
  - rewrite <- P12. cbn [taken]. apply Permutation_app_head.
    transitivity ((id :: delete i (taken dv)) ++ (u_id <$> done) ++ held).
    + rewrite fmap_app, <- app_assoc. change ((u_id <$> [mkUsed id len]) ++ held) with (id :: held).
      rewrite <- Permutation_middle, <- Permutation_middle. done.
    + apply Permutation_app_tail. symmetry. by apply delete_Permutation.
Qed.
End queue.

(** ** Initialisation *)

(** The device reports a power of two up to 4096, as the specification says. *)
Class QueueSizes (M : Type) `{VirtioRegs M} :=
  queue_size_pow2 (s : vnet M) : pow2_size (fst (read (queue_size_reg common_regs) s)).

Lemma total_size_bound qs : pow2_size qs ->
  0 <= u32 (snd (total_queue_size qs)) <= QUEUE_MEMORY_SIZE.
Proof.
  intros (k & Hk & ->).
  assert (forallb (fun k => (0 <=? u32 (snd (total_queue_size (2 ^ k)))) && (u32 (snd (total_queue_size (2 ^ k))) <=? QUEUE_MEMORY_SIZE))
    (seqZ 0 13) = true) as Hall by (vm_compute; reflexivity).
  rewrite forallb_forall in Hall. specialize (Hall k ltac:(apply list_elem_of_In, elem_of_seqZ; lia)). bprop. lia.
Qed.

Section init.
Context {M : Type} `{VR : VirtioRegs M} `{PL : PoolLayout} `{QS : !QueueSizes M}.
Implicit Type s : vnet M.

(** The descriptor table: [n] buffers from offset [b] of the pool. *)
Definition desc_of (n fl b id : Z) : VirtQueueDesc :=
  if id <? n then mkDesc (queue_buffer_pool + (b + BUFFER_LEN * id)) BUFFER_LEN fl 0 else mkDesc 0 0 0 0.

Lemma init_descs qs n fl s : 0 <= n <= qs -> n <= 128 -> 0 <= queue_buffer_pool_allocated s ->
  queue_buffer_pool_allocated s + BUFFER_LEN * n <= QUEUE_BUFFER_POOL_SIZE * 2 ->
  forM_range 0 qs (init_desc n fl) ([], s) =
    Some (desc_of n fl (queue_buffer_pool_allocated s) <$> seqZ 0 qs,
          set_allocated (queue_memory_pool_allocated s) (queue_buffer_pool_allocated s + BUFFER_LEN * n) s).
Proof.
  intros Hn Hn' Hb Hroom. change (QUEUE_BUFFER_POOL_SIZE * 2) with 409600 in Hroom. unfold BUFFER_LEN in *.
  destruct (forM_range_ind (fun i a => a = (desc_of n fl (queue_buffer_pool_allocated s) <$> seqZ 0 i,
    set_allocated (queue_memory_pool_allocated s) (queue_buffer_pool_allocated s + BUFFER_LEN * Z.min i n) s)) 0 qs (init_desc n fl) ([], s))
    as (a & -> & ->); [lia|..].
  - unfold BUFFER_LEN. replace (queue_buffer_pool_allocated s + 1600 * Z.min 0 n) with (queue_buffer_pool_allocated s) by lia. by destruct s.
  - intros i a Hi ->. eexists. split; [|done]. unfold init_desc, alloc_queue_buffer, BUFFER_LEN. rewrite seqZ_succ, fmap_app by lia.
    cbn [fmap list_fmap]. rewrite Z.add_0_l. change (QUEUE_BUFFER_POOL_SIZE * 2) with 409600.
    pose proof (eq_refl (desc_of n fl (queue_buffer_pool_allocated s) i)) as Ed. unfold desc_of at 2 in Ed. rewrite Ed. clear Ed.
    destruct (Z.ltb_spec i n).
    + cbn [queue_buffer_pool_allocated set_allocated]. replace (Z.min i n) with i by lia. replace (Z.min (i + 1) n) with (i + 1) by lia.
      rewrite (wrap_small 32 (1600 + _)) by (unfold is_uint; lia). rewrite (proj2 (Z.leb_le _ _)) by lia.
      rewrite mbind_Some. rewrite wrap_small by (unfold is_uint; lia).
      replace (queue_buffer_pool_allocated s + 1600 * i + 1600) with (queue_buffer_pool_allocated s + 1600 * (i + 1)) by lia. done.
    + by replace (Z.min (i + 1) n) with (Z.min i n) by lia.
  - by replace (Z.min qs n) with n by lia.
Qed.

Lemma desc_of_lookup n fl b qs i : 0 <= i < n -> n <= qs ->
  (desc_of n fl b <$> seqZ 0 qs) !! Z.to_nat i = Some (mkDesc (queue_buffer_pool + (b + BUFFER_LEN * i)) BUFFER_LEN fl 0).
Proof.
  intros Hi Hn. rewrite list_lookup_fmap, lookup_seqZ_lt by lia. cbn. unfold desc_of.
  replace (0 + Z.of_nat (Z.to_nat i)) with i by lia. by rewrite (proj2 (Z.ltb_lt i n)) by lia.
Qed.

(** Making every receive descriptor available, before the size is stored. *)
Lemma init_avail qs n q : 0 <= n <= qs -> n <= 128 -> queue_size q = 0 -> avail_idx q = 0 ->
  avail_ring q = replicate (Z.to_nat qs) 0 ->
  forM_range 0 n add_avail q = Some (set_avail n (seqZ 0 n ++ replicate (Z.to_nat (qs - n)) 0) q).
Proof.
  intros Hn Hn' Hsz Hidx Hring.
  destruct (forM_range_ind (fun i q' => q' = set_avail i (seqZ 0 i ++ replicate (Z.to_nat (qs - i)) 0) q) 0 n add_avail q)
    as (q' & -> & ->); [lia|..|done].
  - destruct q. cbn in *. subst. by rewrite Z.sub_0_r.
  - intros i q' Hi ->. eexists. split; [|done]. unfold add_avail. cbn [avail_idx avail_ring queue_size set_avail].
    rewrite Hsz. change (u32 (0 - 1)) with (2 ^ 32 - 1). rewrite land_mask by lia.
    rewrite (Z.mod_small i) by lia. rewrite !wrap_small by (unfold is_uint; lia).
    rewrite length_app, length_seqZ, length_replicate. rewrite (proj2 (Z.ltb_lt _ _)) by lia.
    f_equal. unfold set_avail. cbn. f_equal. rewrite seqZ_succ, <- app_assoc by lia. rewrite insert_app_r_alt, length_seqZ by (rewrite length_seqZ; lia).
    replace (Z.to_nat i - Z.to_nat i)%nat with 0%nat by lia. replace (Z.to_nat (qs - i)) with (S (Z.to_nat (qs - (i + 1)))) by lia.
    done.
Qed.

Lemma unpop_slot qs id : pow2_size qs -> Z.land (u32 (- id)) (u32 (qs - 1)) = (- id) mod qs.
Proof.
  intros Hp. destruct (pow2_bounds qs Hp) as [Hb Hd]. rewrite (wrap_small 32 (qs - 1)) by (unfold is_uint; lia).
  pose proof Hp as (k & Hk & Ek). unfold wrap. rewrite Ek at 1. rewrite land_mask, <- Ek by lia.
  apply Z.mod_mod_divide. apply Z.divide_trans with 65536; [done|]. by exists 65536.
Qed.

(** The transmit ring after the loop. *)
Lemma init_unpop qs n : pow2_size qs -> 0 <= n <= qs ->
  let ring := for_range 0 n (unpop qs) (replicate (Z.to_nat qs) (mkUsed 0 0)) in
  length ring = Z.to_nat qs /\
  (forall j, 0 <= j < n -> ring !! Z.to_nat ((- j) mod qs) = Some (mkUsed j 0)) /\
  (forall x, 0 <= x < qs -> (forall j, 0 <= j < n -> x <> (- j) mod qs) -> ring !! Z.to_nat x = Some (mkUsed 0 0)).
Proof.
  intros Hp Hn. destruct (pow2_bounds qs Hp) as [Hb _]. cbv zeta.
  apply (for_range_ind (fun i ring => length ring = Z.to_nat qs /\
    (forall j, 0 <= j < i -> ring !! Z.to_nat ((- j) mod qs) = Some (mkUsed j 0)) /\
    (forall x, 0 <= x < qs -> (forall j, 0 <= j < i -> x <> (- j) mod qs) -> ring !! Z.to_nat x = Some (mkUsed 0 0)))); [lia|..].
  - split; [by rewrite length_replicate|]. split; [lia|]. intros x Hx _. apply lookup_replicate_2. lia.
  - intros i ring Hi (Hl & Hset & Hrest). unfold unpop. rewrite unpop_slot by done.
    pose proof (Z.mod_pos_bound (- i) qs ltac:(lia)) as Hm. split; [by rewrite length_alter|]. split.
    + intros j Hj. destruct (Z.eq_dec j i) as [->|Hne].
      * rewrite list_lookup_alter_eq, Hrest; [done|done|]. intros j Hj' E.
        apply (slot_ne qs (- i) (- j)); [lia|]. by rewrite E.
      * rewrite list_lookup_alter_ne; [apply Hset; lia|]. apply slot_ne. lia.
    + intros x Hx Hno. rewrite list_lookup_alter_ne.
      * apply Hrest; [done|]. intros j Hj. apply Hno. lia.
      * intros E. apply (Hno i ltac:(lia)). lia.
Qed.

(** The returned entries the transmit queue starts with. *)
Definition returned (n : Z) : list VirtQueueUsedElement :=
  (fun i => mkUsed (if i =? 0 then 0 else n - i) 0) <$> seqZ 0 n.

Lemma returned_perm n : 0 < n -> u_id <$> returned n ≡ₚ seqZ 0 n.
Proof.
  intros Hn. unfold returned. rewrite <- list_fmap_compose. apply NoDup_Permutation.
  - apply NoDup_fmap_2_strong; [|apply NoDup_seqZ]. intros x y Hx%elem_of_seqZ Hy%elem_of_seqZ. cbn.
    destruct (Z.eqb_spec x 0), (Z.eqb_spec y 0); lia.
  - apply NoDup_seqZ.
  - intros x. rewrite list_elem_of_fmap, elem_of_seqZ. split.
    + intros (i & -> & Hi%elem_of_seqZ). cbn. destruct (Z.eqb_spec i 0); lia.
    + intros Hx. exists (if x =? 0 then 0 else n - x). split; [|apply elem_of_seqZ; destruct (Z.eqb_spec x 0); lia].
      cbn. destruct (Z.eqb_spec x 0) as [->|]; [done|]. rewrite (proj2 (Z.eqb_neq (n - x) 0)) by lia. lia.
Qed.

Lemma returned_ring qs n ring : pow2_size qs -> 0 < n <= qs ->
  (forall j, 0 <= j < n -> ring !! Z.to_nat ((- j) mod qs) = Some (mkUsed j 0)) ->
  (forall x, 0 <= x < qs -> (forall j, 0 <= j < n -> x <> (- j) mod qs) -> ring !! Z.to_nat x = Some (mkUsed 0 0)) ->
  ring_at qs ring (- n) (returned n).
Proof.
  intros Hp Hn Hset Hrest i e He. unfold returned in He. apply list_lookup_fmap_Some in He as (j & -> & Hj).
  apply lookup_seqZ in Hj as [-> Hi]. rewrite Z.add_0_l. destruct (Z.eqb_spec (Z.of_nat i) 0) as [E|E].
  - rewrite E, Z.add_0_r. destruct (Z.eq_dec n qs) as [->|Hne].
    + assert ((- qs) mod qs = (- 0) mod qs) as -> by (rewrite Z.mod_opp_l_z by (lia || (apply Z.mod_same; lia)); done).
      apply Hset. lia.
    + apply Hrest; [apply Z.mod_pos_bound; lia|]. intros j Hj Em. apply (slot_ne qs (- n) (- j)); [lia|]. by rewrite Em.
  - rewrite <- (Hset (n - Z.of_nat i)) by lia. do 3 f_equal. lia.
Qed.

Lemma read_spec r s : exists m, read r s = (fst (read r s), set_device m s).
Proof. unfold read. destruct (vio_read _ _ _ _) as [v m]. by exists m. Qed.

(** A queue ready for use, with [n] buffers from offset [b] of the pool. *)
Record ready (id : Z) (is_receive : bool) (b : Z) (q : VirtQueue) (qs n : Z) : Prop := {
  rd_n : n = Z.min 128 qs;
  rd_id : queue_id q = id;
  rd_inv : q_inv qs n q (mkDevq 0 []) 0 (if is_receive then 0 else - n)
    (if is_receive then seqZ 0 n else []) (if is_receive then [] else returned n) [];
  rd_desc i : 0 <= i < n -> desc q !! Z.to_nat i =
    Some (mkDesc (queue_buffer_pool + (b + BUFFER_LEN * i)) BUFFER_LEN (if is_receive then VIRTQ_DESC_F_WRITE else 0) 0)
}.

Lemma queue_init_ok id is_receive q0 s : queue_size q0 = 0 ->
  0 <= queue_memory_pool_allocated s -> queue_memory_pool_allocated s + QUEUE_MEMORY_SIZE <= QUEUE_MEMORY_SIZE * 2 ->
  0 <= queue_buffer_pool_allocated s -> queue_buffer_pool_allocated s + QUEUE_BUFFER_POOL_SIZE <= QUEUE_BUFFER_POOL_SIZE * 2 ->
  exists q qs n m a, queue_init id is_receive q0 s =
      Some (q, set_device m (set_allocated a (queue_buffer_pool_allocated s + BUFFER_LEN * n) s)) /\
    0 <= a <= queue_memory_pool_allocated s + QUEUE_MEMORY_SIZE /\ 0 <= n <= 128 /\
    ready id is_receive (queue_buffer_pool_allocated s) q qs n.
Proof.
  intros H0 Ha1 Ha2 Hb1 Hb2. unfold queue_init.
  pose proof (queue_size_pow2 (write (queue_select common_regs) id s)) as Hp.
  destruct (read_spec (queue_size_reg common_regs) (write (queue_select common_regs) id s)) as (m1 & ->).
  set (qs := fst (read _ _)) in *. cbv beta iota zeta. set (n := Z.min MAX_ACTUAL_QUEUE_SIZE qs).
  destruct (pow2_bounds qs Hp) as [Hb _]. assert (0 < n <= 128 /\ n <= qs) as Hn by (unfold n, MAX_ACTUAL_QUEUE_SIZE; lia).
  set (s1 := set_device m1 _). assert (exists m, s1 = set_device m s) as [m2 E1] by (by eexists).
  rewrite E1. clear s1 E1 m1. destruct (total_size_bound qs Hp) as [Ht1 Ht2]. set (ts := u32 _) in *.
  unfold alloc_queue_memory. cbn [queue_memory_pool_allocated set_device].
  change QUEUE_MEMORY_SIZE with 114688 in *. change QUEUE_BUFFER_POOL_SIZE with 204800 in *.
  rewrite (wrap_small 32 (ts + _)), (proj2 (Z.leb_le _ _)) by (unfold is_uint; lia). rewrite mbind_Some.
  rewrite (init_descs qs n); cbn [queue_buffer_pool_allocated queue_memory_pool_allocated set_allocated set_device];
    [|lia|lia|lia|change (QUEUE_BUFFER_POOL_SIZE * 2) with 409600; unfold BUFFER_LEN; lia].
  rewrite mbind_Some. rewrite (wrap_small 32 (_ + ts)) by (unfold is_uint; lia).
  set (q1 := mkQueue _ _ _ _ _ _ _ _ _ _ _).
  set (desc1 := _ <$> seqZ 0 qs) in q1.
  destruct is_receive.
  - rewrite (init_avail qs n q1) by (done || lia). rewrite mbind_Some. eexists _, qs, n, _, (queue_memory_pool_allocated s + ts). split; [reflexivity|].
    split; [lia|]. split; [lia|]. split; [done|done| |intros i Hi; apply desc_of_lookup; lia].
    split; try done.
    + cbn. rewrite length_app, length_seqZ, length_replicate. lia.
    + cbn. by rewrite length_replicate.
    + cbn [avail_idx set_id set_avail]. rewrite length_seqZ, Z.mod_small; lia.
    + intros i x Hx. pose proof (lookup_lt_Some _ _ _ Hx) as Hlt. rewrite length_seqZ in Hlt. rewrite Z.add_0_l, Z.mod_small, Nat2Z.id by lia.
      cbn [avail_ring set_id set_avail]. by apply lookup_app_l_Some.
    + cbn [taken fmap list_fmap]. by rewrite !app_nil_r.
  - destruct (init_unpop qs n Hp ltac:(lia)) as (Hl & Hset & Hrest). rewrite mbind_Some.
    eexists _, qs, n, _, (queue_memory_pool_allocated s + ts). split; [reflexivity|]. split; [lia|]. split; [lia|]. split; [done|done| |intros i Hi; apply desc_of_lookup; lia].
    split; try done.
    + cbn. by rewrite length_replicate.
    + cbn [used_idx set_id set_cur set_used]. unfold returned. rewrite length_fmap, length_seqZ. by replace (- n + Z.of_nat (Z.to_nat n)) with 0 by lia.
    + cbn [used_ring set_id set_cur set_used q1]. apply returned_ring; [done|lia|exact Hset|exact Hrest].
    + cbn [taken app]. rewrite app_nil_r. apply returned_perm. lia.
Qed.

Lemma init_queues_ok m mm rb mb b : exists s nr nt qr qt,
  init_queues (vnet_static m mm rb mb b) = Some s /\ bufs s = b /\ buffer s = replicate 1510 0 /\
  0 <= nr <= 128 /\ ready 0 true 0 (receive_queue s) qr nr /\ ready 1 false (BUFFER_LEN * nr) (transmit_queue s) qt nt.
Proof.
  set (s0 := vnet_static m mm rb mb b). unfold init_queues.
  destruct (queue_init_ok 0 true (receive_queue s0) s0) as (q & qs & n & m1 & a1 & E1 & Ha1 & Hn1 & R1); [done|cbn..|].
  1-4: unfold QUEUE_MEMORY_SIZE, MAX_SUPPORTED_QUEUE_SIZE, PAGE_SIZE, QUEUE_BUFFER_POOL_SIZE, MAX_ACTUAL_QUEUE_SIZE, BUFFER_LEN; lia.
  rewrite E1, mbind_Some. cbv beta iota zeta. cbn [queue_memory_pool_allocated s0 vnet_static] in Ha1. rewrite Z.add_0_l in Ha1.
  set (s1 := set_receive_queue q _).
  destruct (queue_init_ok 1 false (transmit_queue s1) s1) as (q2 & qs2 & n2 & m2 & a2 & E2 & Ha2 & Hn2 & R2); [done|cbn; lia|cbn; lia|..].
  - cbn. unfold BUFFER_LEN. lia.
  - cbn -[Z.add Z.mul]. change QUEUE_BUFFER_POOL_SIZE with 204800. unfold BUFFER_LEN. lia.
  - rewrite E2, mbind_Some. eexists _, n, n2, qs, qs2. split; [done|]. split; [done|]. split; [done|]. split; [done|]. split; [exact R1|exact R2].
Qed.
End init.
