(* ===== verification/VirtioClaims.v ===== *)
(** * The virtio driver and its device in every interleaving *)

From S2P Require Import Prelude ByteMem Utils Memory Pci VirtioNet VirtioProofs.

Section system.
Context {M : Type} `{VR : VirtioRegs M} `{PL : PoolLayout} `{QS : !QueueSizes M}.
Implicit Type s : vnet M.

(** ** The device on the driver's memory *)

(** Send the packet of the next available transmit descriptor. *)
Definition dev_tx s (dt : devq) : option (list Z * devq) :=
  '(id, dt) ← dev_take (transmit_queue s) dt;
  d ← desc (transmit_queue s) !! Z.to_nat id;
  Some (mread (bufs s) (d_addr d) (d_len d), dt).

(** Return a transmit descriptor, in any order. *)
Definition dev_tx_done (i : nat) s (dt : devq) : option (vnet M * devq) :=
  '(q, dt) ← dev_return i 0 (transmit_queue s) dt;
  Some (set_transmit_queue q s, dt).

(** Put a header and a packet into a receive buffer taken before. *)
Definition dev_rx (i : nat) (hdr pkt : list Z) s (dr : devq) : option (vnet M * devq) :=
  if negb (Z.of_nat (length hdr) =? HEADER) || (BUFFER_LEN <? Z.of_nat (length (hdr ++ pkt))) then None
  else
    id ← taken dr !! i;
    d ← desc (receive_queue s) !! Z.to_nat id;
    '(q, dr) ← dev_return i (Z.of_nat (length (hdr ++ pkt))) (receive_queue s) dr;
    Some (set_bufs (mwrite (d_addr d) (hdr ++ pkt) (bufs s)) (set_receive_queue q s), dr).

(** ** Interleavings *)

Inductive event :=
  | Accepted (pkt : list Z) | Refused | Sent (frame : list Z) | Returned
  | Taken | Delivered (pkt : list Z) | Received (pkt : list Z) | Nothing.

Record sys := mkSys { drv : vnet M; dtx : devq; drx : devq }.

Inductive step : sys -> event -> sys -> Prop :=
  | step_send s dt dr buf len r s' : len <= Z.of_nat (length buf) -> send buf len s = Some (r, s') ->
      step (mkSys s dt dr) (if r =? -1 then Refused else Accepted (take (Z.to_nat len) buf)) (mkSys s' dt dr)
  | step_receive s dt dr r pkt s' : receive s = Some (r, pkt, s') ->
      step (mkSys s dt dr) (if r =? -1 then Nothing else Received pkt) (mkSys s' dt dr)
  | step_dev_tx s dt dr frame dt' : dev_tx s dt = Some (frame, dt') ->
      step (mkSys s dt dr) (Sent frame) (mkSys s dt' dr)
  | step_dev_tx_done i s dt dr s' dt' : dev_tx_done i s dt = Some (s', dt') ->
      step (mkSys s dt dr) Returned (mkSys s' dt' dr)
  | step_dev_rx_take s dt dr id dr' : dev_take (receive_queue s) dr = Some (id, dr') ->
      step (mkSys s dt dr) Taken (mkSys s dt dr')
  | step_dev_rx i hdr pkt s dt dr s' dr' : dev_rx i hdr pkt s dr = Some (s', dr') ->
      step (mkSys s dt dr) (Delivered pkt) (mkSys s' dt dr').

Inductive trace (y : sys) : list event -> sys -> Prop :=
  | trace_nil : trace y [] y
  | trace_snoc tr y1 e y2 : trace y tr y1 -> step y1 e y2 -> trace y (tr ++ [e]) y2.

Definition accepted : list event -> list (list Z) := omap (fun e => match e with Accepted p => Some p | _ => None end).
Definition sent : list event -> list (list Z) := omap (fun e => match e with Sent p => Some p | _ => None end).
Definition delivered : list event -> list (list Z) := omap (fun e => match e with Delivered p => Some p | _ => None end).
Definition received : list event -> list (list Z) := omap (fun e => match e with Received p => Some p | _ => None end).

(** What the device sends: the empty virtio header and the packet. *)
Definition frame_of (pkt : list Z) : list Z := replicate 10 0 ++ pkt.

(** After the queues are initialised. *)
Definition started (y : sys) : Prop := exists m mm rb mb b s,
  init_queues (vnet_static m mm rb mb b) = Some s /\ y = mkSys s (mkDevq 0 []) (mkDevq 0 []).

(** ** Invariants *)

Definition buf_addr (b id : Z) : Z := queue_buffer_pool + (b + BUFFER_LEN * id).

(** A waiting transmit descriptor and its packet. *)
Definition tx_slot (D : list VirtQueueDesc) (m : bytemem) (b id : Z) (pkt : list Z) : Prop :=
  D !! Z.to_nat id = Some (mkDesc (buf_addr b id) (HEADER + Z.of_nat (length pkt)) 0 0) /\
  mread m (buf_addr b id) (HEADER + Z.of_nat (length pkt)) = frame_of pkt /\ Z.of_nat (length pkt) <= 1500.

(** A returned receive descriptor and its packet. *)
Definition rx_slot (m : bytemem) (e : VirtQueueUsedElement) (pkt : list Z) : Prop :=
  u_len e = HEADER + Z.of_nat (length pkt) /\ mread m (buf_addr 0 (u_id e) + HEADER) (Z.of_nat (length pkt)) = pkt /\
  HEADER + Z.of_nat (length pkt) <= BUFFER_LEN.

Record tx_inv s (dt : devq) (acc : list (list Z)) (T : nat) (qs n nr : Z) (C : Z) (pending : list Z)
    (done : list VirtQueueUsedElement) : Prop := {
  ti_queue : q_inv qs n (transmit_queue s) dt (Z.of_nat T) C pending done [];
  ti_n : n = Z.min 128 qs;
  ti_desc i : 0 <= i < n -> exists len, desc (transmit_queue s) !! Z.to_nat i = Some (mkDesc (buf_addr (BUFFER_LEN * nr) i) len 0 0);
  ti_data : Forall2 (tx_slot (desc (transmit_queue s)) (bufs s) (BUFFER_LEN * nr)) pending (drop T acc);
  ti_T : (T <= length acc)%nat;
  ti_header : take 10 (buffer s) = replicate 10 0 /\ length (buffer s) = 1510%nat
}.

Record rx_inv s (dr : devq) (d : list (list Z)) (R : nat) (qs n : Z) (T : Z) (pending : list Z)
    (done : list VirtQueueUsedElement) : Prop := {
  ri_queue : q_inv qs n (receive_queue s) dr T (Z.of_nat R) pending done [];
  ri_desc i : 0 <= i < n -> desc (receive_queue s) !! Z.to_nat i = Some (mkDesc (buf_addr 0 i) BUFFER_LEN VIRTQ_DESC_F_WRITE 0);
  ri_data : Forall2 (rx_slot (bufs s)) done (drop R d);
  ri_R : (R <= length d)%nat
}.

(** The invariants depend only on their own queue and buffers. *)
Lemma tx_queue_keep s s' dt acc T qs n nr C pending done : tx_inv s dt acc T qs n nr C pending done ->
  transmit_queue s' = transmit_queue s -> buffer s' = buffer s ->
  (forall id k, 0 <= id < n -> 0 <= k <= BUFFER_LEN -> mread (bufs s') (buf_addr (BUFFER_LEN * nr) id) k = mread (bufs s) (buf_addr (BUFFER_LEN * nr) id) k) ->
  tx_inv s' dt acc T qs n nr C pending done.
Proof.
  intros [Hq Hn Hd Hdat HT Hh] E1 E2 Hm. split; rewrite ?E1, ?E2; try done.
  eapply Forall2_impl_in; [exact Hdat|]. intros id pkt Hid _ (D1 & D2 & D3). split; [done|]. split; [|done].
  rewrite Hm; [done| |unfold HEADER, BUFFER_LEN; lia]. eapply q_ids; [exact Hq|by left].
Qed.

Lemma rx_queue_keep s s' dr d R qs n T pending done : rx_inv s dr d R qs n T pending done ->
  receive_queue s' = receive_queue s ->
  (forall id k, 0 <= id < n -> 0 <= k <= BUFFER_LEN - HEADER -> mread (bufs s') (buf_addr 0 id + HEADER) k = mread (bufs s) (buf_addr 0 id + HEADER) k) ->
  rx_inv s' dr d R qs n T pending done.
Proof.
  intros [Hq Hd Hdat HR] E1 Hm. split; rewrite ?E1; try done.
  eapply Forall2_impl_in; [exact Hdat|]. intros e pkt He _ (D1 & D2 & D3). split; [done|]. split; [|done].
  rewrite Hm; [done| |lia]. eapply q_ids; [exact Hq|]. right. right. left. by apply list_elem_of_fmap_2.
Qed.

(** ** Sending *)

Lemma buf_disjoint b i j k : i <> j -> 0 <= k <= BUFFER_LEN ->
  buf_addr b i + k <= buf_addr b j \/ buf_addr b j + BUFFER_LEN <= buf_addr b i.
Proof. intros Hne Hk. unfold buf_addr, BUFFER_LEN in *. lia. Qed.

(** The transmit area after the receive area. *)
Lemma area_disjoint nr i j : 0 <= i < nr -> 0 <= j -> buf_addr 0 i + BUFFER_LEN <= buf_addr (BUFFER_LEN * nr) j.
Proof. intros Hi Hj. unfold buf_addr, BUFFER_LEN. lia. Qed.

(** The static buffer with the header and the packet. *)
Definition framed (buf : list Z) (len : Z) (old : list Z) : list Z :=
  let b := [0; VIRTIO_NET_HDR_GSO_NONE] ++ drop 2 old in
  take 10 b ++ take (Z.to_nat len) buf ++ drop (Z.to_nat (HEADER + len)) b.

Lemma framed_spec buf len old : take 10 old = replicate 10 0 -> length old = 1510%nat ->
  0 <= len <= 1500 -> len <= Z.of_nat (length buf) ->
  take 10 (framed buf len old) = replicate 10 0 /\ length (framed buf len old) = 1510%nat /\
  take (Z.to_nat (HEADER + len)) (framed buf len old) = frame_of (take (Z.to_nat len) buf).
Proof.
  intros H10 Hl Hlen Hbuf. unfold framed, HEADER. set (b := _ ++ drop 2 old).
  assert (take 10 b = replicate 10 0) as Hb10.
  { unfold b. destruct old as [|x0 [|x1 old]]; [done|done|]. injection H10 as -> -> H10. cbn [drop app take replicate]. do 2 f_equal. exact H10. }
  assert (length b = 1510%nat) as Hbl by (unfold b; rewrite length_app, length_drop; cbn; lia).
  rewrite Hb10. split; [by rewrite take_app_length' by done|]. split.
  - rewrite !length_app, length_replicate, length_take, length_drop. lia.
  - rewrite app_assoc. rewrite take_app_length'; [done|]. rewrite length_app, length_replicate, length_take. lia.
Qed.

Lemma frame_length pkt : Z.of_nat (length (frame_of pkt)) = HEADER + Z.of_nat (length pkt).
Proof. unfold frame_of. rewrite length_app, length_replicate. unfold HEADER. lia. Qed.

(** The packets that wait keep their descriptors and buffers. *)
Lemma tx_slot_other D m b id j dd l pkt : 0 <= j -> 0 <= id -> j <> id -> Z.of_nat (length l) <= BUFFER_LEN ->
  tx_slot D m b j pkt -> tx_slot (<[Z.to_nat id := dd]> D) (mwrite (buf_addr b id) l m) b j pkt.
Proof.
  intros Hj Hid Hne Hl (D1 & D2 & D3). split; [rewrite list_lookup_insert_ne by lia; done|]. split; [|done].
  rewrite mread_mwrite_disjoint; [done|]. destruct (buf_disjoint b j id (HEADER + Z.of_nat (length pkt))) as [?|?];
    [done|unfold HEADER, BUFFER_LEN; lia|by left|right; lia].
Qed.

Lemma send_ok s dt acc T qs n nr C pending done buf len :
  tx_inv s dt acc T qs n nr C pending done -> 0 <= len <= 1500 -> len <= Z.of_nat (length buf) ->
  exists r s' C' pending' done', send buf len s = Some (r, s') /\ receive_queue s' = receive_queue s /\
    (forall a k, a + k <= buf_addr (BUFFER_LEN * nr) 0 -> mread (bufs s') a k = mread (bufs s) a k) /\
    ((r = len /\ tx_inv s' dt (acc ++ [take (Z.to_nat len) buf]) T qs n nr C' pending' done') \/
     (r = -1 /\ done = [] /\ tx_inv s' dt acc T qs n nr C' pending' done')).
Proof.
  intros [Hq Hn Hd Hdat HT [Hh1 Hh2]] Hlen Hbuf. unfold send.
  rewrite (proj2 (Z.ltb_ge len 0)), (proj2 (Z.ltb_ge 1500 len)) by lia. cbn [orb].
  fold (framed buf len (buffer s)). destruct (framed_spec buf len (buffer s) Hh1 Hh2 Hlen Hbuf) as (F1 & F2 & F3).
  set (b := framed _ _ _) in *. set (s1 := set_buffer b s). unfold queue_send. change (transmit_queue s1) with (transmit_queue s).
  destruct done as [|e rest].
  - rewrite (pop_empty _ _ _ _ _ _ _ _ _ Hq eq_refl), mbind_Some. rewrite Z.eqb_refl, mbind_Some.
    eexists (-1), _, C, pending, []. split; [done|]. split; [done|]. split; [done|]. right. split; [done|]. split; [done|]. by split.
  - destruct (pop_first _ _ _ _ _ _ _ _ _ Hq e rest eq_refl) as (Ep & Hid & Hq1). rewrite Ep, mbind_Some.
    set (q1 := set_cur _ _) in *. set (id := u_id e) in *.
    destruct (qi_n _ _ _ _ _ _ _ _ _ Hq) as [Hn1 _]. rewrite (proj2 (Z.eqb_neq id 0xffff)) by lia.
    destruct (Hd id Hid) as [len0 Hdesc]. change (desc q1) with (desc (transmit_queue s)). rewrite Hdesc, mbind_Some.
    cbn [d_addr d_flags d_next]. rewrite (wrap_small 32 (HEADER + len)) by (unfold is_uint, HEADER; lia).
    set (D := <[_ := _]> (desc _)).
    destruct (add_held _ _ _ _ _ _ _ _ _ Hq1 id [] eq_refl) as (q2 & Ea & Ed2 & _ & Hq2).
    assert (add_avail id (set_desc D q1) = Some (set_desc D q2)) as Ea'.
    { unfold add_avail in Ea |- *. cbn [avail_idx queue_size avail_ring set_desc]. case_if; [|done]. by injection Ea as <-. }
    rewrite Ea', mbind_Some, mbind_Some. cbn [fst snd].
    eexists len, _, (C + 1), (pending ++ [id]), rest. split; [done|]. split; [done|].
    cbn [bufs receive_queue transmit_queue set_transmit_queue write set_device set_bufs]. rewrite F3.
    assert (Z.of_nat (length (take (Z.to_nat len) buf)) = len) as Hlt by (rewrite length_take; lia).
    split.
    { intros a k Ha. rewrite mread_mwrite_disjoint; [done|]. left. unfold buf_addr, BUFFER_LEN in *. lia. }
    left. split; [done|]. split.
    + destruct Hq2. by split.
    + done.
    + intros i Hi. cbn [transmit_queue write set_device set_transmit_queue desc set_desc]. unfold D.
      destruct (decide (i = id)) as [->|Hne].
      * rewrite list_lookup_insert_eq by (by eapply lookup_lt_Some). by eexists.
      * rewrite list_lookup_insert_ne by lia. by apply Hd.
    + cbn [transmit_queue bufs write set_device set_transmit_queue set_bufs desc set_desc].
      rewrite drop_app_le by done. apply Forall2_app.
      * eapply Forall2_impl_in; [exact Hdat|]. intros j pkt Hj _. apply tx_slot_other.
        -- eapply q_ids; [exact Hq|by left].
        -- lia.
        -- eapply q_held_ne; [exact Hq1|left|by left].
        -- rewrite frame_length, Hlt. unfold HEADER, BUFFER_LEN. lia.
      * constructor; [|constructor]. split; [unfold D; rewrite list_lookup_insert_eq by (by eapply lookup_lt_Some); by rewrite Hlt|].
        split; [|lia]. rewrite <- frame_length. apply mread_mwrite_same.
    + rewrite length_app. lia.
    + done.
Qed.

Lemma drop_cons {A} (l : list A) k x r : drop k l = x :: r -> l !! k = Some x /\ drop (S k) l = r.
Proof.
  revert k. induction l as [|y l IH]; intros [|k]; cbn; try done; [by intros [= -> ->]|apply IH].
Qed.

Lemma dev_tx_ok s dt acc T qs n nr C pending done : tx_inv s dt acc T qs n nr C pending done ->
  (drop T acc = [] /\ dev_tx s dt = None) \/
  (exists pkt rest dt' pending', drop T acc = pkt :: rest /\ dev_tx s dt = Some (frame_of pkt, dt') /\
    tx_inv s dt' acc (S T) qs n nr C pending' done).
Proof.
  intros [Hq Hn Hd Hdat HT Hh]. unfold dev_tx. remember (drop T acc) as rest eqn:Er. destruct Hdat as [|id pkt pending rest Hs Hdat].
  - left. split; [done|]. by rewrite (take_empty _ _ _ _ _ _ _ _ _ Hq).
  - right. destruct (take_first _ _ _ _ _ _ _ _ _ Hq id pending eq_refl) as (dt' & E & _ & Hq').
    destruct Hs as (S1 & S2 & S3). symmetry in Er. apply drop_cons in Er as [El Er].
    exists pkt, rest, dt', pending. split; [done|]. split.
    + rewrite E, mbind_Some, S1, mbind_Some. cbn [d_addr d_len]. by rewrite S2.
    + split; try done.
      * by replace (Z.of_nat (S T)) with (Z.of_nat T + 1) by lia.
      * by rewrite Er.
      * apply lookup_lt_Some in El. lia.
Qed.

Lemma dev_tx_done_ok i s dt acc T qs n nr C pending done s' dt' : tx_inv s dt acc T qs n nr C pending done ->
  dev_tx_done i s dt = Some (s', dt') -> bufs s' = bufs s /\ receive_queue s' = receive_queue s /\
  exists done', tx_inv s' dt' acc T qs n nr C pending done'.
Proof.
  intros [Hq Hn Hd Hdat HT Hh] E. unfold dev_tx_done in E. destruct (taken dt !! i) as [id|] eqn:Ei.
  - destruct (return_at _ _ _ _ _ _ _ _ _ Hq i id 0 Ei) as (q' & dt1 & Er & Ed & _ & _ & Hq').
    rewrite Er, mbind_Some in E. injection E as <- <-. split; [done|]. split; [done|].
    eexists. split; try done; cbn [transmit_queue set_transmit_queue]; by rewrite Ed.
  - unfold dev_return in E. by rewrite Ei in E.
Qed.

(** ** Receiving *)

Lemma dev_rx_take_ok s dr d R qs n T pending done id dr' : rx_inv s dr d R qs n T pending done ->
  dev_take (receive_queue s) dr = Some (id, dr') -> exists T' pending', rx_inv s dr' d R qs n T' pending' done.
Proof.
  intros [Hq Hd Hdat HR] E. destruct pending as [|id0 rest].
  - by rewrite (take_empty _ _ _ _ _ _ _ _ _ Hq) in E.
  - destruct (take_first _ _ _ _ _ _ _ _ _ Hq id0 rest eq_refl) as (dt' & E' & _ & Hq'). rewrite E in E'. injection E' as -> ->.
    exists (T + 1), rest. by split.
Qed.

Lemma rx_slot_other m id l e pkt : u_id e <> id -> Z.of_nat (length l) <= BUFFER_LEN ->
  rx_slot m e pkt -> rx_slot (mwrite (buf_addr 0 id) l m) e pkt.
Proof.
  intros Hne Hl (D1 & D2 & D3). split; [done|]. split; [|done]. rewrite mread_mwrite_disjoint; [done|].
  unfold buf_addr, BUFFER_LEN, HEADER in *. lia.
Qed.

Lemma dev_deliver_ok i hdr pkt s dr d R qs n T pending done s' dr' : rx_inv s dr d R qs n T pending done ->
  dev_rx i hdr pkt s dr = Some (s', dr') ->
  transmit_queue s' = transmit_queue s /\ buffer s' = buffer s /\
  (forall a k, buf_addr 0 n <= a -> mread (bufs s') a k = mread (bufs s) a k) /\
  exists done', rx_inv s' dr' (d ++ [pkt]) R qs n T pending done'.
Proof.
  intros [Hq Hd Hdat HR] E. unfold dev_rx in E. destruct (_ || _) eqn:Hc in E; [done|]. bprop.
  destruct (taken dr !! i) as [id|] eqn:Ei; [|done]. rewrite mbind_Some in E.
  assert (0 <= id < n) as Hid. { eapply q_ids; [exact Hq|]. right. left. by eapply list_elem_of_lookup_2. }
  rewrite (Hd id Hid), mbind_Some in E.
  destruct (return_at _ _ _ _ _ _ _ _ _ Hq i id (Z.of_nat (length (hdr ++ pkt))) Ei) as (q' & dr1 & Er & Ed & _ & _ & Hq').
  rewrite Er, mbind_Some in E. injection E as <- <-. cbn [d_addr]. split; [done|]. split; [done|].
  split.
  { intros a k Ha. cbn [bufs set_bufs]. rewrite mread_mwrite_disjoint; [done|]. unfold buf_addr, BUFFER_LEN in *. lia. }
  assert (forall e, e ∈ done -> u_id e <> id) as Hne.
  { intros e He Eid. pose proof (q_nodup _ _ _ _ _ _ _ _ _ Hq) as Hnd. rewrite !NoDup_app in Hnd.
    destruct Hnd as (_ & _ & _ & N2 & _). apply (N2 id); [by eapply list_elem_of_lookup_2|].
    apply elem_of_app. left. rewrite <- Eid. by apply list_elem_of_fmap_2. }
  eexists. split.
  - exact Hq'.
  - cbn [receive_queue set_bufs set_receive_queue]. by rewrite Ed.
  - cbn [bufs set_bufs]. rewrite drop_app_le by done. apply Forall2_app.
    + eapply Forall2_impl_in; [exact Hdat|]. intros e p He _ Hs. apply rx_slot_other; [by apply Hne|lia|done].
    + constructor; [|constructor]. rewrite length_app in *. unfold HEADER, BUFFER_LEN in *.
      split; [cbn; unfold HEADER; lia|]. split; [|unfold HEADER, BUFFER_LEN; lia]. cbn [u_id].
      replace (buf_addr 0 id + HEADER) with (buf_addr 0 id + Z.of_nat (length hdr)) by (unfold HEADER; lia).
      apply mread_mwrite_app.
  - rewrite length_app. lia.
Qed.

Lemma receive_ok s dr d R qs n T pending done : rx_inv s dr d R qs n T pending done ->
  exists r bytes s', receive s = Some (r, bytes, s') /\ transmit_queue s' = transmit_queue s /\ buffer s' = buffer s /\
    bufs s' = bufs s /\
    ((drop R d = [] /\ r = -1 /\ bytes = [] /\ rx_inv s' dr d R qs n T pending done) \/
     (exists pkt rest pending' done', drop R d = pkt :: rest /\ r = HEADER + Z.of_nat (length pkt) /\ bytes = pkt /\
        rx_inv s' dr d (S R) qs n T pending' done')).
Proof.
  intros [Hq Hd Hdat HR]. unfold receive, queue_recv. set (s1 := write _ _ s).
  change (receive_queue s1) with (receive_queue s). remember (drop R d) as rest eqn:Er.
  destruct Hdat as [|e pkt done rest Hs Hdat].
  - rewrite (pop_empty _ _ _ _ _ _ _ _ _ Hq eq_refl), mbind_Some. rewrite Z.eqb_refl.
    eexists _, _, _. split; [done|]. split; [done|]. split; [done|]. split; [done|]. left. split; [done|]. split; [done|]. split; [done|].
    split; try done. by rewrite <- Er.
  - destruct (pop_first _ _ _ _ _ _ _ _ _ Hq e done eq_refl) as (Ep & Hid & Hq1). rewrite Ep, mbind_Some.
    destruct Hs as (S1 & S2 & S3). destruct (qi_n _ _ _ _ _ _ _ _ _ Hq) as [Hn1 _].
    rewrite (proj2 (Z.eqb_neq (u_id e) 0xffff)) by lia. rewrite S1, (proj2 (Z.ltb_ge _ HEADER)) by lia.
    set (q1 := set_cur _ _) in *. change (desc q1) with (desc (receive_queue s)). rewrite (Hd _ Hid), mbind_Some.
    destruct (add_held _ _ _ _ _ _ _ _ _ Hq1 (u_id e) [] eq_refl) as (q2 & Ea & Ed2 & _ & Hq2).
    rewrite Ea, mbind_Some. symmetry in Er. apply drop_cons in Er as [El Er].
    eexists _, _, _. split; [done|]. split; [done|]. split; [done|]. split; [done|]. right.
    eexists pkt, rest, _, done. split; [done|]. split; [|split].
    + apply swrap_small; [lia|]. unfold HEADER, BUFFER_LEN in *. cbn. lia.
    + cbn [d_addr bufs set_receive_queue]. change (bufs s1) with (bufs s).
      replace (HEADER + Z.of_nat (length pkt) - HEADER) with (Z.of_nat (length pkt)) by lia. exact S2.
    + split.
      * replace (Z.of_nat (S R)) with (Z.of_nat R + 1) by lia. exact Hq2.
      * cbn [receive_queue set_receive_queue]. by rewrite Ed2.
      * by rewrite Er.
      * apply lookup_lt_Some in El. lia.
Qed.

(** ** Traces *)

Definition sys_inv (y : sys) (tr : list event) : Prop := exists qt nt qr nr C pt dt T pr dr,
  tx_inv (drv y) (dtx y) (accepted tr) (length (sent tr)) qt nt nr C pt dt /\
  sent tr = frame_of <$> take (length (sent tr)) (accepted tr) /\
  rx_inv (drv y) (drx y) (delivered tr) (length (received tr)) qr nr T pr dr /\
  received tr = take (length (received tr)) (delivered tr).

Lemma started_queues y : started y -> sys_inv y [].
Proof.
  intros (m & mm & rb & mb & b & s & E & ->).
  destruct (init_queues_ok m mm rb mb b) as (s' & nr & nt & qr & qt & E' & _ & Hbuf & Hnr & R1 & R2).
  rewrite E in E'. injection E' as <-. destruct R1 as [N1 I1 Q1 D1], R2 as [N2 I2 Q2 D2].
  eexists qt, nt, qr, nr, _, _, _, _, _, _. split; [|split; [done|split; [|done]]].
  - split; [exact Q2|done| |constructor|done|].
    + intros i Hi. eexists. rewrite D2 by done. done.
    + cbn [drv]. rewrite Hbuf. done.
  - split; [exact Q1|done|constructor|done].
Qed.

Lemma prefix_fmap_snoc {A B} (f : A -> B) (l : list A) (p : list B) x rest : p = f <$> take (length p) l ->
  drop (length p) l = x :: rest -> p ++ [f x] = f <$> take (length (p ++ [f x])) l.
Proof.
  intros Hp Hd. apply drop_cons in Hd as [Hx _]. rewrite length_app. cbn [length].
  rewrite Nat.add_1_r, (take_S_r _ _ x) by done. rewrite fmap_app. cbn. by rewrite <- Hp.
Qed.

Lemma prefix_fmap_grow {A B} (f : A -> B) (l : list A) (p : list B) x : (length p <= length l)%nat ->
  p = f <$> take (length p) l -> p = f <$> take (length p) (l ++ [x]).
Proof. intros Hle Hp. by rewrite take_app_le. Qed.

Lemma accepted_snoc tr e : accepted (tr ++ [e]) = accepted tr ++ match e with Accepted p => [p] | _ => [] end.
Proof. unfold accepted. rewrite omap_app. by destruct e. Qed.
Lemma sent_snoc tr e : sent (tr ++ [e]) = sent tr ++ match e with Sent p => [p] | _ => [] end.
Proof. unfold sent. rewrite omap_app. by destruct e. Qed.
Lemma delivered_snoc tr e : delivered (tr ++ [e]) = delivered tr ++ match e with Delivered p => [p] | _ => [] end.
Proof. unfold delivered. rewrite omap_app. by destruct e. Qed.
Lemma received_snoc tr e : received (tr ++ [e]) = received tr ++ match e with Received p => [p] | _ => [] end.
Proof. unfold received. rewrite omap_app. by destruct e. Qed.

Ltac snoc := rewrite ?accepted_snoc, ?sent_snoc, ?delivered_snoc, ?received_snoc; cbv beta iota; rewrite ?app_nil_r.

Lemma sys_inv_send s dt dr tr buf len r s' : sys_inv (mkSys s dt dr) tr -> len <= Z.of_nat (length buf) ->
  send buf len s = Some (r, s') -> sys_inv (mkSys s' dt dr) (tr ++ [if r =? -1 then Refused else Accepted (take (Z.to_nat len) buf)]).
Proof.
  intros (qt & nt & qr & nr & C & pt & dnt & T & pr & dnr & Htx & Hs & Hrx & Hr) Hbuf E. cbn [drv dtx drx] in *.
  destruct ((len <? 0) || (1500 <? len)) eqn:Hlen.
  { unfold send in E. rewrite Hlen in E. injection E as <- <-. exists qt, nt, qr, nr, C, pt, dnt, T, pr, dnr. by snoc. }
  bprop. destruct (send_ok s dt _ _ qt nt nr C pt dnt buf len Htx) as (r' & s1 & C' & pt' & dnt' & E' & Q1 & Hm & Hcase); [lia|done|].
  rewrite E in E'. injection E' as <- <-.
  assert (rx_inv s' dr (delivered tr) (length (received tr)) qr nr T pr dnr) as Hrx'.
  { apply (rx_queue_keep s); try done. intros id k Hid Hk. apply Hm. unfold buf_addr, HEADER, BUFFER_LEN in *. lia. }
  destruct Hcase as [[-> Htx']|(-> & _ & Htx')].
  - rewrite (proj2 (Z.eqb_neq len (-1))) by lia. exists qt, nt, qr, nr, C', pt', dnt', T, pr, dnr. snoc.
    split; [done|]. split; [|done]. apply prefix_fmap_grow; [apply Htx|done].
  - rewrite Z.eqb_refl. exists qt, nt, qr, nr, C', pt', dnt', T, pr, dnr. by snoc.
Qed.

Lemma sys_inv_receive s dt dr tr r pkt s' : sys_inv (mkSys s dt dr) tr -> receive s = Some (r, pkt, s') ->
  sys_inv (mkSys s' dt dr) (tr ++ [if r =? -1 then Nothing else Received pkt]).
Proof.
  intros (qt & nt & qr & nr & C & pt & dnt & T & pr & dnr & Htx & Hs & Hrx & Hr) E. cbn [drv dtx drx] in *.
  destruct (receive_ok s dr _ _ qr nr T pr dnr Hrx) as (r' & bytes & s1 & E' & Q1 & Q2 & Q3 & Hcase).
  rewrite E in E'. injection E' as <- <- <-.
  assert (tx_inv s' dt (accepted tr) (length (sent tr)) qt nt nr C pt dnt) as Htx'.
  { apply (tx_queue_keep s); try done. intros. by rewrite Q3. }
  destruct Hcase as [(_ & -> & _ & Hrx')|(p & rest & pr' & dnr' & Ed & -> & -> & Hrx')].
  - rewrite Z.eqb_refl. exists qt, nt, qr, nr, C, pt, dnt, T, pr, dnr. by snoc.
  - rewrite (proj2 (Z.eqb_neq _ (-1))) by (unfold HEADER; lia). exists qt, nt, qr, nr, C, pt, dnt, T, pr', dnr'. snoc.
    split; [done|]. split; [done|]. split.
    + cbn [drv drx]. rewrite length_app. cbn [length]. by replace (length (received tr) + 1)%nat with (S (length (received tr))) by lia.
    + rewrite <- (list_fmap_id (delivered tr)) at 1. rewrite <- fmap_take.
      apply (prefix_fmap_snoc id (delivered tr) (received tr) p rest); [|done]. by rewrite list_fmap_id.
Qed.

Lemma sys_inv_step y tr e y' : sys_inv y tr -> step y e y' -> sys_inv y' (tr ++ [e]).
Proof.
  intros Hinv Hstep. destruct Hstep as [s dt dr buf len r s' Hb E|s dt dr r pkt s' E|s dt dr frame dt' E|i s dt dr s' dt' E
    |s dt dr id dr' E|i hdr pkt s dt dr s' dr' E].
  - by eapply sys_inv_send.
  - by eapply sys_inv_receive.
  - destruct Hinv as (qt & nt & qr & nr & C & pt & dnt & T & pr & dnr & Htx & Hs & Hrx & Hr). cbn [drv dtx drx] in *.
    destruct (dev_tx_ok s dt _ _ qt nt nr C pt dnt Htx) as [[_ E']|(pkt & rest & dt1 & pt' & Ed & E' & Htx')]; rewrite E in E'; [done|].
    injection E' as -> ->. exists qt, nt, qr, nr, C, pt', dnt, T, pr, dnr. snoc. split; [|split; [by eapply prefix_fmap_snoc|done]].
    cbn [drv dtx]. rewrite length_app. cbn [length]. by replace (length (sent tr) + 1)%nat with (S (length (sent tr))) by lia.
  - destruct Hinv as (qt & nt & qr & nr & C & pt & dnt & T & pr & dnr & Htx & Hs & Hrx & Hr). cbn [drv dtx drx] in *.
    destruct (dev_tx_done_ok i s dt _ _ qt nt nr C pt dnt s' dt' Htx E) as (Q1 & Q2 & dnt' & Htx').
    exists qt, nt, qr, nr, C, pt, dnt', T, pr, dnr. snoc. split; [done|]. split; [done|]. split; [|done].
    apply (rx_queue_keep s); try done. intros. cbn [drv]. by rewrite Q1.
  - destruct Hinv as (qt & nt & qr & nr & C & pt & dnt & T & pr & dnr & Htx & Hs & Hrx & Hr). cbn [drv dtx drx] in *.
    destruct (dev_rx_take_ok s dr _ _ qr nr T pr dnr id dr' Hrx E) as (T' & pr' & Hrx').
    exists qt, nt, qr, nr, C, pt, dnt, T', pr', dnr. by snoc.
  - destruct Hinv as (qt & nt & qr & nr & C & pt & dnt & T & pr & dnr & Htx & Hs & Hrx & Hr). cbn [drv dtx drx] in *.
    destruct (dev_deliver_ok i hdr pkt s dr _ _ qr nr T pr dnr s' dr' Hrx E) as (Q1 & Q2 & Hm & dnr' & Hrx').
    exists qt, nt, qr, nr, C, pt, dnt, T, pr, dnr'. snoc. split; [|split; [done|split; [done|]]].
    + apply (tx_queue_keep s); try done. intros id k Hid Hk. apply Hm. unfold buf_addr, BUFFER_LEN. lia.
    + rewrite take_app_le by apply Hrx. done.
Qed.

Lemma trace_inv y0 tr y : started y0 -> trace y0 tr y -> sys_inv y tr.
Proof. intros H0. induction 1; [by apply started_queues|by eapply sys_inv_step]. Qed.

Lemma started_ok m mm rb mb b : exists s, init_queues (vnet_static (M:=M) m mm rb mb b) = Some s /\
  started (mkSys s (mkDevq 0 []) (mkDevq 0 [])).
Proof.
  destruct (init_queues_ok m mm rb mb b) as (s & _ & _ & _ & _ & E & _). exists s. split; [exact E|].
  by exists m, mm, rb, mb, b, s.
Qed.

(** C25: In every interleaving, with a device that returns descriptors in any
    order, the device sends exactly the accepted packets behind an empty header,
    complete, unchanged and in order; it has work exactly while some wait, and a
    packet of legal length is refused only when the device holds all
    descriptors. *)
Theorem virtio_tx_fifo y0 tr y :
  started y0 -> trace y0 tr y ->
  exists waiting, frame_of <$> accepted tr = sent tr ++ (frame_of <$> waiting) /\
    match waiting with
    | pkt :: _ => exists dt, dev_tx (drv y) (dtx y) = Some (frame_of pkt, dt)
    | [] => dev_tx (drv y) (dtx y) = None
    end /\
    (forall buf len, 0 <= len <= 1500 -> len <= Z.of_nat (length buf) ->
      exists r s', send buf len (drv y) = Some (r, s') /\
        (r = len \/ (r = -1 /\
          Z.of_nat (length waiting + length (taken (dtx y))) = Z.min 128 (queue_size (transmit_queue (drv y)))))).
Proof.
  intros H0 Htr. destruct (trace_inv _ _ _ H0 Htr) as (qt & nt & qr & nr & C & pt & dnt & T & pr & dnr & Htx & Hs & _ & _).
  exists (drop (length (sent tr)) (accepted tr)). split; [|split].
  - rewrite Hs at 1. rewrite <- fmap_app, take_drop. done.
  - destruct (dev_tx_ok _ _ _ _ qt nt nr C pt dnt Htx) as [[-> E]|(pkt & rest & dt' & pt' & -> & E & _)]; [done|by eexists].
  - intros buf len Hlen Hbuf.
    destruct (send_ok _ _ _ _ qt nt nr C pt dnt buf len Htx Hlen Hbuf) as (r & s' & C' & pt' & dnt' & E & _ & _ & Hcase).
    exists r, s'. split; [done|]. destruct Hcase as [[-> _]|(-> & Hd & _)]; [by left|right]. split; [done|].
    destruct Htx as [Hq Hn _ Hdat _ _]. rewrite <- (Forall2_length _ _ _ Hdat).
    pose proof (q_count _ _ _ _ _ _ _ _ _ Hq) as Hc. rewrite Hd in Hc. cbn [length] in Hc.
    rewrite (qi_size _ _ _ _ _ _ _ _ _ Hq). destruct (qi_n _ _ _ _ _ _ _ _ _ Hq). lia.
Qed.

(** C26: In every interleaving the driver receives exactly the packets the
    device delivered, without their headers, complete, unchanged and in order; a
    call returns the oldest one while one waits, with a length that counts the
    10 bytes of the header, and -1 otherwise, without a fault. *)
Theorem virtio_rx_fifo y0 tr y :
  started y0 -> trace y0 tr y ->
  exists waiting, delivered tr = received tr ++ waiting /\
    match waiting with
    | pkt :: _ => exists s', receive (drv y) = Some (HEADER + Z.of_nat (length pkt), pkt, s')
    | [] => exists s', receive (drv y) = Some (-1, [], s')
    end.
Proof.
  intros H0 Htr. destruct (trace_inv _ _ _ H0 Htr) as (qt & nt & qr & nr & C & pt & dnt & T & pr & dnr & _ & _ & Hrx & Hr).
  exists (drop (length (received tr)) (delivered tr)). split; [rewrite Hr at 1; by rewrite take_drop|].
  destruct (receive_ok _ _ _ _ qr nr T pr dnr Hrx) as (r & bytes & s' & E & _ & _ & _ & Hcase).
  destruct Hcase as [(-> & -> & -> & _)|(pkt & rest & pr' & dnr' & -> & -> & -> & _)]; by exists s'.
Qed.
End system.

(** ** Witnesses: a device with queues of 256 *)

#[export] Instance example_regs : VirtioRegs unit :=
  {| vio_read := fun _ _ size _ => (if size =? 2 then 256 else 0, tt); vio_write := fun _ _ _ _ _ => tt |}.

#[export] Instance example_sizes : QueueSizes unit.
Proof. intros s. exists 8. split; [lia|reflexivity]. Qed.

#[export] Instance example_pools : PoolLayout :=
  {| queue_memory_pool := 0x400000; queue_buffer_pool := 0x500000; mmio := 0x600000 |}.

Lemma virtio_tx_fifo_witness :
  exists y0 y waiting, trace (M:=unit) y0 [Accepted [7; 8; 9]] y /\ [frame_of [7; 8; 9]] = [] ++ (frame_of <$> waiting).
Proof.
  destruct (started_ok tt false 0xc000 0 ∅) as (s & _ & H0). pose proof (started_queues _ H0) as Hinv.
  destruct Hinv as (qt & nt & qr & nr & C & pt & dnt & T & pr & dnr & Htx & _).
  pose proof (virtio_tx_fifo _ _ _ H0 (trace_nil _)) as (w & Ew & _ & Hsend).
  destruct (Hsend [7; 8; 9] 3) as (r & s' & E & Hcase); [lia|cbn; lia|]. cbn [drv] in E.
  assert (r = 3) as ->.
  { destruct Hcase as [?|(_ & Hfull)]; [done|]. destruct w as [|p w]; [|discriminate Ew]. cbn [length drv dtx taken] in Hfull.
    destruct Htx as [Hq Hn _ _ _ _]. cbn [drv] in Hq. rewrite (qi_size _ _ _ _ _ _ _ _ _ Hq) in Hfull.
    destruct (qi_n _ _ _ _ _ _ _ _ _ Hq). cbn in Hfull. lia. }
  exists (mkSys s (mkDevq 0 []) (mkDevq 0 [])), (mkSys s' (mkDevq 0 []) (mkDevq 0 [])).
  assert (trace (mkSys s (mkDevq 0 []) (mkDevq 0 [])) [Accepted [7; 8; 9]] (mkSys s' (mkDevq 0 []) (mkDevq 0 []))) as Htr.
  { apply (trace_snoc _ [] _ (Accepted [7; 8; 9]) _ (trace_nil _)).
    apply (step_send s _ _ [7; 8; 9] 3 3 s'); [cbn; lia|exact E]. }
  destruct (virtio_tx_fifo _ _ _ H0 Htr) as (w' & Ew' & _). exists w'. split; [exact Htr|exact Ew'].
Defined.

Lemma dev_rx_works (s : vnet unit) dr d R qs n T pending done i id hdr pkt : rx_inv s dr d R qs n T pending done ->
  taken dr !! i = Some id -> length hdr = 10%nat -> Z.of_nat (length (hdr ++ pkt)) <= BUFFER_LEN ->
  exists s' dr', dev_rx i hdr pkt s dr = Some (s', dr').
Proof.
  intros [Hq Hd _ _] Hi Hh Hl. unfold dev_rx. rewrite Hh. change (negb (_ =? HEADER)) with false.
  rewrite (proj2 (Z.ltb_ge _ _)) by done. cbn [orb]. rewrite Hi, mbind_Some.
  rewrite Hd, mbind_Some by (eapply q_ids; [exact Hq|]; right; left; by eapply list_elem_of_lookup_2).
  destruct (return_at _ _ _ _ _ _ _ _ _ Hq i id (Z.of_nat (length (hdr ++ pkt))) Hi) as (q' & dr' & -> & _).
  rewrite mbind_Some. by eexists _, _.
Qed.

Lemma virtio_rx_fifo_witness :
  exists y0 y waiting, trace (M:=unit) y0 [Taken; Delivered [7; 8; 9]] y /\ [[7; 8; 9]] = [] ++ waiting.
Proof.
  destruct (init_queues_ok tt false 0xc000 0 ∅) as (s & nr & nt & qr & qt & Es & _ & _ & Hnr & R1 & _).
  assert (started (mkSys s (mkDevq 0 []) (mkDevq 0 []))) as H0
    by (exists tt, false, 0xc000, 0, ∅, s; split; [exact Es|reflexivity]).
  assert (rx_inv s (mkDevq 0 []) [] 0 qr nr 0 (seqZ 0 nr) []) as Hrx.
  { destruct R1 as [N1 I1 Q1 D1]. split; [exact Q1|exact D1|constructor|done]. }
  destruct (qi_n _ _ _ _ _ _ _ _ _ (ri_queue _ _ _ _ _ _ _ _ _ Hrx)) as [Hn1 _].
  destruct (take_first _ _ _ _ _ _ _ _ _ (ri_queue _ _ _ _ _ _ _ _ _ Hrx) 0 (seqZ 1 (nr - 1))) as (dr & Et & Ek & _).
  { rewrite seqZ_cons by lia. done. }
  destruct (dev_rx_take_ok s _ _ _ _ _ _ _ _ 0 dr Hrx Et) as (T' & p' & Hrx').
  destruct (dev_rx_works s dr _ _ _ _ _ _ _ 0 0 (replicate 10 0) [7; 8; 9] Hrx') as (s' & dr' & Ed).
  { by rewrite Ek. }
  { done. }
  { unfold BUFFER_LEN. cbn. lia. }
  exists (mkSys s (mkDevq 0 []) (mkDevq 0 [])), (mkSys s' (mkDevq 0 []) dr').
  assert (trace (mkSys s (mkDevq 0 []) (mkDevq 0 [])) [Taken; Delivered [7; 8; 9]] (mkSys s' (mkDevq 0 []) dr')) as Htr.
  { apply (trace_snoc _ [Taken] (mkSys s (mkDevq 0 []) dr)).
    - apply (trace_snoc _ [] _ Taken _ (trace_nil _)). apply (step_dev_rx_take s _ _ 0 dr). exact Et.
    - apply (step_dev_rx 0 (replicate 10 0) [7; 8; 9] s _ dr). exact Ed. }
  destruct (virtio_rx_fifo _ _ _ H0 Htr) as (w & Ew & _). exists w. split; [exact Htr|exact Ew].
Defined.
