(* ===== verification/Judger.v ===== *)
(** * kern/judger.cpp: running submissions

    The judger owns one buffer, addressed by offsets, two object caches and the
    result of the last request. Loading and running a program is an interface:
    pointers into the buffer become the bytes they point to. *)

From S2P Require Import Prelude ByteMem Utils Memory DuckCache.

(** ** Data *)

Record JudgeStatistics := mkStatistics { st_n_judges : Z; st_total_time_ns : Z }.

Record BufferDesc := mkBuffer { off : Z; blen : Z }.

Record JudgeRequest := mkRequest {
  seq_num : Z; time_limit_ns : Z; memory_hard_limit_kb : Z;
  rq_ELF : BufferDesc; rq_stdin : BufferDesc; rq_stdout : BufferDesc; rq_stderr : BufferDesc;
  rq_IB : BufferDesc; rq_OB : BufferDesc; rq_OB_need_clear : Z
}.

Record JudgeResult := mkResult {
  error : option string; count_inst : Z; clk_thread : Z; clk_ref_tsc : Z; time_ns : Z; time_ns_ref_tsc : Z;
  time_ns_real : Z; time_tsc : Z; memory_kb : Z; memory_kb_accessed : Z; stdout_size : Z; stderr_size : Z;
  return_code : Z; trap_num : Z; trap_epc : Z; trap_cr2 : Z; is_RE : bool; is_TLE : bool
}.

(** ELF::AppConfig with the bytes behind its pointers. *)
Record AppConfig := mkConfig {
  memory_hard_limit : Z; c_stdin : list Z; stdin_size : Z; stdout_max_size : Z; stderr_max_size : Z;
  c_IB : list Z; IB_size : Z; c_OB : list Z; OB_size : Z; OB_need_clear : bool
}.

(** ELF::RunResult with the bytes behind its pointers. *)
Record RunResult := mkRun {
  r_count_inst : Z; r_clk_thread : Z; r_clk_ref_tsc : Z; r_time_tsc : Z; r_time_ns : Z; r_time_ns_ref_tsc : Z;
  r_time_ns_real : Z; r_memory_kb : Z; r_memory_kb_accessed : Z; r_trap_num : Z; r_return_code : Z; r_trap_epc : Z;
  r_trap_cr2 : Z; r_stdout : list Z; r_stdout_size : Z; r_stderr : list Z; r_stderr_size : Z; r_OB : list Z
}.

(** ELF::load and ELF::run on a machine. *)
Class Elf (E A : Type) := {
  elf_load : list Z -> Z -> AppConfig -> E -> option A * E;
  elf_run : A -> Z -> E -> RunResult * E
}.

Record judger (E : Type) := mkJudger {
  n_judges : Z;
  total_time_ns : Z;
  buffer : bytemem;
  buffer_size : Z;
  elf_cache : DuckCache;
  data_cache : DuckCache;
  judge_seq_num : Z;
  judge_result : JudgeResult;
  judge_result_cleared : bool;
  machine : E
}.
Arguments mkJudger {E}.
Arguments n_judges {E} _.
Arguments total_time_ns {E} _.
Arguments buffer {E} _.
Arguments buffer_size {E} _.
Arguments elf_cache {E} _.
Arguments data_cache {E} _.
Arguments judge_seq_num {E} _.
Arguments judge_result {E} _.
Arguments judge_result_cleared {E} _.
Arguments machine {E} _.

Definition INITIAL_BUFFER_SIZE : Z := 3072 * 2 ^ 20.
Definition INITIAL_BUFFER_SIZE_SMALL : Z := 512 * 2 ^ 20.
Definition ELF_CACHE_N : Z := 1000.
Definition ELF_CACHE_SIZE : Z := 256 * 2 ^ 20.
Definition DATA_CACHE_N : Z := 100000.
Definition DATA_CACHE_SIZE : Z := 8192 * 2 ^ 20.
Definition DATA_CACHE_SIZE_SMALL : Z := 256 * 2 ^ 20.
Definition MAX_TIME_LIMIT_NS : Z := 500 * 10 ^ 9.

Definition zero_result (e : option string) : JudgeResult := mkResult e 0 0 0 0 0 0 0 0 0 0 0 0 0 0 0 false false.

Definition set_error (e : string) (r : JudgeResult) : JudgeResult :=
  mkResult (Some e) (count_inst r) (clk_thread r) (clk_ref_tsc r) (time_ns r) (time_ns_ref_tsc r) (time_ns_real r)
    (time_tsc r) (memory_kb r) (memory_kb_accessed r) (stdout_size r) (stderr_size r) (return_code r) (trap_num r)
    (trap_epc r) (trap_cr2 r) (is_RE r) (is_TLE r).

Section judger.
Context {E A : Type} `{EO : Elf E A} `{SI : SortIds}.
Implicit Type s : judger E.

Definition set_buffer (b : bytemem) s : judger E :=
  mkJudger (n_judges s) (total_time_ns s) b (buffer_size s) (elf_cache s) (data_cache s) (judge_seq_num s)
    (judge_result s) (judge_result_cleared s) (machine s).
Definition set_caches (c d : DuckCache) s : judger E :=
  mkJudger (n_judges s) (total_time_ns s) (buffer s) (buffer_size s) c d (judge_seq_num s)
    (judge_result s) (judge_result_cleared s) (machine s).
Definition set_result (q : Z) (r : JudgeResult) (c : bool) s : judger E :=
  mkJudger (n_judges s) (total_time_ns s) (buffer s) (buffer_size s) (elf_cache s) (data_cache s) q r c (machine s).
Definition set_stat (n t : Z) s : judger E :=
  mkJudger n t (buffer s) (buffer_size s) (elf_cache s) (data_cache s) (judge_seq_num s)
    (judge_result s) (judge_result_cleared s) (machine s).
Definition set_machine (e : E) s : judger E :=
  mkJudger (n_judges s) (total_time_ns s) (buffer s) (buffer_size s) (elf_cache s) (data_cache s) (judge_seq_num s)
    (judge_result s) (judge_result_cleared s) e.

Definition clear_judge_result s : judger E :=
  if judge_result_cleared s then s
  else set_result (2 ^ 64 - 1) (zero_result (Some "Not Judged")) true s.

(** A cache on memory from [allocate_virtual_memory]; [None] is the reboot. *)
Definition init_cache (n size : Z) (mem : memory) : option (DuckCache * memory) :=
  let '(a, mem) := allocate_virtual_memory size mem in
  r ← DuckCache.init n size a;
  match r with
  | inr c => Some (c, mem)
  | inl _ => None
  end.

Definition init s (mem : memory) : option (judger E * memory) :=
  let s := set_stat 0 0 (clear_judge_result s) in
  let total_size := INITIAL_BUFFER_SIZE + ELF_CACHE_SIZE + DATA_CACHE_SIZE + 3072 * 2 ^ 20 in
  let use_small := negb (can_allocate_virtual_memory total_size mem) in
  let size := if negb use_small then INITIAL_BUFFER_SIZE else INITIAL_BUFFER_SIZE_SMALL in
  let '(b, mem) := allocate_virtual_memory size mem in
  match b with
  | None => None
  | Some _ =>
      '(c, mem) ← init_cache ELF_CACHE_N ELF_CACHE_SIZE mem;
      '(d, mem) ← init_cache DATA_CACHE_N (if negb use_small then DATA_CACHE_SIZE else DATA_CACHE_SIZE_SMALL) mem;
      Some (mkJudger (n_judges s) (total_time_ns s) ∅ size c d (judge_seq_num s) (judge_result s)
              (judge_result_cleared s) (machine s), mem)
  end.

Definition get_statistics s : JudgeStatistics := mkStatistics (n_judges s) (total_time_ns s).

Definition query_buffer_size s : Z := buffer_size s.

(** ** Buffer *)

Definition in_range (o l : Z) s : bool := (o <? buffer_size s) && (l <=? buffer_size s - o).

Definition clear_buffer (o l : Z) s : bool * judger E :=
  if in_range o l s
  then (true, clear_judge_result (set_buffer (mwrite o (replicate (Z.to_nat l) 0) (buffer s)) s))
  else (false, s).

(** The bytes stored in [data], or [None] for the result [false]. *)
Definition read_buffer (o l : Z) s : option (list Z) :=
  if in_range o l s then Some (mread (buffer s) o l) else None.

Definition write_buffer (o : Z) (data : list Z) s : bool * judger E :=
  if in_range o (Z.of_nat (length data)) s
  then (true, clear_judge_result (set_buffer (mwrite o data (buffer s)) s))
  else (false, s).

Definition copy_buffer (dst_off src_off l : Z) s : bool * judger E :=
  let no_overlap := (u64 (dst_off + l) <=? src_off) || (u64 (src_off + l) <=? dst_off) in
  if in_range dst_off l s && in_range src_off l s && no_overlap
  then (true, clear_judge_result (set_buffer (mwrite dst_off (mread (buffer s) src_off l) (buffer s)) s))
  else (false, s).

(** The result of [memcmp(...) == 0], or [None] for the result [false]. *)
Definition compare_buffer (off1 off2 l : Z) s : option bool :=
  if in_range off1 l s && in_range off2 l s
  then Some (bool_decide (mread (buffer s) off1 l = mread (buffer s) off2 l)) else None.

(** ** Caches *)

Inductive cache_name := cache_elf | cache_data | cache_other.

(** An access outside the buffer is not checked by the code: [None]. *)
Definition load_cache (name : cache_name) (dst_off dst_len : Z) (hex : list Z) (now : Z) s : option (bool * judger E) :=
  match digest_from_hex hex with
  | None => Some (false, s)
  | Some digest =>
      '(r, s) ← match name with
        | cache_elf => '(r, c) ← DuckCache.load digest dst_len now (elf_cache s); Some (r, set_caches c (data_cache s) s)
        | cache_data => '(r, c) ← DuckCache.load digest dst_len now (data_cache s); Some (r, set_caches (elf_cache s) c s)
        | cache_other => Some (None, s)
        end;
      match r with
      | None => Some (false, s)
      | Some bytes =>
          if dst_off + dst_len <=? buffer_size s
          then Some (true, clear_judge_result (set_buffer (mwrite dst_off bytes (buffer s)) s)) else None
      end
  end.

Definition store_cache (name : cache_name) (src_off src_len : Z) (hex : list Z) (now : Z) s : option (bool * judger E) :=
  match digest_from_hex hex with
  | None => Some (false, s)
  | Some digest =>
      if buffer_size s <? src_off + src_len then None
      else
        let src := mread (buffer s) src_off src_len in
        match name with
        | cache_elf => '(r, c) ← DuckCache.store digest src now (elf_cache s); Some (r, set_caches c (data_cache s) s)
        | cache_data => '(r, c) ← DuckCache.store digest src now (data_cache s); Some (r, set_caches (elf_cache s) c s)
        | cache_other => Some (false, s)
        end
  end.

(** ** Judging *)

Definition can_not_load_elf s : JudgeResult * judger E :=
  let r := set_error "Can't load ELF" (judge_result s) in
  (r, set_result (judge_seq_num s) r (judge_result_cleared s) s).

Definition invalid_time_limit s : JudgeResult * judger E :=
  let r := set_error "Invalid time limit" (judge_result s) in
  (r, set_result (judge_seq_num s) r (judge_result_cleared s) s).

Definition is_valid_buffer (b : BufferDesc) s : bool := in_range (off b) (blen b) s.

Definition check_overlap (b1 b2 : BufferDesc) : bool :=
  negb ((u64 (off b1 + blen b1) <=? off b2) || (u64 (off b2 + blen b2) <=? off b1)).

(** [seen] are the buffers before. *)
Fixpoint check_buffers (seen l : list BufferDesc) s : bool :=
  match l with
  | [] => true
  | b :: l' =>
      if negb (is_valid_buffer b s) then false
      else if existsb (check_overlap b) seen then false
      else check_buffers (seen ++ [b]) l' s
  end.

Definition request_buffers (req : JudgeRequest) : list BufferDesc :=
  [rq_ELF req; rq_stdin req; rq_stdout req; rq_stderr req; rq_IB req; rq_OB req].

Definition bytes_of (b : BufferDesc) s : list Z := mread (buffer s) (off b) (blen b).

Definition elf_conf (req : JudgeRequest) s : AppConfig :=
  mkConfig (u64 (memory_hard_limit_kb req * 1024)) (bytes_of (rq_stdin req) s) (blen (rq_stdin req))
    (blen (rq_stdout req)) (blen (rq_stderr req)) (bytes_of (rq_IB req) s) (blen (rq_IB req))
    (bytes_of (rq_OB req) s) (blen (rq_OB req)) (negb (rq_OB_need_clear req =? 0)).

(** The result of a run, with the time limit applied. *)
Definition result_of (limit : Z) (res : RunResult) : JudgeResult :=
  let is_RE := negb (r_trap_num res =? 255) in
  let is_TLE := r_trap_num res =? 32 in
  let over := (limit <? r_time_ns res) || is_TLE in
  mkResult None (r_count_inst res) (r_clk_thread res) (r_clk_ref_tsc res)
    (if over then limit else r_time_ns res) (r_time_ns_ref_tsc res)
    (r_time_ns_real res) (r_time_tsc res) (r_memory_kb res) (r_memory_kb_accessed res) (r_stdout_size res)
    (r_stderr_size res) (r_return_code res) (r_trap_num res) (r_trap_epc res) (r_trap_cr2 res)
    (if over then false else is_RE) (if over then true else is_TLE).

Definition judge (req : JudgeRequest) s : JudgeResult * judger E :=
  if seq_num req =? judge_seq_num s then (judge_result s, s)
  else
    let s := set_stat (u64 (n_judges s + 1)) (total_time_ns s) s in
    let s := set_result (seq_num req) (judge_result s) false s in
    if u64 (memory_hard_limit_kb req * 1024) <? memory_hard_limit_kb req then can_not_load_elf s
    else if negb (check_buffers [] (request_buffers req) s) then can_not_load_elf s
    else if (time_limit_ns req =? 0) || (MAX_TIME_LIMIT_NS <? time_limit_ns req) then invalid_time_limit s
    else
      let '(app, e) := elf_load (bytes_of (rq_ELF req) s) (u32 (blen (rq_ELF req))) (elf_conf req s) (machine s) in
      let s := set_machine e s in
      match app with
      | None => can_not_load_elf s
      | Some app =>
          let '(res, e) := elf_run app (time_limit_ns req) (machine s) in
          let s := set_machine e s in
          let r := result_of (time_limit_ns req) res in
          let s := set_result (judge_seq_num s) r (judge_result_cleared s) s in
          let b := mwrite (off (rq_stdout req)) (take (Z.to_nat (r_stdout_size res)) (r_stdout res)) (buffer s) in
          let b := mwrite (off (rq_stderr req)) (take (Z.to_nat (r_stderr_size res)) (r_stderr res)) b in
          let b := mwrite (off (rq_OB req)) (take (Z.to_nat (blen (rq_OB req))) (r_OB res)) b in
          let s := set_stat (n_judges s) (u64 (total_time_ns s + time_ns r)) (set_buffer b s) in
          (r, s)
      end.
End judger.
