(* ===== verification/JudgerClaims.v ===== *)
(** * What a judged request changes and reports *)

From S2P Require Import Prelude ByteMem Utils Memory DuckCache Judger.

(** What ELF::run promises about the outputs of a loaded program: they fit into
    the limits of the configuration. *)
Class ElfLaws (E A : Type) `{Elf E A} :=
  elf_outputs bytes n conf e app e1 limit res e2 :
    elf_load bytes n conf e = (Some app, e1) -> elf_run app limit e1 = (res, e2) ->
    0 <= r_stdout_size res <= stdout_max_size conf /\ r_stdout_size res <= Z.of_nat (length (r_stdout res)) /\
    0 <= r_stderr_size res <= stderr_max_size conf /\ r_stderr_size res <= Z.of_nat (length (r_stderr res)) /\
    OB_size conf <= Z.of_nat (length (r_OB res)).

Section judge.
Context {E A : Type} `{EO : Elf E A} `{EL : !ElfLaws E A} `{SI : SortIds}.
Implicit Type s : judger E.

(** ** Buffers *)

Definition buffer_ok s (b : BufferDesc) : Prop := is_uint 64 (off b) /\ is_uint 64 (blen b).

(** Inside the buffer. *)
Definition valid s (b : BufferDesc) : Prop := off b < buffer_size s /\ off b + blen b <= buffer_size s.

Definition disjoint (b1 b2 : BufferDesc) : Prop := off b1 + blen b1 <= off b2 \/ off b2 + blen b2 <= off b1.

Lemma in_range_spec o l s : in_range o l s = true <-> o < buffer_size s /\ o + l <= buffer_size s.
Proof. unfold in_range. rewrite andb_true_iff, Z.ltb_lt, Z.leb_le. lia. Qed.

Lemma check_overlap_spec s b1 b2 : buffer_size s < 2 ^ 64 -> buffer_ok s b1 -> buffer_ok s b2 -> valid s b1 -> valid s b2 ->
  check_overlap b1 b2 = false <-> disjoint b1 b2.
Proof.
  intros Hs [[? ?] [? ?]] [[? ?] [? ?]] [? ?] [? ?]. unfold check_overlap, disjoint.
  rewrite negb_false_iff, orb_true_iff, !Z.leb_le. rewrite !wrap_small by (unfold is_uint; lia). done.
Qed.

(** The nested loops accept exactly valid and pairwise disjoint buffers. *)
Lemma check_buffers_spec s l : buffer_size s < 2 ^ 64 -> Forall (buffer_ok s) l -> forall seen,
  Forall (buffer_ok s) seen -> Forall (valid s) seen ->
  check_buffers seen l s = true <->
    Forall (valid s) l /\ (forall b c, b ∈ l -> c ∈ seen -> disjoint b c) /\
    (forall i j b c, (i < j)%nat -> l !! i = Some b -> l !! j = Some c -> disjoint c b).
Proof.
  intros Hs. induction 1 as [|b l Hb Hl IH]; intros seen Hseen Hvs; cbn [check_buffers].
  - split; [|done]. intros _. split; [constructor|]. split; [intros b c Hb; by apply not_elem_of_nil in Hb|done].
  - unfold is_valid_buffer. destruct (in_range (off b) (blen b) s) eqn:Er; cbn [negb].
    2: { split; [done|]. intros (Hv & _). apply Forall_cons in Hv as [Hv _]. apply in_range_spec in Hv. congruence. }
    apply in_range_spec in Er. fold (valid s b) in Er.
    assert (existsb (check_overlap b) seen = false <-> forall c, c ∈ seen -> disjoint b c) as Hex.
    { rewrite <- not_true_iff_false, existsb_exists. rewrite Forall_forall in Hseen, Hvs. split.
      - intros Hno c Hc. apply (check_overlap_spec s); auto. apply not_true_is_false. intros Ht. apply Hno. exists c. split; [by apply list_elem_of_In|done].
      - intros Hall (c & Hc%list_elem_of_In & Ht). apply Hall in Hc as Hd. apply (check_overlap_spec s) in Hd; auto. congruence. }
    destruct (existsb (check_overlap b) seen) eqn:Eo.
    { split; [done|]. intros (_ & Hd & _). assert (true = false); [|done]. apply Hex. intros c Hc. apply Hd; [left|done]. }
    rewrite IH by (apply Forall_app_2; [done|by apply Forall_singleton]).
    pose proof (proj1 Hex eq_refl) as Hbs. split.
    + intros (Hv & Hd & Hp). split; [by constructor|]. split.
      * intros x c [->|Hx]%elem_of_cons Hc; [by apply Hbs|apply Hd; [done|set_solver]].
      * intros [|i] [|j] x y Hij Hx Hy; cbn in *; [lia| |lia|by apply (Hp i j); try lia].
        injection Hx as <-. apply Hd; [by eapply list_elem_of_lookup_2|set_solver].
    + intros (Hv & Hd & Hp). apply Forall_cons in Hv as [_ Hv]. split; [done|]. split.
      * intros x c Hx Hc. apply elem_of_app in Hc as [Hc|Hc]; [apply Hd; [by right|done]|].
        apply list_elem_of_singleton in Hc as ->. apply list_elem_of_lookup_1 in Hx as [i Hi]. by apply (Hp 0%nat (S i)); [lia|..].
      * intros i j x y Hij Hx Hy. by apply (Hp (S i) (S j)); [lia|..].
Qed.

(** A request whose buffers and limits are accepted. *)
Definition request_ok s (req : JudgeRequest) : Prop :=
  is_uint 64 (memory_hard_limit_kb req) /\ Forall (buffer_ok s) (request_buffers req).

Definition accepted s (req : JudgeRequest) : Prop :=
  u64 (memory_hard_limit_kb req * 1024) >= memory_hard_limit_kb req /\
  Forall (valid s) (request_buffers req) /\
  (forall i j b c, (i < j)%nat -> request_buffers req !! i = Some b -> request_buffers req !! j = Some c -> disjoint c b) /\
  0 < time_limit_ns req <= MAX_TIME_LIMIT_NS.

(** The state before loading. *)
Definition counted (req : JudgeRequest) s : judger E :=
  set_result (seq_num req) (judge_result s) false (set_stat (u64 (n_judges s + 1)) (total_time_ns s) s).

Lemma judge_cases req s : 0 <= time_limit_ns req -> buffer_size s < 2 ^ 64 -> request_ok s req -> seq_num req <> judge_seq_num s ->
  (accepted s req /\ judge req s =
    match elf_load (bytes_of (rq_ELF req) s) (u32 (blen (rq_ELF req))) (elf_conf req s) (machine s) with
    | (None, e) => can_not_load_elf (set_machine e (counted req s))
    | (Some app, e) =>
        let '(res, e) := elf_run app (time_limit_ns req) e in
        let r := result_of (time_limit_ns req) res in
        let b := mwrite (off (rq_stdout req)) (take (Z.to_nat (r_stdout_size res)) (r_stdout res)) (buffer s) in
        let b := mwrite (off (rq_stderr req)) (take (Z.to_nat (r_stderr_size res)) (r_stderr res)) b in
        let b := mwrite (off (rq_OB req)) (take (Z.to_nat (blen (rq_OB req))) (r_OB res)) b in
        (r, mkJudger (u64 (n_judges s + 1)) (u64 (total_time_ns s + time_ns r)) b (buffer_size s) (elf_cache s) (data_cache s)
              (seq_num req) r false e)
    end) \/
  (~ accepted s req /\ (judge req s = can_not_load_elf (counted req s) \/ judge req s = invalid_time_limit (counted req s))).
Proof.
  intros Ht Hs [Hm Hb] Hq. unfold judge. rewrite (proj2 (Z.eqb_neq _ _)) by done. cbv zeta.
  change (set_result (seq_num req) _ false _) with (counted req s).
  destruct (Z.ltb_spec (u64 (memory_hard_limit_kb req * 1024)) (memory_hard_limit_kb req)).
  { right. split; [intros (? & _); lia|by left]. }
  destruct (check_buffers [] (request_buffers req) (counted req s)) eqn:Ec; cbn [negb].
  2: { right. split; [|by left]. intros (_ & Hv & Hd & _). apply not_true_iff_false in Ec. apply Ec.
       apply (check_buffers_spec (counted req s)); try done. split; [done|]. split; [|done]. intros b c _ Hc. by apply not_elem_of_nil in Hc. }
  apply (check_buffers_spec (counted req s)) in Ec as (Hv & _ & Hd); [|done..].
  destruct ((time_limit_ns req =? 0) || (MAX_TIME_LIMIT_NS <? time_limit_ns req)) eqn:Et.
  { right. split; [|by right]. intros (_ & _ & _ & H1 & H2). apply orb_true_iff in Et as [Et|Et]; bprop; lia. }
  bprop. left. split.
  { split; [lia|]. split; [done|]. split; [done|]. lia. }
  change (bytes_of (rq_ELF req) (counted req s)) with (bytes_of (rq_ELF req) s).
  change (elf_conf req (counted req s)) with (elf_conf req s). change (machine (counted req s)) with (machine s).
  destruct (elf_load _ _ _ _) as [[app|] e]; [|done]. change (machine (set_machine e _)) with e.
  destruct (elf_run app (time_limit_ns req) e) as [res e2]. done.
Qed.

(** ** Outputs *)

(** Three writes into disjoint places. *)
Lemma three_writes (m : bytemem) a1 l1 a2 l2 a3 l3 :
  let e1 := a1 + Z.of_nat (length l1) in
  let e2 := a2 + Z.of_nat (length l2) in
  let e3 := a3 + Z.of_nat (length l3) in
  (e1 <= a2 \/ e2 <= a1) -> (e1 <= a3 \/ e3 <= a1) -> (e2 <= a3 \/ e3 <= a2) ->
  let m' := mwrite a3 l3 (mwrite a2 l2 (mwrite a1 l1 m)) in
  mread m' a1 (Z.of_nat (length l1)) = l1 /\ mread m' a2 (Z.of_nat (length l2)) = l2 /\ mread m' a3 (Z.of_nat (length l3)) = l3 /\
  forall x, ~ (a1 <= x < e1) -> ~ (a2 <= x < e2) -> ~ (a3 <= x < e3) -> mget m' x = mget m x.
Proof.
  intros e1 e2 e3 H12 H13 H23 m'. unfold e1, e2, e3, m' in *. split_and!.
  - rewrite !mread_mwrite_disjoint by lia. apply mread_mwrite_same.
  - rewrite mread_mwrite_disjoint by lia. apply mread_mwrite_same.
  - apply mread_mwrite_same.
  - intros x Hx1 Hx2 Hx3. rewrite !mget_mwrite, !decide_False by done. done.
Qed.

Lemma length_take_Z (l : list Z) n : 0 <= n <= Z.of_nat (length l) -> Z.of_nat (length (take (Z.to_nat n) l)) = n.
Proof. intros Hn. rewrite length_take. lia. Qed.

(** The time limit applied to the report of a run. *)
Definition reported (limit : Z) (res : RunResult) (r : JudgeResult) : Prop :=
  error r = None /\ (is_TLE r = true <-> limit < r_time_ns res \/ r_trap_num res = 32) /\
  (is_RE r = true <-> is_TLE r = false /\ r_trap_num res <> 255) /\
  time_ns r <= limit /\ (is_TLE r = false -> time_ns r = r_time_ns res) /\
  stdout_size r = r_stdout_size res /\ stderr_size r = r_stderr_size res /\ return_code r = r_return_code res.

Lemma result_reported limit res : reported limit res (result_of limit res).
Proof.
  unfold reported, result_of. cbn [error is_TLE is_RE time_ns stdout_size stderr_size return_code].
  destruct (Z.ltb_spec limit (r_time_ns res)), (Z.eqb_spec (r_trap_num res) 32), (Z.eqb_spec (r_trap_num res) 255);
    cbn [orb negb]; split_and!; try done; try lia; intuition (try done; try lia).
Qed.

(** C27: A new request is run exactly when its six buffers are inside the
    judger's buffer and pairwise disjoint, its limits are in range and the
    program loads; otherwise it is answered with an error and no byte of the
    buffer changes. After a run the verdict follows from the trap and the time
    limit, the outputs are in their places, and every other byte of the buffer is
    as it was. *)
Theorem judge_exact req s : 0 <= time_limit_ns req -> buffer_size s < 2 ^ 64 -> request_ok s req ->
  seq_num req <> judge_seq_num s ->
  let '(r, s') := judge req s in
  let '(app, e1) := elf_load (bytes_of (rq_ELF req) s) (u32 (blen (rq_ELF req))) (elf_conf req s) (machine s) in
  (error r = None <-> accepted s req /\ is_Some app) /\ (error r <> None -> buffer s' = buffer s) /\
  forall a, accepted s req -> app = Some a ->
    let '(res, e2) := elf_run a (time_limit_ns req) e1 in
    reported (time_limit_ns req) res r /\ total_time_ns s' = u64 (total_time_ns s + time_ns r) /\ machine s' = e2 /\
    mread (buffer s') (off (rq_stdout req)) (r_stdout_size res) = take (Z.to_nat (r_stdout_size res)) (r_stdout res) /\
    mread (buffer s') (off (rq_stderr req)) (r_stderr_size res) = take (Z.to_nat (r_stderr_size res)) (r_stderr res) /\
    mread (buffer s') (off (rq_OB req)) (blen (rq_OB req)) = take (Z.to_nat (blen (rq_OB req))) (r_OB res) /\
    forall x, ~ (off (rq_stdout req) <= x < off (rq_stdout req) + r_stdout_size res) ->
      ~ (off (rq_stderr req) <= x < off (rq_stderr req) + r_stderr_size res) ->
      ~ (off (rq_OB req) <= x < off (rq_OB req) + blen (rq_OB req)) -> mget (buffer s') x = mget (buffer s) x.
Proof.
  intros Ht Hs Hok Hq. destruct (judge_cases req s Ht Hs Hok Hq) as [[Hacc ->]|[Hacc Hj]].
  2: { destruct (elf_load _ _ _ _) as [app e1]. destruct Hj as [-> | ->]; cbn;
       (split; [split; [done|by intros [? _]]|]; split; [done|by intros a Ha]). }
  destruct (elf_load _ _ _ _) as [[app|] e1] eqn:El.
  2: { cbn. split; [split; [done|by intros [_ []]]|]. split; [done|by intros a _ Ea]. }
  destruct (elf_run app (time_limit_ns req) e1) as [res e2] eqn:Er.
  destruct (elf_outputs _ _ _ _ _ _ _ _ _ El Er) as (O1 & O2 & O3 & O4 & O5). cbn [elf_conf stdout_max_size stderr_max_size OB_size] in *.
  cbv zeta. split; [split; [by eexists|done]|]. split; [done|]. intros a _ [= <-]. rewrite Er.
  split; [apply result_reported|]. split; [done|]. split; [done|]. cbn [buffer].
  destruct Hacc as (_ & _ & Hd & _). destruct Hok as [_ Hb].
  assert (0 <= blen (rq_OB req)) as Hob by (rewrite Forall_forall in Hb; apply (Hb (rq_OB req)); unfold request_buffers; set_solver).
  pose proof (Hd 2%nat 3%nat _ _ ltac:(lia) eq_refl eq_refl) as D23. pose proof (Hd 2%nat 5%nat _ _ ltac:(lia) eq_refl eq_refl) as D25.
  pose proof (Hd 3%nat 5%nat _ _ ltac:(lia) eq_refl eq_refl) as D35. unfold disjoint in D23, D25, D35.
  pose proof (three_writes (buffer s) (off (rq_stdout req)) (take (Z.to_nat (r_stdout_size res)) (r_stdout res))
    (off (rq_stderr req)) (take (Z.to_nat (r_stderr_size res)) (r_stderr res))
    (off (rq_OB req)) (take (Z.to_nat (blen (rq_OB req))) (r_OB res))) as Hw. cbv zeta in Hw.
  rewrite !length_take_Z in Hw by lia. apply Hw; lia.
Qed.

(** ** Remembered results *)

(** The operations between requests. *)
Inductive jstep : judger E -> judger E -> Prop :=
  | j_clear o l s : jstep s (snd (clear_buffer o l s))
  | j_write o data s : jstep s (snd (write_buffer o data s))
  | j_copy d o l s : jstep s (snd (copy_buffer d o l s))
  | j_load name o l hex now s r s' : load_cache name o l hex now s = Some (r, s') -> jstep s s'
  | j_store name o l hex now s r s' : store_cache name o l hex now s = Some (r, s') -> jstep s s'
  | j_judge req s : jstep s (snd (judge req s)).

Inductive reaches (s0 : judger E) : judger E -> Prop :=
  | reaches_refl : reaches s0 s0
  | reaches_step s s' : reaches s0 s -> jstep s s' -> reaches s0 s'.

(** Nothing is remembered. *)
Definition forgotten s : Prop :=
  judge_result_cleared s = true /\ judge_seq_num s = 2 ^ 64 - 1 /\ judge_result s = zero_result (Some "Not Judged"%string).

(** The remembered result is the answer to a request judged in an earlier state
    [s1], and the buffer is still as that judge left it. *)
Definition remembers (s0 s : judger E) : Prop := exists req s1,
  reaches s0 s1 /\ seq_num req <> judge_seq_num s1 /\ fst (judge req s1) = judge_result s /\
  seq_num req = judge_seq_num s /\ buffer (snd (judge req s1)) = buffer s.

Definition result_inv (s0 s : judger E) : Prop := forgotten s \/ (judge_result_cleared s = false /\ remembers s0 s).

Lemma result_inv_buffer s0 s b : result_inv s0 s -> result_inv s0 (clear_judge_result (set_buffer b s)).
Proof.
  intros H. left. destruct H as [(Hc & H1 & H2)|[Hc _]]; unfold clear_judge_result; cbn [judge_result_cleared set_buffer]; rewrite Hc.
  - done.
  - done.
Qed.

Lemma result_inv_caches s0 s c d : result_inv s0 s -> result_inv s0 (set_caches c d s).
Proof. intros [?|[? ?]]; [by left|by right]. Qed.

Lemma judge_remembers req s : seq_num req <> judge_seq_num s ->
  judge_result_cleared (snd (judge req s)) = false /\ judge_seq_num (snd (judge req s)) = seq_num req /\
  judge_result (snd (judge req s)) = fst (judge req s).
Proof.
  intros Hq. unfold judge. rewrite (proj2 (Z.eqb_neq _ _)) by done. cbv zeta.
  repeat (case_if; [done|]). destruct (elf_load _ _ _ _) as [[app|] e]; [|done]. by destruct (elf_run _ _ _) as [res e2].
Qed.

Lemma result_inv_step s0 s s' : reaches s0 s -> result_inv s0 s -> jstep s s' -> result_inv s0 s'.
Proof.
  intros Hr Hinv Hstep. destruct Hstep as [o l s|o data s|d o l s|name o l hex now s r s' E1|name o l hex now s r s' E1|req s].
  - unfold clear_buffer. case_if; [by apply result_inv_buffer|done].
  - unfold write_buffer. case_if; [by apply result_inv_buffer|done].
  - unfold copy_buffer. case_if; [by apply result_inv_buffer|done].
  - unfold load_cache in E1. destruct (digest_from_hex hex) as [digest|]; [|by injection E1 as _ <-].
    apply bind_Some in E1 as ([r1 s1] & Es & E1).
    assert (exists c d, s1 = set_caches c d s) as (c & d & ->).
    { destruct name.
      - apply bind_Some in Es as ([x c] & _ & [= _ <-]). by eexists _, _.
      - apply bind_Some in Es as ([x c] & _ & [= _ <-]). by eexists _, _.
      - injection Es as _ <-. exists (elf_cache s), (data_cache s). by destruct s. }
    destruct r1 as [bytes|]; [case_if_in E1; [|done]|]; injection E1 as _ <-.
    + by apply result_inv_buffer, result_inv_caches.
    + by apply result_inv_caches.
  - unfold store_cache in E1. destruct (digest_from_hex hex) as [digest|]; [|by injection E1 as _ <-].
    case_if_in E1; [done|]. destruct name.
    + apply bind_Some in E1 as ([x c] & _ & [= _ <-]). by apply result_inv_caches.
    + apply bind_Some in E1 as ([x c] & _ & [= _ <-]). by apply result_inv_caches.
    + by injection E1 as _ <-.
  - destruct (decide (seq_num req = judge_seq_num s)) as [Hq|Hq].
    + unfold judge. by rewrite (proj2 (Z.eqb_eq _ _) Hq).
    + destruct (judge_remembers req s Hq) as (H1 & H2 & H3). right. split; [done|]. exists req, s. by rewrite H3.
Qed.

(** C28: In every reachable state a request with the remembered sequence number
    is answered without running anything and without a change; unless nothing
    has been judged since the buffer last changed, the answer is the result of an
    earlier run for that sequence number, and the buffer still holds what that
    run left. *)
Theorem judge_replay s0 s req : forgotten s0 -> reaches s0 s -> seq_num req = judge_seq_num s ->
  judge req s = (judge_result s, s) /\ (forgotten s \/ remembers s0 s).
Proof.
  intros H0 Hr Hq. split; [unfold judge; by rewrite (proj2 (Z.eqb_eq _ _) Hq)|].
  assert (result_inv s0 s) as [Hf|[_ Hm]]; [|by left|by right]. clear Hq.
  induction Hr as [|s s' Hr IH Hs]; [by left|by eapply result_inv_step].
Qed.
End judge.

(** ** Witnesses: a program that prints two bytes and exits *)

#[export] Instance example_elf : Elf unit AppConfig := {|
  elf_load := fun _ _ conf e => (if (0 <=? stdout_max_size conf) && (0 <=? stderr_max_size conf) then Some conf else None, e);
  elf_run := fun conf _ e =>
    (mkRun 1000 2000 2000 3000 1000000 1000000 1500000 64 64 255 0 0 0 [104; 105] (Z.min 2 (stdout_max_size conf)) [] 0
       (replicate (Z.to_nat (OB_size conf)) 7), e)
|}.

#[export] Instance example_elf_laws : ElfLaws unit AppConfig.
Proof.
  intros bytes n conf e app e1 limit res e2. cbn. case_if; [|done]. intros [= <- <-] [= <- <-]. cbn. rewrite length_replicate. lia.
Qed.

Definition example_sort : SortIds := fun _ ids => ids.

Definition example_judger : judger unit :=
  mkJudger 0 0 ∅ 1024 (mkCache 0 0 [] 0 0 0 ∅) (mkCache 0 0 [] 0 0 0 ∅) (2 ^ 64 - 1) (zero_result (Some "Not Judged"%string)) true tt.

Definition example_request : JudgeRequest :=
  mkRequest 1 1000000000 65536 (mkBuffer 0 100) (mkBuffer 100 100) (mkBuffer 200 100) (mkBuffer 300 100) (mkBuffer 400 4)
    (mkBuffer 404 4) 1.

Lemma example_accepted : accepted example_judger example_request.
Proof.
  split; [vm_compute; discriminate|]. split; [repeat constructor; done|]. split; [|done].
  intros i j b c Hij Hi Hj. pose proof (lookup_lt_Some _ _ _ Hj) as Hl. cbn in Hl.
  do 6 (destruct j as [|j]; [do 6 (destruct i as [|i]; [try lia; injection Hi as <-; injection Hj as <-; unfold disjoint; cbn; lia|]); lia|]). lia.
Qed.

Lemma judge_exact_witness :
  let '(r, s') := judge example_request example_judger in
  error r = None /\ is_TLE r = false /\ is_RE r = false /\ mread (buffer s') 200 2 = [104; 105] /\ mread (buffer s') 404 4 = [7; 7; 7; 7].
Proof.
  pose proof (judge_exact example_request example_judger) as H.
  destruct (judge example_request example_judger) as [r s'].
  destruct H as (_ & _ & H).
  - cbn. lia.
  - cbn. lia.
  - split; [unfold is_uint; cbn; lia|]. repeat constructor; cbn; lia.
  - discriminate.
  - destruct (H _ example_accepted eq_refl) as ((H1 & H2 & H3 & _) & _ & _ & M1 & _ & M3 & _).
    assert (is_TLE r = false) as Ht.
    { destruct (is_TLE r); [|reflexivity]. destruct (proj1 H2 eq_refl) as [Hx|Hx]; cbn in Hx; [lia|discriminate Hx]. }
    split; [exact H1|]. split; [exact Ht|]. split.
    + destruct (is_RE r); [|reflexivity]. destruct (proj1 H3 eq_refl) as [_ Hx]. contradiction Hx. reflexivity.
    + split; [exact M1|exact M3].
Defined.

Lemma judge_replay_witness :
  let s := snd (judge example_request example_judger) in
  judge example_request s = (judge_result s, s) /\ remembers (SI:=example_sort) example_judger s.
Proof.
  destruct (judge_remembers example_request example_judger ltac:(discriminate)) as (Hc & Hq & _).
  destruct (judge_replay (SI:=example_sort) example_judger (snd (judge example_request example_judger)) example_request) as [E [Hf|Hm]].
  - done.
  - apply (reaches_step _ example_judger); [apply reaches_refl|apply j_judge].
  - symmetry. exact Hq.
  - split; [exact E|]. destruct Hf as [Hf _]. rewrite Hc in Hf. discriminate Hf.
  - split; [exact E|exact Hm].
Defined.
