(* ===== verification/Trap.v ===== *)
(** * kern/trap.cpp: traps and user programs

    The processor state the handlers touch is a record: a free-running counter,
    the adjustment of the time stamp counter, the timer, segment registers and
    the loaded descriptor tables. The handler ends by resuming a frame; a user
    program is the frame it traps with and the time it took. *)

From S2P Require Import Prelude Utils Memory.

(** ** Descriptors *)

Record InterruptDescriptor := mkGate {
  ptr_low : Z; selector : Z; g_ist : Z; options : Z; ptr_mid : Z; ptr_high : Z; g_reserved : Z
}.

Record PushRegs := mkRegs {
  rcx : Z; rbx : Z; rbp : Z; rsi : Z; rdi : Z; r8 : Z; r9 : Z; r10 : Z; r11 : Z; r12 : Z; r13 : Z; r14 : Z; r15 : Z;
  tsc : Z; rax : Z; rdx : Z
}.

Record Trapframe := mkTf {
  fxstate : list Z; tf_fsbase : Z; tf_regs : PushRegs; tf_num : Z; tf_errorcode : Z; tf_rip : Z; tf_cs : Z;
  tf_rflags : Z; tf_rsp : Z; tf_ss : Z
}.

Definition GDT_KERNEL_CS : Z := 8.
Definition GDT_KERNEL_SS : Z := 16.
Definition GDT_USER32_CS : Z := 24.
Definition GDT_USER_SS : Z := 32.
Definition GDT_USER_CS : Z := 40.
Definition GDT_USER32_SS : Z := 48.
Definition GDT_USER32_TLS : Z := 56.
Definition GDT_ESPFIX_SS : Z := 64.
Definition GDT_KERNEL32_CS : Z := 72.
Definition GDT_TSS : Z := 80.

Definition STACK_SIZE : Z := 4096.
Definition TRAP_IRQ : Z := 32.
Definition IRQ_TIMER : Z := 0.
Definition TRAP_RUN_USER : Z := 233.
Definition TRAP_RUN_USER32 : Z := 234.
Definition TRAP_ABORT : Z := 253.
Definition TRAP_INVALID_SYSCALL : Z := 254.
Definition TRAP_SYSCALL : Z := 255.
Definition TRAP_SYSCALL32 : Z := 128.

(** inc/abi.hpp and the number of tkill. *)
Definition DUCK_sys_exit : Z := 60.
Definition DUCK_sys_exit_32 : Z := 1.
Definition DUCK_sys_set_thread_area : Z := 243.
Definition SYS_tkill : Z := 200.
Definition EFAULT : Z := 14.
Definition EINVAL : Z := 22.

(** [sizeof(TaskState)], aligned to 16 bytes. *)
Definition TASK_STATE_SIZE : Z := 112.
(** [sizeof(user_desc)]: three words and seven bits. *)
Definition USER_DESC_SIZE : Z := 13.

(** Addresses the linker and the assembly file provide. *)
Class TrapSymbols := {
  __traps : Z -> Z;
  __trap_0x80_entry : Z;
  __syscall_entry : Z;
  task_state_addr : Z;
  interrupt_stack : Z -> Z
}.

(** The processor. [clock] counts from power-on; the time stamp counter is its
    sum with [tsc_adjust]. *)
Record cpu := mkCpu {
  clock : Z;
  tsc_adjust : Z;
  timer : option (Z * Z);
  segments : Z;
  lgdt : list Z;
  lidt : list InterruptDescriptor;
  tr : Z;
  cr2 : Z;
  msrs : gmap Z Z
}.

Record TaskState := mkTask { ts_rsp0 : Z; ts_ist : list Z; IOPB_offset : Z }.

Record trap_state := mkTrap {
  idt : list InterruptDescriptor;
  gdt : list Z;
  tf_run_user : Trapframe;
  tf_from_user : Trapframe;
  tf_to_user : Trapframe;
  user_time_limit_ns : Z;
  __trap_epc : Z;
  __trap_cr2 : Z;
  __espfix_new_kernel_rsp : Z;
  task_state : TaskState;
  __syscall_stack : Z;
  proc : cpu
}.

Definition set_proc (p : cpu) (s : trap_state) : trap_state :=
  mkTrap (idt s) (gdt s) (tf_run_user s) (tf_from_user s) (tf_to_user s) (user_time_limit_ns s) (__trap_epc s)
    (__trap_cr2 s) (__espfix_new_kernel_rsp s) (task_state s) (__syscall_stack s) p.
Definition set_idt_table (l : list InterruptDescriptor) (s : trap_state) : trap_state :=
  mkTrap l (gdt s) (tf_run_user s) (tf_from_user s) (tf_to_user s) (user_time_limit_ns s) (__trap_epc s)
    (__trap_cr2 s) (__espfix_new_kernel_rsp s) (task_state s) (__syscall_stack s) (proc s).
Definition set_gdt_table (l : list Z) (s : trap_state) : trap_state :=
  mkTrap (idt s) l (tf_run_user s) (tf_from_user s) (tf_to_user s) (user_time_limit_ns s) (__trap_epc s)
    (__trap_cr2 s) (__espfix_new_kernel_rsp s) (task_state s) (__syscall_stack s) (proc s).
Definition set_run_user (tf : Trapframe) (s : trap_state) : trap_state :=
  mkTrap (idt s) (gdt s) tf (tf_from_user s) (tf_to_user s) (user_time_limit_ns s) (__trap_epc s)
    (__trap_cr2 s) (__espfix_new_kernel_rsp s) (task_state s) (__syscall_stack s) (proc s).
Definition set_to_user (tf : Trapframe) (limit : Z) (s : trap_state) : trap_state :=
  mkTrap (idt s) (gdt s) (tf_run_user s) (tf_from_user s) tf limit (__trap_epc s)
    (__trap_cr2 s) (__espfix_new_kernel_rsp s) (task_state s) (__syscall_stack s) (proc s).
Definition set_from_user (tf : Trapframe) (epc cr2 : Z) (s : trap_state) : trap_state :=
  mkTrap (idt s) (gdt s) (tf_run_user s) tf (tf_to_user s) (user_time_limit_ns s) epc
    cr2 (__espfix_new_kernel_rsp s) (task_state s) (__syscall_stack s) (proc s).
Definition set_espfix (r : Z) (s : trap_state) : trap_state :=
  mkTrap (idt s) (gdt s) (tf_run_user s) (tf_from_user s) (tf_to_user s) (user_time_limit_ns s) (__trap_epc s)
    (__trap_cr2 s) r (task_state s) (__syscall_stack s) (proc s).
Definition set_task (t : TaskState) (stack : Z) (s : trap_state) : trap_state :=
  mkTrap (idt s) (gdt s) (tf_run_user s) (tf_from_user s) (tf_to_user s) (user_time_limit_ns s) (__trap_epc s)
    (__trap_cr2 s) (__espfix_new_kernel_rsp s) t stack (proc s).

Definition set_tsc_adjust (v : Z) (p : cpu) : cpu :=
  mkCpu (clock p) v (timer p) (segments p) (lgdt p) (lidt p) (tr p) (cr2 p) (msrs p).
Definition set_timer (t : option (Z * Z)) (p : cpu) : cpu :=
  mkCpu (clock p) (tsc_adjust p) t (segments p) (lgdt p) (lidt p) (tr p) (cr2 p) (msrs p).
Definition set_segments (v : Z) (p : cpu) : cpu :=
  mkCpu (clock p) (tsc_adjust p) (timer p) v (lgdt p) (lidt p) (tr p) (cr2 p) (msrs p).
Definition load_gdt (l : list Z) (p : cpu) : cpu :=
  mkCpu (clock p) (tsc_adjust p) (timer p) (segments p) l (lidt p) (tr p) (cr2 p) (msrs p).
Definition load_idt (l : list InterruptDescriptor) (p : cpu) : cpu :=
  mkCpu (clock p) (tsc_adjust p) (timer p) (segments p) (lgdt p) l (tr p) (cr2 p) (msrs p).
Definition load_tr (v : Z) (p : cpu) : cpu :=
  mkCpu (clock p) (tsc_adjust p) (timer p) (segments p) (lgdt p) (lidt p) v (cr2 p) (msrs p).
Definition wrmsr (r v : Z) (p : cpu) : cpu :=
  mkCpu (clock p) (tsc_adjust p) (timer p) (segments p) (lgdt p) (lidt p) (tr p) (cr2 p) (<[r := v]> (msrs p)).
Definition rdmsr (r : Z) (p : cpu) : Z := default 0 (msrs p !! r).

Definition set_tsc (v : Z) (tf : Trapframe) : Trapframe :=
  let r := tf_regs tf in
  mkTf (fxstate tf) (tf_fsbase tf)
    (mkRegs (rcx r) (rbx r) (rbp r) (rsi r) (rdi r) (r8 r) (r9 r) (r10 r) (r11 r) (r12 r) (r13 r) (r14 r) (r15 r)
       v (rax r) (rdx r))
    (tf_num tf) (tf_errorcode tf) (tf_rip tf) (tf_cs tf) (tf_rflags tf) (tf_rsp tf) (tf_ss tf).
Definition set_rax (v : Z) (tf : Trapframe) : Trapframe :=
  let r := tf_regs tf in
  mkTf (fxstate tf) (tf_fsbase tf)
    (mkRegs (rcx r) (rbx r) (rbp r) (rsi r) (rdi r) (r8 r) (r9 r) (r10 r) (r11 r) (r12 r) (r13 r) (r14 r) (r15 r)
       (tsc r) v (rdx r))
    (tf_num tf) (tf_errorcode tf) (tf_rip tf) (tf_cs tf) (tf_rflags tf) (tf_rsp tf) (tf_ss tf).
Definition set_rflags (v : Z) (tf : Trapframe) : Trapframe :=
  mkTf (fxstate tf) (tf_fsbase tf) (tf_regs tf) (tf_num tf) (tf_errorcode tf) (tf_rip tf) (tf_cs tf) v (tf_rsp tf) (tf_ss tf).
Definition set_ss (v : Z) (tf : Trapframe) : Trapframe :=
  mkTf (fxstate tf) (tf_fsbase tf) (tf_regs tf) (tf_num tf) (tf_errorcode tf) (tf_rip tf) (tf_cs tf) (tf_rflags tf) (tf_rsp tf) v.

Section trap.
Context `{TS : TrapSymbols}.

(** The static table; the two entries 0 are filled later. *)
Definition initial_gdt : list Z :=
  [0;
   Z.lor (Z.lor (Z.lor (2 ^ 43) (2 ^ 44)) (2 ^ 47)) (2 ^ 53);
   Z.lor (Z.lor (2 ^ 44) (2 ^ 47)) (2 ^ 41);
   0x00cffa000000ffff;
   Z.lor (Z.lor (Z.lor (2 ^ 44) (2 ^ 47)) (2 ^ 41)) (3 * 2 ^ 45);
   Z.lor (Z.lor (Z.lor (Z.lor (2 ^ 43) (2 ^ 44)) (2 ^ 47)) (2 ^ 53)) (3 * 2 ^ 45);
   0x00cff2000000ffff;
   0;
   0;
   0x00cf9a000000ffff;
   u64 (Z.lor (Z.lor (Z.lor (Z.lor (Z.lor (TASK_STATE_SIZE - 1) (Z.shiftl (Z.land task_state_addr 0xffffff) 16))
     (9 * 2 ^ 40)) (2 ^ 47)) (2 ^ 53)) (Z.shiftl (Z.shiftr task_state_addr 24) 56));
   Z.shiftr task_state_addr 32].

Definition gate (addr : Z) : InterruptDescriptor :=
  mkGate (u16 addr) GDT_KERNEL_CS 0 (Z.lor 14 (2 ^ 7)) (u16 (Z.shiftr addr 16)) (u32 (Z.shiftr addr 32)) 0.

Definition set_idt (id addr : Z) (s : trap_state) : trap_state :=
  set_idt_table (<[Z.to_nat id := gate addr]> (idt s)) s.

(** [idt[id].options |= 3 << 5] *)
Definition user_callable (id : Z) (s : trap_state) : trap_state :=
  set_idt_table (alter (fun g => mkGate (ptr_low g) (selector g) (g_ist g) (Z.lor (options g) (3 * 2 ^ 5)) (ptr_mid g)
    (ptr_high g) (g_reserved g)) (Z.to_nat id) (idt s)) s.

(** [idt[id].ist = n] *)
Definition set_gate_ist (id n : Z) (s : trap_state) : trap_state :=
  set_idt_table (alter (fun g => mkGate (ptr_low g) (selector g) n (options g) (ptr_mid g)
    (ptr_high g) (g_reserved g)) (Z.to_nat id) (idt s)) s.

(** ** The handler *)

(** How the handler leaves. *)
Inductive resume := trap_return (tf : Trapframe) | to_user (is_32 : bool) | reboot.

Definition on_proc (f : cpu -> cpu) (s : trap_state) : trap_state := set_proc (f (proc s)) s.

(** Start the periodic timer with the number of interrupts until the limit. *)
Definition start_timer (s : trap_state) : trap_state :=
  if negb (user_time_limit_ns s =? 0) then
    let timer_cnt := user_time_limit_ns s / 500000 in
    on_proc (set_timer (Some (500000, u64 (timer_cnt + timer_cnt / 1000 + 20)))) s
  else s.

Definition enter_user (num : Z) (tf : Trapframe) (s : trap_state) : resume * trap_state :=
  let s := set_run_user tf s in
  let s := set_gdt_table (<[Z.to_nat (Z.shiftr GDT_USER32_TLS 3) := 0]> (gdt s)) s in
  let s := on_proc (load_gdt (gdt s)) s in
  let s :=
    if num =? TRAP_RUN_USER32 then
      let s := on_proc (set_segments (Z.lor GDT_USER32_SS 3)) s in
      let s := user_callable 0x80 (set_idt 0x80 __trap_0x80_entry s) in
      on_proc (load_idt (idt s)) s
    else
      let s := on_proc (set_segments 0) s in
      let s := set_idt 0x80 (__traps 0x80) s in
      on_proc (load_idt (idt s)) s in
  let s := start_timer s in
  (to_user (negb (num =? TRAP_RUN_USER)), s).

Definition trap_handler (tf : Trapframe) (s : trap_state) : resume * trap_state :=
  let tf := set_tsc (u64 (tsc (tf_regs tf) - tsc_adjust (proc s))) tf in
  let s := on_proc (set_tsc_adjust 0) s in
  let num := s32 (tf_num tf) in
  if negb (Z.land (tf_cs tf) 3 =? 0) then
    let s := on_proc (set_timer None) s in
    let s := set_from_user tf (tf_rip tf) (cr2 (proc s)) s in
    let k := set_rax (u64 num) (tf_run_user s) in
    let k := set_tsc (u64 (tsc (tf_regs (tf_from_user s)) - tsc (tf_regs (tf_to_user s)))) k in
    let s := set_run_user k s in
    (trap_return k, s)
  else if num =? TRAP_IRQ + IRQ_TIMER then
    let s := on_proc (set_timer None) s in
    (trap_return (set_rflags (Z.ldiff (tf_rflags tf) 0x200) tf), s)
  else if (num =? TRAP_RUN_USER) || (num =? TRAP_RUN_USER32) then enter_user num tf s
  else (reboot, s).

(** ** set_thread_area *)

(** [orig_rsp] is the stack pointer at the return, [new_rsp] the user's. *)
Definition prepare_espfix (orig_rsp new_rsp : Z) (s : trap_state) : trap_state :=
  let base_addr := u64 (Z.shiftl (u64 (Z.shiftr orig_rsp 16 - Z.shiftr new_rsp 16)) 16) in
  let base_addr := u32 base_addr in
  let tmp := 0xffff in
  let tmp := Z.lor tmp (Z.shiftl (Z.land base_addr 0xffffff) 16) in
  let tmp := Z.lor tmp (u64 (Z.shiftl (Z.shiftr base_addr 24) 56)) in
  let tmp := Z.lor tmp 0x00cf920000000000 in
  set_espfix (u32 (u64 (orig_rsp - base_addr))) (set_gdt_table (<[Z.to_nat (Z.shiftr GDT_ESPFIX_SS 3) := tmp]> (gdt s)) s).

(** The segment descriptor of a [user_desc]. *)
Definition tls_descriptor (base_addr limit : Z) : Z :=
  let tmp := Z.land limit 0xffff in
  let tmp := Z.lor tmp (Z.shiftl (Z.land base_addr 0xffffff) 16) in
  let tmp := Z.lor tmp (u64 (Z.shiftl (Z.shiftr base_addr 24) 56)) in
  Z.lor tmp 0x00cff20000000000.

(** 32-bit words of user memory. *)
Context {U : Type}.
Class UserMem := { uread32 : Z -> U -> Z; uwrite32 : Z -> Z -> U -> U }.
Context `{UM : UserMem}.

(** Where [tf] is on the stack. *)
Inductive resume80 := trap_0x80_return (tf : Trapframe) | handled (r : resume).

Definition trap_0x80_handler (tf_rip_addr : Z) (tf : Trapframe) (u : U) (mem : memory) (s : trap_state)
    : option (resume80 * U * trap_state) :=
  let syscall_num := s32 (u32 (rax (tf_regs tf))) in
  if syscall_num =? DUCK_sys_set_thread_area then
    let rbx := u32 (rbx (tf_regs tf)) in
    let s := prepare_espfix tf_rip_addr (tf_rsp tf) s in
    first ← user_writable_check rbx mem;
    last ← (if (first : bool) then user_writable_check (rbx + USER_DESC_SIZE - 1) mem else Some false);
    let '(ret, u, s) :=
      if negb last then (- EFAULT, u, s)
      else
        let entry_number := uread32 rbx u in
        let base_addr := uread32 (rbx + 4) u in
        let limit := uread32 (rbx + 8) u in
        if negb (entry_number =? 2 ^ 32 - 1) && negb (entry_number =? GDT_USER32_TLS / 8) then (- EINVAL, u, s)
        else
          let s := set_gdt_table (<[Z.to_nat (Z.shiftr GDT_USER32_TLS 3) := tls_descriptor base_addr limit]> (gdt s)) s in
          let s := on_proc (load_gdt (gdt s)) s in
          (0, uwrite32 rbx (Z.shiftr GDT_USER32_TLS 3) u, s) in
    let s := if negb (ret =? 0) then on_proc (load_gdt (gdt s)) s else s in
    Some (trap_0x80_return (set_ss (Z.lor GDT_USER32_SS 3) (set_rax (u64 ret) tf)), u, s)
  else
    let '(r, s) := trap_handler tf s in Some (handled r, u, s).

(** ** Initialisation *)

Definition MSR_Efer : Z := 0xC0000080.
Definition MSR_Star : Z := 0xC0000081.
Definition MSR_LStar : Z := 0xC0000082.
Definition MSR_CStar : Z := 0xC0000083.
Definition MSR_SFMask : Z := 0xC0000084.

Definition init (s : trap_state) : trap_state :=
  let s := for_range 0 256 (fun i s => set_idt i (__traps i) s) s in
  let s := user_callable 3 s in
  let s := set_gate_ist TRAP_RUN_USER 7 s in
  let s := on_proc (load_idt (idt s)) s in
  let rsp0 := interrupt_stack 0 + STACK_SIZE in
  let ist := for_range 1 8 (fun i l => <[Z.to_nat i := interrupt_stack i + STACK_SIZE]> l) (ts_ist (task_state s)) in
  let s := set_task (mkTask rsp0 ist TASK_STATE_SIZE) (__syscall_stack s) s in
  let s := on_proc (fun p => load_tr GDT_TSS (load_gdt (gdt s) p)) s in
  let s := on_proc (fun p => wrmsr MSR_Efer (Z.lor (rdmsr MSR_Efer p) 1) p) s in
  let s := on_proc (wrmsr MSR_LStar __syscall_entry) s in
  let s := on_proc (wrmsr MSR_CStar __syscall_entry) s in
  let s := on_proc (wrmsr MSR_Star (Z.lor (Z.shiftl GDT_KERNEL_CS 32) (Z.shiftl GDT_USER32_CS 48))) s in
  let s := on_proc (wrmsr MSR_SFMask 0x200) s in
  set_task (task_state s) (ts_rsp0 (task_state s)) s.

(** ** Running user programs *)

Definition zero_regs : PushRegs := mkRegs 0 0 0 0 0 0 0 0 0 0 0 0 0 0 0 0.

Definition make_trapframe (rflags rip rsp : Z) : Trapframe :=
  mkTf (replicate 512 0) 0 zero_regs 0 0 rip (Z.lor GDT_USER_CS 3) (Z.lor (Z.ldiff rflags 0x8d5) 0x200) rsp
    (Z.lor GDT_USER_SS 3).

Definition make_trapframe_32 (rflags eip esp : Z) : Trapframe :=
  mkTf (replicate 512 0) 0 zero_regs 0 0 eip (Z.lor GDT_USER32_CS 3) (Z.lor (Z.ldiff rflags 0x8d5) 0x200) esp
    (Z.lor GDT_USER32_SS 3).

(** The counter as [rdtsc] reads it. *)
Definition rdtsc (p : cpu) : Z := u64 (clock p + tsc_adjust p).

(** [syscall_return_record_tsc] and its 32-bit twin: store the counter in the
    frame and set it to zero, which moves the adjustment by the same amount. *)
Definition return_record_tsc (s : trap_state) : trap_state :=
  let t := rdtsc (proc s) in
  let s := set_to_user (set_tsc t (tf_to_user s)) (user_time_limit_ns s) s in
  on_proc (fun p => set_tsc_adjust (u64 (tsc_adjust p - t)) p) s.

(** [__trap_entry] stores the counter in the frame. *)
Definition trap_entry (tf : Trapframe) (s : trap_state) : Trapframe := set_tsc (rdtsc (proc s)) tf.

Definition set_clock (c cr : Z) (p : cpu) : cpu :=
  mkCpu c (tsc_adjust p) (timer p) (segments p) (lgdt p) (lidt p) (tr p) cr (msrs p).

(** [int num]: the kernel enters the program, which traps with [ktf] on top of
    the stack before and [utf] after, when the counter shows [c] and the fault
    address register [cr]. [None] when the program is not entered or the kernel
    does not get control back. *)
Definition int_run_user (ktf utf : Trapframe) (c cr : Z) (s : trap_state) : option (Trapframe * trap_state) :=
  match trap_handler (trap_entry ktf s) s with
  | (to_user _, s) =>
      let s := return_record_tsc s in
      let s := on_proc (set_clock c cr) s in
      match trap_handler (trap_entry utf s) s with
      | (trap_return k, s) => Some (k, s)
      | _ => None
      end
  | _ => None
  end.

(** The outputs tsc, trap_num and return_code; [old_rc] is the value of the
    reference before the call. *)
Definition run_user_64 (entry rsp time_limit_ns rflags : Z) (ktf utf : Trapframe) (c cr old_rc : Z) (s : trap_state)
    : option (Z * Z * Z * trap_state) :=
  let s := set_to_user (make_trapframe rflags entry rsp) time_limit_ns s in
  '(k, s) ← int_run_user ktf utf c cr s;
  let trap_num := u8 (rax (tf_regs k)) in
  let t := tsc (tf_regs (tf_run_user s)) in
  let '(trap_num, return_code) :=
    if trap_num =? TRAP_SYSCALL then
      let syscall_num := s32 (rax (tf_regs (tf_from_user s))) in
      if syscall_num =? SYS_tkill then (TRAP_ABORT, old_rc)
      else if negb (syscall_num =? DUCK_sys_exit) then (TRAP_INVALID_SYSCALL, 0)
      else (trap_num, s32 (u32 (rdi (tf_regs (tf_from_user s)))))
    else (trap_num, 0) in
  Some (t, trap_num, return_code, s).

Definition run_user_32 (entry esp time_limit_ns rflags : Z) (ktf utf : Trapframe) (c cr old_rc : Z) (s : trap_state)
    : option (Z * Z * Z * trap_state) :=
  let s := set_to_user (make_trapframe_32 rflags entry esp) time_limit_ns s in
  '(k, s) ← int_run_user ktf utf c cr s;
  let trap_num := u8 (rax (tf_regs k)) in
  let t := tsc (tf_regs (tf_run_user s)) in
  let '(trap_num, return_code) :=
    if trap_num =? TRAP_SYSCALL32 then
      let syscall_num := s32 (u32 (rax (tf_regs (tf_from_user s)))) in
      if negb (syscall_num =? DUCK_sys_exit_32) then (TRAP_INVALID_SYSCALL, 0)
      else (TRAP_SYSCALL, s32 (u32 (rbx (tf_regs (tf_from_user s)))))
    else if trap_num =? TRAP_SYSCALL then (TRAP_INVALID_SYSCALL, 0)
    else (trap_num, 0) in
  Some (t, trap_num, return_code, s).
End trap.
