(* ===== verification/TrapClaims.v ===== *)
(** * Gates and user runs *)

From S2P Require Import Prelude Utils Memory Trap.

Section trap.
Context `{TS : TrapSymbols}.

(** ** Gates *)

(** What the processor reads from a gate. *)
Definition gate_target (g : InterruptDescriptor) : Z := ptr_low g + 2 ^ 16 * ptr_mid g + 2 ^ 32 * ptr_high g.
Definition gate_present (g : InterruptDescriptor) : bool := Z.testbit (options g) 7.
Definition gate_dpl (g : InterruptDescriptor) : Z := Z.land (Z.shiftr (options g) 5) 3.
Definition gate_type (g : InterruptDescriptor) : Z := Z.land (options g) 15.

Lemma gate_target_gate a : is_uint 64 a -> gate_target (gate a) = a.
Proof.
  intros Ha. unfold gate_target, gate, wrap, is_uint in *. cbn [ptr_low ptr_mid ptr_high].
  rewrite !Z.shiftr_div_pow2 by lia. change (2 ^ 16) with 65536. change (2 ^ 32) with 4294967296 in *.
  change (2 ^ 64) with 18446744073709551616 in Ha. dlia.
Qed.

Lemma init_gates s i : length (idt s) = 256%nat -> 0 <= i < 256 ->
  idt (for_range 0 256 (fun i s => set_idt i (__traps i) s) s) !! Z.to_nat i = Some (gate (__traps i)).
Proof.
  intros Hl Hi.
  pose proof (for_range_ind (fun k t => length (idt t) = 256%nat /\ forall j, 0 <= j < k -> idt t !! Z.to_nat j = Some (gate (__traps j)))
    0 256 (fun i s => set_idt i (__traps i) s) s) as [_ H].
  - lia.
  - split; [done|lia].
  - intros k t Hk [Ht Hj]. cbn [set_idt idt set_idt_table]. split; [by rewrite length_insert|]. intros j Hjk.
    destruct (decide (j = k)) as [->|Hne]; [apply list_lookup_insert_eq; lia|]. rewrite list_lookup_insert_ne by lia. apply Hj. lia.
  - by apply H.
Qed.

(** The table after [init]. *)
Lemma init_idt s : idt (init s) =
  idt (set_gate_ist TRAP_RUN_USER 7 (user_callable 3 (for_range 0 256 (fun i s => set_idt i (__traps i) s) s))).
Proof.
  unfold init. generalize (for_range 0 256 (fun i s => set_idt i (__traps i) s) s) as t. intros t. cbv zeta.
  generalize (for_range 1 8 (fun i (l : list Z) => <[Z.to_nat i := interrupt_stack i + STACK_SIZE]> l)). intros f. reflexivity.
Qed.

Lemma init_lidt s : lidt (proc (init s)) = idt (init s).
Proof.
  unfold init. generalize (for_range 0 256 (fun i s => set_idt i (__traps i) s) s) as t. intros t. cbv zeta.
  generalize (for_range 1 8 (fun i (l : list Z) => <[Z.to_nat i := interrupt_stack i + STACK_SIZE]> l)). intros f. reflexivity.
Qed.

Lemma init_gate_ok s i : length (idt s) = 256%nat -> 0 <= i < 256 -> is_uint 64 (__traps i) ->
  exists g, idt (init s) !! Z.to_nat i = Some g /\ gate_target g = __traps i /\ selector g = GDT_KERNEL_CS /\
    gate_present g = true /\ gate_type g = 14 /\ gate_dpl g = (if i =? 3 then 3 else 0) /\
    g_ist g = (if i =? TRAP_RUN_USER then 7 else 0) /\ lidt (proc (init s)) = idt (init s).
Proof.
  intros Hl Hi Ha. pose proof (init_gates s i Hl Hi) as Hg. rewrite init_lidt, !init_idt. cbn [set_gate_ist user_callable idt set_idt_table].
  set (T := idt (for_range _ _ _ s)) in *.
  destruct (Z.eqb_spec i 3) as [->|H3]; [|destruct (Z.eqb_spec i TRAP_RUN_USER) as [->|H7]].
  - rewrite list_lookup_alter_ne by done. rewrite list_lookup_alter_eq, Hg. eexists. split; [done|].
    split; [exact (gate_target_gate _ Ha)|]. by split_and!.
  - rewrite list_lookup_alter_eq, list_lookup_alter_ne, Hg by done. eexists. split; [done|].
    split; [exact (gate_target_gate _ Ha)|]. by split_and!.
  - rewrite !list_lookup_alter_ne by (unfold TRAP_RUN_USER in *; lia). exists (gate (__traps i)). split; [done|].
    split; [exact (gate_target_gate _ Ha)|]. by split_and!.
Qed.

(** C29: After initialisation every one of the 256 gates is a present interrupt
    gate on the kernel code segment that leads to the handler of its number; user
    programs may call only int3, and only the gate that starts 64-bit programs
    switches to the seventh stack. The processor has loaded exactly this table. *)
Theorem trap_init_gates s i : length (idt s) = 256%nat -> 0 <= i < 256 -> is_uint 64 (__traps i) ->
  exists g, idt (init s) !! Z.to_nat i = Some g /\ gate_target g = __traps i /\ selector g = GDT_KERNEL_CS /\
    gate_present g = true /\ gate_type g = 14 /\ gate_dpl g = (if i =? 3 then 3 else 0) /\
    g_ist g = (if i =? TRAP_RUN_USER then 7 else 0) /\ lidt (proc (init s)) = idt (init s).
Proof. exact (init_gate_ok s i). Qed.

(** ** User runs *)

(** A frame pushed in the kernel by the call gate, and one pushed by a trap of a
    user program. *)
Definition kernel_frame (num : Z) (tf : Trapframe) : Prop := Z.land (tf_cs tf) 3 = 0 /\ tf_num tf = num.
Definition user_frame (tf : Trapframe) : Prop := Z.land (tf_cs tf) 3 <> 0 /\ is_uint 8 (tf_num tf).

Lemma s32_small z : 0 <= z < 2 ^ 31 -> s32 z = z.
Proof. intros Hz. apply swrap_small; [lia|]. change (2 ^ (32 - 1)) with (2 ^ 31). lia. Qed.

(** A trap from a user program resumes the saved kernel frame. *)
Lemma handler_user tf s : user_frame tf ->
  let t := u64 (tsc (tf_regs tf) - tsc_adjust (proc s)) in
  let k := set_tsc (u64 (t - tsc (tf_regs (tf_to_user s)))) (set_rax (tf_num tf) (tf_run_user s)) in
  exists s', trap_handler tf s = (trap_return k, s') /\ tf_run_user s' = k /\
    tf_from_user s' = set_tsc t tf /\ __trap_epc s' = tf_rip tf /\ __trap_cr2 s' = cr2 (proc s) /\
    timer (proc s') = None /\ tsc_adjust (proc s') = 0 /\ idt s' = idt s /\ gdt s' = gdt s /\
    lidt (proc s') = lidt (proc s) /\ lgdt (proc s') = lgdt (proc s).
Proof.
  intros [H1 H2] t k. unfold trap_handler. cbv zeta. cbn [set_tsc tf_cs tf_num]. rewrite (proj2 (Z.eqb_neq _ 0) H1). cbn [negb].
  rewrite (s32_small (tf_num tf)), (wrap_small 64 (tf_num tf)) by (unfold is_uint in *; lia).
  eexists. split; [reflexivity|]. by split_and!.
Qed.

Lemma start_timer_fields s : let s' := start_timer s in
  tf_run_user s' = tf_run_user s /\ tf_to_user s' = tf_to_user s /\ idt s' = idt s /\ gdt s' = gdt s /\
  clock (proc s') = clock (proc s) /\ tsc_adjust (proc s') = tsc_adjust (proc s) /\ lidt (proc s') = lidt (proc s) /\
  lgdt (proc s') = lgdt (proc s) /\ segments (proc s') = segments (proc s) /\
  timer (proc s') = (if user_time_limit_ns s =? 0 then timer (proc s)
    else Some (500000, u64 (user_time_limit_ns s / 500000 + user_time_limit_ns s / 500000 / 1000 + 20))).
Proof. intros s'. unfold s', start_timer. destruct (user_time_limit_ns s =? 0); by split_and!. Qed.

(** The gate that starts a program saves the kernel frame and prepares the
    processor. *)
Lemma handler_run num tf s : num = TRAP_RUN_USER \/ num = TRAP_RUN_USER32 -> kernel_frame num tf ->
  exists s', trap_handler tf s = (to_user (num =? TRAP_RUN_USER32), s') /\
    tf_run_user s' = set_tsc (u64 (tsc (tf_regs tf) - tsc_adjust (proc s))) tf /\ tf_to_user s' = tf_to_user s /\
    clock (proc s') = clock (proc s) /\ tsc_adjust (proc s') = 0 /\ lidt (proc s') = idt s' /\ lgdt (proc s') = gdt s' /\
    segments (proc s') = (if num =? TRAP_RUN_USER32 then Z.lor GDT_USER32_SS 3 else 0) /\
    idt s' = idt (if num =? TRAP_RUN_USER32 then user_callable 0x80 (set_idt 0x80 __trap_0x80_entry s) else set_idt 0x80 (__traps 0x80) s) /\
    timer (proc s') = (if user_time_limit_ns s =? 0 then timer (proc s)
      else Some (500000, u64 (user_time_limit_ns s / 500000 + user_time_limit_ns s / 500000 / 1000 + 20))).
Proof.
  intros Hnum [H1 H2]. unfold trap_handler. cbv zeta. cbn [set_tsc tf_cs tf_num]. rewrite H1, H2. change (negb (0 =? 0)) with false. cbv iota.
  assert (s32 num = num /\ (num =? TRAP_IRQ + IRQ_TIMER) = false /\ ((num =? TRAP_RUN_USER) || (num =? TRAP_RUN_USER32)) = true /\
    negb (num =? TRAP_RUN_USER) = (num =? TRAP_RUN_USER32)) as (-> & -> & -> & En) by (destruct Hnum as [-> | ->]; done).
  unfold enter_user. cbv zeta. rewrite En. set (s2 := if num =? TRAP_RUN_USER32 then _ else _).
  exists (start_timer s2). split; [done|].
  destruct (start_timer_fields s2) as (F1 & F2 & F3 & F4 & F5 & F6 & F7 & F8 & F9 & F10).
  rewrite F1, F2, F3, F4, F5, F6, F7, F8, F9, F10. unfold s2. destruct (num =? TRAP_RUN_USER32); split_and!; reflexivity.
Qed.

Lemma int_run_user_ok num ktf utf c cr s : num = TRAP_RUN_USER \/ num = TRAP_RUN_USER32 ->
  kernel_frame num ktf -> user_frame utf ->
  let k := set_tsc (u64 (c - clock (proc s))) (set_rax (tf_num utf) ktf) in
  exists s', int_run_user ktf utf c cr s = Some (k, s') /\ tf_run_user s' = k /\
    tf_from_user s' = set_tsc (u64 c) utf /\ __trap_epc s' = tf_rip utf /\ __trap_cr2 s' = cr /\
    timer (proc s') = None /\ tsc_adjust (proc s') = 0 /\ lidt (proc s') = idt s' /\ lgdt (proc s') = gdt s' /\
    idt s' = idt (if num =? TRAP_RUN_USER32 then user_callable 0x80 (set_idt 0x80 __trap_0x80_entry s) else set_idt 0x80 (__traps 0x80) s).
Proof.
  intros Hnum Hk Hu k. unfold int_run_user.
  destruct (handler_run num (trap_entry ktf s) s Hnum Hk) as (s1 & -> & F1 & F2 & F3 & F4 & F5 & F6 & _ & F7 & _).
  set (s2 := on_proc (set_clock c cr) (return_record_tsc s1)).
  destruct (handler_user (trap_entry utf s2) s2 Hu) as (s' & -> & G1 & G2 & G3 & G4 & G5 & G6 & G7 & G8 & G9 & G10).
  assert (tsc_adjust (proc s2) = u64 (- u64 (clock (proc s))) /\ clock (proc s2) = c /\
    tsc (tf_regs (tf_to_user s2)) = u64 (clock (proc s)) /\ tf_run_user s2 = tf_run_user s1 /\ idt s2 = idt s1 /\ gdt s2 = gdt s1 /\
    lidt (proc s2) = lidt (proc s1) /\ lgdt (proc s2) = lgdt (proc s1) /\ cr2 (proc s2) = cr) as (A1 & A2 & A3 & A4 & A5 & A6 & A7 & A8 & A9).
  { unfold s2, return_record_tsc, rdtsc. cbn. rewrite F3, F4, Z.add_0_r, Z.sub_0_l. by split_and!. }
  assert (u64 (tsc (tf_regs (trap_entry utf s2)) - tsc_adjust (proc s2)) = u64 c) as Et.
  { cbn [trap_entry tf_regs set_tsc tsc]. unfold rdtsc. rewrite A1, A2. rewrite wrap_sub_l. f_equal. lia. }
  exists s'. rewrite Et, A3, A4, F1 in *. autorewrite with cxx_rw in G1 |- *.
  split; [done|]. split; [done|]. split; [done|]. split; [done|]. split; [by rewrite G4|].
  split; [done|]. split; [done|]. split; [by rewrite G9, A7, F5, G7, A5|]. split; [by rewrite G10, A8, F6, G8, A6|]. by rewrite G7, A5.
Qed.

(** The verdict on a trap of a 64-bit program. *)
Definition verdict_64 (utf : Trapframe) (old_rc trap rc : Z) : Prop :=
  if tf_num utf =? TRAP_SYSCALL then
    let call := s32 (rax (tf_regs utf)) in
    (call = SYS_tkill /\ trap = TRAP_ABORT /\ rc = old_rc) \/
    (call = DUCK_sys_exit /\ trap = TRAP_SYSCALL /\ rc = s32 (u32 (rdi (tf_regs utf)))) \/
    (call <> SYS_tkill /\ call <> DUCK_sys_exit /\ trap = TRAP_INVALID_SYSCALL /\ rc = 0)
  else trap = tf_num utf /\ rc = 0.

(** And of a 32-bit program, whose gate 0x80 is its system call. *)
Definition verdict_32 (utf : Trapframe) (trap rc : Z) : Prop :=
  if tf_num utf =? TRAP_SYSCALL32 then
    let call := s32 (u32 (rax (tf_regs utf))) in
    (call = DUCK_sys_exit_32 /\ trap = TRAP_SYSCALL /\ rc = s32 (u32 (rbx (tf_regs utf)))) \/
    (call <> DUCK_sys_exit_32 /\ trap = TRAP_INVALID_SYSCALL /\ rc = 0)
  else (tf_num utf = TRAP_SYSCALL /\ trap = TRAP_INVALID_SYSCALL /\ rc = 0) \/
    (tf_num utf <> TRAP_SYSCALL /\ trap = tf_num utf /\ rc = 0).

(** The kernel after a run of [ticks] from [s]: its own frame resumed with only
    [rax] and the stored counter changed, the timer stopped, the time stamp
    counter back on the clock, the tables in use those of the kernel. *)
Definition back_in_kernel (ktf utf : Trapframe) (ticks cr : Z) (s' : trap_state) : Prop :=
  tf_run_user s' = set_tsc ticks (set_rax (tf_num utf) ktf) /\ __trap_epc s' = tf_rip utf /\ __trap_cr2 s' = cr /\
  timer (proc s') = None /\ tsc_adjust (proc s') = 0 /\ lidt (proc s') = idt s' /\ lgdt (proc s') = gdt s'.

(** C30: Whatever trap ends a user program, running it returns to the kernel
    with its frame intact, reports exactly the ticks of the clock the program
    took whatever the counter was adjusted to, classifies the trap, and leaves
    the timer stopped; only a 32-bit run makes gate 0x80 callable by users. *)
Theorem run_user_exact entry rsp limit rflags ktf utf c cr old_rc s : user_frame utf -> length (idt s) = 256%nat ->
  let ticks := u64 (c - clock (proc s)) in
  (kernel_frame TRAP_RUN_USER ktf -> exists trap rc s',
     run_user_64 entry rsp limit rflags ktf utf c cr old_rc s = Some (ticks, trap, rc, s') /\
     verdict_64 utf old_rc trap rc /\ back_in_kernel ktf utf ticks cr s' /\
     gate_dpl <$> idt s' !! 128%nat = Some 0) /\
  (kernel_frame TRAP_RUN_USER32 ktf -> exists trap rc s',
     run_user_32 entry rsp limit rflags ktf utf c cr old_rc s = Some (ticks, trap, rc, s') /\
     verdict_32 utf trap rc /\ back_in_kernel ktf utf ticks cr s' /\
     gate_dpl <$> idt s' !! 128%nat = Some 3).
Proof.
  intros Hu Hl ticks. pose proof Hu as [_ Hn]. split; intros Hk.
  - unfold run_user_64. set (s0 := set_to_user _ limit s).
    destruct (int_run_user_ok TRAP_RUN_USER ktf utf c cr s0 (or_introl eq_refl) Hk Hu) as (s' & -> & R1 & R2 & R3 & R4 & R5 & R6 & R7 & R8 & R9).
    rewrite mbind_Some. rewrite R1, R2. cbn [set_tsc set_rax tf_regs rax tsc rdi]. rewrite (wrap_small 8 (tf_num utf)) by done.
    destruct (if tf_num utf =? TRAP_SYSCALL then _ else _) as [trap rc] eqn:Ev.
    exists trap, rc, s'. split; [reflexivity|]. split; [|split; [done|]].
    + unfold verdict_64. destruct (tf_num utf =? TRAP_SYSCALL) eqn:E; [|by injection Ev as <- <-]. bprop. rewrite E in Ev. cbv zeta in *.
      destruct (Z.eqb_spec (s32 (rax (tf_regs utf))) SYS_tkill); [injection Ev as <- <-; by left|].
      destruct (Z.eqb_spec (s32 (rax (tf_regs utf))) DUCK_sys_exit); cbn [negb] in Ev; injection Ev as <- <-; tauto.
    + rewrite R9. change (TRAP_RUN_USER =? TRAP_RUN_USER32) with false. cbv iota. cbn [set_idt idt set_idt_table].
      change (Z.to_nat 0x80) with 128%nat. rewrite list_lookup_insert_eq; [done|]. cbn. lia.
  - unfold run_user_32. set (s0 := set_to_user _ limit s).
    destruct (int_run_user_ok TRAP_RUN_USER32 ktf utf c cr s0 (or_intror eq_refl) Hk Hu) as (s' & -> & R1 & R2 & R3 & R4 & R5 & R6 & R7 & R8 & R9).
    rewrite mbind_Some. rewrite R1, R2. cbn [set_tsc set_rax tf_regs rax tsc rbx]. rewrite (wrap_small 8 (tf_num utf)) by done.
    destruct (if tf_num utf =? TRAP_SYSCALL32 then _ else _) as [trap rc] eqn:Ev.
    exists trap, rc, s'. split; [reflexivity|]. split; [|split; [done|]].
    + unfold verdict_32. destruct (tf_num utf =? TRAP_SYSCALL32) eqn:E; bprop; cbv zeta in *.
      * destruct (Z.eqb_spec (s32 (u32 (rax (tf_regs utf)))) DUCK_sys_exit_32); cbn [negb] in Ev; injection Ev as <- <-; tauto.
      * destruct (Z.eqb_spec (tf_num utf) TRAP_SYSCALL); injection Ev as <- <-; tauto.
    + rewrite R9. change (TRAP_RUN_USER32 =? TRAP_RUN_USER32) with true. cbv iota. cbn [set_idt idt set_idt_table user_callable].
      change (Z.to_nat 0x80) with 128%nat. rewrite list_lookup_alter_eq, list_lookup_insert_eq; [done|]. cbn. lia.
Qed.
End trap.

(** ** Witnesses *)

#[export] Instance example_symbols : TrapSymbols :=
  {| __traps := fun i => 0x100000 + 16 * i; __trap_0x80_entry := 0x102000; __syscall_entry := 0x102100;
     task_state_addr := 0x103000; interrupt_stack := fun i => 0x110000 + 4096 * i |}.

Definition blank_frame (num cs : Z) : Trapframe := mkTf [] 0 zero_regs num 0 0 cs 0 0 0.

Definition example_cpu : cpu := mkCpu 1000 0 None 0 [] [] 0 0 ∅.

Definition example_traps : trap_state :=
  mkTrap (replicate 256 (mkGate 0 0 0 0 0 0 0)) initial_gdt (blank_frame 0 8) (blank_frame 0 8) (blank_frame 0 8) 0 0 0 0
    (mkTask 0 (replicate 8 0) 0) 0 example_cpu.

(** A program that exits with code 3 after 500 ticks. *)
Definition example_exit : Trapframe :=
  mkTf [] 0 (mkRegs 0 0 0 0 3 0 0 0 0 0 0 0 0 0 60 0) 255 0 0 3 0 0 0.

Lemma trap_init_gates_witness : exists g, idt (init example_traps) !! 3%nat = Some g /\ gate_target g = 0x100030 /\ gate_dpl g = 3.
Proof.
  destruct (trap_init_gates example_traps 3) as (g & Hg & Ht & _ & _ & _ & Hd & _).
  - reflexivity.
  - lia.
  - unfold is_uint. cbn. lia.
  - exists g. split; [exact Hg|]. split; [exact Ht|exact Hd].
Defined.

Lemma run_user_exact_witness : exists trap rc s',
  run_user_64 0x400000 0x500000 1000000000 2 (blank_frame TRAP_RUN_USER 8) example_exit 1500 0 0 example_traps =
    Some (500, trap, rc, s') /\ trap = TRAP_SYSCALL /\ rc = 3.
Proof.
  destruct (run_user_exact 0x400000 0x500000 1000000000 2 (blank_frame TRAP_RUN_USER 8) example_exit 1500 0 0 example_traps) as [H64 _].
  - split; [discriminate|unfold is_uint; cbn; lia].
  - reflexivity.
  - destruct H64 as (trap & rc & s' & E & Hv & _); [split; reflexivity|]. exists trap, rc, s'. split; [exact E|].
    unfold verdict_64 in Hv. cbn in Hv. destruct Hv as [(Hc & _)|[(_ & Ht & Hr)|(_ & Hc & _)]].
    + discriminate Hc.
    + split; [exact Ht|exact Hr].
    + contradiction Hc. reflexivity.
Defined.
