(* ===== verification/NetworkDriver.v ===== *)
(** * lib/network_driver.cpp: network configuration and choice of the card

    The configuration comes from the boot command line, an array of 256 bytes
    ([Multiboot2_Loader::command_line]); reading past its end is [None], as is
    the reboot. A driver is the class [NetCard], which both drivers implement;
    the function pointers become the choice of an instance. *)

From S2P Require Import Prelude Stdio.

Record netconf := mkNetconf {
  nd_ip : list Z; nd_mac : list Z; nd_gateway : list Z; nd_prefix_len : Z; nd_server_ip : list Z;
  nd_do_not_send_answer : bool
}.

(** The static data before [init]. *)
Definition netconf_static : netconf :=
  mkNetconf (replicate 4 0) (replicate 6 0) (replicate 4 0) 0 (replicate 4 0) false.

(** Bytes assigned by [sscanf], in order, to an array. *)
Definition assign (vs : list value) (a : list Z) : list Z :=
  let l := (fun v => match v with Vint n => n | _ => 0 end) <$> vs in l ++ drop (length l) a.

Definition read_ip (s : list Z) (ip : list Z) : bool * list Z :=
  let vs := sscanf s "%hhu.%hhu.%hhu.%hhu" in
  (Z.of_nat (length vs) =? 4, assign vs ip).

Definition read_mac (s : list Z) (mac : list Z) : bool * list Z :=
  let vs := sscanf s "%hhx:%hhx:%hhx:%hhx:%hhx:%hhx" in
  (Z.of_nat (length vs) =? 6, assign vs mac).

Definition MAX_LEN : nat := 256.

(** The configuration and [has_valid_ip], [_mac], [_gateway], [_prefix_len],
    [_server_ip]. *)
Record parse := mkParse {
  pc : netconf; has_ip : bool; has_mac : bool; has_gateway : bool; has_prefix_len : bool; has_server_ip : bool
}.

(** The characters of a token, at most [room] of them, and the rest. *)
Fixpoint read_token (room : nat) (s : list Z) : option (list Z * list Z) :=
  match s with
  | [] => None
  | c :: s' =>
      match room with
      | S room' =>
          if (c =? 0) || (c =? 32) || (c =? 9) then Some ([], s)
          else '(buf, rest) ← read_token room' s'; Some (c :: buf, rest)
      | O => Some ([], s)
      end
  end.

Definition apply_token (buf : list Z) (p : parse) : parse :=
  let c := pc p in
  match sscanf buf " ip = %s " with
  | [Vstr w] =>
      let '(ok, ip) := read_ip w (nd_ip c) in
      mkParse (mkNetconf ip (nd_mac c) (nd_gateway c) (nd_prefix_len c) (nd_server_ip c) (nd_do_not_send_answer c))
        ok (has_mac p) (has_gateway p) (has_prefix_len p) (has_server_ip p)
  | _ => match sscanf buf " mac = %s " with
  | [Vstr w] =>
      let '(ok, mac) := read_mac w (nd_mac c) in
      mkParse (mkNetconf (nd_ip c) mac (nd_gateway c) (nd_prefix_len c) (nd_server_ip c) (nd_do_not_send_answer c))
        (has_ip p) ok (has_gateway p) (has_prefix_len p) (has_server_ip p)
  | _ => match sscanf buf " gateway = %s " with
  | [Vstr w] =>
      let '(ok, gw) := read_ip w (nd_gateway c) in
      mkParse (mkNetconf (nd_ip c) (nd_mac c) gw (nd_prefix_len c) (nd_server_ip c) (nd_do_not_send_answer c))
        (has_ip p) (has_mac p) ok (has_prefix_len p) (has_server_ip p)
  | _ => match sscanf buf " prefix_len = %hhu " with
  | [Vint n] =>
      mkParse (mkNetconf (nd_ip c) (nd_mac c) (nd_gateway c) n (nd_server_ip c) (nd_do_not_send_answer c))
        (has_ip p) (has_mac p) (has_gateway p) (n <=? 32) (has_server_ip p)
  | _ => match sscanf buf " server_ip = %s" with
  | [Vstr w] =>
      let '(ok, ip) := read_ip w (nd_server_ip c) in
      mkParse (mkNetconf (nd_ip c) (nd_mac c) (nd_gateway c) (nd_prefix_len c) ip (nd_do_not_send_answer c))
        (has_ip p) (has_mac p) (has_gateway p) (has_prefix_len p) ok
  | _ => match sscanf buf " do_not_send_answer = %s" with
  | [Vstr w] =>
      match sscanf w "%d" with
      | [Vint v] =>
          mkParse (mkNetconf (nd_ip c) (nd_mac c) (nd_gateway c) (nd_prefix_len c) (nd_server_ip c) (negb (v =? 0)))
            (has_ip p) (has_mac p) (has_gateway p) (has_prefix_len p) (has_server_ip p)
      | _ => p
      end
  | _ => p
  end end end end end end.

(** The loop over the command line: [s] is the array from [ch] on. The increment
    of the loop steps over the character that ended a token, whatever it is. *)
Fixpoint config_loop (fuel : nat) (s : list Z) (p : parse) : option parse :=
  match fuel with
  | O => None
  | S fuel =>
      match s with
      | [] => None
      | c :: s' =>
          if c =? 0 then Some p
          else if c =? 32 then config_loop fuel s' p
          else
            '(buf, rest) ← read_token (MAX_LEN - 1) s;
            config_loop fuel (tail rest) (apply_token buf p)
      end
  end.

Definition default_mac : list Z := [0x52; 0x54; 0x00; 0x12; 0x34; 0x56].

Definition set_mac (m : list Z) (c : netconf) : netconf :=
  mkNetconf (nd_ip c) m (nd_gateway c) (nd_prefix_len c) (nd_server_ip c) (nd_do_not_send_answer c).

(** Every turn of the loop reads a byte of the array. *)
Definition read_network_config (cmdline : list Z) (c : netconf) : option (bool * netconf) :=
  p ← config_loop (S (length cmdline)) cmdline (mkParse c false false false false false);
  if negb (has_ip p) || negb (has_gateway p) || negb (has_prefix_len p) then Some (false, pc p)
  else
    let c := if negb (has_mac p) then set_mac default_mac (pc p) else pc p in
    if negb (has_server_ip p) then None else Some (true, c).

(** ** Cards *)

(** A driver on the machine [X]: [init] reports the address it uses. *)
Class NetCard (X : Type) := {
  card_init : list Z -> X -> option (bool * list Z * X);
  card_send : list Z -> X -> option (Z * X);
  card_receive : X -> option (Z * list Z * X);
  card_flush : X -> Z * X
}.

Definition default_conf (c : netconf) : netconf :=
  mkNetconf [10; 0; 2; 123] default_mac [0; 0; 0; 0] 0 (nd_server_ip c) (nd_do_not_send_answer c).

(** The configuration, the chosen driver and the machine. *)
Definition init {X} (e1000 virtio_net : NetCard X) (cmdline : list Z) (c : netconf) (x : X)
    : option (netconf * option (NetCard X) * X) :=
  '(ok, c) ← read_network_config cmdline c;
  let c := if (ok : bool) then c else default_conf c in
  '(ok, mac, x) ← @card_init X e1000 (nd_mac c) x;
  let c := set_mac mac c in
  if (ok : bool) then Some (c, Some e1000, x)
  else
    '(ok, mac, x) ← @card_init X virtio_net (nd_mac c) x;
    let c := set_mac mac c in
    if (ok : bool) then Some (c, Some virtio_net, x) else Some (c, None, x).

Example config_example :
  read_network_config
    (bytes_of_string "ip=10.1.2.3 gateway=10.1.2.1 prefix_len=24 mac=0a:1b:2c:3D:4e:5f server_ip=8.8.4.4" ++ replicate 174 0)
    netconf_static =
  Some (true, mkNetconf [10; 1; 2; 3] [10; 27; 44; 61; 78; 95] [10; 1; 2; 1] 24 [8; 8; 4; 4] false).
Proof. vm_compute. reflexivity. Qed.
