(* ===== verification/KernMain.v ===== *)
(** * kern/kern_main.cpp: bringing the kernel up

    [main] initialises one component after the other and enters the loop of the
    client. What the firmware and the processor show to it is a record; the
    static data of all components is another. [print_hello] and the log messages
    only print, and [run_tests] returns at once. *)

From S2P Require Import Prelude Utils Timer Console Memory Multiboot Interrupts Trap Pci NetworkDriver Contestant.

(** The end of the kernel's data, the boot information, physical memory below
    4 GiB, [cpuid], the time stamp counter at [Timer::init], the version register
    of the local APIC, and what its command register and the ACPI control port
    read in turn. *)
Record firmware := mkFirmware {
  fw_ebss : Z; fw_info : list Z; fw_low : Z -> Z; fw_cpuid : Z -> Z * Z * Z * Z; fw_tsc : Z; fw_ver : Z;
  fw_icr : list Z; fw_pm1 : list Z
}.

(** ** The client's glue *)

Definition IA32_MISC_ENABLE : Z := 416.
Definition TURBO_MODE_DISABLE : Z := 2 ^ 38.
Definition IA32_PERF_CTL : Z := 409.

Definition enable_turbo_boost (p : cpu) : cpu :=
  let p := wrmsr IA32_MISC_ENABLE (Z.land (rdmsr IA32_MISC_ENABLE p) (not64 TURBO_MODE_DISABLE)) p in
  wrmsr IA32_PERF_CTL (Z.shiftl 46 8) p.

(** The clock of lwip, in milliseconds. *)
Definition sys_now (t : Timer.clock) (now : Z) : Z := u32 (ns_since_epoch t now / 1000000).

(** [netif_output]: a frame of lwip is copied into a buffer of [MTU] bytes
    ([None] when it does not fit) and handed to the card; what the card answers
    is ignored. *)
Definition netif_output {X} (card : NetCard X) (p : list Z) (x : X) : option X :=
  if MTU <? Z.of_nat (length p) then None
  else r ← card_send p x; Some r.2.

Section main.
Context {M : Type} `{PM : PortIO M} `{TS : TrapSymbols} `{L : Lwip}.

(** The machine behind the ports and the list of PCI functions are what the
    drivers of the cards work on. *)
Record kernel := mkKernel {
  k_log : logger; k_loader : loader; k_pic : pic; k_clock : Timer.clock; k_lapic : option lapic; k_trap : trap_state;
  k_pci : Pci.pci M; k_net : netconf; k_card : option (NetCard (Pci.pci M)); k_contestant : contestant
}.

(** The static data; the screen, the chips, the memory and the processor are as
    the boot code leaves them. *)
Definition kernel_static (lg : logger) (m : memory) (c1 c2 : chip) (t : trap_state) (x : M) : kernel :=
  mkKernel lg (mkLoader m (replicate 256 0)) (pic_static c1 c2) (Timer.mkClock 0 0 0 0) None t (mkPci x []) netconf_static None
    contestant_static.

Variable rdtsc : nat -> Z.
Variables e1000 virtio_net : NetCard (Pci.pci M).

(** [main] up to the loop of [Contestant::run], whose first step is
    [contestant_init] with the switch to the turbo mode. [Contestant::init] only
    sets up lwip. *)
Definition main (f : firmware) (k : kernel) : option kernel :=
  let lg := logger_init (k_log k) in
  ld ← Multiboot.load (fw_ebss f) (fw_info f) (k_loader k);
  let p := pic_init (k_pic k) in
  t ← Timer.init (fw_cpuid f) (fw_tsc f) (k_clock k);
  l ← lapic_init (fw_low f) t (fw_ver f) (fw_icr f) (fw_pm1 f);
  m ← Memory.init (fw_ebss f) (ld_mem ld);
  let tr := Trap.init (k_trap k) in
  x ← Pci.init (k_pci k);
  n ← NetworkDriver.init e1000 virtio_net (ld_cmd ld) (k_net k) x.2;
  let '(conf, card, x) := n in
  c ← contestant_init rdtsc (nd_do_not_send_answer conf) (Timer.tsc_freq t) (k_contestant k);
  Some (mkKernel lg (mkLoader m (ld_cmd ld)) p t (Some l.2) (on_proc enable_turbo_boost tr) x conf card c).
End main.

Arguments kernel : clear implicits.
