(* ===== verification/KernMainClaims.v ===== *)
(** * The kernel comes up

    The initialisations of all components, one after the other, on any machine
    that has what they need. *)

From S2P Require Import Prelude Utils Timer Console Memory MemoryProofs MemoryTables MemoryInit MemoryPaging MemoryFrames MemoryFlags Multiboot MultibootClaims MemoryClaims Interrupts InterruptsClaims Trap TrapClaims Pci PciProofs PciClaims NetworkDriver Contestant ContestantProofs ContestantClaims KernMain.

(** ** The single steps *)

(** The clock is detected unless the processor reports a ratio over zero. *)
Definition clock_ok (cpuid : Z -> Z * Z * Z * Z) : Prop := let '(a, b, _, _) := cpuid 0x15 in b <> 0 -> a <> 0.

Lemma timer_init_ok cpuid tsc t : clock_ok cpuid ->
  exists t', Timer.init cpuid tsc t = Some t' /\ Timer.ext_freq t' <> 0 /\ Timer.tsc_epoch t' = tsc.
Proof.
  unfold clock_ok. destruct (cpuid 0x15) as [[[a b] c] d] eqn:E. intros H. unfold Timer.init. destruct (bool_decide _); cycle 1.
  { rewrite mbind_Some. eexists. split; [done|]. by split. }
  unfold detect_cpu_speed_intel, get_tsc_clock_ratio. rewrite E. destruct (Z.eqb_spec b 0) as [->|Hb].
  { rewrite !mbind_Some. eexists. split; [done|]. by split. }
  rewrite (proj2 (Z.eqb_neq a 0)) by (by apply H). rewrite !mbind_Some. eexists. split; [done|]. cbn [ext_freq tsc_epoch].
  split; [|done]. by destruct (Z.eqb_spec c 0).
Qed.

Lemma poll_ok done l : existsb done l = true -> is_Some (poll done l).
Proof. induction l as [|v l IH]; cbn [existsb poll]; [discriminate|]. destruct (done v); [by eexists|]. exact IH. Qed.

(** The tables the pointer leads to name a local APIC, the firmware hands over
    to ACPI and the command register becomes idle. *)
Record lapic_present (low : Z -> Z) (icr pm1 : list Z) (base : Z) : Prop := {
  lp_madt : exists madt fadt, scan_rsdt low (ld low 4 (find_rdsp low + 16)) = (madt, fadt) /\ madt <> 0 /\ ld low 4 (madt + 36) = base;
  lp_pm1 : existsb (fun v => negb (Z.land v 1 =? 0)) pm1 = true;
  lp_icr : existsb (fun v => Z.land v DELIVS =? 0) icr = true
}.

Lemma lapic_init_ok low t ver icr pm1 base : lapic_present low icr pm1 base -> Timer.ext_freq t <> 0 ->
  exists r l, lapic_init low t ver icr pm1 = Some (r, l) /\ lapic_addr l = remap base.
Proof.
  intros [(madt & fadt & Es & Hm & <-) Hp Hi] Ht. unfold lapic_init. rewrite Es, (proj2 (Z.eqb_neq _ _) Hm).
  destruct (poll_ok _ _ Hp) as [pm1' Ep]. destruct (poll_ok _ _ Hi) as [icr' Ei].
  assert (exists r, (if negb (fadt =? 0) then switch_to_acpi_mode low fadt pm1 else Some (None, pm1)) = Some r) as [r ->].
  { destruct (negb _); [|by eexists]. unfold switch_to_acpi_mode. rewrite Ep. destruct (_ =? 0); [by eexists|]. destruct (_ =? 0); by eexists. }
  rewrite mbind_Some, Ei, mbind_Some, (proj2 (Z.eqb_neq _ _) Ht). eexists _, _. split; [done|]. by destruct (4 <=? _).
Qed.

(** The command line the tags leave in its array. *)
Definition command_line (ts : list tag) : list Z :=
  foldl (fun cmd t => match t with TCmdline c => (c ++ replicate (255 - length c) 0) ++ drop 255 cmd | _ => cmd end) (replicate 256 0) ts.

Lemma effects_command_line ebss ts s s' : effects ebss ts s s' ->
  ld_cmd s' = foldl (fun cmd t => match t with TCmdline c => (c ++ replicate (255 - length c) 0) ++ drop 255 cmd | _ => cmd end) (ld_cmd s) ts.
Proof.
  induction 1 as [s|t ts s s1 s' Ht _ ->]; [done|]. cbn [foldl]. f_equal. destruct t; cbn in Ht; [by destruct Ht|by destruct Ht|by subst].
Qed.

(** The turbo mode is on, and the gates are not touched. *)
Lemma turbo_ok t : let p := proc (on_proc enable_turbo_boost t) in
  lidt p = lidt (proc t) /\ Z.testbit (rdmsr IA32_MISC_ENABLE p) 38 = false.
Proof.
  split; [reflexivity|]. unfold enable_turbo_boost, rdmsr, wrmsr, on_proc, set_proc. cbn [proc msrs]. rewrite lookup_insert_ne, lookup_insert_eq by done.
  cbn [default from_option id]. rewrite Z.land_spec. by rewrite andb_false_r.
Qed.

(** A full packet of lwip, 1500 bytes behind the 14 of the Ethernet header, does
    not fit into the buffer. *)
Lemma netif_output_overflow {X} (card : NetCard X) header packet x :
  length header = 14%nat -> length packet = 1500%nat -> netif_output card (header ++ packet) x = None.
Proof. intros Hh Hp. unfold netif_output. rewrite length_app, Hh, Hp. done. Qed.

Section claims.
Context {M : Type} `{PM : PortIO M} `{VM : !ConfigView M} `{LM : !ConfigLaws M}.
Context `{TS : TrapSymbols} `{L : Lwip}.

Lemma network_init_ok {X} (e1000 virtio_net : NetCard X) cmd conf x :
  read_network_config cmd netconf_static = Some (true, conf) ->
  (forall mac x, is_Some (@card_init X e1000 mac x)) -> (forall mac x, is_Some (@card_init X virtio_net mac x)) ->
  exists mac card x', NetworkDriver.init e1000 virtio_net cmd netconf_static x = Some (set_mac mac conf, card, x').
Proof.
  intros Hc H1 H2. unfold NetworkDriver.init. rewrite Hc, mbind_Some. destruct (H1 (nd_mac conf) x) as [[[ok mac] x1] ->]. rewrite mbind_Some.
  destruct ok; [by eexists _, _, _|]. destruct (H2 (nd_mac (set_mac mac conf)) x1) as [[[ok mac'] x2] ->]. rewrite mbind_Some.
  destruct ok; by eexists _, _, _.
Qed.

(** What [main] needs: boot tags whose memory holds the page tables and whose
    command line configures the network, a clock, a local APIC, and buses and
    cards as in the theorems about PCI. *)
Record machine_ok (f : firmware) (ts : list tag) (conf : netconf) (base : Z) (layout : Func -> list region) (x : M) : Prop := {
  mo_info : fw_info f = replicate 8 0 ++ concat (encode_tag <$> ts) ++ end_tag;
  mo_ebss : 0 <= fw_ebss f <= kernel_break;
  mo_tags : Forall tag_ok ts;
  mo_fit m : registered m -> (forall i, avail (huge_page_map m) i <-> available (fw_ebss f) ts i) -> tables_fit m;
  mo_conf : read_network_config (command_line ts) netconf_static = Some (true, conf);
  mo_clock : clock_ok (fw_cpuid f);
  mo_lapic : lapic_present (fw_low f) (fw_icr f) (fw_pm1 f) base;
  mo_base : 0 <= base < 2 ^ 39;
  mo_buses : buses_numbered (conf_regs x);
  mo_cards : cards_described (conf_regs x) layout
}.

(** The kernel in operation. *)
Record kernel_up (f : firmware) (ts : list tag) (conf : netconf) (base : Z) (rdtsc : nat -> Z) (k : kernel M) : Prop := {
  ku_pic : wired (k_pic k);
  ku_lines i : 0 <= i < 16 -> line_open (k_pic k) i = (i =? IRQ_SLAVE);
  ku_kernel v : 0 <= v < kernel_break -> exists es, translate (ld_mem (k_loader k)) v = Some (v, es) /\ user_access es = false;
  ku_user v : kernel_break <= v < vaddr_break (ld_mem (k_loader k)) -> exists h es, available (fw_ebss f) ts h /\
    translate (ld_mem (k_loader k)) v = Some (h * HUGE_PAGE_SIZE + v mod HUGE_PAGE_SIZE, es) /\ user_access es = false;
  ku_lapic : exists l es, k_lapic k = Some l /\ translate (ld_mem (k_loader k)) (lapic_addr l) = Some (base, es) /\ user_access es = false;
  ku_gates i : 0 <= i < 256 -> is_uint 64 (__traps i) -> exists g, lidt (proc (k_trap k)) !! Z.to_nat i = Some g /\
    gate_target g = __traps i /\ gate_present g = true /\ gate_dpl g = (if i =? 3 then 3 else 0);
  ku_turbo : Z.testbit (rdmsr IA32_MISC_ENABLE (proc (k_trap k))) 38 = false;
  ku_net : exists mac, k_net k = set_mac mac conf;
  ku_client : reachable rdtsc (nd_do_not_send_answer conf) (Timer.tsc_freq (k_clock k)) (k_contestant k)
}.

End claims.

(** ** A machine

    100 huge pages, the ACPI pointer at 0xe0000, the tables at 4096 and 8192, and
    the bus of the theorems about PCI. *)

Definition example_tables : list (Z * list Z) :=
  [(0xe0000, bytes_of_string "RSD PTR " ++ [209] ++ replicate 7 0 ++ le_bytes 4 4096);
   (4096, bytes_of_string "RSDT" ++ le_bytes 4 40 ++ replicate 28 0 ++ le_bytes 4 8192);
   (8192, bytes_of_string "APIC" ++ le_bytes 4 44 ++ replicate 28 0 ++ le_bytes 4 0xfee00000)].

(** The byte of the first table that covers the address. *)
Fixpoint example_low (l : list (Z * list Z)) (a : Z) : Z :=
  match l with
  | [] => 0
  | (b, bytes) :: l => if (b <=? a) && (a <? b + Z.of_nat (length bytes)) then nth (Z.to_nat (a - b)) bytes 0 else example_low l a
  end.

Definition example_tags : list tag :=
  [TMmap [example_entry 100]; TCmdline (bytes_of_string "ip=10.0.2.15 gateway=10.0.2.2 prefix_len=24 server_ip=10.0.2.3")].

Definition example_firmware : firmware :=
  mkFirmware 1048576 (replicate 8 0 ++ concat (encode_tag <$> example_tags) ++ end_tag) (example_low example_tables) (fun _ => (0, 0, 0, 0))
    1000 0x50014 [0x1000; 0] [0; 1].

Definition example_conf : netconf := mkNetconf [10; 0; 2; 15] default_mac [10; 0; 2; 2] 24 [10; 0; 2; 3] false.

(** A card that is always there and carries nothing. *)
Definition example_card : NetCard (Pci.pci example_machine) := {|
  card_init mac x := Some (true, mac, x);
  card_send _ x := Some (0, x);
  card_receive x := Some (-1, [], x);
  card_flush x := (0, x)
|}.

Definition example_logger : logger :=
  mkLogger LL_INFO false 0 (mkStdio [] (mkIo (the_writer (replicate 25 (replicate 80 (mkChar 32 7)))) 0 0)).

Lemma example_memory m : registered m -> (forall i, avail (huge_page_map m) i <-> available 1048576 example_tags i) -> tables_fit m.
Proof.
  intros Hr Ha. assert (forall x, 0 <= x -> rank (huge_page_map m) x = Z.min 100 (Z.max 0 (x - 8))) as Hrk.
  { intros x Hx. apply rank_contiguous; [|lia|done]. intros i. rewrite Ha. unfold available, covers, example_tags, example_entry.
    change kernel_break with 16777216. change HUGE_PAGE_SIZE with 2097152. split.
    - intros (es & e & [[= ->]|[H|H]%elem_of_cons]%elem_of_cons & He & Hc); [|discriminate|by apply elem_of_nil in H].
      apply elem_of_cons in He as [->|He]; [|by apply elem_of_nil in He]. cbn [e_addr e_len e_type] in Hc. lia.
    - intros Hi. eexists _, _. split; [by left|]. split; [by left|]. cbn [e_addr e_len e_type]. split; [done|]. lia. }
  assert (n_huge_pages m = 100) as Hn by (rewrite (rg_n _ Hr), Hrk by done; change MAX_N_HUGE_PAGES with 261632; lia).
  unfold tables_fit. rewrite Hn, Hrk by lia. by change (table_pages 100) with 1.
Qed.

Lemma example_machine_ok : machine_ok example_firmware example_tags example_conf 0xfee00000 example_layout example_bus.
Proof.
  split.
  - reflexivity.
  - unfold kernel_break. cbn. lia.
  - apply Forall_cons. split; [|apply Forall_cons; split; [|apply Forall_nil; exact I]].
    + split; [by vm_compute|]. apply Forall_singleton. unfold entry_ok, is_uint. by vm_compute.
    + split; [by vm_compute|]. split; [vm_compute; lia|]. apply (bool_decide_unpack _). by vm_compute.
  - exact example_memory.
  - vm_compute. reflexivity.
  - intros H. by contradict H.
  - split; [|reflexivity|reflexivity]. exists 8192, 0. split; [vm_compute; reflexivity|]. split; [discriminate|vm_compute; reflexivity].
  - lia.
  - exact example_numbered.
  - exact example_cards.
Qed.

