(* ===== verification/DuckServer.v ===== *)
(** * kern/duck_server.cpp: the judging service

    UDP messages to port 9999 become operations of the [Judger]. A message is
    the list of its bytes; a reply is the text sent back, [None] when there is
    none. The replies are written over the message inside the packet buffer;
    their lengths are the subject of [duck_reply_fits]. Hardware readings are a
    record, sampled when a message is handled. *)

From Stdlib Require Import SpecFloat.
From S2P Require Import Prelude DucknetUtils Ducknet DuckCache Utils Timer Stdio Memory Judger NetworkDriver.

(** Readings of the counter, the model specific registers and the microcode. *)
Record hw := mkHw { hw_tsc : Z; rdmsr : Z -> Z; microcode_revision : Z }.

Definition DUCK_UDP_PORT : Z := 9999.
Definition MAX_QUERY_LEN : Z := 1400.

Definition text : string -> list Z := bytes_of_string.

Definition LF : string := String (Ascii.ascii_of_nat 10) EmptyString.

Definition starts_with (s : list Z) (p : string) : bool :=
  bool_decide (take (length (text p)) s = text p).

Definition equals_to (s : list Z) (p : string) : bool := bool_decide (s = text p).

(** [Timer::secf_since_epoch] *)
Definition secf_since_epoch (t : clock) (now : Z) : spec_float :=
  if tsc_epoch t =? 0 then S754_finite true 1 0
  else ddiv (to_double (tsc_since_epoch t now)) (to_double (Timer.tsc_freq t)).

Record server (E : Type) := mkServer { srv_judger : judger E; srv_clock : clock; microcode_orig_rev : Z }.
Arguments mkServer {E}.
Arguments srv_judger {E} _.
Arguments srv_clock {E} _.
Arguments microcode_orig_rev {E} _.

Section server.
Context {E A : Type} `{EO : Elf E A} `{SI : SortIds}.
Implicit Types (s : server E) (j : judger E).

Definition set_judger j s : server E := mkServer j (srv_clock s) (microcode_orig_rev s).

(** What a [process_*] function does with a message it recognises: the reply and
    the state; [None] is [return false]. *)
Definition handled : Type := option (option (list Z) * server E).

(** ** Controls *)

Definition MSR_TEMPERATURE_TARGET : Z := 0x1a2.
Definition IA32_THERM_STATUS : Z := 0x19c.

Definition cpu_temp (h : hw) : Z :=
  let temp_target := extract_bits (rdmsr h MSR_TEMPERATURE_TARGET) 23 16 in
  u64 (temp_target - extract_bits (rdmsr h IA32_THERM_STATUS) 22 16).

Definition process_controls (h : hw) (content : list Z) s : handled :=
  let j := srv_judger s in
  if equals_to content "uptime" then
    Some (Some (sprintf "uptime %lu" [Vint (trunc_double (secf_since_epoch (srv_clock s) (hw_tsc h)))]), s)
  else if equals_to content "statistics" then
    let stat := get_statistics j in
    Some (Some (sprintf "statistics %lu %lu" [Vint (st_n_judges stat); Vint (st_total_time_ns stat)]), s)
  else if equals_to content "cpu-temp" then Some (Some (sprintf "cpu-temp %lu" [Vint (cpu_temp h)]), s)
  else if equals_to content "sysinfo" then
    Some (Some (sprintf ("microcode-orig-rev = 0x%02x" +:+ LF +:+ "microcode-current-rev = 0x%02x" +:+ LF)
                  [Vint (microcode_orig_rev s); Vint (microcode_revision h)]), s)
  else None.

(** ** Buffer *)

(** The reply when the operation succeeded. *)
Definition when (b : bool) (reply : list Z) : option (list Z) := if b then Some reply else None.

Definition process_data (content : list Z) s : handled :=
  let j := srv_judger s in
  if equals_to content "query-buffer-size" then
    Some (Some (sprintf "ok-query-buffer-size %lu" [Vint (query_buffer_size j)]), s)
  else match sscanf content "clear-buffer %lu %lu" with
  | [Vint q_off; Vint q_len] =>
      let '(b, j) := clear_buffer q_off q_len j in
      Some (when b (sprintf "ok-clear-buffer %lu %lu" [Vint q_off; Vint q_len]), set_judger j s)
  | _ => match sscanf content "read-buffer %lu %lu" with
  | [Vint q_off; Vint q_len] =>
      if MAX_QUERY_LEN <? q_len then Some (None, s)
      else match read_buffer q_off q_len j with
      | Some q_res => Some (Some (text "ok-read-buffer" ++ le_bytes 8 q_off ++ q_res), s)
      | None => Some (None, s)
      end
  | _ =>
  if starts_with content "write-buffer" then
    let data := drop (length (text "write-buffer")) content in
    if Z.of_nat (length data) <? 8 then Some (None, s)
    else
      let q_off := load_le 8 0 data in
      let '(b, j) := write_buffer q_off (drop 8 data) j in
      Some (when b (sprintf "ok-write-buffer %lu %lu" [Vint q_off; Vint (Z.of_nat (length data) - 8)]), set_judger j s)
  else match sscanf content "copy-buffer %lu %lu %lu" with
  | [Vint q_off; Vint q_off2; Vint q_len] =>
      let '(b, j) := copy_buffer q_off q_off2 q_len j in
      Some (when b (sprintf "ok-copy-buffer %lu %lu %lu" [Vint q_off; Vint q_off2; Vint q_len]), set_judger j s)
  | _ => match sscanf content "compare-buffer %lu %lu %lu" with
  | [Vint q_off; Vint q_off2; Vint q_len] =>
      match compare_buffer q_off q_off2 q_len j with
      | Some r =>
          Some (Some (sprintf "ok-compare-buffer %lu %lu %lu %lu" [Vint q_off; Vint q_off2; Vint q_len; Vint (Z.b2z r)]), s)
      | None => Some (None, s)
      end
  | _ => None
  end end end end.

(** ** Judging *)

Definition judge_format : string :=
  "judge %lu %lu %lu " +:+ "%lu %lu %lu %lu %lu %lu %lu %lu" +:+ "%lu %lu %lu %lu %lu".

Definition request_of (vs : list value) : option JudgeRequest :=
  match vs with
  | [Vint seq; Vint tl; Vint mhl; Vint eo; Vint el; Vint io; Vint il; Vint oo; Vint ol; Vint ro; Vint rl;
     Vint bo; Vint bl; Vint po; Vint pl; Vint nc] =>
      Some (mkRequest seq tl mhl (mkBuffer eo el) (mkBuffer io il) (mkBuffer oo ol) (mkBuffer ro rl) (mkBuffer bo bl)
              (mkBuffer po pl) nc)
  | _ => None
  end.

Definition status (r : JudgeResult) : string :=
  if is_RE r then "Runtime Error" else if is_TLE r then "Time Limit Exceeded" else "Run Finished".

Definition result_format : string :=
  "ok-judge" +:+ LF +:+ "count-inst %lu" +:+ LF +:+ "clk-thread %lu" +:+ LF +:+ "clk-ref-tsc %lu" +:+ LF +:+
  "clock-MHz %.5lf" +:+ LF +:+ "tsc-MHz %lu" +:+ LF +:+ "ext-MHz %lu" +:+ LF +:+ "time-ns %lu" +:+ LF +:+
  "time-ns-ref-tsc %lu" +:+ LF +:+ "time-ns-real %lu" +:+ LF +:+ "time-tsc %lu" +:+ LF +:+ "memory-kb %lu" +:+ LF +:+
  "memory-kb-accessed %lu" +:+ LF +:+ "stdout-size %lu" +:+ LF +:+ "stderr-size %lu" +:+ LF +:+ "return-code %d" +:+ LF +:+
  "trap-num %d" +:+ LF +:+ "trap-epc 0x%lx" +:+ LF +:+ "trap-cr2 0x%lx" +:+ LF +:+ "status %s" +:+ LF.

Definition judge_reply (t : clock) (r : JudgeResult) : list Z :=
  match error r with
  | Some e => sprintf ("ok-judge" +:+ LF +:+ "Judge Failed" +:+ LF +:+ "%s" +:+ LF) [Vstr (text e)]
  | None =>
      let tsc_MHz := Timer.tsc_freq t / 1000000 in
      let ext_MHz := ext_freq t / 1000000 in
      let clock_MHz := if negb (clk_ref_tsc r =? 0)
                       then dmul (ddiv (to_double (clk_thread r)) (to_double (clk_ref_tsc r))) (to_double tsc_MHz)
                       else S754_zero false in
      sprintf result_format
        [Vint (count_inst r); Vint (clk_thread r); Vint (clk_ref_tsc r); Vfloat clock_MHz; Vint tsc_MHz; Vint ext_MHz;
         Vint (time_ns r); Vint (time_ns_ref_tsc r); Vint (time_ns_real r); Vint (time_tsc r); Vint (memory_kb r);
         Vint (memory_kb_accessed r); Vint (stdout_size r); Vint (stderr_size r); Vint (return_code r); Vint (trap_num r);
         Vint (trap_epc r); Vint (trap_cr2 r); Vstr (text (status r))]
  end.

Definition process_judge (content : list Z) s : handled :=
  match request_of (sscanf content judge_format) with
  | Some req =>
      let '(r, j) := judge req (srv_judger s) in
      Some (Some (judge_reply (srv_clock s) r), set_judger j s)
  | None => None
  end.

(** ** Caches *)

(** [DuckCache::info] *)
Definition info (c : DuckCache) : list Z :=
  sprintf "size %lu, n_objects %lu / %lu, n_pages %lu / %lu"
    [Vint (cache_size c); Vint (n_cur_objects c); Vint (n_max_objects c); Vint (u64 (n_total_pages c - n_free_pages c));
     Vint (n_total_pages c)].

Definition cache_of_name (name : list Z) : cache_name :=
  if equals_to name "elf" then cache_elf else if equals_to name "data" then cache_data else cache_other.

Definition get_cache_info (name : list Z) j : list Z :=
  match cache_of_name name with
  | cache_elf => info (elf_cache j)
  | cache_data => info (data_cache j)
  | cache_other => sprintf "no-such-cache" []
  end.

(** The outer [None] is an access outside the judger's buffer. *)
Definition process_cache (h : hw) (content : list Z) s : option handled :=
  let j := srv_judger s in
  let long := 64 <? Z.of_nat (length content) in
  let hex := drop (length content - 64) content in
  match long, sscanf content "load-cache %s %lu %lu" with
  | true, [Vstr name; Vint q_off; Vint q_len] =>
      '(b, j) ← load_cache (cache_of_name name) q_off q_len hex (hw_tsc h) j;
      let args := [Vstr name; Vint q_off; Vint q_len] in
      Some (Some (Some (if (b : bool) then sprintf "ok-load-cache %s %lu %lu" args
                        else sprintf "fail-load-cache %s %lu %lu" args), set_judger j s))
  | _, _ => match long, sscanf content "store-cache %s %lu %lu" with
  | true, [Vstr name; Vint q_off; Vint q_len] =>
      '(b, j) ← store_cache (cache_of_name name) q_off q_len hex (hw_tsc h) j;
      let args := [Vstr name; Vint q_off; Vint q_len] in
      Some (Some (Some (if (b : bool) then sprintf "ok-store-cache %s %lu %lu" args
                        else sprintf "fail-store-cache %s %lu %lu" args), set_judger j s))
  | _, _ => match sscanf content "info-cache %s" with
  | [Vstr name] => Some (Some (Some (sprintf "info-cache %s %s" [Vstr name; Vstr (get_cache_info name j)]), s))
  | _ => Some None
  end end end.

(** ** All at once *)

Definition reply_of (r : handled) : list Z := match r with Some (Some l, _) => l | _ => [] end.

(** The parts of [query-all] change nothing. *)
Definition process_special (h : hw) (content : list Z) s : option handled :=
  if equals_to content "query-all" then
    elf ← process_cache h (text "info-cache elf") s;
    data ← process_cache h (text "info-cache data") s;
    Some (Some (Some (reply_of (process_controls h (text "uptime") s) ++ [10] ++
                      reply_of (process_controls h (text "statistics") s) ++ [10] ++
                      reply_of elf ++ [10] ++ reply_of data ++ [10] ++
                      reply_of (process_controls h (text "cpu-temp") s) ++ [10]), s))
  else Some None.

(** ** Messages *)

Inductive outcome := Reply (r : option (list Z)) (s : server E) | Reboot.

(** [a || b] on the results of the [process_*] functions. *)
Definition or_else (r : option handled) (next : option handled) : option handled :=
  match r with
  | Some None => next
  | r => r
  end.

Definition duck_packet (h : hw) (content : list Z) s : option outcome :=
  if equals_to content "reboot" then Some Reboot
  else
    r ← or_else (Some (process_controls h content s))
          (or_else (Some (process_data content s))
             (or_else (Some (process_judge content s))
                (or_else (process_cache h content s) (process_special h content s))));
    match r with
    | Some (reply, s) => Some (Reply reply s)
    | None => Some (Reply None s)
    end.

End server.
Arguments outcome : clear implicits.

(** ** The server on the network *)

(** A machine that rebooted or faulted takes no further step. *)
Inductive power := Running | Rebooted | Crashed.

Record host (X E : Type) := mkHost {
  h_card : X; h_sched : scheduler; h_server : server E; h_my_ip : Z; h_power : power
}.
Arguments mkHost {X E}.
Arguments h_card {X E} _.
Arguments h_sched {X E} _.
Arguments h_server {X E} _.
Arguments h_my_ip {X E} _.
Arguments h_power {X E} _.

Section host.
Context {E A X : Type} `{EO : Elf E A} `{SI : SortIds} `{ND : NetDriver X}.
Context (read_hw : X -> hw) (power_sleep : Z -> X -> X).
Implicit Type h : host X E.

Definition set_card (x : X) h : host X E := mkHost x (h_sched h) (h_server h) (h_my_ip h) (h_power h).
Definition set_sched (c : scheduler) h : host X E := mkHost (h_card h) c (h_server h) (h_my_ip h) (h_power h).
Definition set_server (s : server E) h : host X E := mkHost (h_card h) (h_sched h) s (h_my_ip h) (h_power h).
Definition set_power (p : power) h : host X E := mkHost (h_card h) (h_sched h) (h_server h) (h_my_ip h) p.

(** The driver's functions on the whole host. *)
#[export] Instance host_driver : NetDriver (host X E) := {|
  drv_tsc h := let '(t, x) := drv_tsc (h_card h) in (t, set_card x h);
  drv_send := option_map (fun f pkt h => let '(r, x) := f pkt (h_card h) in (r, set_card x h)) drv_send;
  drv_recv := option_map (fun f h => let '(r, x) := f (h_card h) in (r, set_card x h)) drv_recv;
  drv_flush := option_map (fun f h => let '(r, x) := f (h_card h) in (r, set_card x h)) drv_flush
|}.

Definition on_host (f : host X E -> host X E) (n : net (host X E)) : net (host X E) := set_drv (f (drv n)) n.

Definition activate : net (host X E) -> net (host X E) := on_host (fun h => set_sched (set_active (h_sched h)) h).

Definition phy_recv_packet_handle (pkt : list Z) (n : net (host X E)) : Z * list Z * net (host X E) :=
  (0, pkt, activate n).

Definition phy_send_packet_handle (pkt : list Z) (n : net (host X E)) : Z * net (host X E) := (0, activate n).

(** The result is -1, so nothing reads the packet afterwards. *)
Definition duck_packet_handle (src sp : Z) (content : list Z) (n : net (host X E)) : Z * net (host X E) :=
  let h := drv n in
  match duck_packet (read_hw (h_card h)) content (h_server h) with
  | None => (-1, on_host (set_power Crashed) n)
  | Some Reboot => (-1, on_host (set_power Rebooted) n)
  | Some (Reply r s) =>
      let n := on_host (set_server s) n in
      match r with
      | Some to_send => (-1, (ducknet_udp_send (Some phy_send_packet_handle) src sp DUCK_UDP_PORT to_send n).2)
      | None => (-1, n)
      end
  end.

Definition udp_packet_handle (src dst : Z) (pkt : list Z) (n : net (host X E)) : Z * list Z * net (host X E) :=
  match h_power (drv n) with
  | Running =>
      if src mod 256 =? 255 then (-1, pkt, n)
      else if negb (dst =? h_my_ip (drv n)) then (-1, pkt, n)
      else
        let hdr := udp_of_bytes pkt in
        if dport hdr =? DUCK_UDP_PORT then
          let '(r, n) := duck_packet_handle src (sport hdr) (drop 8 pkt) n in (r, pkt, n)
        else (-1, pkt, n)
  | _ => (-1, pkt, n)
  end.

(** [Timer::ns_since_epoch] with its reading of the counter. *)
Definition now_ns (n : net (host X E)) : Z * net (host X E) :=
  let '(t, n) := ducknet_gettime n in (ns_since_epoch (srv_clock (h_server (drv n))) t, n).

Definition do_set_idle (n : net (host X E)) : net (host X E) :=
  match current_state (h_sched (drv n)) with
  | ACTIVE => let '(t, n) := now_ns n in on_host (fun h => set_sched (set_idle t (h_sched h)) h) n
  | IDLE => n
  end.

Definition idle (n : net (host X E)) : Z * net (host X E) :=
  match h_power (drv n) with
  | Running =>
      let n := do_set_idle n in
      let '(t, n) := now_ns n in
      if can_sleep t (h_sched (drv n)) then
        let '(_, n) := ducknet_phy_flush n in
        let '(t, n) := now_ns n in
        match Timer.sleep t (h_sched (drv n)) with
        | Some ns => (0, on_host (fun h => set_card (power_sleep ns (h_card h)) h) n)
        | None => (0, n)
        end
      else (0, n)
  | _ => (-1, n)
  end.

(** ** Initialisation *)

Definition addr_of (ip : list Z) : Z := le_val (reverse ip).

Definition duck_server_config (t : clock) (c : netconf) : DucknetConfig :=
  Ducknet.mkConfig (Timer.tsc_freq t) (nd_mac c) (addr_of (nd_ip c)) (addr_of (nd_gateway c)) (nd_prefix_len c).

(** A failure of [ducknet_init] is only logged. *)
Definition init (c : netconf) (n : net (host X E)) : net (host X E) :=
  let h := drv n in
  let s := h_server h in
  let s := mkServer (srv_judger s) (srv_clock s) (microcode_revision (read_hw (h_card h))) in
  let n := on_host (fun h => mkHost (h_card h) (h_sched h) s (addr_of (nd_ip c)) (h_power h)) n in
  (ducknet_init (duck_server_config (srv_clock s) c) n).2.

(** The main loop runs these turns. *)
Definition step (n : net (host X E)) : Z * net (host X E) :=
  ducknet_step (Some phy_recv_packet_handle) (Some phy_send_packet_handle) None None None None (Some udp_packet_handle)
    (Some idle) n.

Definition run (fuel : nat) (n : net (host X E)) : option (Z * net (host X E)) :=
  ducknet_mainloop (Some phy_recv_packet_handle) (Some phy_send_packet_handle) None None None None (Some udp_packet_handle)
    (Some idle) fuel n.
End host.
