(* ===== verification/DuckServerProofs.v ===== *)
(** * The protocol of the judging service

    The commands as a type with their text and their meaning; the parsers
    recognise every command. *)

From Stdlib Require Import SpecFloat.
From S2P Require Import Prelude ByteMem DuckCache Utils Timer Stdio Memory Judger DuckServer.

(** ** Commands *)

Inductive command :=
  | Uptime | Statistics | CpuTemp | Sysinfo | QueryBufferSize
  | ClearBuffer (o l : Z)
  | ReadBuffer (o l : Z)
  | WriteBuffer (o : Z) (data : list Z)
  | CopyBuffer (dst src l : Z)
  | CompareBuffer (a b l : Z)
  | JudgeRun (req : JudgeRequest)
  | LoadCache (name : list Z) (o l : Z) (hex : list Z)
  | StoreCache (name : list Z) (o l : Z) (hex : list Z)
  | InfoCache (name : list Z)
  | QueryAll
  | RebootNow.

Definition buffer_numbers (b : BufferDesc) : list Z := [off b; blen b].

Definition request_numbers (r : JudgeRequest) : list Z :=
  [seq_num r; time_limit_ns r; memory_hard_limit_kb r] ++ flat_map buffer_numbers (request_buffers r) ++ [rq_OB_need_clear r].

Definition encode (c : command) : list Z :=
  match c with
  | Uptime => text "uptime"
  | Statistics => text "statistics"
  | CpuTemp => text "cpu-temp"
  | Sysinfo => text "sysinfo"
  | QueryBufferSize => text "query-buffer-size"
  | ClearBuffer o l => text "clear-buffer" ++ spaced [o; l]
  | ReadBuffer o l => text "read-buffer" ++ spaced [o; l]
  | WriteBuffer o data => text "write-buffer" ++ le_bytes 8 o ++ data
  | CopyBuffer dst src l => text "copy-buffer" ++ spaced [dst; src; l]
  | CompareBuffer a b l => text "compare-buffer" ++ spaced [a; b; l]
  | JudgeRun req => text "judge" ++ spaced (request_numbers req)
  | LoadCache name o l hex => text "load-cache " ++ name ++ spaced [o; l] ++ 32 :: hex
  | StoreCache name o l hex => text "store-cache " ++ name ++ spaced [o; l] ++ 32 :: hex
  | InfoCache name => text "info-cache " ++ name
  | QueryAll => text "query-all"
  | RebootNow => text "reboot"
  end.

(** A word without white space and 0. *)
Definition name_ok (name : list Z) : Prop := name <> [] /\ Forall (fun c => isspace c = false /\ c <> 0) name.

Definition command_ok (c : command) : Prop :=
  match c with
  | ClearBuffer o l | ReadBuffer o l => Forall (is_uint 64) [o; l]
  | WriteBuffer o data => is_uint 64 o
  | CopyBuffer a b l | CompareBuffer a b l => Forall (is_uint 64) [a; b; l]
  | JudgeRun req => Forall (is_uint 64) (request_numbers req)
  | LoadCache name o l hex | StoreCache name o l hex =>
      name_ok name /\ Forall (is_uint 64) [o; l] /\ length hex = 64%nat /\ Forall (fun c => c <> 0) hex
  | InfoCache name => name_ok name
  | _ => True
  end.

Section protocol.
Context {E A : Type} `{EO : Elf E A} `{SI : SortIds}.
Implicit Type s : server E.

Definition answer (reply : list Z) s : option (outcome E) := Some (Reply (Some reply) s).

Definition lines (l : list (list Z)) : list Z := flat_map (fun x => x ++ [10]) l.

Definition uptime_text (h : hw) s : list Z :=
  text "uptime" ++ spaced [trunc_double (secf_since_epoch (srv_clock s) (hw_tsc h))].
Definition statistics_text s : list Z := text "statistics" ++ spaced [n_judges (srv_judger s); total_time_ns (srv_judger s)].
Definition cpu_temp_text (h : hw) : list Z := text "cpu-temp" ++ spaced [cpu_temp h].
Definition info_text (name : list Z) s : list Z := text "info-cache " ++ name ++ 32 :: get_cache_info name (srv_judger s).

(** What each command does. *)
Definition execute (h : hw) (c : command) s : option (outcome E) :=
  let j := srv_judger s in
  match c with
  | Uptime => answer (uptime_text h s) s
  | Statistics => answer (statistics_text s) s
  | CpuTemp => answer (cpu_temp_text h) s
  | Sysinfo => answer (lines [text "microcode-orig-rev = 0x" ++ pad 2 (print_hex (microcode_orig_rev s));
                              text "microcode-current-rev = 0x" ++ pad 2 (print_hex (microcode_revision h))]) s
  | QueryBufferSize => answer (text "ok-query-buffer-size" ++ spaced [buffer_size j]) s
  | ClearBuffer o l =>
      let '(b, j) := clear_buffer o l j in Some (Reply (when b (text "ok-clear-buffer" ++ spaced [o; l])) (set_judger j s))
  | ReadBuffer o l =>
      Some (Reply (bytes ← read_buffer o l j; when (l <=? 1400) (text "ok-read-buffer" ++ le_bytes 8 o ++ bytes)) s)
  | WriteBuffer o data =>
      let '(b, j) := write_buffer o data j in
      Some (Reply (when b (text "ok-write-buffer" ++ spaced [o; Z.of_nat (length data)])) (set_judger j s))
  | CopyBuffer dst src l =>
      let '(b, j) := copy_buffer dst src l j in
      Some (Reply (when b (text "ok-copy-buffer" ++ spaced [dst; src; l])) (set_judger j s))
  | CompareBuffer a b l =>
      Some (Reply (eq ← compare_buffer a b l j; Some (text "ok-compare-buffer" ++ spaced [a; b; l; Z.b2z eq])) s)
  | JudgeRun req => let '(r, j) := judge req j in answer (judge_reply (srv_clock s) r) (set_judger j s)
  | LoadCache name o l hex =>
      '(b, j) ← load_cache (cache_of_name name) o l hex (hw_tsc h) j;
      answer (text (if (b : bool) then "ok-load-cache " else "fail-load-cache ") ++ name ++ spaced [o; l]) (set_judger j s)
  | StoreCache name o l hex =>
      '(b, j) ← store_cache (cache_of_name name) o l hex (hw_tsc h) j;
      answer (text (if (b : bool) then "ok-store-cache " else "fail-store-cache ") ++ name ++ spaced [o; l]) (set_judger j s)
  | InfoCache name => answer (info_text name s) s
  | QueryAll => answer (lines [uptime_text h s; statistics_text s; info_text (text "elf") s; info_text (text "data") s;
                               cpu_temp_text h]) s
  | RebootNow => Some Reboot
  end.

(** ** Parsing *)

Lemma text_nonzero (p : string) : forallb (fun c => negb (c =? 0)) (text p) = true -> Forall (fun c => c <> 0) (text p).
Proof. intros H. apply Forall_forall. intros c Hc. rewrite forallb_forall in H. apply list_elem_of_In in Hc. apply H in Hc. lia. Qed.

Lemma sscanf_command (p fmt : string) f ns :
  format (bytes_of_string fmt) = (Dchar <$> text p) ++ f -> forallb (fun c => negb (c =? 0)) (text p) = true ->
  num_format f = Some (length ns) -> Forall (is_uint 64) ns -> sscanf (text p ++ spaced ns) fmt = Vint <$> ns.
Proof.
  intros Hf Hp Hn Hu. unfold sscanf. rewrite cstr_all.
  - rewrite Hf, scan_literal. rewrite <- (app_nil_r (spaced ns)). by apply scan_numbers.
  - apply Forall_app. split; [by apply text_nonzero|by apply spaced_nonzero].
Qed.

Lemma skip_name name rest : name <> [] -> Forall (fun c => isspace c = false /\ c <> 0) name -> skip_space (name ++ rest) = name ++ rest.
Proof. intros Hne Hn. destruct name as [|c name]; [done|]. apply Forall_cons in Hn as [[Hc _] _]. cbn [app skip_space]. by rewrite Hc. Qed.

(** [p] then a name, two numbers and more text. *)
Lemma sscanf_named (p fmt : string) name o l hex :
  format (bytes_of_string fmt) = (Dchar <$> text p) ++ [Dspace 32; Dconv Cs; Dspace 32; Dconv Clu; Dspace 32; Dconv Clu] ->
  forallb (fun c => negb (c =? 0)) (text p) = true -> name_ok name -> Forall (is_uint 64) [o; l] -> Forall (fun c => c <> 0) hex ->
  sscanf (text p ++ 32 :: name ++ spaced [o; l] ++ 32 :: hex) fmt = [Vstr name; Vint o; Vint l].
Proof.
  intros Hf Hp [Hne Hn] Hu Hh. unfold sscanf. rewrite cstr_all.
  - rewrite Hf, scan_literal. cbn [scan_all skip_space isspace]. change (isspace 32) with true. cbv iota.
    rewrite skip_name by done. cbn [scan_conv]. rewrite scan_word_app; [|done| |done].
    2: { eapply Forall_impl; [exact Hn|]. by intros c [? _]. }
    rewrite mbind_Some.
    change (Vstr name :: scan_all [Dspace 32; Dconv Clu; Dspace 32; Dconv Clu] (spaced [o; l] ++ 32 :: hex) =
            Vstr name :: (Vint <$> [o; l])).
    f_equal. by apply scan_numbers.
  - apply Forall_app. split; [by apply text_nonzero|]. apply Forall_cons. split; [done|]. apply Forall_app. split.
    + eapply Forall_impl; [exact Hn|]. by intros c [_ ?].
    + apply Forall_app. split; [by apply spaced_nonzero|]. by apply Forall_cons.
Qed.

(** A name alone. *)
Lemma sscanf_name (p fmt : string) name :
  format (bytes_of_string fmt) = (Dchar <$> text p) ++ [Dspace 32; Dconv Cs] -> forallb (fun c => negb (c =? 0)) (text p) = true ->
  name_ok name -> sscanf (text p ++ 32 :: name) fmt = [Vstr name].
Proof.
  intros Hf Hp [Hne Hn]. unfold sscanf. rewrite cstr_all.
  - rewrite Hf, scan_literal. cbn [scan_all skip_space]. change (isspace 32) with true. cbv iota.
    rewrite <- (app_nil_r name) at 1. rewrite skip_name by done. cbn [scan_conv]. rewrite scan_word_app; [done|done| |done].
    eapply Forall_impl; [exact Hn|]. by intros c [? _].
  - apply Forall_app. split; [by apply text_nonzero|]. apply Forall_cons. split; [done|].
    eapply Forall_impl; [exact Hn|]. by intros c [_ ?].
Qed.

(** The last 64 bytes. *)
Lemma named_tail p name l2 hex : length hex = 64%nat ->
  let c := p ++ 32 :: name ++ l2 ++ 32 :: hex in drop (length c - 64) c = hex.
Proof.
  intros Hl. cbv zeta. assert (p ++ 32 :: name ++ l2 ++ 32 :: hex = (p ++ 32 :: name ++ l2 ++ [32]) ++ hex) as ->.
  { rewrite <- app_assoc. cbn [app]. by rewrite <- !app_assoc. }
  rewrite length_app, Hl, Nat.add_sub. apply drop_app_length.
Qed.

(** Texts that differ in a fixed position, formats that fail there. *)
Ltac differ := let H := fresh in intros H; apply (f_equal (take 3)) in H; vm_compute in H; discriminate.
Ltac other_text := unfold equals_to at 1; rewrite bool_decide_eq_false_2 by differ.
Ltac other_format := match goal with |- context [sscanf ?c ?f] => replace (sscanf c f) with (@nil value) by (vm_compute; reflexivity) end.
Ltac this_command :=
  match goal with Hok : Forall _ ?ns |- context [sscanf (text ?p ++ spaced ?ns) ?fmt] =>
    let f := eval vm_compute in (drop (length (text p)) (format (bytes_of_string fmt))) in
    rewrite (sscanf_command p fmt f ns eq_refl eq_refl eq_refl Hok); cbn [fmap list_fmap]
  end.
Ltac print_as p ns := match goal with |- context [sprintf ?fmt ?vs] =>
  replace (sprintf fmt vs) with (text p ++ spaced ns) by (symmetry; apply (sprintf_command (text p) fmt ns eq_refl)) end.

(** Texts that stand alone come first. *)
Definition alone : list string := ["reboot"; "uptime"; "statistics"; "cpu-temp"; "sysinfo"; "query-buffer-size"; "query-all"].

Lemma or_else_None (r : option (handled (E:=E))) : or_else (Some None) r = r.
Proof. done. Qed.

Lemma or_else_Some (x : option (list Z) * server E) r : or_else (Some (Some x)) r = Some (Some x).
Proof. done. Qed.

(** The message with its result, for the steps after the parsers. *)
Definition finish (s : server E) (r : option (handled (E:=E))) : option (outcome E) :=
  x ← r; match x with Some (reply, s) => Some (Reply reply s) | None => Some (Reply None s) end.

Lemma finish_Some s x : finish s (Some (Some x)) = Some (Reply x.1 x.2).
Proof. by destruct x. Qed.

Lemma packet_from_data h c s : Forall (fun p => c <> text p) (take 5 alone) ->
  duck_packet h c s = finish s (or_else (Some (process_data c s)) (or_else (Some (process_judge c s))
    (or_else (process_cache h c s) (process_special h c s)))).
Proof.
  unfold alone. cbn [take]. rewrite !Forall_cons. intros (H1 & H2 & H3 & H4 & H5 & _).
  assert (process_controls h c s = None) as E1 by (unfold process_controls, equals_to; by rewrite !bool_decide_eq_false_2 by assumption).
  unfold duck_packet. rewrite E1. unfold equals_to at 1. rewrite bool_decide_eq_false_2 by assumption.
  by rewrite or_else_None.
Qed.

Lemma packet_from_judge h c s : Forall (fun p => c <> text p) (take 5 alone) -> process_data c s = None ->
  duck_packet h c s = finish s (or_else (Some (process_judge c s)) (or_else (process_cache h c s) (process_special h c s))).
Proof. intros H1 H2. by rewrite packet_from_data, H2, or_else_None by done. Qed.

Lemma packet_from_cache h c s : Forall (fun p => c <> text p) (take 5 alone) -> process_data c s = None -> process_judge c s = None ->
  duck_packet h c s = finish s (or_else (process_cache h c s) (process_special h c s)).
Proof. intros H1 H2 H3. by rewrite packet_from_judge, H3, or_else_None by done. Qed.

Ltac not_alone := repeat constructor; differ.
Ltac not_data := unfold process_data; other_text; do 2 other_format; unfold starts_with;
  rewrite bool_decide_eq_false_2 by differ; do 2 other_format; reflexivity.
Ltac not_judge := unfold process_judge; other_format; reflexivity.

Lemma clear_command h o l s : Forall (is_uint 64) [o; l] -> duck_packet h (encode (ClearBuffer o l)) s = execute h (ClearBuffer o l) s.
Proof.
  intros Hok. cbn [encode]. rewrite packet_from_data by not_alone.
  unfold process_data. other_text. this_command. unfold execute. print_as "ok-clear-buffer"%string [o; l].
  destruct (clear_buffer o l (srv_judger s)) as [r j]. by rewrite or_else_Some, finish_Some.
Qed.

Lemma read_command h o l s : Forall (is_uint 64) [o; l] -> duck_packet h (encode (ReadBuffer o l)) s = execute h (ReadBuffer o l) s.
Proof.
  intros Hok. cbn [encode]. rewrite packet_from_data by not_alone. unfold process_data. other_text. other_format. this_command.
  unfold execute, when, MAX_QUERY_LEN. rewrite Z.leb_antisym.
  destruct (1400 <? l), (read_buffer o l (srv_judger s)); by rewrite or_else_Some, finish_Some.
Qed.

Lemma write_command h o data s : is_uint 64 o -> duck_packet h (encode (WriteBuffer o data)) s = execute h (WriteBuffer o data) s.
Proof.
  intros Hok. cbn [encode]. rewrite packet_from_data by not_alone. unfold process_data. other_text. do 2 other_format. unfold starts_with.
  rewrite take_app_length, bool_decide_eq_true_2 by done. rewrite drop_app_length, length_app, length_le_bytes.
  rewrite (proj2 (Z.ltb_ge _ _)) by lia. unfold load_le, sub_bytes. rewrite drop_0, take_app_length' by (by rewrite length_le_bytes).
  rewrite le_val_le_bytes. change (8 * Z.of_nat 8) with 64. rewrite (Z.mod_small o) by done.
  rewrite drop_app_length' by (by rewrite length_le_bytes). unfold execute.
  replace (Z.of_nat (8 + length data) - 8) with (Z.of_nat (length data)) by lia.
  print_as "ok-write-buffer"%string [o; Z.of_nat (length data)].
  destruct (write_buffer o data (srv_judger s)) as [r j]. by rewrite or_else_Some, finish_Some.
Qed.

Lemma copy_command h d o l s : Forall (is_uint 64) [d; o; l] -> duck_packet h (encode (CopyBuffer d o l)) s = execute h (CopyBuffer d o l) s.
Proof.
  intros Hok. cbn [encode]. rewrite packet_from_data by not_alone. unfold process_data. other_text. do 2 other_format. unfold starts_with.
  rewrite bool_decide_eq_false_2 by differ. this_command. unfold execute. print_as "ok-copy-buffer"%string [d; o; l].
  destruct (copy_buffer d o l (srv_judger s)) as [r j]. by rewrite or_else_Some, finish_Some.
Qed.

Lemma compare_command h a b l s : Forall (is_uint 64) [a; b; l] ->
  duck_packet h (encode (CompareBuffer a b l)) s = execute h (CompareBuffer a b l) s.
Proof.
  intros Hok. cbn [encode]. rewrite packet_from_data by not_alone. unfold process_data. other_text. do 2 other_format. unfold starts_with.
  rewrite bool_decide_eq_false_2 by differ. other_format. this_command. unfold execute.
  destruct (compare_buffer a b l (srv_judger s)) as [r|]; [print_as "ok-compare-buffer"%string [a; b; l; Z.b2z r]|];
    by rewrite or_else_Some, finish_Some.
Qed.

Lemma judge_command h req s : Forall (is_uint 64) (request_numbers req) ->
  duck_packet h (encode (JudgeRun req)) s = execute h (JudgeRun req) s.
Proof.
  intros Hok. cbn [encode]. rewrite packet_from_judge by (not_alone || not_data). unfold process_judge. this_command.
  destruct req as [seq tl mhl [eo el] [io il] [oo ol] [ro rl] [bo bl] [po pl] nc].
  cbn [request_numbers request_of fmap list_fmap app flat_map buffer_numbers request_buffers seq_num time_limit_ns memory_hard_limit_kb
    rq_ELF rq_stdin rq_stdout rq_stderr rq_IB rq_OB rq_OB_need_clear off blen].
  unfold execute. destruct (judge _ _) as [res j]. by rewrite or_else_Some, finish_Some.
Qed.

Ltac print_named p := match goal with |- context [sprintf ?fmt (Vstr ?name :: [Vint ?o; Vint ?l])] =>
  replace (sprintf fmt (Vstr name :: [Vint o; Vint l])) with (text p ++ 32 :: name ++ spaced [o; l])
    by (symmetry; apply (sprintf_named (text p) fmt name [o; l] eq_refl)) end.

Lemma text_space p rest : text (p +:+ " ") ++ rest = text p ++ 32 :: rest.
Proof.
  assert (forall q r, text (q +:+ r) = text q ++ text r) as Ha.
  { unfold text. induction q as [|c q IH]; intros r; [done|]. change (String c q +:+ r) with (String c (q +:+ r)).
    cbn [bytes_of_string app]. by rewrite IH. }
  rewrite Ha, <- app_assoc. done.
Qed.

Lemma load_command h name o l hex s : command_ok (LoadCache name o l hex) ->
  duck_packet h (encode (LoadCache name o l hex)) s = execute h (LoadCache name o l hex) s.
Proof.
  intros (Hn & Hu & Hl & Hh). cbn [encode]. rewrite packet_from_cache by (not_alone || not_data || not_judge).
  unfold process_cache. rewrite (proj2 (Z.ltb_lt _ _)) by (rewrite !length_app; cbn [length]; lia).
  rewrite (text_space "load-cache"), (sscanf_named "load-cache" "load-cache %s %lu %lu" name o l hex eq_refl eq_refl Hn Hu Hh).
  rewrite named_tail by done. unfold execute.
  destruct (load_cache _ _ _ _ _ _) as [[b j]|]; rewrite ?mbind_Some; [|done].
  destruct b; [rewrite (text_space "ok-load-cache"); print_named "ok-load-cache"%string|
               rewrite (text_space "fail-load-cache"); print_named "fail-load-cache"%string]; by rewrite or_else_Some, finish_Some.
Qed.

Lemma store_command h name o l hex s : command_ok (StoreCache name o l hex) ->
  duck_packet h (encode (StoreCache name o l hex)) s = execute h (StoreCache name o l hex) s.
Proof.
  intros (Hn & Hu & Hl & Hh). cbn [encode]. rewrite packet_from_cache by (not_alone || not_data || not_judge).
  unfold process_cache. rewrite (proj2 (Z.ltb_lt _ _)) by (rewrite !length_app; cbn [length]; lia). other_format.
  rewrite (text_space "store-cache"), (sscanf_named "store-cache" "store-cache %s %lu %lu" name o l hex eq_refl eq_refl Hn Hu Hh).
  rewrite named_tail by done. unfold execute.
  destruct (store_cache _ _ _ _ _ _) as [[b j]|]; rewrite ?mbind_Some; [|done].
  destruct b; [rewrite (text_space "ok-store-cache"); print_named "ok-store-cache"%string|
               rewrite (text_space "fail-store-cache"); print_named "fail-store-cache"%string]; by rewrite or_else_Some, finish_Some.
Qed.

(** The parser of caches on a query of one. *)
Lemma info_parsed h name s : name_ok name -> process_cache h (text "info-cache " ++ name) s = Some (Some (Some (info_text name s), s)).
Proof.
  intros Hok. unfold process_cache. do 2 other_format.
  assert (sscanf (text "info-cache " ++ name) "info-cache %s" = [Vstr name]) as ->.
  { rewrite (text_space "info-cache"). by apply sscanf_name. }
  assert (sprintf "info-cache %s %s" [Vstr name; Vstr (get_cache_info name (srv_judger s))] = info_text name s) as ->.
  { unfold info_text. rewrite (text_space "info-cache"). unfold sprintf.
    replace (format (bytes_of_string "info-cache %s %s")) with ((Dchar <$> text "info-cache") ++ [Dspace 32; Dconv Cs; Dspace 32; Dconv Cs])
      by reflexivity.
    rewrite print_literal. cbn [print_all print_conv]. by rewrite app_nil_r. }
  by destruct (_ <? _).
Qed.

Lemma info_command h name s : name_ok name -> duck_packet h (encode (InfoCache name)) s = execute h (InfoCache name) s.
Proof.
  intros Hok. cbn [encode]. rewrite packet_from_cache by (not_alone || not_data || not_judge).
  by rewrite info_parsed, or_else_Some, finish_Some by done.
Qed.

Lemma controls_texts h s :
  process_controls h (text "uptime") s = Some (Some (uptime_text h s), s) /\
  process_controls h (text "statistics") s = Some (Some (statistics_text s), s) /\
  process_controls h (text "cpu-temp") s = Some (Some (cpu_temp_text h), s).
Proof.
  unfold process_controls, equals_to, uptime_text, statistics_text, cpu_temp_text. split_and!.
  - rewrite bool_decide_eq_true_2 by done. print_as "uptime"%string [trunc_double (secf_since_epoch (srv_clock s) (hw_tsc h))]. done.
  - rewrite bool_decide_eq_false_2 by differ. rewrite bool_decide_eq_true_2 by done. cbv zeta.
    print_as "statistics"%string [n_judges (srv_judger s); total_time_ns (srv_judger s)]. done.
  - rewrite !bool_decide_eq_false_2 by differ. rewrite bool_decide_eq_true_2 by done. print_as "cpu-temp"%string [cpu_temp h]. done.
Qed.

Lemma query_all_command h s : duck_packet h (encode QueryAll) s = execute h QueryAll s.
Proof.
  cbn [encode]. rewrite packet_from_cache by (not_alone || not_data || not_judge).
  replace (process_cache h (text "query-all") s) with (Some (None : handled (E:=E)))
    by (unfold process_cache; do 3 other_format; by destruct (_ <? _)).
  rewrite or_else_None. unfold process_special. unfold equals_to. rewrite bool_decide_eq_true_2 by done.
  assert (name_ok (text "elf") /\ name_ok (text "data")) as [He Hd] by (split; (split; [done|repeat constructor; done])).
  change (text "info-cache elf") with (text "info-cache " ++ text "elf"). change (text "info-cache data") with (text "info-cache " ++ text "data").
  rewrite !info_parsed, !mbind_Some by done. destruct (controls_texts h s) as (-> & -> & ->). cbn [reply_of]. rewrite finish_Some.
  unfold execute, answer, lines. cbn [flat_map fst snd]. by rewrite <- !app_assoc, app_nil_r.
Qed.

Lemma sysinfo_command h s : duck_packet h (encode Sysinfo) s = execute h Sysinfo s.
Proof.
  cbn [encode]. unfold duck_packet.
  assert (process_controls h (text "sysinfo") s = Some (Some (lines
    [text "microcode-orig-rev = 0x" ++ pad 2 (print_hex (microcode_orig_rev s));
     text "microcode-current-rev = 0x" ++ pad 2 (print_hex (microcode_revision h))]), s)) as ->.
  { unfold process_controls, equals_to. rewrite !bool_decide_eq_false_2 by differ. rewrite bool_decide_eq_true_2 by done. do 3 f_equal.
    unfold lines. cbn [flat_map]. rewrite <- !app_assoc. reflexivity. }
  rewrite or_else_Some, mbind_Some. unfold equals_to. by rewrite bool_decide_eq_false_2 by differ.
Qed.

Lemma alone_commands h s c : c ∈ [Uptime; Statistics; CpuTemp; QueryBufferSize; RebootNow] -> duck_packet h (encode c) s = execute h c s.
Proof.
  destruct (controls_texts h s) as (E1 & E2 & E3). assert (forall p, p <> text "reboot" -> equals_to p "reboot" = false) as Hr.
  { intros p Hp. unfold equals_to. by rewrite bool_decide_eq_false_2. }
  rewrite !elem_of_cons. intros [-> |[-> |[-> |[-> |[-> |Hc]]]]]; [| | | | |by apply not_elem_of_nil in Hc]; cbn [encode].
  1-3: unfold duck_packet; rewrite Hr, ?E1, ?E2, ?E3, or_else_Some by differ; by rewrite mbind_Some.
  - rewrite packet_from_data by not_alone. unfold process_data, equals_to. rewrite bool_decide_eq_true_2 by done.
    print_as "ok-query-buffer-size"%string [buffer_size (srv_judger s)]. by rewrite or_else_Some, finish_Some.
  - unfold duck_packet, equals_to. by rewrite bool_decide_eq_true_2.
Qed.

(** All of them. *)
Lemma command_executes h c s : command_ok c -> duck_packet h (encode c) s = execute h c s.
Proof.
  intros Hok. destruct c; cbn [command_ok] in Hok;
    [apply alone_commands; set_solver|apply alone_commands; set_solver|apply alone_commands; set_solver|apply sysinfo_command|
     apply alone_commands; set_solver|by apply clear_command|by apply read_command|by apply write_command|by apply copy_command|
     by apply compare_command|by apply judge_command|by apply load_command|by apply store_command|by apply info_command|
     apply query_all_command|apply alone_commands; set_solver].
Qed.
End protocol.
