(* ===== verification/DuckServerClaims.v ===== *)
(** * What the judging service promises

    The server parses every command and does exactly what it says. Replies stay
    inside the packet buffer they are written to. A command sent from another
    host is answered by one datagram back to it. *)

From Stdlib Require Import SpecFloat.
From S2P Require Import Prelude ByteMem DucknetUtils Ducknet DucknetProofs DucknetClaims DuckCache Utils Timer Stdio Memory Judger NetworkDriver DuckServer DuckServerProofs.

Section protocol.
Context {E A : Type} `{EO : Elf E A} `{SI : SortIds}.
Implicit Type s : server E.

(** C13: Every command of the protocol, written as its client writes it, is
    recognised by exactly one of the parsers and carried out: the judger's
    operation is applied to the numbers of the message and the reply is the one
    the protocol prescribes (none when the judger refuses). *)
Theorem duck_protocol_exact h c s : command_ok c -> duck_packet h (encode c) s = execute h c s.
Proof. apply command_executes. Qed.

(** ** Replies fit *)

(** The errors a result can carry. *)
Definition known_error (r : JudgeResult) : Prop :=
  match error r with
  | Some e => e ∈ ["Not Judged"; "Can't load ELF"; "Invalid time limit"]%string
  | None => True
  end.

Definition errors_known s : Prop := known_error (judge_result (srv_judger s)).

Lemma judge_known req (j : judger E) : known_error (judge_result j) ->
  known_error (judge req j).1 /\ known_error (judge_result (judge req j).2).
Proof.
  intros Hk. unfold judge. cbv zeta. destruct (_ =? _); [done|]. do 3 (destruct (_ : bool); [split; cbn; set_solver|]).
  destruct (elf_load _ _ _ _) as [[app|] e]; [|split; cbn; set_solver]. by destruct (elf_run _ _ _) as [res e2].
Qed.

Lemma cleared_known (j : judger E) : known_error (judge_result j) -> known_error (judge_result (clear_judge_result j)).
Proof. unfold clear_judge_result. destruct (judge_result_cleared j); [done|]. intros _. cbn. set_solver. Qed.

(** Only judging and clearing change the remembered result. *)
Lemma buffer_ops_known o l d data (j : judger E) : known_error (judge_result j) ->
  known_error (judge_result (clear_buffer o l j).2) /\ known_error (judge_result (write_buffer o data j).2) /\
  known_error (judge_result (copy_buffer d o l j).2).
Proof.
  intros Hk. unfold clear_buffer, write_buffer, copy_buffer. split_and!; (destruct (_ : bool); [by apply cleared_known|done]).
Qed.

Lemma cache_ops_known name o l hex now (j : judger E) r j' : known_error (judge_result j) ->
  load_cache name o l hex now j = Some (r, j') \/ store_cache name o l hex now j = Some (r, j') -> known_error (judge_result j').
Proof.
  intros Hk [H|H].
  - unfold load_cache in H. destruct (digest_from_hex hex) as [dg|]; [|by injection H as _ <-].
    apply bind_Some in H as ([x j1] & Hx & H). assert (known_error (judge_result j1)) as Hk1.
    { destruct name; [apply bind_Some in Hx as ([? ?] & _ & [= _ <-])..|injection Hx as _ <-]; done. }
    destruct x as [bytes|]; [|by injection H as _ <-]. case_if_in H; [|done]. injection H as _ <-. by apply cleared_known.
  - unfold store_cache in H. destruct (digest_from_hex hex) as [dg|]; [|by injection H as _ <-]. case_if_in H; [done|].
    destruct name; [apply bind_Some in H as ([? ?] & _ & [= _ <-])..|injection H as _ <-]; done.
Qed.

(** A text of at most 1518 bytes. *)
Definition fits (r : option (list Z)) : Prop := match r with Some l => (length l <= 1518)%nat | None => True end.

Ltac fixed_width := match goal with |- context [sprintf ?f ?vs] =>
  pose proof (length_sprintf f vs); let w := eval vm_compute in (width (format (bytes_of_string f))) in
  change (width (format (bytes_of_string f))) with w in *; cbn [fmap list_fmap sum_list_with id str_size] in * end.

Lemma controls_fit h c s x : process_controls h c s = Some x -> fits x.1 /\ x.2 = s.
Proof.
  unfold process_controls. intros H. repeat case_if_in H; try done; injection H as <-; (split; [|done]); cbn [fst fits]; fixed_width; lia.
Qed.

Lemma judge_reply_length t r : known_error r -> (length (judge_reply t r) < 1024)%nat.
Proof.
  unfold known_error, judge_reply. destruct (error r) as [e|].
  - intros He. fixed_width. assert (length (text e) <= 18)%nat by (rewrite !elem_of_cons in He;
      destruct He as [-> |[-> |[-> |He]]]; [vm_compute; lia..|by apply not_elem_of_nil in He]). lia.
  - intros _. fixed_width. assert (length (text (status r)) <= 19)%nat by (unfold status; destruct (is_RE r), (is_TLE r); vm_compute; lia). lia.
Qed.

Lemma when_fits (b : bool) (l : list Z) : (length l <= 1518)%nat -> fits (when b l).
Proof. by destruct b. Qed.

(** A scan gives the values a command needs, or another branch is taken. *)
Lemma two_numbers (vs : list value) : (exists a b, vs = [Vint a; Vint b]) \/
  (forall T (f : Z -> Z -> T) (d : T), match vs with [Vint a; Vint b] => f a b | _ => d end = d).
Proof. destruct vs as [|[a|?|?] [|[b|?|?] [|? ?]]]; try (right; done). left. by eexists _, _. Qed.
Lemma three_numbers (vs : list value) : (exists a b c, vs = [Vint a; Vint b; Vint c]) \/
  (forall T (f : Z -> Z -> Z -> T) (d : T), match vs with [Vint a; Vint b; Vint c] => f a b c | _ => d end = d).
Proof. destruct vs as [|[a|?|?] [|[b|?|?] [|[c|?|?] [|? ?]]]]; try (right; done). left. by eexists _, _, _. Qed.

Lemma data_fit c s x : errors_known s -> process_data c s = Some x -> fits x.1 /\ errors_known x.2.
Proof.
  intros Hk. unfold process_data. destruct (equals_to c _).
  { intros [= <-]. split; [|done]. cbn [fst fits]. fixed_width. lia. }
  destruct (two_numbers (sscanf c "clear-buffer %lu %lu")) as [(o & l & ->)| ->].
  { pose proof (buffer_ops_known o l 0 [] (srv_judger s) Hk) as (H & _ & _). destruct (clear_buffer o l _) as [b j].
    intros [= <-]. split; [|done]. apply when_fits. fixed_width. lia. }
  destruct (two_numbers (sscanf c "read-buffer %lu %lu")) as [(o & l & ->)| ->].
  { unfold MAX_QUERY_LEN, read_buffer. destruct (Z.ltb_spec 1400 l); [by intros [= <-]|]. destruct (in_range _ _ _); intros Hx%(inj Some); subst x; [|done].
    split; [|done]. cbn [fst fits]. rewrite !length_app, length_le_bytes. unfold mread. rewrite length_fmap, length_seqZ.
    change (length (text "ok-read-buffer")) with 14%nat. lia. }
  destruct (starts_with c _).
  { destruct (_ <? 8); [by intros [= <-]|].
    match goal with |- context [write_buffer ?o ?d ?j] => pose proof (buffer_ops_known o 0 0 d j Hk) as (_ & H & _); destruct (write_buffer o d j) as [b j'] end.
    intros [= <-]. split; [|done]. apply when_fits. fixed_width. lia. }
  destruct (three_numbers (sscanf c "copy-buffer %lu %lu %lu")) as [(d & o & l & ->)| ->].
  { pose proof (buffer_ops_known o l d [] (srv_judger s) Hk) as (_ & _ & H). destruct (copy_buffer d o l _) as [b j].
    intros [= <-]. split; [|done]. apply when_fits. fixed_width. lia. }
  destruct (three_numbers (sscanf c "compare-buffer %lu %lu %lu")) as [(a & b & l & ->)| ->]; [|done].
  destruct (compare_buffer a b l _) as [r|]; intros [= <-]; (split; [|done]); [|done]. cbn [fst fits]. fixed_width. lia.
Qed.

Lemma judge_fit c s x : errors_known s -> process_judge c s = Some x -> fits x.1 /\ errors_known x.2.
Proof.
  intros Hk. unfold process_judge. destruct (request_of _) as [req|]; [|done].
  pose proof (judge_known req (srv_judger s) Hk) as [H1 H2]. destruct (judge req _) as [r j]. intros [= <-]. split; [|done].
  cbn [fst fits]. pose proof (judge_reply_length (srv_clock s) r H1). lia.
Qed.

Lemma named_numbers (b : bool) (vs : list value) : (exists w o l, b = true /\ vs = [Vstr w; Vint o; Vint l]) \/
  (forall T (f : list Z -> Z -> Z -> T) (d : T), match b, vs with true, [Vstr w; Vint o; Vint l] => f w o l | _, _ => d end = d).
Proof. destruct b; [|right; done]. destruct vs as [|[?|w|?] [|[o|?|?] [|[l|?|?] [|? ?]]]]; try (right; done). left. by eexists _, _, _. Qed.
Lemma one_name (vs : list value) : (exists w, vs = [Vstr w]) \/
  (forall T (f : list Z -> T) (d : T), match vs with [Vstr w] => f w | _ => d end = d).
Proof. destruct vs as [|[?|w|?] [|? ?]]; try (right; done). left. by eexists _. Qed.

Lemma info_width c : (length (info c) <= 160)%nat.
Proof. unfold info. fixed_width. lia. Qed.

Lemma cache_info_width name (j : judger E) : (length name + length (get_cache_info name j) <= Nat.max (length name + 13) 164)%nat.
Proof.
  unfold get_cache_info, cache_of_name, equals_to. destruct (bool_decide_reflect (name = text "elf")) as [->|].
  { pose proof (info_width (elf_cache j)). cbn [length text bytes_of_string] in *. lia. }
  destruct (bool_decide_reflect (name = text "data")) as [->|].
  { pose proof (info_width (data_cache j)). cbn [length text bytes_of_string] in *. lia. }
  fixed_width. lia.
Qed.

Lemma cache_fit h c s x : errors_known s -> (length c <= 1472)%nat -> process_cache h c s = Some (Some x) -> fits x.1 /\ errors_known x.2.
Proof.
  intros Hk Hc. unfold process_cache. set (long := _ <? _). set (hex := drop _ _).
  destruct (named_numbers long (sscanf c "load-cache %s %lu %lu")) as [(w & o & l & El & E1)| ->].
  { rewrite El, E1. apply sscanf_length in E1; [|vm_compute; reflexivity..]. change (literals _) with 10%nat in E1. unfold sizes in E1. cbn [fmap list_fmap sum_list_with id vsize] in E1.
    intros ([b j] & Hb & H)%bind_Some. injection H as <-. split; [|by eapply cache_ops_known; [|left]].
    cbn [fst fits]. destruct b; fixed_width; lia. }
  destruct (named_numbers long (sscanf c "store-cache %s %lu %lu")) as [(w & o & l & El & E1)| ->].
  { rewrite El, E1. apply sscanf_length in E1; [|vm_compute; reflexivity..]. change (literals _) with 11%nat in E1. unfold sizes in E1. cbn [fmap list_fmap sum_list_with id vsize] in E1.
    intros ([b j] & Hb & H)%bind_Some. injection H as <-. split; [|by eapply cache_ops_known; [|right]].
    cbn [fst fits]. destruct b; fixed_width; lia. }
  destruct (one_name (sscanf c "info-cache %s")) as [(w & E1)| ->]; [|done].
  rewrite E1. apply sscanf_length in E1; [|vm_compute; reflexivity..]. change (literals _) with 10%nat in E1. unfold sizes in E1. cbn [fmap list_fmap sum_list_with id vsize] in E1.
  intros [= <-]. split; [|done]. cbn [fst fits]. pose proof (cache_info_width w (srv_judger s)). fixed_width. lia.
Qed.

Lemma length_spaced ns : (length (spaced ns) <= 21 * length ns)%nat.
Proof.
  induction ns as [|n ns IH]; [done|]. change (spaced (n :: ns)) with ((32 :: print_dec n) ++ spaced ns). rewrite length_app.
  pose proof (length_print_digits 10 20 n []). unfold print_dec. cbn [length] in *. lia.
Qed.

Lemma texts_width h s :
  (length (uptime_text h s) <= 27)%nat /\ (length (statistics_text s) <= 52)%nat /\ (length (cpu_temp_text h) <= 29)%nat /\
  (length (info_text (text "elf") s) <= 176)%nat /\ (length (info_text (text "data") s) <= 176)%nat.
Proof.
  assert (length (text "uptime") = 6%nat /\ length (text "statistics") = 10%nat /\ length (text "cpu-temp") = 8%nat /\
    length (text "info-cache ") = 11%nat /\ length (text "elf") = 3%nat /\ length (text "data") = 4%nat) as (L1 & L2 & L3 & L4 & L5 & L6)
    by (vm_compute; done).
  unfold uptime_text, statistics_text, cpu_temp_text, info_text. rewrite !length_app, !length_cons.
  generalize (trunc_double (secf_since_epoch (srv_clock s) (hw_tsc h))) as t. generalize (cpu_temp h) as c. intros c t.
  pose proof (length_spaced [t]) as S1. pose proof (length_spaced [c]) as S2.
  pose proof (length_spaced [n_judges (srv_judger s); total_time_ns (srv_judger s)]) as S3.
  pose proof (cache_info_width (text "elf") (srv_judger s)) as C1. pose proof (cache_info_width (text "data") (srv_judger s)) as C2.
  change (length [t]) with 1%nat in S1. change (length [c]) with 1%nat in S2. rewrite L5 in *. rewrite L6 in *. rewrite L1, L2, L3, L4. change (length [_; _]) with 2%nat in S3. lia.
Qed.

Lemma special_fit h c s x : errors_known s -> process_special h c s = Some (Some x) -> fits x.1 /\ errors_known x.2.
Proof.
  intros Hk. unfold process_special. destruct (equals_to c _); [|done].
  assert (name_ok (text "elf") /\ name_ok (text "data")) as [He Hd] by (split; (split; [done|repeat constructor; done])).
  change (text "info-cache elf") with (text "info-cache " ++ text "elf"). change (text "info-cache data") with (text "info-cache " ++ text "data").
  rewrite !info_parsed, !mbind_Some by done. destruct (controls_texts h s) as (-> & -> & ->). intros H%(inj Some)%(inj Some); subst x. split; [|done].
  destruct (texts_width h s) as (W1 & W2 & W3 & W4 & W5). cbn [fst fits reply_of]. rewrite !length_app. cbn [length]. lia.
Qed.

Lemma or_else_inv (r n : option (handled (E:=E))) x : or_else r n = Some (Some x) -> r = Some (Some x) \/ n = Some (Some x).
Proof. destruct r as [[|]|]; cbn; auto. Qed.

(** C14: A message of at most 1472 bytes never gets a reply that does not fit into
    the 1564 bytes of the packet buffer it is written to, behind the 42 bytes of
    the headers and with its final 0, and the text of a judgement never fills
    its 1024 bytes: no field, however large, makes [sprintf] write past its
    buffer. *)
Theorem duck_reply_fits h c s r s' : errors_known s -> (length c <= 1472)%nat -> duck_packet h c s = Some (Reply (Some r) s') ->
  (42 + length r + 1 <= 1564)%nat /\ errors_known s' /\
  forall req, (length (judge_reply (srv_clock s) (judge req (srv_judger s)).1) < 1024)%nat.
Proof.
  intros Hk Hc H.
  unfold duck_packet in H. destruct (equals_to c "reboot"); [done|]. apply bind_Some in H as ([[r0 s0]|] & E1 & [= -> ->]).
  assert (fits (Some r) /\ errors_known s') as [Hf Hk'].
  { repeat (apply or_else_inv in E1 as [E1|E1]);
      [injection E1 as E1; apply controls_fit in E1 as [? Es]; cbn in Es; by subst|injection E1 as E1; by apply data_fit in E1|
       injection E1 as E1; by apply judge_fit in E1|by apply cache_fit in E1|by apply special_fit in E1]. }
  cbn [fits] in Hf. split; [lia|]. split; [done|]. intros req. apply judge_reply_length, judge_known, Hk.
Qed.
End protocol.

(** ** Over the network *)

Section rpc.
Context {E A X D : Type} `{EO : Elf E A} `{SI : SortIds} `{ND : NetDriver X} `{NC : NetDriver D}.
Context (read_hw : X -> hw).
Implicit Types (n : net D) (k : net (host X E)).

(** What the server's stack does with a frame. *)
Definition receive_frame (frame : list Z) k : Z * net (host X E) :=
  ducknet_packet_handle (Some phy_recv_packet_handle) (Some phy_send_packet_handle) None None None None
    (Some (udp_packet_handle read_hw)) frame k.

(** A server that runs under its own address. *)
Definition server_ok k : Prop := node_ok k /\ h_power (drv k) = Running /\ h_my_ip (drv k) = my_ip (ipv4 k).

Lemma receive_active frame k : receive_frame frame k =
  ducknet_packet_handle None (Some phy_send_packet_handle) None None None None (Some (udp_packet_handle read_hw)) frame (activate k).
Proof. done. Qed.

(** Sending changes the card, the scheduler and the driver's flag only. *)
Lemma phy_send_server frame k : h_server (drv (ducknet_phy_send (Some phy_send_packet_handle) frame k).2) = h_server (drv k).
Proof.
  unfold ducknet_phy_send, phy_send_packet_handle. cbn [Z.ltb Z.compare]. unfold drv_send at 1, host_driver.
  destruct (@drv_send X ND) as [send|]; cbn; [|done]. by destruct (send frame (h_card (drv k))) as [r x].
Qed.

(** The frame of a command, and the server after it. *)
Definition command_frame c n k port : list Z :=
  ipv4_frame (mac k) n (my_ip (ipv4 k)) IPv4_UDP (udp_datagram (my_ip (ipv4 n)) (my_ip (ipv4 k)) DUCK_UDP_PORT port (encode c)).

Lemma server_receives c n k port reply s' :
  node_ok n -> server_ok k -> my_ip (ipv4 n) mod 256 <> 255 -> is_uint 16 port -> command_ok c -> len_of (encode c) <= 1472 ->
  execute (read_hw (h_card (drv k))) c (h_server (drv k)) = Some (Reply reply s') ->
  receive_frame (command_frame c n k port) k = (-1, match reply with
    | Some to_send => (ducknet_udp_send (Some phy_send_packet_handle) (my_ip (ipv4 n)) port DUCK_UDP_PORT to_send (on_host (set_server s') (activate k))).2
    | None => on_host (set_server s') (activate k) end).
Proof.
  intros Hn (Hk & Hp & Hip) Hb Hport Hc Hl He.
  rewrite receive_active. unfold command_frame.
  rewrite (udp_delivery (Some phy_send_packet_handle) None None (udp_packet_handle read_hw) n (activate k)); [|done..].
  unfold udp_packet_handle. change (h_power (drv (activate k))) with (h_power (drv k)). rewrite Hp.
  change (h_my_ip (drv (activate k))) with (h_my_ip (drv k)). rewrite Hip, Z.eqb_refl. rewrite (proj2 (Z.eqb_neq _ _) Hb). cbn [negb].
  assert (udp_ok (mkUDP port DUCK_UDP_PORT (len_of (encode c) + 8)
    (udp_sum (my_ip (ipv4 n)) (my_ip (ipv4 k)) DUCK_UDP_PORT port (encode c)))) as Hu.
  { pose proof (len_of_pos (encode c)). split; [done|]. split; [done|]. split; [cbn; ulia|apply ducknet_checksum_range]. }
  rewrite (udp_image _ (encode c) Hu). cbn [sport dport]. change (DUCK_UDP_PORT =? DUCK_UDP_PORT) with true. cbv iota.
  rewrite drop_app_length' by (by rewrite length_udp_bytes). unfold duck_packet_handle.
  change (h_card (drv (activate k))) with (h_card (drv k)). change (h_server (drv (activate k))) with (h_server (drv k)).
  rewrite command_executes, He by done. by destruct reply.
Qed.

(** C12: A command sent from another host in one datagram is received, executed
    once on the server's state, and answered by one datagram from port 9999 that
    brings the prescribed reply to the port the command came from, unchanged;
    when the judger refuses, nothing is sent. *)
Theorem duck_rpc scb c n k port reply s' :
  node_ok n -> server_ok k -> my_ip (ipv4 n) mod 256 <> 255 -> is_uint 16 port -> command_ok c -> len_of (encode c) <= 1472 ->
  ducknet_arp_lookup (next_hop n (my_ip (ipv4 k))) n = Some (mac k) ->
  ducknet_arp_lookup (next_hop k (my_ip (ipv4 n))) k = Some (mac n) ->
  execute (read_hw (h_card (drv k))) c (h_server (drv k)) = Some (Reply reply s') ->
  exists frame k',
    ducknet_udp_send scb (my_ip (ipv4 k)) DUCK_UDP_PORT port (encode c) n = ducknet_phy_send scb frame n /\
    receive_frame frame k = (-1, k') /\ h_server (drv k') = s' /\
    match reply with
    | None => k' = on_host (set_server s') (activate k)
    | Some r => len_of r <= 1472 ->
        exists frame2, k' = (ducknet_phy_send (Some phy_send_packet_handle) frame2 (on_host (set_server s') (activate k))).2 /\
          forall f, ducknet_packet_handle None scb None None None None (Some f) frame2 n =
            (let sum := udp_sum (my_ip (ipv4 k)) (my_ip (ipv4 n)) port DUCK_UDP_PORT r in
             let '(x, _, n') := f (my_ip (ipv4 k)) (my_ip (ipv4 n))
               (udp_bytes (mkUDP DUCK_UDP_PORT port (len_of r + 8) sum) ++ r) n in
             if x <? 0 then (x, n') else (0, n'))
    end.
Proof.
  intros Hn (Hk & Hp & Hip) Hb Hport Hc Hl Hnk Hkn He. pose proof Hn as (_ & _ & HM). pose proof Hk as (_ & _ & HMk).
  exists (command_frame c n k port). pose proof (server_receives c n k port reply s' Hn (conj Hk (conj Hp Hip)) Hb Hport Hc Hl He) as Hr.
  eexists. split; [|split; [exact Hr|]].
  { rewrite udp_send_datagram by done. apply ipv4_send_resolved; [done|rewrite len_of_udp_datagram; lia|exact Hnk]. }
  destruct reply as [r|]; [|done].
  assert (len_of r <= 1472 -> exists frame2, (ducknet_udp_send (Some phy_send_packet_handle) (my_ip (ipv4 n)) port DUCK_UDP_PORT r
    (on_host (set_server s') (activate k))) = ducknet_phy_send (Some phy_send_packet_handle) frame2 (on_host (set_server s') (activate k)) /\
    frame2 = ipv4_frame (mac n) (on_host (set_server s') (activate k)) (my_ip (ipv4 n)) IPv4_UDP
      (udp_datagram (my_ip (ipv4 k)) (my_ip (ipv4 n)) port DUCK_UDP_PORT r)) as Hsend.
  { intros Hr1472. eexists. split; [|reflexivity]. rewrite udp_send_datagram by done.
    apply ipv4_send_resolved; [done|rewrite len_of_udp_datagram; lia|exact Hkn]. }
  split.
  - destruct (Z.leb_spec (len_of r) 1472) as [Hle|Hgt].
    + destruct (Hsend Hle) as (frame2 & -> & _). by rewrite phy_send_server.
    + unfold ducknet_udp_send. change (MTU (on_host (set_server s') (activate k))) with (MTU k). rewrite HMk.
      rewrite (proj2 (Z.ltb_ge _ _)), (proj2 (Z.ltb_lt _ _)) by lia. done.
  - intros Hr1472. destruct (Hsend Hr1472) as (frame2 & -> & E2). exists frame2. split; [done|]. intros f. rewrite E2.
    rewrite (udp_delivery scb None None f (on_host (set_server s') (activate k)) n); [done|done..].
Qed.
End rpc.
