(* ===== verification/DuckServerWitnesses.v ===== *)
(** * A judging service at work

    The server of the witnesses has the example program of [JudgerClaims] and a
    driver that records the frames it is given. *)

From Stdlib Require Import SpecFloat.
From S2P Require Import Prelude ByteMem DucknetUtils Ducknet DucknetProofs DucknetClaims DuckCache Utils Timer Stdio Memory Judger JudgerClaims NetworkDriver DuckServer DuckServerProofs DuckServerClaims.

#[local] Existing Instance example_sort.

Definition example_server : server unit := mkServer example_judger (mkClock 3000000000 24000000 3000000000 1) 7.

Definition example_hw : hw := mkHw 7000000000 (fun _ => 0) 7.

Lemma duck_protocol_exact_witness :
  command_ok (WriteBuffer 10 [1; 2; 3]) /\
  exists s, duck_packet example_hw (encode (WriteBuffer 10 [1; 2; 3])) example_server =
    Some (Reply (Some (text "ok-write-buffer 10 3")) s) /\ mread (buffer (srv_judger s)) 10 3 = [1; 2; 3].
Proof.
  assert (command_ok (WriteBuffer 10 [1; 2; 3])) as Hok by (vm_compute; split; [discriminate|reflexivity]).
  split; [exact Hok|]. eexists. rewrite (duck_protocol_exact example_hw _ example_server Hok). split; vm_compute; reflexivity.
Defined.

(** A judgement of the example program. *)
Definition example_message : list Z := encode (JudgeRun example_request).

Lemma duck_reply_fits_witness : exists r s',
  duck_packet example_hw example_message example_server = Some (Reply (Some r) s') /\ (length r <= 1521)%nat.
Proof.
  assert (exists r s', duck_packet example_hw example_message example_server = Some (Reply (Some r) s')) as (r & s' & E1)
    by (eexists _, _; vm_compute; reflexivity).
  exists r, s'. split; [exact E1|].
  destruct (duck_reply_fits example_hw example_message example_server r s') as (H & _ & _).
  - vm_compute. left.
  - vm_compute. lia.
  - exact E1.
  - lia.
Defined.

(** The server as 10.0.2.2, after it has learned the client's address. *)
Definition server_conf : netconf := mkNetconf [10; 0; 2; 2] gateway_mac [10; 0; 2; 1] 24 [0; 0; 0; 0] false.

Definition server_net : net (host (list (list Z)) unit) :=
  let n := net_static in
  let n := mkNet (Ducknet.tsc_freq n) (currenttime n) (phy n) (mac n) (MTU n) (arp n) (ipv4 n)
             (mkHost [] (mkScheduler ACTIVE 0) example_server 0 Running) in
  let n := DuckServer.init (fun _ => example_hw) server_conf n in
  (ducknet_arp_update 167772687 [82; 84; 0; 18; 52; 86] n).2.

Lemma duck_rpc_witness : exists frame k',
  ducknet_udp_send None 167772674 DUCK_UDP_PORT 4000 (text "query-buffer-size") resolved_net = ducknet_phy_send None frame resolved_net /\
  receive_frame (fun _ => example_hw) frame server_net = (-1, k') /\
  exists frame2, h_card (drv k') = [frame2] /\
    (ducknet_packet_handle None None None None None None (Some ack) frame2 resolved_net).1 = 0.
Proof.
  destruct (duck_rpc (fun _ => example_hw) None QueryBufferSize resolved_net server_net 4000
    (Some (text "ok-query-buffer-size 1024")) example_server) as (frame & k' & E1 & E2 & _ & E3).
  - exact example_node_ok.
  - split; [|split; reflexivity]. unfold node_ok, is_mac, is_byte, is_uint. split_and!; try (vm_compute; done). repeat constructor; vm_compute; done.
  - vm_compute. discriminate.
  - unfold is_uint. lia.
  - exact I.
  - vm_compute. congruence.
  - reflexivity.
  - reflexivity.
  - vm_compute. reflexivity.
  - exists frame, k'. split; [exact E1|]. split; [exact E2|]. destruct E3 as (frame2 & -> & Hf); [vm_compute; congruence|].
    exists frame2. split; [reflexivity|]. exact (f_equal fst (Hf ack)).
Defined.
