(* ===== verification/ElfLoader.v ===== *)
(** * lib/elf.cpp: loading and running programs

    The loader checks an image, lays out the regions of the program behind its
    memory, opens them in the page tables, copies the image and the inputs and
    builds the first stack page. The image and the inputs lie in kernel buffers
    and are lists of bytes; user memory is the memory of [Memory], written
    through the page walk, which marks the page accessed and dirty as the
    processor does. The boot code leaves CR0.WP clear, so the kernel's own
    stores need a present page only. The reload of CR3 concerns the TLB, which
    is not modelled. The class record holds where the 32-bit and the 64-bit
    formats differ. *)

From S2P Require Import Prelude ByteMem Utils Timer Memory Trap Judger.

(** ** Bytes of user memory *)

Definition byte_at (ph : gmap Z Z) (p : Z) : Z := (word ph (p - p mod 8) / 2 ^ (8 * (p mod 8))) mod 256.

Definition set_byte (p b : Z) (ph : gmap Z Z) : gmap Z Z :=
  <[p - p mod 8 := word ph (p - p mod 8) + (b - byte_at ph p) * 2 ^ (8 * (p mod 8))]> ph.

(** A store of the processor; a page fault is [None]. *)
Definition store (v b : Z) (m : memory) : option memory :=
  r ← translate m v;
  m ← update_P1 v (fun P1 => Z.lor P1 (flags [PTE_ACCESSED; PTE_DIRTY])) m;
  Some (set_phys (set_byte r.1 b (phys m)) m).

Fixpoint memcpy (v : Z) (l : list Z) (m : memory) : option memory :=
  match l with
  | [] => Some m
  | b :: l => m ← store v b m; memcpy (v + 1) l m
  end.

Definition load_byte (m : memory) (v : Z) : option Z := r ← translate m v; Some (byte_at (phys m) r.1).

Fixpoint read_bytes (n : nat) (v : Z) (m : memory) : option (list Z) :=
  match n with
  | O => Some []
  | S n => b ← load_byte m v; l ← read_bytes n (v + 1) m; Some (b :: l)
  end.

Definition memmove (dst src n : Z) (m : memory) : option memory :=
  l ← read_bytes (Z.to_nat n) src m; memcpy dst l m.

(** The pushes, in their order: [pushl] of 4 and [pushq] of 8 bytes, and [push]
    of a structure. *)
Definition push_bytes (l : list Z) (s : Z * memory) : option (Z * memory) :=
  let sp := u64 (s.1 - Z.of_nat (length l)) in
  m ← memcpy sp l s.2; Some (sp, m).
Definition pushl (v : Z) : list Z := le_bytes 4 (u32 v).
Definition pushq (v : Z) : list Z := le_bytes 8 (u64 v).

Fixpoint pushes (ls : list (list Z)) (s : Z * memory) : option (Z * memory) :=
  match ls with
  | [] => Some s
  | l :: ls => s ← push_bytes l s; pushes ls s
  end.

(** ** File formats *)

Record Ehdr := mkEhdr {
  e_ident : list Z; e_type : Z; e_machine : Z; e_version : Z; e_entry : Z; e_phoff : Z; e_phentsize : Z; e_phnum : Z
}.

Record Phdr := mkPhdr {
  p_type : Z; p_flags : Z; p_offset : Z; p_vaddr : Z; p_filesz : Z; p_memsz : Z; p_align : Z
}.

Definition get_ehdr32 (buf : list Z) : Ehdr :=
  mkEhdr (take 16 buf) (load_le 2 16 buf) (load_le 2 18 buf) (load_le 4 20 buf) (load_le 4 24 buf) (load_le 4 28 buf)
    (load_le 2 42 buf) (load_le 2 44 buf).
Definition get_ehdr64 (buf : list Z) : Ehdr :=
  mkEhdr (take 16 buf) (load_le 2 16 buf) (load_le 2 18 buf) (load_le 4 20 buf) (load_le 8 24 buf) (load_le 8 32 buf)
    (load_le 2 54 buf) (load_le 2 56 buf).
Definition get_phdr32 (buf : list Z) (o : nat) : Phdr :=
  mkPhdr (load_le 4 o buf) (load_le 4 (o + 24) buf) (load_le 4 (o + 4) buf) (load_le 4 (o + 8) buf)
    (load_le 4 (o + 16) buf) (load_le 4 (o + 20) buf) (load_le 4 (o + 28) buf).
Definition get_phdr64 (buf : list Z) (o : nat) : Phdr :=
  mkPhdr (load_le 4 o buf) (load_le 4 (o + 4) buf) (load_le 8 (o + 8) buf) (load_le 8 (o + 16) buf)
    (load_le 8 (o + 32) buf) (load_le 8 (o + 40) buf) (load_le 8 (o + 48) buf).

(** What differs between the two loaders before the memory is set up. *)
Record elf_class := mkClass {
  cls_ident : Z; cls_machine : Z; ehdr_size : Z; phdr_size : Z; get_ehdr : list Z -> Ehdr;
  get_phdr : list Z -> nat -> Phdr; cls_aligns : list Z; load_vaddr_start : Z
}.

Definition ELFCLASS32 : Z := 1.
Definition ELFCLASS64 : Z := 2.
Definition ELFDATA2LSB : Z := 1.
Definition EV_CURRENT : Z := 1.
Definition ELFOSABI_SYSV : Z := 0.
Definition ELFOSABI_LINUX : Z := 3.
Definition ET_EXEC : Z := 2.
Definition EM_386 : Z := 3.
Definition EM_X86_64 : Z := 62.
Definition PT_LOAD : Z := 1.
Definition PF_X : Z := 1.
Definition PF_W : Z := 2.

Definition class32 : elf_class :=
  mkClass ELFCLASS32 EM_386 52 32 get_ehdr32 get_phdr32 [PAGE_SIZE] 0x8048000.
Definition class64 : elf_class :=
  mkClass ELFCLASS64 EM_X86_64 64 56 get_ehdr64 get_phdr64 [PAGE_SIZE; HUGE_PAGE_SIZE] 0x400000.

Definition ident (h : Ehdr) (i : nat) : Z := nth i (e_ident h) 0.

Section checks.
Context (C : elf_class) (buf : list Z) (len : Z).

(** The checks of the header; [None] is [return false]. *)
Definition check_header : option Ehdr :=
  if len <? ehdr_size C then None
  else
    let h := get_ehdr C buf in
    if (ident h 0 =? 0x7f) && (ident h 1 =? 69) && (ident h 2 =? 76) && (ident h 3 =? 70) &&
       (ident h 4 =? cls_ident C) && (ident h 5 =? ELFDATA2LSB) && (ident h 6 =? EV_CURRENT) &&
       ((ident h 7 =? ELFOSABI_SYSV) || (ident h 7 =? ELFOSABI_LINUX)) &&
       (e_type h =? ET_EXEC) && (e_machine h =? cls_machine C) && (e_version h =? EV_CURRENT) &&
       negb (len <=? e_phoff h) && negb (len <=? e_phentsize h) && negb (len <=? e_phnum h)
    then Some h else None.

Definition phdr_off (h : Ehdr) (i : Z) : Z := u64 (e_phoff h + u64 (i * e_phentsize h)).
Definition phdr (h : Ehdr) (i : Z) : Phdr := get_phdr C buf (Z.to_nat (phdr_off h i)).

(** One turn of the first loop over the program headers, on the smallest and
    the largest address. *)
Definition scan_phdr (h : Ehdr) (i : Z) (s : Z * Z) : option (Z * Z) :=
  if len <? u64 (phdr_off h i + phdr_size C) then None
  else
    let p := phdr h i in
    if negb (p_type p =? PT_LOAD) then Some s
    else if negb (p_filesz p =? 0) && ((len <? p_offset p) || (len <? u64 (p_offset p + p_filesz p))) then None
    else if negb (existsb (Z.eqb (p_align p)) (cls_aligns C)) then None
    else if p_memsz p <? p_filesz p then None
    else if u64 (p_vaddr p + p_memsz p) <? p_vaddr p then None
    else Some (Z.min s.1 (p_vaddr p), Z.max s.2 (u64 (p_vaddr p + p_memsz p))).

Definition scan (h : Ehdr) : option (Z * Z) := forM_range 0 (e_phnum h) (scan_phdr h) (2 ^ 64 - 1, 0).

(** The end of the program's memory. *)
Definition place (conf : AppConfig) (s : Z * Z) (m : memory) : option Z :=
  let min_vaddr := round_down s.1 PAGE_SIZE in
  let max_vaddr := round_up s.2 PAGE_SIZE in
  if min_vaddr <? kernel_break then None
  else if (max_vaddr <=? min_vaddr) || (vaddr_break m <? max_vaddr) then None
  else
    let memory_limit := round_up (memory_hard_limit conf) PAGE_SIZE in
    let memory_needed := u64 (max_vaddr - min_vaddr) in
    if memory_limit <? memory_needed then None
    else if memory_limit <? u64 (memory_needed + PAGE_SIZE) then None
    else if negb (min_vaddr =? load_vaddr_start C) then None
    else
      let load_vaddr_break := u64 (load_vaddr_start C + memory_limit) in
      if load_vaddr_break <? load_vaddr_start C then None
      else if vaddr_break m <? load_vaddr_break then None
      else Some load_vaddr_break.
End checks.

(** ** Regions *)

(** Where each region ends; each begins where the previous one ends, the first
    (stdin) at the end of the program's memory. *)
Record Layout := mkLayout {
  load_break : Z; stdin_break : Z; stdout_break : Z; stderr_break : Z; IB_break : Z; OB_break : Z; image_break : Z;
  random_break : Z; special_region_break : Z
}.

Definition alloc (size cur : Z) : option Z :=
  let alloc_size := round_up size PAGE_SIZE in
  if alloc_size <? size then None
  else
    let brk := u64 (cur + alloc_size) in
    if brk <? cur then None else Some brk.

Definition alloc_page (cur : Z) : option Z :=
  let brk := u64 (cur + PAGE_SIZE) in
  if brk <? cur then None else Some brk.

Definition layout64 (conf : AppConfig) (b : Z) (m : memory) : option Layout :=
  stdin ← alloc (stdin_size conf) b;
  stdout ← alloc (stdout_max_size conf) stdin;
  stderr ← alloc (stderr_max_size conf) stdout;
  IB ← alloc (IB_size conf) stderr;
  OB ← alloc (OB_size conf) IB;
  image ← alloc_page OB;
  random ← alloc_page image;
  if random <? b then None
  else if vaddr_break m <? random then None
  else Some (mkLayout b stdin stdout stderr IB OB image random random).

(** The page of the image comes after the region that is checked. *)
Definition layout32 (conf : AppConfig) (b : Z) (m : memory) : option Layout :=
  stdin ← alloc (stdin_size conf) b;
  stdout ← alloc (stdout_max_size conf) stdin;
  stderr ← alloc (stderr_max_size conf) stdout;
  IB ← alloc (IB_size conf) stderr;
  OB ← alloc (OB_size conf) IB;
  if OB <? b then None
  else if vaddr_break m <? OB then None
  else
    image ← alloc_page OB;
    if 2 ^ 32 <? load_vaddr_start class32 then None
    else if 2 ^ 32 <? OB then None
    else Some (mkLayout b stdin stdout stderr IB OB image image OB).

(** All that is decided before memory changes. *)
Definition prepare32 (buf : list Z) (len : Z) (conf : AppConfig) (m : memory) : option (Ehdr * Layout) :=
  h ← check_header class32 buf len;
  s ← scan class32 buf len h;
  b ← place class32 conf s m;
  lay ← layout32 conf b m;
  Some (h, lay).
Definition prepare64 (buf : list Z) (len : Z) (conf : AppConfig) (m : memory) : option (Ehdr * Layout) :=
  h ← check_header class64 buf len;
  s ← scan class64 buf len h;
  b ← place class64 conf s m;
  lay ← layout64 conf b m;
  Some (h, lay).

(** ** Memory *)

(** Open the regions to the program, close the rest and clear what earlier
    programs wrote. *)
Definition open_regions (start : Z) (lay : Layout) (m : memory) : option memory :=
  m ← set_page_flags_kernel kernel_break start m;
  m ← set_page_flags_user_writable start (special_region_break lay) m;
  m ← set_page_flags_kernel (special_region_break lay) (vaddr_break m) m;
  clear_duck_written_pages start (special_region_break lay) m.

Definition copy_segment (C : elf_class) (buf : list Z) (h : Ehdr) (i : Z) (m : memory) : option memory :=
  let p := phdr C buf h i in
  if negb (p_type p =? PT_LOAD) then Some m
  else if p_filesz p =? 0 then Some m
  else
    m ← memcpy (p_vaddr p) (sub_bytes (Z.to_nat (p_offset p)) (Z.to_nat (p_filesz p)) buf) m;
    set_duck_written (round_down (p_vaddr p) PAGE_SIZE) (round_up (u64 (p_vaddr p + p_filesz p)) PAGE_SIZE) m.

Definition copy_segments (C : elf_class) (buf : list Z) (h : Ehdr) : memory -> option memory :=
  forM_range 0 (e_phnum h) (copy_segment C buf h).

(** A read-only region. *)
Definition load_readonly (l : list Z) (start end_ : Z) (m : memory) : option memory :=
  m ← memcpy start l m;
  m ← set_duck_written start end_ m;
  set_page_flags_user_readonly start end_ m.

Definition load_inputs (conf : AppConfig) (lay : Layout) (m : memory) : option memory :=
  m ← load_readonly (take (Z.to_nat (stdin_size conf)) (c_stdin conf)) (load_break lay) (stdin_break lay) m;
  m ← load_readonly (take (Z.to_nat (IB_size conf)) (c_IB conf)) (stderr_break lay) (IB_break lay) m;
  if OB_need_clear conf then Some m
  else
    m ← set_duck_written (IB_break lay) (u64 (IB_break lay + round_up (OB_size conf) PAGE_SIZE)) m;
    memcpy (IB_break lay) (take (Z.to_nat (OB_size conf)) (c_OB conf)) m.

Definition load_image (buf : list Z) (len : Z) (lay : Layout) (m : memory) : option memory :=
  load_readonly (take (Z.to_nat (Z.min (u32 len) PAGE_SIZE)) buf) (OB_break lay) (image_break lay) m.

Definition load_random (lay : Layout) (m : memory) : option memory :=
  m ← memcpy (image_break lay) (le_bytes 8 0xf44c01c8) m;
  m ← memcpy (image_break lay + 8) (le_bytes 8 0x22b64652) m;
  m ← set_duck_written (image_break lay) (random_break lay) m;
  set_page_flags_user_readonly (image_break lay) (random_break lay) m.

Definition segment_flags (C : elf_class) (buf : list Z) (h : Ehdr) (i : Z) (m : memory) : option memory :=
  let p := phdr C buf h i in
  if negb (p_type p =? PT_LOAD) then Some m
  else
    let start := round_down (p_vaddr p) PAGE_SIZE in
    let end_ := round_up (u64 (p_vaddr p + p_memsz p)) PAGE_SIZE in
    m ← set_page_flags_user_readonly start end_ m;
    m ← (if negb (Z.land (p_flags p) PF_X =? 0) then add_page_flags_executable start end_ m else Some m);
    if negb (Z.land (p_flags p) PF_W =? 0) then add_page_flags_writable start end_ m else Some m.

Definition all_segment_flags (C : elf_class) (buf : list Z) (h : Ehdr) : memory -> option memory :=
  forM_range 0 (e_phnum h) (segment_flags C buf h).

(** ** The first stack page *)

(** inc/abi.hpp: the fields in their order in memory. *)
Record DuckInfo_t := mkInfo {
  abi_version : Z; stdin_ptr : Z; di_stdin_size : Z; stdout_ptr : Z; stdout_limit : Z; di_stdout_size : Z; stderr_ptr : Z;
  stderr_limit : Z; di_stderr_size : Z; IB_ptr : Z; IB_limit : Z; OB_ptr : Z; OB_limit : Z; tsc_frequency : Z
}.

Definition ABI_version : Z := 40.
Definition AT_DUCK : Z := 0x6b637564.
Definition AT_PHDR : Z := 3.
Definition AT_PHENT : Z := 4.
Definition AT_PHNUM : Z := 5.
Definition AT_PAGESZ : Z := 6.
Definition AT_BASE : Z := 7.
Definition AT_ENTRY : Z := 9.
Definition AT_UID : Z := 11.
Definition AT_EUID : Z := 12.
Definition AT_GID : Z := 13.
Definition AT_EGID : Z := 14.
Definition AT_HWCAP : Z := 16.
Definition AT_SECURE : Z := 23.
Definition AT_RANDOM : Z := 25.

Definition duckinfo (conf : AppConfig) (lay : Layout) (tsc_freq : Z) : DuckInfo_t :=
  mkInfo ABI_version (load_break lay) (stdin_size conf) (stdin_break lay) (stdout_max_size conf) 0
    (stdout_break lay) (stderr_max_size conf) 0 (stderr_break lay) (IB_size conf) (IB_break lay) (OB_size conf) tsc_freq.

Definition info_fields (d : DuckInfo_t) : list Z :=
  [abi_version d; stdin_ptr d; di_stdin_size d; stdout_ptr d; stdout_limit d; di_stdout_size d; stderr_ptr d;
   stderr_limit d; di_stderr_size d; IB_ptr d; IB_limit d; OB_ptr d; OB_limit d].

(** The packed structures: all fields of 8 bytes, or of 4 and the last of 8. *)
Definition info64_bytes (d : DuckInfo_t) : list Z := (info_fields d ≫= pushq) ++ pushq (tsc_frequency d).
Definition info32_bytes (d : DuckInfo_t) : list Z := (info_fields d ≫= pushl) ++ pushq (tsc_frequency d).

Definition stack64 (h : Ehdr) (lay : Layout) (duckinfo_ptr : Z) : list (list Z) :=
  pushq <$>
  [0; PAGE_SIZE; AT_PAGESZ; duckinfo_ptr; AT_DUCK;
   OB_break lay; AT_BASE; OB_break lay + e_phoff h; AT_PHDR; e_entry h; AT_ENTRY; e_phentsize h; AT_PHENT;
   e_phnum h; AT_PHNUM;
   0xbfebfbff; AT_HWCAP; 2; AT_HWCAP; 1000; AT_UID; 1000; AT_EUID; 1000; AT_GID; 1000; AT_EGID; 0; AT_SECURE;
   image_break lay; AT_RANDOM;
   0; 0; 0].

Definition stack32 (h : Ehdr) (lay : Layout) (duckinfo32_ptr : Z) : list (list Z) :=
  (pushl <$> [0; PAGE_SIZE; AT_PAGESZ; duckinfo32_ptr; AT_DUCK]) ++
  (pushq <$> [OB_break lay; AT_BASE; OB_break lay + e_phoff h; AT_PHDR; e_entry h; AT_ENTRY; e_phentsize h; AT_PHENT;
              e_phnum h; AT_PHNUM]) ++
  (pushl <$> [0; 0; 0]).

(** Push the structure and the vectors and align the pointer; the stack pointer
    and the address of the structure. *)
Definition build_stack (info : list Z) (vectors : Z -> list (list Z)) (lay : Layout) (m : memory)
    : option (Z * Z * memory) :=
  r ← push_bytes info (load_break lay, m); let '(info_ptr, m) := r in
  r ← pushes (vectors info_ptr) (info_ptr, m); let '(sp, m) := r in
  r ← (if negb (sp mod 16 =? 0) then
         let new_sp := round_down sp 16 in
         m ← memmove new_sp sp (u64 (info_ptr - sp)) m; Some (new_sp, m)
       else Some (sp, m)); let '(sp, m) := r in
  m ← set_duck_written (u64 (load_break lay - PAGE_SIZE)) (load_break lay) m;
  Some (sp, info_ptr, m).

(** ** The loaders *)

Record App := mkApp {
  app_entry : Z; app_rsp : Z; start_addr : Z; break_addr : Z; special_region_start_addr : Z;
  special_region_break_addr : Z; stdin_start_addr : Z; stdin_break_addr : Z; duckinfo_orig : DuckInfo_t;
  duckinfo_ptr : Z; duckinfo32_ptr : Z
}.

(** [None] inside is [return false]; [None] outside a failed assertion or a
    page fault of the kernel. *)
Definition load_elf64 (tsc_freq : Z) (buf : list Z) (len : Z) (conf : AppConfig) (m : memory)
    : option (option App * memory) :=
  match prepare64 buf len conf m with
  | None => Some (None, m)
  | Some (h, lay) =>
      let start := load_vaddr_start class64 in
      m ← open_regions start lay m;
      m ← copy_segments class64 buf h m;
      m ← load_inputs conf lay m;
      m ← load_image buf len lay m;
      m ← load_random lay m;
      let info := duckinfo conf lay tsc_freq in
      r ← build_stack (info64_bytes info) (stack64 h lay) lay m; let '(rsp, info_ptr, m) := r in
      m ← all_segment_flags class64 buf h m;
      m ← clear_access_and_dirty_flags start (special_region_break lay) m;
      Some (Some (mkApp (e_entry h) rsp start (load_break lay) (load_break lay) (special_region_break lay)
                    (load_break lay) (stdin_break lay) info info_ptr 0), m)
  end.

Definition load_elf32 (tsc_freq : Z) (buf : list Z) (len : Z) (conf : AppConfig) (m : memory)
    : option (option App * memory) :=
  match prepare32 buf len conf m with
  | None => Some (None, m)
  | Some (h, lay) =>
      let start := load_vaddr_start class32 in
      m ← open_regions start lay m;
      m ← copy_segments class32 buf h m;
      m ← load_inputs conf lay m;
      m ← load_image buf len lay m;
      let info := duckinfo conf lay tsc_freq in
      r ← build_stack (info32_bytes info) (stack32 h lay) lay m; let '(esp, info_ptr, m) := r in
      m ← all_segment_flags class32 buf h m;
      m ← clear_access_and_dirty_flags start (special_region_break lay) m;
      Some (Some (mkApp (e_entry h) esp start (load_break lay) (load_break lay) (special_region_break lay)
                    (load_break lay) (stdin_break lay) info 0 info_ptr), m)
  end.

Definition load (tsc_freq : Z) (buf : list Z) (len : Z) (conf : AppConfig) (m : memory)
    : option (option App * memory) :=
  if len <? ehdr_size class32 then Some (None, m)
  else
    let ei_class := nth 4 buf 0 in
    if ei_class =? ELFCLASS64 then load_elf64 tsc_freq buf len conf m
    else if ei_class =? ELFCLASS32 then load_elf32 tsc_freq buf len conf m
    else Some (None, m).

(** ** Running *)

(** What user code does to memory; the accesses the program makes are all the
    kernel sees of it. *)
Inductive access := Uread (v : Z) | Uwrite (v b : Z) | Ufetch (v : Z).

(** One access; [None] is a fault, which ends the program. *)
Definition user_access_step (a : access) (m : memory) : option memory :=
  let v := match a with Uread v | Ufetch v | Uwrite v _ => v end in
  if negb (canonical v) then None
  else
    r ← translate m v;
    match a with
    | Uread _ => if user_access r.2 then update_P1 v (fun P1 => Z.lor P1 PTE_ACCESSED) m else None
    | Ufetch _ =>
        if user_access r.2 && negb (no_execute r.2) then update_P1 v (fun P1 => Z.lor P1 PTE_ACCESSED) m else None
    | Uwrite _ b => if user_access r.2 && write_access r.2 then store v (u8 b) m else None
    end.

Fixpoint user_accesses (l : list access) (m : memory) : memory :=
  match l with
  | [] => m
  | a :: l =>
      match user_access_step a m with
      | None => m
      | Some m => user_accesses l m
      end
  end.

(** One execution: the accesses, and the frames and counters at its trap. *)
Record execution := mkExec {
  x_accesses : list access; x_rflags : Z; x_ktf : Trapframe; x_utf : Trapframe; x_clock : Z; x_cr2 : Z; x_old_rc : Z
}.

Section run.
Context `{TS : TrapSymbols} (tsc_freq clk_freq : Z).

(** The field [stdout_size] or [stderr_size] of the program's structure; [k] is
    its index. *)
Definition read_size (app : App) (k : Z) (m : memory) : option Z :=
  if negb (duckinfo_ptr app =? 0) then le_val <$> read_bytes 8 (duckinfo_ptr app + 8 * k) m
  else le_val <$> read_bytes 4 (duckinfo32_ptr app + 4 * k) m.

Definition run (app : App) (time_limit_ns : Z) (x : execution) (m : memory) (s : trap_state)
    : option (RunResult * memory * trap_state) :=
  r ← (if negb (duckinfo_ptr app =? 0)
       then Trap.run_user_64 (app_entry app) (app_rsp app) time_limit_ns (x_rflags x) (x_ktf x) (x_utf x) (x_clock x)
              (x_cr2 x) (x_old_rc x) s
       else Trap.run_user_32 (app_entry app) (app_rsp app) time_limit_ns (x_rflags x) (x_ktf x) (x_utf x) (x_clock x)
              (x_cr2 x) (x_old_rc x) s);
  let '(time_tsc, trap_num, return_code, s) := r in
  let m := user_accesses (x_accesses x) m in
  m ← set_duck_written_by_dirty (start_addr app) (special_region_break_addr app) m;
  dirty ← count_dirty_pages (start_addr app) (special_region_break_addr app) m;
  let memory_bytes := u64 (PAGE_SIZE * dirty) in
  accessed ← count_accessed_pages (start_addr app) (special_region_break_addr app) m;
  stdin ← count_accessed_pages (stdin_start_addr app) (stdin_break_addr app) m;
  let temp_pages := u64 (accessed - stdin) in
  out ← read_size app 5 m;
  err ← read_size app 8 m;
  let stdout_size := Z.min (stdout_limit (duckinfo_orig app)) out in
  let stderr_size := Z.min (stderr_limit (duckinfo_orig app)) err in
  out ← read_bytes (Z.to_nat stdout_size) (stdout_ptr (duckinfo_orig app)) m;
  err ← read_bytes (Z.to_nat stderr_size) (stderr_ptr (duckinfo_orig app)) m;
  OB ← read_bytes (Z.to_nat (OB_limit (duckinfo_orig app))) (OB_ptr (duckinfo_orig app)) m;
  let '(count_inst, clk_thread, clk_ref_tsc) := read_performance_counters in
  Some (mkRun count_inst clk_thread clk_ref_tsc time_tsc (to_ns clk_freq clk_thread) (to_ns tsc_freq clk_ref_tsc)
          (to_ns tsc_freq time_tsc) (memory_bytes / 1024)
          (u64 (PAGE_SIZE * temp_pages) / 1024) trap_num return_code (__trap_epc s) (__trap_cr2 s) out stdout_size err
          stderr_size OB, m, s).
End run.
