(* ===== verification/ElfMemory.v ===== *)
(** * User memory as the programs see it

    [view m v] is the page of [v], as the bits of its entry that matter, and the
    byte at [v]. Every operation of the loader on memory is an [effect]: a
    function on views, applied at each address; effects compose. *)

From S2P Require Import Prelude Utils Memory MemoryProofs MemoryTables MemoryInit MemoryPaging MemoryFrames MemoryFlags ElfLoader.

(** ** Entries *)

Record page := mkPage {
  pv_user : bool; pv_write : bool; pv_nx : bool; pv_mark : bool; pv_accessed : bool; pv_dirty : bool
}.

Definition page_of (e : Z) : page :=
  mkPage (Z.testbit e 2) (Z.testbit e 1) (Z.testbit e 63) (Z.testbit e 9) (Z.testbit e 5) (Z.testbit e 6).

(** A function on entries that keeps the physical page. *)
Record good_update (f : Z -> Z) (g : page -> page) : Prop := {
  gu_uint e : is_uint 64 e -> is_uint 64 (f e);
  gu_frame e : is_uint 64 e -> frame (f e) = frame e;
  gu_present e : is_uint 64 e -> Z.testbit e 0 = true -> Z.testbit (f e) 0 = true;
  gu_page e : is_uint 64 e -> page_of (f e) = g (page_of e)
}.

Lemma flag_bits_spec c i : flag_bits c -> 12 <= i < 52 -> Z.testbit c i = false.
Proof.
  intros Hc Hi. pose proof (frame_bits c i) as H. rewrite Hc, Z.bits_0 in H.
  rewrite (proj2 (Z.leb_le 12 i)), (proj2 (Z.ltb_lt i 52)) in H by lia. symmetry. apply H. lia.
Qed.

Lemma frame_ext e e' : (forall i, 12 <= i < 52 -> Z.testbit e i = Z.testbit e' i) -> frame e = frame e'.
Proof.
  intros H. apply Z.bits_inj'. intros i Hi. rewrite !frame_bits by done.
  destruct (Z.leb_spec 12 i), (Z.ltb_spec i 52); cbn [andb]; try done. apply H. lia.
Qed.

Lemma frame_lor e c : flag_bits c -> frame (Z.lor e c) = frame e.
Proof. intros Hc. apply frame_ext. intros i Hi. rewrite Z.lor_spec, (flag_bits_spec c) by done. apply orb_false_r. Qed.

Lemma frame_ldiff e c : flag_bits c -> frame (Z.ldiff e c) = frame e.
Proof. intros Hc. apply frame_ext. intros i Hi. rewrite Z.ldiff_spec, (flag_bits_spec c) by done. apply andb_true_r. Qed.

Lemma uint_lor e c : is_uint 64 e -> is_uint 64 c -> is_uint 64 (Z.lor e c).
Proof.
  intros He Hc. apply uint_bits; [lia|apply Z.lor_nonneg; unfold is_uint in *; lia|].
  intros i Hi. by rewrite Z.lor_spec, !(uint_high_bit 64).
Qed.

Lemma uint_ldiff e c : is_uint 64 e -> is_uint 64 (Z.ldiff e c).
Proof.
  intros He. apply uint_bits; [lia|apply Z.ldiff_nonneg; unfold is_uint in *; lia|].
  intros i Hi. by rewrite Z.ldiff_spec, (uint_high_bit 64).
Qed.

(** The three shapes of updates. *)
Lemma good_set_flags fl : flag_bits fl -> is_uint 64 fl -> Z.testbit fl 0 = true -> Z.testbit fl 9 = false ->
  good_update (fun e => Z.lor (clear_page_flags e) fl)
    (fun p => mkPage (Z.testbit fl 2) (Z.testbit fl 1) (Z.testbit fl 63) (pv_mark p) (Z.testbit fl 5) (Z.testbit fl 6)).
Proof.
  intros Hf Hu H0 H9. split.
  - intros e He. by apply set_flags_uint.
  - intros e He. by apply frame_set_flags.
  - intros e He _. rewrite testbit_set_flags by (done || lia). done.
  - intros e He. unfold page_of.
    rewrite (testbit_set_flags e fl 2), (testbit_set_flags e fl 1), (testbit_set_flags e fl 63),
      (testbit_set_flags e fl 5), (testbit_set_flags e fl 6) by (done || lia).
    rewrite Z.lor_spec, clear_page_flags_bits, H9, orb_false_r by (done || lia). done.
Qed.

Lemma good_lor c : flag_bits c -> is_uint 64 c ->
  good_update (fun e => Z.lor e c)
    (fun p => mkPage (pv_user p || Z.testbit c 2) (pv_write p || Z.testbit c 1) (pv_nx p || Z.testbit c 63)
                (pv_mark p || Z.testbit c 9) (pv_accessed p || Z.testbit c 5) (pv_dirty p || Z.testbit c 6)).
Proof.
  intros Hf Hu. split.
  - intros e He. by apply uint_lor.
  - intros e _. by apply frame_lor.
  - intros e _ H0. by rewrite Z.lor_spec, H0.
  - intros e _. unfold page_of. by rewrite !Z.lor_spec.
Qed.

Lemma good_ldiff c : flag_bits c -> is_uint 64 c -> Z.testbit c 0 = false ->
  good_update (fun e => Z.land e (not64 c))
    (fun p => mkPage (pv_user p && negb (Z.testbit c 2)) (pv_write p && negb (Z.testbit c 1)) (pv_nx p && negb (Z.testbit c 63))
                (pv_mark p && negb (Z.testbit c 9)) (pv_accessed p && negb (Z.testbit c 5)) (pv_dirty p && negb (Z.testbit c 6))).
Proof.
  intros Hf Hu H0. split; intros e He; rewrite ?not64_ldiff by done.
  - by apply uint_ldiff.
  - by apply frame_ldiff.
  - intros E. by rewrite Z.ldiff_spec, H0, E.
  - unfold page_of. by rewrite !Z.ldiff_spec.
Qed.

(** ** Bytes of a word *)

Definition byte_of (w k : Z) : Z := (w / 2 ^ (8 * k)) mod 256.

Lemma byte_set w k b j : 0 <= k -> 0 <= j -> is_byte b ->
  byte_of (w + (b - byte_of w k) * 2 ^ (8 * k)) j = if decide (j = k) then b else byte_of w j.
Proof.
  intros Hk Hj Hb. unfold is_byte, is_uint in Hb. unfold byte_of. set (q := w / 2 ^ (8 * k)).
  assert ((w + (b - q mod 256) * 2 ^ (8 * k)) / 2 ^ (8 * k) = b + q / 256 * 256) as Eq.
  { rewrite Z.div_add by (by apply Z.pow_nonzero; lia). fold q. dlia. }
  case_decide as E; [subst j|destruct (Z.lt_ge_cases j k) as [Hlt|Hge]].
  - rewrite Eq, Z_mod_plus_full. apply Z.mod_small. lia.
  - replace (2 ^ (8 * k)) with (2 ^ (8 * (k - j - 1)) * 256 * 2 ^ (8 * j)).
    + rewrite Z.mul_assoc, Z.div_add by (apply Z.pow_nonzero; lia). rewrite Z.mul_assoc, Z_mod_plus_full. done.
    + change 256 with (2 ^ 8). rewrite <- !Z.pow_add_r by lia. f_equal. lia.
  - assert (0 < 2 ^ (8 * (j - k - 1))) as H1 by (apply Z.pow_pos_nonneg; lia).
    replace (2 ^ (8 * j)) with (2 ^ (8 * k) * (256 * 2 ^ (8 * (j - k - 1)))).
    + rewrite <- !Z.div_div by (lia || by apply Z.pow_nonzero; lia). rewrite Eq. fold q. f_equal. f_equal. dlia.
    + change 256 with (2 ^ 8). rewrite <- !Z.pow_add_r by lia. f_equal. lia.
Qed.

(** ** Views *)

Section user.
Context (own : gmap Z node) (Q L : Z).
Implicit Types m : memory.

Definition user (v : Z) : Prop := kernel_break <= v < Q * HUGE_PAGE_SIZE.

Definition ubyte m v : Z := byte_at (phys m) (frame (entry m v) + v mod 4096).

Definition view m v : page * Z := (page_of (entry m v), ubyte m v).

Record effect (f : Z -> page * Z -> page * Z) m m' : Prop := {
  ef_clean : clean_frames own Q L m';
  ef_break : vaddr_break m' = vaddr_break m;
  ef_closed : closed own Q m -> closed own Q m';
  ef_view v : user v -> view m' v = f v (view m v)
}.

Lemma effect_refl m : clean_frames own Q L m -> effect (fun _ x => x) m m.
Proof. by split. Qed.

Lemma effect_trans f g m m1 m2 : effect f m m1 -> effect g m1 m2 -> effect (fun v x => g v (f v x)) m m2.
Proof.
  intros [C1 B1 K1 V1] [C2 B2 K2 V2]. split; [done|congruence|auto|]. intros v Hv. by rewrite V2, V1.
Qed.

Lemma effect_ext f g m m' : (forall v, user v -> f v (view m v) = g v (view m v)) -> effect f m m' -> effect g m m'.
Proof. intros E [C B K V]. split; [done|done|done|]. intros v Hv. by rewrite V, E. Qed.

Lemma user_nonneg v : user v -> 0 <= v < Q * HUGE_PAGE_SIZE.
Proof. unfold user, kernel_break. lia. Qed.

Lemma byte_at_page m v : byte_at (phys m) (frame (entry m v) + v mod 4096) =
  (page_word m v (v mod 4096 / 8) / 2 ^ (8 * (v mod 8))) mod 256.
Proof.
  unfold byte_at, page_word. destruct (frame_is_aligned (entry m v)) as [Ha _].
  replace ((frame (entry m v) + v mod 4096) mod 8) with (v mod 8) by dlia. do 3 f_equal. dlia.
Qed.

(** Word [i] of a page is not a word of a table. *)
Lemma table_word m v i T nd j : clean_frames own Q L m -> user v -> slot i -> own !! T = Some nd -> slot j ->
  PTE_addr T j <> frame (entry m v) + 8 * i.
Proof.
  intros [Hp Hu Hpr] Hv Hi HT Hj. destruct (pg_own _ _ _ Hp _ _ HT) as [HTa _]. rewrite PTE_addr_spec by done.
  pose proof (uf_tables _ _ _ _ Hu _ _ HT). pose proof (uf_above _ _ _ _ Hu v Hv). unfold slot in *. lia.
Qed.

(** One entry through a good update. *)
Lemma update_effect f g m a : good_update f g -> clean_frames own Q L m -> user a ->
  exists m', update_P1 a f m = Some m' /\
    effect (fun v '(p, b) => (if decide (v / 4096 = a / 4096) then g p else p, b)) m m' /\
    forall v, user v -> frame (entry m' v) = frame (entry m v) /\ forall i, slot i -> page_word m' v i = page_word m v i.
Proof.
  intros G Hc Ha. pose proof (user_nonneg a Ha) as Ha0. pose proof Hc as [Hp Hu Hpr].
  rewrite (update_P1_spec own Q m Hp a f Ha0).
  destruct (paging_update own Q m Hp a (f (entry m a)) Ha0) as [Hp' Hk]. cbv zeta in Hp', Hk.
  destruct (walk_tables own Q m Hp a Ha0) as (_ & _ & T1 & _ & _ & _ & _ & _ & _ & _ & _ & O1 & ET & _).
  set (m' := set_PTE (p1_table m a) (P1_index a) (f (entry m a)) m) in *.
  assert (forall v, user v -> entry m' v = if decide (v / 4096 = a / 4096) then f (entry m v) else entry m v) as He.
  { intros v Hv. pose proof (user_nonneg v Hv) as Hv0. rewrite (proj2 (Hk v Hv0)). do 2 case_decide; try done; try congruence.
    f_equal. apply (same_entry own Q m Hp a v Ha0 Hv0) in H as [E1 E2]. unfold entry. by rewrite E1, E2. }
  assert (forall v, user v -> frame (entry m' v) = frame (entry m v)) as Hf.
  { intros v Hv. rewrite He by done. case_decide; [|done]. by apply (gu_frame _ _ G), (uf_uint _ _ _ _ Hu). }
  assert (forall v, user v -> forall i, slot i -> page_word m' v i = page_word m v i) as Hw.
  { intros v Hv i Hi. unfold page_word. rewrite Hf by done. unfold m', set_PTE, word. cbn [phys set_phys].
    rewrite lookup_insert_ne; [done|]. rewrite ET. by eapply (table_word m v i T1); [| | |exact O1|apply P1_index_slot]. }
  exists m'. split; [done|]. split; [|by split; [apply Hf|apply Hw]]. split; [split; [done|split|]|done|by intros; apply closed_update|].
  - apply (uf_tables _ _ _ _ Hu).
  - intros v Hv. rewrite Hf by done. by apply (uf_above _ _ _ _ Hu).
  - intros v Hv. rewrite He by done. case_decide; [|by apply (uf_uint _ _ _ _ Hu)].
    by apply (gu_uint _ _ G), (uf_uint _ _ _ _ Hu).
  - intros v v' Hv Hv'. rewrite !Hf by done. by apply (uf_inj _ _ _ _ Hu).
  - intros v Hv. rewrite He by done. case_decide; [|by apply Hpr].
    apply (gu_present _ _ G); [by apply (uf_uint _ _ _ _ Hu)|by apply Hpr].
  - intros v Hv. unfold view, ubyte. f_equal.
    + rewrite He by done. case_decide; [|done]. by apply (gu_page _ _ G), (uf_uint _ _ _ _ Hu).
    + rewrite !byte_at_page. rewrite Hw; [done|done|]. unfold slot. dlia.
Qed.

Definition in_range (s e v : Z) : Prop := s <= v < e.
#[export] Instance in_range_dec s e v : Decision (in_range s e v).
Proof. unfold in_range. apply _. Defined.

(** The pages of a range. *)
Lemma range_effect s e f g m :
  good_update f g -> clean_frames own Q L m -> s mod 4096 = 0 -> e mod 4096 = 0 -> kernel_break <= s <= e ->
  e <= Q * HUGE_PAGE_SIZE ->
  exists m', for_pages s e (fun a => update_P1 a f) m = Some m' /\
    effect (fun v '(p, b) => (if decide (in_range s e v) then g p else p, b)) m m'.
Proof.
  intros G Hc Hs He Hr HQ. pose proof (pg_Q _ _ _ (cf_paging _ _ _ _ Hc)) as HQ0.
  unfold HUGE_PAGE_SIZE in HQ. change kernel_break with 16777216 in Hr.
  rewrite for_pages_range by (done || lia).
  destruct (forM_range_ind (fun k m' => effect (fun v '(p, b) => (if decide (in_range s (s + k * 4096) v) then g p else p, b)) m m')
    0 ((e - s) / 4096) (fun i => update_P1 (u64 (s + i * PAGE_SIZE)) f) m) as (m' & -> & Hm').
  - dlia.
  - eapply effect_ext; [|by apply effect_refl]. intros v Hv. destruct (view m v).
    rewrite decide_False by (unfold in_range; lia). done.
  - intros k m' Hk Hm'. unfold PAGE_SIZE. assert (s + k * 4096 + 4096 <= e) as Hle by dlia.
    rewrite wrap_small by (unfold is_uint; lia).
    destruct (update_effect f g m' (s + k * 4096) G (ef_clean _ _ _ Hm')) as (m'' & -> & Hm'' & _).
    { unfold user. change kernel_break with 16777216. unfold HUGE_PAGE_SIZE. lia. }
    exists m''. split; [done|]. eapply effect_ext; [|by eapply effect_trans].
    intros v Hv. destruct (view m v) as [p b]. unfold in_range. repeat case_decide; try done; exfalso; dlia.
  - exists m'. split; [done|]. by replace (s + (e - s) / 4096 * 4096) with e in Hm' by dlia.
Qed.

(** ** The operations on flags *)

Definition e_flags (s e : Z) (u w x : bool) (v : Z) (y : page * Z) : page * Z :=
  (if decide (in_range s e v) then mkPage u w x (pv_mark y.1) false false else y.1, y.2).
Definition e_write (s e v : Z) (y : page * Z) : page * Z :=
  let p := y.1 in
  (if decide (in_range s e v) then mkPage (pv_user p) true (pv_nx p) (pv_mark p) (pv_accessed p) (pv_dirty p) else p, y.2).
Definition e_exec (s e v : Z) (y : page * Z) : page * Z :=
  let p := y.1 in
  (if decide (in_range s e v) then mkPage (pv_user p) (pv_write p) false (pv_mark p) (pv_accessed p) (pv_dirty p) else p, y.2).
Definition e_mark (s e v : Z) (y : page * Z) : page * Z :=
  let p := y.1 in
  (if decide (in_range s e v) then mkPage (pv_user p) (pv_write p) (pv_nx p) true (pv_accessed p) (pv_dirty p) else p, y.2).
Definition e_mark_dirty (s e v : Z) (y : page * Z) : page * Z :=
  let p := y.1 in
  (if decide (in_range s e v)
   then mkPage (pv_user p) (pv_write p) (pv_nx p) (pv_mark p || pv_dirty p) (pv_accessed p) (pv_dirty p) else p, y.2).
Definition e_untouch (s e v : Z) (y : page * Z) : page * Z :=
  let p := y.1 in
  (if decide (in_range s e v) then mkPage (pv_user p) (pv_write p) (pv_nx p) (pv_mark p) false false else p, y.2).
Definition e_clear (s e v : Z) (y : page * Z) : page * Z :=
  let p := y.1 in
  if decide (in_range s e v /\ pv_mark p = true)
  then (mkPage (pv_user p) (pv_write p) (pv_nx p) false (pv_accessed p) false, 0) else y.

Lemma land_pow2 e k : 0 <= k -> (Z.land e (2 ^ k) =? 0) = negb (Z.testbit e k).
Proof.
  intros Hk. destruct (Z.testbit e k) eqn:E.
  - destruct (Z.eqb_spec (Z.land e (2 ^ k)) 0) as [H|]; [|done]. exfalso.
    assert (Z.testbit (Z.land e (2 ^ k)) k = true) as Hb by (by rewrite Z.land_spec, E, Z.pow2_bits_true).
    rewrite H, Z.bits_0 in Hb. done.
  - destruct (Z.eqb_spec (Z.land e (2 ^ k)) 0) as [|H]; [done|]. exfalso. apply H. apply Z.bits_inj'. intros i Hi.
    rewrite Z.land_spec, Z.bits_0, Z.pow2_bits_eqb by lia. destruct (Z.eqb_spec k i) as [<-|]; [by rewrite E|apply andb_false_r].
Qed.

Lemma written_bit e : written e = Z.testbit e 9.
Proof. unfold written. change PTE_DUCK_WRITTEN with (2 ^ 9). rewrite land_pow2 by lia. apply negb_involutive. Qed.

Section range.
Context (s e : Z) (m : memory).
Hypothesis Hc : clean_frames own Q L m.
Hypothesis Hs : s mod 4096 = 0.
Hypothesis He : e mod 4096 = 0.
Hypothesis Hr : kernel_break <= s <= e.
Hypothesis HQ : e <= Q * HUGE_PAGE_SIZE.

Ltac by_range G :=
  let m' := fresh "m'" in let E := fresh "E" in let H := fresh "H" in
  destruct (range_effect s e _ _ m G Hc Hs He Hr HQ) as (m' & E & H);
  exists m'; split; [exact E|]; eapply effect_ext; [|exact H];
  intros v _; destruct (view m v) as [[? ? ? ? ? ?] ?].

Lemma kernel_effect : exists m', set_page_flags_kernel s e m = Some m' /\ effect (e_flags s e false true false) m m'.
Proof. by_range (good_set_flags 3 eq_refl ltac:(done) eq_refl eq_refl). done. Qed.

Lemma user_writable_effect :
  exists m', set_page_flags_user_writable s e m = Some m' /\ effect (e_flags s e true true true) m m'.
Proof. by_range (good_set_flags (2 ^ 63 + 7) eq_refl ltac:(done) eq_refl eq_refl). done. Qed.

Lemma user_readonly_effect :
  exists m', set_page_flags_user_readonly s e m = Some m' /\ effect (e_flags s e true false true) m m'.
Proof. by_range (good_set_flags (2 ^ 63 + 5) eq_refl ltac:(done) eq_refl eq_refl). done. Qed.

Lemma add_writable_effect : exists m', add_page_flags_writable s e m = Some m' /\ effect (e_write s e) m m'.
Proof.
  by_range (good_lor 2 eq_refl ltac:(done)). unfold e_write. cbn. case_decide; [|done].
  by rewrite !orb_false_r, orb_true_r.
Qed.

Lemma set_written_effect : exists m', set_duck_written s e m = Some m' /\ effect (e_mark s e) m m'.
Proof.
  by_range (good_lor 512 eq_refl ltac:(done)). unfold e_mark. cbn. case_decide; [|done].
  by rewrite !orb_false_r, orb_true_r.
Qed.

Lemma add_executable_effect : exists m', add_page_flags_executable s e m = Some m' /\ effect (e_exec s e) m m'.
Proof.
  by_range (good_ldiff (2 ^ 63) eq_refl ltac:(done) eq_refl). unfold e_exec. cbn. case_decide; [|done].
  by rewrite !andb_true_r, andb_false_r.
Qed.

Lemma untouch_effect : exists m', clear_access_and_dirty_flags s e m = Some m' /\ effect (e_untouch s e) m m'.
Proof.
  by_range (good_ldiff 96 eq_refl ltac:(done) eq_refl). unfold e_untouch. cbn. case_decide; [|done].
  by rewrite !andb_true_r, !andb_false_r.
Qed.

Lemma good_mark_dirty : good_update written_by_dirty_entry
  (fun p => mkPage (pv_user p) (pv_write p) (pv_nx p) (pv_mark p || pv_dirty p) (pv_accessed p) (pv_dirty p)).
Proof.
  assert (forall x, written_by_dirty_entry x = Z.lor x (if Z.testbit x 6 then 512 else 0)) as W.
  { intros x. unfold written_by_dirty_entry. change PTE_DIRTY with (2 ^ 6). change PTE_DUCK_WRITTEN with 512.
    by rewrite land_pow2, negb_involutive by lia. }
  split; intros x Hx; rewrite W; (destruct (good_lor (if Z.testbit x 6 then 512 else 0)) as [U F P G];
    [by destruct (Z.testbit x 6)|by destruct (Z.testbit x 6)|]); auto.
  rewrite G by done. unfold page_of. cbn [pv_user pv_write pv_nx pv_mark pv_accessed pv_dirty].
  destruct (Z.testbit x 6); f_equal; apply orb_false_r || apply orb_true_r || done.
Qed.

Lemma mark_dirty_effect : exists m', set_duck_written_by_dirty s e m = Some m' /\ effect (e_mark_dirty s e) m m'.
Proof. by_range good_mark_dirty. done. Qed.

Lemma clear_effect : exists m', clear_duck_written_pages s e m = Some m' /\ effect (e_clear s e) m m'.
Proof.
  destruct (clear_pages own Q L m s e Hc Hs He Hr HQ) as (m' & E & Hc' & Hb & Hcl & Hm). exists m'. split; [exact E|].
  split; [done|done|done|]. intros v Hv. destruct (Hm v Hv) as [He' Hw]. cbv zeta in He', Hw. unfold view, e_clear. cbn [fst].
  change (pv_mark (page_of (entry m v))) with (Z.testbit (entry m v) 9). rewrite written_bit in He', Hw.
  destruct (good_ldiff 576 eq_refl ltac:(done) eq_refl) as [_ _ _ G].
  unfold ubyte. rewrite !byte_at_page, Hw by (unfold slot; dlia). rewrite He'.
  case_bool_decide as Hin; cbn [andb]; [|by rewrite decide_False by (unfold in_range; naive_solver)].
  destruct (Z.testbit (entry m v) 9) eqn:E9; [|by rewrite decide_False by naive_solver].
  rewrite decide_True by (split; [done|done]). f_equal.
  unfold cleared_entry. change (flags [PTE_DIRTY; PTE_DUCK_WRITTEN]) with 576.
  rewrite G by (by apply (uf_uint _ _ _ _ (cf_frames _ _ _ _ Hc))). unfold page_of.
  f_equal; apply andb_true_r || apply andb_false_r.
Qed.
End range.

(** ** Stores *)

Definition touch (p : page) : page := mkPage (pv_user p) (pv_write p) (pv_nx p) (pv_mark p) true true.

Definition e_store (a b v : Z) (y : page * Z) : page * Z :=
  (if decide (v / 4096 = a / 4096) then touch y.1 else y.1, if decide (v = a) then b else y.2).

Lemma set_byte_effect m a b : clean_frames own Q L m -> user a -> is_byte b ->
  effect (fun v y => (y.1, if decide (v = a) then b else y.2)) m
    (set_phys (set_byte (frame (entry m a) + a mod 4096) b (phys m)) m).
Proof.
  intros Hc Ha Hb. pose proof Hc as [Hp Hu Hpr]. set (m' := set_phys _ m).
  assert ((frame (entry m a) + a mod 4096) mod 8 = a mod 8 /\
    frame (entry m a) + a mod 4096 - a mod 8 = frame (entry m a) + 8 * (a mod 4096 / 8)) as [E8 Ew].
  { destruct (frame_is_aligned (entry m a)) as [Hal _]. split; dlia. }
  assert (slot (a mod 4096 / 8)) as Hsl by (unfold slot; dlia).
  assert (forall T nd i, own !! T = Some nd -> slot i -> PTE m' T i = PTE m T i) as Hkp.
  { intros T nd i HT Hi. unfold m', PTE, word, set_byte. cbn [phys set_phys]. rewrite E8, Ew, lookup_insert_ne; [done|].
    symmetry. by eapply table_word. }
  destruct (paging_keep own Q m m' Hp eq_refl Hkp) as [Hp' Hk].
  assert (forall v, user v -> entry m' v = entry m v) as He by (intros v Hv; apply Hk; by apply user_nonneg).
  split; [split; [done|split|]|done| |].
  - apply (uf_tables _ _ _ _ Hu).
  - intros v Hv. rewrite He by done. by apply (uf_above _ _ _ _ Hu).
  - intros v Hv. rewrite He by done. by apply (uf_uint _ _ _ _ Hu).
  - intros v v' Hv Hv'. rewrite !He by done. by apply (uf_inj _ _ _ _ Hu).
  - intros v Hv. rewrite He by done. by apply Hpr.
  - intros Hcl. eapply closed_keep; [exact Hp|done|done| |].
    + intros T nd i HT _ Hi. by eapply Hkp.
    + intros v Hv. apply Hk. pose proof (cl_Q _ _ _ Hcl). change kernel_break with 16777216 in Hv. unfold HUGE_PAGE_SIZE. lia.
  - intros v Hv. unfold view, ubyte. rewrite He by done. cbn [fst snd]. f_equal. unfold byte_at, m', set_byte.
    cbn [phys set_phys]. unfold word at 1. rewrite E8, Ew.
    destruct (frame_is_aligned (entry m v)) as [Hav _].
    assert ((frame (entry m v) + v mod 4096) mod 8 = v mod 8) as -> by dlia.
    assert (frame (entry m v) + v mod 4096 - v mod 8 = frame (entry m v) + 8 * (v mod 4096 / 8)) as -> by dlia.
    destruct (decide (frame (entry m a) + 8 * (a mod 4096 / 8) = frame (entry m v) + 8 * (v mod 4096 / 8))) as [E|E].
    + rewrite E, lookup_insert_eq. cbn [default].
      assert (v / 4096 = a / 4096) as Epg.
      { apply (uf_inj _ _ _ _ Hu v a Hv Ha). destruct (frame_is_aligned (entry m a)) as [Haa _]. dlia. }
      unfold byte_at. rewrite E8, Ew, E. fold (byte_of (word (phys m) (frame (entry m v) + 8 * (v mod 4096 / 8))) (a mod 8)).
      match goal with |- ?x = _ => change x with (byte_of (word (phys m) (frame (entry m v) + 8 * (v mod 4096 / 8)) +
        (b - byte_of (word (phys m) (frame (entry m v) + 8 * (v mod 4096 / 8))) (a mod 8)) * 2 ^ (8 * (a mod 8))) (v mod 8)) end.
      rewrite byte_set by (done || dlia). fold (byte_of (word (phys m) (frame (entry m v) + 8 * (v mod 4096 / 8))) (v mod 8)).
      assert (frame (entry m v) = frame (entry m a)) as Ef.
      { pose proof (user_nonneg v Hv) as Hv0. pose proof (user_nonneg a Ha) as Ha0.
        apply (same_entry own Q m Hp v a Hv0 Ha0) in Epg as [E1 E2]. unfold entry. by rewrite E1, E2. }
      rewrite Ef in E. do 2 case_decide; try done; exfalso; dlia.
    + rewrite lookup_insert_ne by done. rewrite decide_False; [done|]. intros ->. done.
Qed.

Lemma store_effect m a b : clean_frames own Q L m -> user a -> is_byte b ->
  exists m', store a b m = Some m' /\ effect (e_store a b) m m'.
Proof.
  intros Hc Ha Hb. pose proof Hc as [Hp Hu Hpr]. unfold store.
  rewrite (translate_spec own Q m Hp a (user_nonneg a Ha)), (Hpr a Ha), mbind_Some. cbn [fst].
  change (flags [PTE_ACCESSED; PTE_DIRTY]) with 96.
  destruct (update_effect _ _ m a (good_lor 96 eq_refl ltac:(done)) Hc Ha) as (m1 & -> & H1 & Hf). rewrite mbind_Some.
  rewrite <- (proj1 (Hf a Ha)). eexists. split; [done|].
  eapply effect_ext; [|eapply effect_trans; [exact H1|by apply set_byte_effect; [apply (ef_clean _ _ _ H1)|..]]].
  intros v Hv. destruct (view m v) as [[u w x k ac d] y]. unfold e_store, touch. cbn.
  case_decide; [|done]. by rewrite ?orb_false_r, ?orb_true_r.
Qed.

(** The pages a copy meets are touched, its bytes replaced. *)
Definition meets (a : Z) (l : list Z) (v : Z) : Prop :=
  a / 4096 <= v / 4096 /\ v / 4096 <= (a + Z.of_nat (length l) - 1) / 4096 /\ 0 < Z.of_nat (length l).
#[export] Instance meets_dec a l v : Decision (meets a l v).
Proof. unfold meets. apply _. Defined.

Definition e_copy (a : Z) (l : list Z) (v : Z) (y : page * Z) : page * Z :=
  (if decide (meets a l v) then touch y.1 else y.1,
   if decide (in_range a (a + Z.of_nat (length l)) v) then nth (Z.to_nat (v - a)) l 0 else y.2).

Lemma memcpy_effect l : forall a m, clean_frames own Q L m -> Forall is_byte l ->
  kernel_break <= a -> a + Z.of_nat (length l) <= Q * HUGE_PAGE_SIZE ->
  exists m', memcpy a l m = Some m' /\ effect (e_copy a l) m m'.
Proof.
  induction l as [|b l IH]; intros a m Hc Hl Ha HQ; cbn [memcpy].
  - exists m. split; [done|]. eapply effect_ext; [|by apply effect_refl]. intros v _. unfold e_copy. destruct (view m v).
    rewrite decide_False by (unfold meets; cbn; lia). by rewrite decide_False by (unfold in_range; cbn; lia).
  - apply Forall_cons in Hl as [Hb Hl]. cbn [length] in HQ.
    destruct (store_effect m a b Hc) as (m1 & -> & H1); [unfold user; lia|done|]. rewrite mbind_Some.
    destruct (IH (a + 1) m1 (ef_clean _ _ _ H1) Hl) as (m2 & -> & H2); [lia|lia|]. exists m2. split; [done|].
    eapply effect_ext; [|by eapply effect_trans]. intros v Hv. destruct (view m v) as [p y].
    unfold e_copy, e_store. cbn [fst snd]. unfold meets, in_range. cbn [length]. f_equal.
    + set (n := Z.of_nat (length l)) in *. replace (Z.of_nat (S (length l))) with (n + 1) by lia. assert (0 <= n) by lia.
      repeat case_decide; try done; exfalso; dlia.
    + replace (Z.of_nat (S (length l))) with (Z.of_nat (length l) + 1) by lia.
      destruct (decide (v = a)) as [->|Hne].
      * rewrite decide_False by lia. rewrite decide_True by lia. rewrite Z.sub_diag. done.
      * destruct (decide (a + 1 <= v < a + 1 + Z.of_nat (length l))) as [Hin|Hin].
        -- rewrite decide_True by lia. replace (Z.to_nat (v - a)) with (S (Z.to_nat (v - (a + 1)))) by lia. done.
        -- rewrite decide_False by lia. done.
Qed.

(** ** Reads *)

Lemma load_byte_view m v : clean_frames own Q L m -> user v -> load_byte m v = Some (ubyte m v).
Proof.
  intros [Hp _ Hpr] Hv. unfold load_byte. by rewrite (translate_spec own Q m Hp v (user_nonneg v Hv)), (Hpr v Hv).
Qed.

Lemma read_bytes_view m : clean_frames own Q L m -> forall n v,
  kernel_break <= v -> v + Z.of_nat n <= Q * HUGE_PAGE_SIZE ->
  read_bytes n v m = Some ((fun i => ubyte m (v + i)) <$> seqZ 0 (Z.of_nat n)).
Proof.
  intros Hc. induction n as [|n IH]; intros v Hv HQ; [done|]. cbn [read_bytes].
  rewrite load_byte_view by (done || unfold user; lia). rewrite mbind_Some, IH by lia. rewrite mbind_Some.
  rewrite (seqZ_cons 0 (Z.of_nat (S n))) by lia. rewrite fmap_cons, Z.add_0_r. do 2 f_equal.
  replace (Z.pred (Z.of_nat (S n))) with (Z.of_nat n) by lia.
  change (Z.succ 0) with (1 + 0). rewrite <- fmap_add_seqZ, <- list_fmap_compose.
  apply list_fmap_ext. intros i x _. cbn. f_equal. lia.
Qed.

(** ** Pushes *)

Lemma e_copy_app a l1 l2 v y : e_copy a l1 v (e_copy (a + Z.of_nat (length l1)) l2 v y) = e_copy a (l1 ++ l2) v y.
Proof.
  unfold e_copy. cbn [fst snd]. f_equal.
  - unfold touch. cbn. repeat case_decide; try done; exfalso; unfold meets in *; rewrite ?length_app in *; dlia.
  - repeat case_decide; unfold in_range in *; rewrite ?length_app in *; try lia.
    + by rewrite app_nth1 by lia.
    + rewrite app_nth2 by lia. f_equal. lia.
Qed.

Lemma push_bytes_effect l sp m : clean_frames own Q L m -> Forall is_byte l ->
  kernel_break <= sp - Z.of_nat (length l) -> sp <= Q * HUGE_PAGE_SIZE ->
  exists m', push_bytes l (sp, m) = Some (sp - Z.of_nat (length l), m') /\ effect (e_copy (sp - Z.of_nat (length l)) l) m m'.
Proof.
  intros Hc Hl Hk HQ. pose proof (pg_Q _ _ _ (cf_paging _ _ _ _ Hc)) as HQ0. unfold push_bytes. cbn [fst snd].
  change kernel_break with 16777216 in Hk. unfold HUGE_PAGE_SIZE in HQ. rewrite wrap_small by (unfold is_uint; lia).
  destruct (memcpy_effect l (sp - Z.of_nat (length l)) m Hc Hl) as (m' & -> & H).
  - change kernel_break with 16777216. lia.
  - unfold HUGE_PAGE_SIZE. lia.
  - by exists m'.
Qed.

Lemma pushes_effect ls : forall sp m, clean_frames own Q L m -> Forall (Forall is_byte) ls ->
  kernel_break <= sp - Z.of_nat (length (concat (reverse ls))) -> sp <= Q * HUGE_PAGE_SIZE ->
  exists m', pushes ls (sp, m) = Some (sp - Z.of_nat (length (concat (reverse ls))), m') /\
    effect (e_copy (sp - Z.of_nat (length (concat (reverse ls)))) (concat (reverse ls))) m m'.
Proof.
  induction ls as [|l ls IH]; intros sp m Hc Hl Hk HQ.
  - exists m. cbn. rewrite Z.sub_0_r. split; [done|]. eapply effect_ext; [|by apply effect_refl]. intros v _.
    unfold e_copy. destruct (view m v). rewrite decide_False by (unfold meets; cbn; lia).
    by rewrite decide_False by (unfold in_range; cbn; lia).
  - apply Forall_cons in Hl as [Hb Hl]. rewrite reverse_cons, concat_app in *. cbn [concat] in *. rewrite app_nil_r in *.
    rewrite length_app in *. set (V := concat (reverse ls)) in *.
    destruct (push_bytes_effect l sp m Hc Hb) as (m1 & E1 & H1); [lia|done|].
    destruct (IH (sp - Z.of_nat (length l)) m1 (ef_clean _ _ _ H1) Hl) as (m2 & E2 & H2); [lia|lia|].
    exists m2. cbn [pushes]. rewrite E1, mbind_Some, E2.
    replace (sp - Z.of_nat (length l) - Z.of_nat (length V)) with (sp - Z.of_nat (length V + length l)) in * by lia.
    split; [done|]. eapply effect_ext; [|by eapply effect_trans]. intros v _. rewrite <- e_copy_app. do 2 f_equal. lia.
Qed.

(** Moving the first block of a copy down by [k]. *)
Lemma e_copy_shift c k V I v y : 0 <= k <= Z.of_nat (length V) ->
  e_copy (c - k) V v (e_copy c (V ++ I) v y) = e_copy (c - k) (V ++ drop (Z.to_nat (Z.of_nat (length V) - k)) V ++ I) v y.
Proof.
  intros Hk. rewrite <- e_copy_app. unfold e_copy. cbn [fst snd]. f_equal.
  - unfold touch. cbn. repeat case_decide; try done; exfalso; unfold meets in *; rewrite ?length_app, ?length_drop in *; dlia.
  - repeat case_decide; unfold in_range in *; rewrite ?length_app, ?length_drop in *; try lia; try done.
    + by rewrite app_nth1 by lia.
    + rewrite app_nth2, app_nth1 by (rewrite ?length_drop; lia). rewrite nth_skipn. f_equal. lia.
    + rewrite app_nth2, app_nth2 by (rewrite ?length_drop; lia). rewrite length_drop. f_equal. lia.
Qed.
End user.
