(* ===== verification/ElfAccept.v ===== *)
(** * Which images the 32-bit loader accepts

    The checks of [load_elf32] run on 64-bit words that may wrap; here they are
    shown to be the plain conditions on the numbers of the image, and the
    regions to follow each other without overlap. *)

From S2P Require Import Prelude Utils Memory Judger ElfLoader.

(** ** Fields *)

Lemma load_le_range n o l : Forall is_byte l -> 0 <= load_le n o l < 2 ^ (8 * Z.of_nat n).
Proof.
  intros Hl. unfold load_le, sub_bytes.
  assert (Forall is_byte (take n (drop o l))) as Hf by (apply Forall_take; by apply Forall_drop).
  destruct (le_val_range _ Hf) as [H0 H1]. split; [done|]. eapply Z.lt_le_trans; [exact H1|].
  apply Z.pow_le_mono_r; [done|]. rewrite length_take. lia.
Qed.

Section image.
Context (buf : list Z).
Hypothesis Hbuf : Forall is_byte buf.

Lemma phdr32_range o : let p := get_phdr32 buf o in
  0 <= p_offset p < 2 ^ 32 /\ 0 <= p_vaddr p < 2 ^ 32 /\ 0 <= p_filesz p < 2 ^ 32 /\ 0 <= p_memsz p < 2 ^ 32.
Proof.
  cbn. pose proof (load_le_range 4 (o + 4) buf Hbuf). pose proof (load_le_range 4 (o + 8) buf Hbuf).
  pose proof (load_le_range 4 (o + 16) buf Hbuf). pose proof (load_le_range 4 (o + 20) buf Hbuf).
  change (8 * Z.of_nat 4) with 32 in *. done.
Qed.

Lemma ehdr32_range : let h := get_ehdr32 buf in
  0 <= e_phoff h < 2 ^ 32 /\ 0 <= e_phentsize h < 2 ^ 16 /\ 0 <= e_phnum h < 2 ^ 16 /\ 0 <= e_entry h < 2 ^ 32.
Proof.
  cbn. pose proof (load_le_range 4 28 buf Hbuf). pose proof (load_le_range 2 42 buf Hbuf).
  pose proof (load_le_range 2 44 buf Hbuf). pose proof (load_le_range 4 24 buf Hbuf). done.
Qed.

Lemma check_header32 len h : check_header class32 buf len = Some h ->
  h = get_ehdr32 buf /\ 52 <= len /\ e_phoff h < len /\ e_phentsize h < len /\ e_phnum h < len.
Proof.
  unfold check_header. change (ehdr_size class32) with 52. change (get_ehdr class32 buf) with (get_ehdr32 buf).
  destruct (Z.ltb_spec len 52) as [|Hl]; [done|].
  destruct (_ && negb (len <=? e_phoff (get_ehdr32 buf)) && _ && _) eqn:E; [|done]. intros [= <-].
  rewrite !andb_true_iff, !negb_true_iff, !Z.leb_gt in E. destruct E as [[[_ ?] ?] ?]. done.
Qed.

(** ** The scan of the program headers *)

Context (len : Z) (h : Ehdr).
Hypothesis Hlen : is_uint 32 len.
Hypothesis Hh : h = get_ehdr32 buf.

Definition phdrs : list Phdr := phdr class32 buf h <$> seqZ 0 (e_phnum h).

Definition segment (p : Phdr) : Prop := p_type p = PT_LOAD.
#[export] Instance segment_dec p : Decision (segment p).
Proof. unfold segment. apply _. Defined.

(** A segment whose part of the file is in the file, and in its memory. *)
Definition segment_ok (p : Phdr) : Prop :=
  (p_filesz p = 0 \/ p_offset p + p_filesz p <= len) /\ p_align p = 4096 /\ p_filesz p <= p_memsz p.

Definition lowest (ps : list Phdr) : Z :=
  foldl (fun a p => if decide (segment p) then Z.min a (p_vaddr p) else a) (2 ^ 64 - 1) ps.
Definition highest (ps : list Phdr) : Z :=
  foldl (fun a p => if decide (segment p) then Z.max a (p_vaddr p + p_memsz p) else a) 0 ps.

Lemma phdr_off_spec i : 0 <= i < e_phnum h -> phdr_off h i = e_phoff h + i * e_phentsize h /\
  0 <= phdr_off h i < 2 ^ 33.
Proof.
  intros Hi. destruct ehdr32_range as (R1 & R2 & R3 & _). rewrite <- Hh in *. unfold phdr_off.
  assert (0 <= i * e_phentsize h < 2 ^ 32) as Hm by (change (2 ^ 32) with (2 ^ 16 * 2 ^ 16); nia).
  rewrite (wrap_small 64 (i * e_phentsize h)) by (unfold is_uint; lia). rewrite wrap_small by (unfold is_uint; lia). lia.
Qed.

Lemma phdr_range i : let p := phdr class32 buf h i in
  0 <= p_offset p < 2 ^ 32 /\ 0 <= p_vaddr p < 2 ^ 32 /\ 0 <= p_filesz p < 2 ^ 32 /\ 0 <= p_memsz p < 2 ^ 32.
Proof. apply phdr32_range. Qed.

Lemma scan_phdr_spec i s s' : 0 <= i < e_phnum h ->
  scan_phdr class32 buf len h i s = Some s' <->
  e_phoff h + i * e_phentsize h + 32 <= len /\ (let p := phdr class32 buf h i in
    (segment p -> segment_ok p) /\
    s' = if decide (segment p) then (Z.min s.1 (p_vaddr p), Z.max s.2 (p_vaddr p + p_memsz p)) else s).
Proof.
  intros Hi. destruct (phdr_off_spec i Hi) as [Eo Ho]. cbv zeta. unfold scan_phdr, segment_ok.
  change (phdr_size class32) with 32. rewrite (wrap_small 64 (phdr_off h i + 32)) by (unfold is_uint; lia).
  pose proof (phdr_range i) as (R1 & R2 & R3 & R4). cbv zeta in R1, R2, R3, R4. rewrite Eo in *.
  set (p := phdr class32 buf h i) in *. cbv zeta. unfold segment. unfold is_uint in Hlen.
  destruct (Z.ltb_spec len (e_phoff h + i * e_phentsize h + 32)); [split; [done|lia]|].
  rewrite !(wrap_small 64) by (unfold is_uint; lia).
  destruct (Z.eqb_spec (p_type p) PT_LOAD) as [Et|Et]; cbn [negb].
  2: { rewrite decide_False by done. split; [intros [= <-]; split; [lia|]; split; done|]. intros (_ & _ & ->). done. }
  rewrite decide_True by done.
  change (existsb (Z.eqb (p_align p)) (cls_aligns class32)) with ((p_align p =? 4096) || false). rewrite orb_false_r.
  destruct (Z.eqb_spec (p_filesz p) 0) as [Ef|Ef]; cbn [negb andb];
    [|destruct (Z.ltb_spec len (p_offset p)); cbn [orb]; [split; [done|intros (_ & H' & _); destruct (H' Et); lia]|
      destruct (Z.ltb_spec len (p_offset p + p_filesz p)); [split; [done|intros (_ & H' & _); destruct (H' Et); lia]|]]].
  all: destruct (Z.eqb_spec (p_align p) 4096); cbn [negb]; [|split; [done|intros (_ & H' & _); destruct (H' Et); lia]].
  all: destruct (Z.ltb_spec (p_memsz p) (p_filesz p)); [split; [done|intros (_ & H' & _); destruct (H' Et); lia]|].
  all: destruct (Z.ltb_spec (p_vaddr p + p_memsz p) (p_vaddr p)); [lia|].
  all: (split; [intros [= <-]; split; [lia|]; split; [intros _; split_and!; try done; lia|done]|intros (_ & _ & ->); done]).
Qed.

Lemma scan_prefix k : Z.of_nat k <= e_phnum h -> forall mn mx,
  let ps := phdr class32 buf h <$> seqZ 0 (Z.of_nat k) in
  forM_n k 0 (scan_phdr class32 buf len h) (2 ^ 64 - 1, 0) = Some (mn, mx) <->
  (forall i, 0 <= i < Z.of_nat k -> e_phoff h + i * e_phentsize h + 32 <= len) /\
  Forall (fun p => segment p -> segment_ok p) ps /\ mn = lowest ps /\ mx = highest ps.
Proof.
  induction k as [|k IH]; intros Hle mn mx; cbv zeta in *.
  - cbn. split; [intros [= <- <-]; split; [lia|done]|]. intros (_ & _ & -> & ->). done.
  - rewrite forM_n_snoc. rewrite Z.add_0_l. replace (Z.of_nat (S k)) with (Z.of_nat k + 1) in * by lia.
    rewrite seqZ_succ by lia. rewrite fmap_app, Forall_app, Z.add_0_l. unfold lowest, highest. rewrite !foldl_app. cbn [fmap list_fmap foldl].
    rewrite Forall_singleton. fold (lowest (phdr class32 buf h <$> seqZ 0 (Z.of_nat k))).
    fold (highest (phdr class32 buf h <$> seqZ 0 (Z.of_nat k))).
    destruct (forM_n k 0 (scan_phdr class32 buf len h) (2 ^ 64 - 1, 0)) as [[a b]|] eqn:E.
    + destruct (proj1 (IH ltac:(lia) a b) eq_refl) as (H1 & H2 & -> & ->). rewrite scan_phdr_spec by lia. cbv zeta. cbn [fst snd].
      split.
      * intros (Ho & Hs & Em). split; [|split; [done|]].
        -- intros i Hi. destruct (decide (i = Z.of_nat k)) as [->|]; [done|apply H1; lia].
        -- case_decide; by injection Em as -> ->.
      * intros (Ho & [_ Hs] & -> & ->). split; [apply Ho; lia|]. split; [done|]. by case_decide.
    + split; [done|]. intros (Ho & [Hs _] & _ & _). exfalso.
      assert (None = Some (lowest (phdr class32 buf h <$> seqZ 0 (Z.of_nat k)), highest (phdr class32 buf h <$> seqZ 0 (Z.of_nat k)))); [|done].
      apply IH; [lia|]. split; [|done]. intros i Hi. apply Ho. lia.
Qed.

Lemma scan_spec mn mx : scan class32 buf len h = Some (mn, mx) <->
  (forall i, 0 <= i < e_phnum h -> e_phoff h + i * e_phentsize h + 32 <= len) /\
  Forall (fun p => segment p -> segment_ok p) phdrs /\ mn = lowest phdrs /\ mx = highest phdrs.
Proof.
  pose proof ehdr32_range as (_ & _ & Rn & _). rewrite <- Hh in Rn.
  pose proof (scan_prefix (Z.to_nat (e_phnum h)) ltac:(lia) mn mx) as H. rewrite Z2Nat.id in H by lia.
  unfold scan, forM_range, phdrs. rewrite Z.sub_0_r. exact H.
Qed.
End image.

Lemma lowest_spec ps x : x <= 2 ^ 64 - 1 -> lowest ps < x <-> exists p, p ∈ ps /\ segment p /\ p_vaddr p < x.
Proof.
  intros Hx. unfold lowest. induction ps as [|p ps IH] using rev_ind.
  - cbn. split; [lia|]. intros (p & Hp & _). by apply not_elem_of_nil in Hp.
  - rewrite foldl_app. cbn [foldl]. setoid_rewrite elem_of_app. setoid_rewrite list_elem_of_singleton. case_decide as Hs.
    + rewrite Z.min_lt_iff, IH. split; [intros [(q & ? & ? & ?)|?]; eauto 6|]. intros (q & [?| ->] & ? & ?); eauto 6.
    + rewrite IH. split; [intros (q & ? & ? & ?); eauto 6|]. intros (q & [?| ->] & ? & ?); [eauto 6|done].
Qed.

Lemma highest_spec ps x : 0 <= x -> x < highest ps <-> exists p, p ∈ ps /\ segment p /\ x < p_vaddr p + p_memsz p.
Proof.
  intros Hx. unfold highest. induction ps as [|p ps IH] using rev_ind.
  - cbn. split; [lia|]. intros (p & Hp & _). by apply not_elem_of_nil in Hp.
  - rewrite foldl_app. cbn [foldl]. setoid_rewrite elem_of_app. setoid_rewrite list_elem_of_singleton. case_decide as Hs.
    + rewrite Z.max_lt_iff, IH. split; [intros [(q & ? & ? & ?)|?]; eauto 6|]. intros (q & [?| ->] & ? & ?); eauto 6.
    + rewrite IH. split; [intros (q & ? & ? & ?); eauto 6|]. intros (q & [?| ->] & ? & ?); [eauto 6|done].
Qed.

Lemma lowest_le ps : lowest ps <= 2 ^ 64 - 1.
Proof.
  unfold lowest. generalize (2 ^ 64 - 1). induction ps as [|p ps IH]; intros z; cbn [foldl]; [lia|].
  case_decide; [|apply IH]. etrans; [apply IH|lia].
Qed.

(** ** Rounding and allocation *)

Definition up (x : Z) : Z := (x + 4095) / 4096 * 4096.
Definition down (x : Z) : Z := x / 4096 * 4096.

Lemma up_spec x : x <= up x < x + 4096 /\ up x mod 4096 = 0.
Proof. unfold up. split; [dlia|]. by rewrite Z.mod_mul. Qed.

Lemma down_spec x : down x <= x < down x + 4096 /\ down x mod 4096 = 0.
Proof. unfold down. split; [dlia|]. by rewrite Z.mod_mul. Qed.

Lemma round_up_up x : is_uint 64 x ->
  round_up x PAGE_SIZE = if decide (x + 4095 < 2 ^ 64) then up x else 0.
Proof.
  unfold is_uint, round_up, up. intros Hx. change PAGE_SIZE with 4096. replace (x + 4096 - 1) with (x + 4095) by lia.
  case_decide as H.
  - rewrite (wrap_small 64 (x + 4095)) by (unfold is_uint; lia). apply wrap_small. unfold is_uint.
    change (2 ^ 64) with 18446744073709551616 in *. dlia.
  - assert (wrap 64 (x + 4095) = x + 4095 - 2 ^ 64) as ->.
    { unfold wrap. symmetry. apply Z.mod_unique with 1; lia. }
    assert ((x + 4095 - 2 ^ 64) / 4096 = 0) as -> by (apply Z.div_small; lia). done.
Qed.

Lemma round_down_down x : is_uint 64 x -> round_down x PAGE_SIZE = down x.
Proof. unfold is_uint, round_down, down. intros Hx. change PAGE_SIZE with 4096. apply wrap_small. unfold is_uint. dlia. Qed.

Lemma alloc_spec size cur b : is_uint 64 size -> is_uint 64 cur ->
  alloc size cur = Some b <-> b = cur + up size /\ b < 2 ^ 64.
Proof.
  intros Hs Hc. unfold alloc. rewrite round_up_up by done. pose proof (up_spec size) as [Hu _]. unfold is_uint in Hs, Hc.
  case_decide as H.
  - rewrite (proj2 (Z.ltb_ge _ _)) by lia. destruct (Z.lt_ge_cases (cur + up size) (2 ^ 64)) as [H1|H1].
    + rewrite wrap_small by (unfold is_uint; lia). rewrite (proj2 (Z.ltb_ge _ _)) by lia.
      split; [intros [= <-]; lia|intros [-> _]; done].
    + assert (wrap 64 (cur + up size) = cur + up size - 2 ^ 64) as ->.
      { unfold wrap. symmetry. apply Z.mod_unique with 1; lia. }
      rewrite (proj2 (Z.ltb_lt _ _)) by lia. split; [done|lia].
  - rewrite (proj2 (Z.ltb_lt _ _)) by lia. split; [done|]. intros [-> Hb]. exfalso.
    pose proof (up_spec size) as [_ Hm]. change (2 ^ 64) with (4503599627370496 * 4096) in *. dlia.
Qed.

Record conf_ok (conf : AppConfig) : Prop := {
  co_limit : is_uint 64 (memory_hard_limit conf);
  co_stdin : is_uint 64 (stdin_size conf);
  co_stdout : is_uint 64 (stdout_max_size conf);
  co_stderr : is_uint 64 (stderr_max_size conf);
  co_IB : is_uint 64 (IB_size conf);
  co_OB : is_uint 64 (OB_size conf)
}.

(** The regions follow each other from 0x8048000. *)
Definition ref_layout (conf : AppConfig) : Layout :=
  let b := 0x8048000 + up (memory_hard_limit conf) in
  let b1 := b + up (stdin_size conf) in
  let b2 := b1 + up (stdout_max_size conf) in
  let b3 := b2 + up (stderr_max_size conf) in
  let b4 := b3 + up (IB_size conf) in
  let b5 := b4 + up (OB_size conf) in
  mkLayout b b1 b2 b3 b4 b5 (b5 + 4096) (b5 + 4096) b5.

(** Each region begins where the last ends, at a page. *)
Lemma ref_layout_ordered conf lay : conf_ok conf -> lay = ref_layout conf ->
  0x8048000 <= load_break lay /\ load_break lay mod 4096 = 0 /\
  load_break lay + stdin_size conf <= stdin_break lay < load_break lay + stdin_size conf + 4096 /\ stdin_break lay mod 4096 = 0 /\
  stdin_break lay + stdout_max_size conf <= stdout_break lay < stdin_break lay + stdout_max_size conf + 4096 /\ stdout_break lay mod 4096 = 0 /\
  stdout_break lay + stderr_max_size conf <= stderr_break lay < stdout_break lay + stderr_max_size conf + 4096 /\ stderr_break lay mod 4096 = 0 /\
  stderr_break lay + IB_size conf <= IB_break lay < stderr_break lay + IB_size conf + 4096 /\ IB_break lay mod 4096 = 0 /\
  IB_break lay + OB_size conf <= OB_break lay < IB_break lay + OB_size conf + 4096 /\ OB_break lay mod 4096 = 0 /\
  special_region_break lay = OB_break lay /\ image_break lay = OB_break lay + 4096 /\ OB_break lay = IB_break lay + up (OB_size conf).
Proof.
  intros [H0 H1 H2 H3 H4 H5] ->. unfold is_uint in *. cbn.
  pose proof (up_spec (memory_hard_limit conf)) as [? ?]. pose proof (up_spec (stdin_size conf)) as [? ?].
  pose proof (up_spec (stdout_max_size conf)) as [? ?]. pose proof (up_spec (stderr_max_size conf)) as [? ?].
  pose proof (up_spec (IB_size conf)) as [? ?]. pose proof (up_spec (OB_size conf)) as [? ?].
  split_and!; try lia; dlia.
Qed.

Lemma place_spec conf ps m b : conf_ok conf -> 0 <= highest ps < 2 ^ 34 -> 0 <= lowest ps -> 0 <= vaddr_break m < 2 ^ 40 ->
  place class32 conf (lowest ps, highest ps) m = Some b <->
  down (lowest ps) = 0x8048000 /\ 0x8048000 < up (highest ps) /\ up (highest ps) + 4096 <= b /\
  b = 0x8048000 + up (memory_hard_limit conf) /\ b <= vaddr_break m.
Proof.
  intros Hc Hh Hl Hv. pose proof (lowest_le ps) as Hl'. unfold place. cbn [fst snd].
  rewrite round_down_down by (unfold is_uint; lia). rewrite (round_up_up (highest ps)), decide_True by (unfold is_uint; lia).
  rewrite (round_up_up (memory_hard_limit conf)) by apply co_limit, Hc.
  change (load_vaddr_start class32) with 0x8048000. change kernel_break with 16777216. change PAGE_SIZE with 4096.
  pose proof (up_spec (highest ps)) as [Hu Hum]. pose proof (up_spec (memory_hard_limit conf)) as [Hm _].
  pose proof (co_limit _ Hc) as Hcl. unfold is_uint in Hcl.
  destruct (Z.ltb_spec (down (lowest ps)) 16777216); [split; [done|lia]|].
  destruct (Z.leb_spec (up (highest ps)) (down (lowest ps))); cbn [orb]; [split; [done|lia]|].
  pose proof (down_spec (lowest ps)) as [Hd _].
  destruct (Z.ltb_spec (vaddr_break m) (up (highest ps))); [split; [done|lia]|].
  rewrite (wrap_small 64 (up (highest ps) - down (lowest ps))) by (unfold is_uint; lia).
  rewrite (wrap_small 64 (up (highest ps) - down (lowest ps) + 4096)) by (unfold is_uint; lia).
  case_decide as Hd2.
  - destruct (Z.ltb_spec (up (memory_hard_limit conf)) (up (highest ps) - down (lowest ps))); [split; [done|lia]|].
    destruct (Z.ltb_spec (up (memory_hard_limit conf)) (up (highest ps) - down (lowest ps) + 4096)); [split; [done|lia]|].
    destruct (Z.eqb_spec (down (lowest ps)) 0x8048000) as [E|]; cbn [negb]; [|split; [done|lia]].
    destruct (Z.lt_ge_cases (0x8048000 + up (memory_hard_limit conf)) (2 ^ 64)) as [Hs|Hs].
    + rewrite !(wrap_small 64 (0x8048000 + _)) by (unfold is_uint; lia).
      rewrite (proj2 (Z.ltb_ge _ 0x8048000)) by lia.
      destruct (Z.ltb_spec (vaddr_break m) (0x8048000 + up (memory_hard_limit conf))); [split; [done|lia]|].
      split; [intros [= <-]; lia|intros (_ & _ & _ & -> & _); done].
    + assert (wrap 64 (0x8048000 + up (memory_hard_limit conf)) = 0x8048000 + up (memory_hard_limit conf) - 2 ^ 64) as ->.
      { unfold wrap. symmetry. apply Z.mod_unique with 1; lia. }
      rewrite (proj2 (Z.ltb_lt _ 0x8048000)) by lia. split; [done|lia].
  - rewrite (proj2 (Z.ltb_lt 0 _)) by lia. split; [done|lia].
Qed.

Lemma layout32_spec conf m lay : conf_ok conf -> 0 <= vaddr_break m < 2 ^ 40 ->
  0x8048000 + up (memory_hard_limit conf) <= vaddr_break m ->
  layout32 conf (0x8048000 + up (memory_hard_limit conf)) m = Some lay <->
  lay = ref_layout conf /\ OB_break lay <= vaddr_break m /\ OB_break lay <= 2 ^ 32.
Proof.
  intros Hc Hv Hb. destruct (ref_layout_ordered conf _ Hc eq_refl) as
    (O1 & _ & O2 & _ & O3 & _ & O4 & _ & O5 & _ & O6 & _). destruct Hc as [C1 C2 C3 C4 C5 C6].
  cbn [ref_layout load_break stdin_break stdout_break stderr_break IB_break OB_break] in O1, O2, O3, O4, O5, O6.
  unfold is_uint in C2, C3, C4, C5, C6. unfold layout32.
  set (b := 0x8048000 + up (memory_hard_limit conf)) in *. set (b1 := b + up (stdin_size conf)) in *.
  set (b2 := b1 + up (stdout_max_size conf)) in *. set (b3 := b2 + up (stderr_max_size conf)) in *.
  set (b4 := b3 + up (IB_size conf)) in *. set (b5 := b4 + up (OB_size conf)) in *.
  assert (OB_break (ref_layout conf) = b5) as EO by reflexivity.
  assert (forall size cur, is_uint 64 size -> is_uint 64 cur ->
    alloc size cur = if decide (cur + up size < 2 ^ 64) then Some (cur + up size) else None) as Ha.
  { intros size cur Hs Hcur. case_decide; [by apply alloc_spec|]. destruct (alloc size cur) as [x|] eqn:E; [|done].
    apply alloc_spec in E as [-> E]; done. }
  assert (2 ^ 64 <= b5 -> ~ (lay = ref_layout conf /\ OB_break lay <= vaddr_break m /\ OB_break lay <= 2 ^ 32)) as Hbig.
  { intros H (-> & H2 & _). rewrite EO in H2. lia. }
  rewrite Ha by (done || unfold is_uint; lia). fold b1. case_decide; rewrite ?mbind_None, ?mbind_Some; [|split; [done|intros G; destruct Hbig; [lia|done]]].
  rewrite Ha by (done || unfold is_uint; lia). fold b2. case_decide; rewrite ?mbind_None, ?mbind_Some; [|split; [done|intros G; destruct Hbig; [lia|done]]].
  rewrite Ha by (done || unfold is_uint; lia). fold b3. case_decide; rewrite ?mbind_None, ?mbind_Some; [|split; [done|intros G; destruct Hbig; [lia|done]]].
  rewrite Ha by (done || unfold is_uint; lia). fold b4. case_decide; rewrite ?mbind_None, ?mbind_Some; [|split; [done|intros G; destruct Hbig; [lia|done]]].
  rewrite Ha by (done || unfold is_uint; lia). fold b5. case_decide; rewrite ?mbind_None, ?mbind_Some; [|split; [done|intros G; destruct Hbig; [lia|done]]].
  rewrite (proj2 (Z.ltb_ge b5 b)) by lia.
  destruct (Z.ltb_spec (vaddr_break m) b5) as [Hx|Hx]; [split; [done|intros (-> & H' & _); rewrite EO in H'; lia]|].
  assert (alloc_page b5 = Some (b5 + 4096)) as ->.
  { unfold alloc_page. change PAGE_SIZE with 4096. rewrite wrap_small by (unfold is_uint; lia).
    by rewrite (proj2 (Z.ltb_ge _ _)) by lia. }
  rewrite mbind_Some. change (2 ^ 32 <? load_vaddr_start class32) with false. cbv iota.
  destruct (Z.ltb_spec (2 ^ 32) b5) as [Hy|Hy]; [split; [done|intros (-> & _ & H'); rewrite EO in H'; lia]|].
  split; [intros [= <-]; cbn [OB_break]; split; [reflexivity|lia]|intros (-> & _ & _); reflexivity].
Qed.

(** ** Acceptance *)

Record accepted32 (buf : list Z) (len : Z) (conf : AppConfig) (vb : Z) (h : Ehdr) (lay : Layout) : Prop := {
  ac_header : check_header class32 buf len = Some h;
  ac_table i : 0 <= i < e_phnum h -> e_phoff h + i * e_phentsize h + 32 <= len;
  ac_segment p : p ∈ phdrs buf h -> segment p -> segment_ok len p /\ 0x8048000 <= p_vaddr p /\
    up (p_vaddr p + p_memsz p) + 4096 <= load_break lay;
  ac_first : exists p, p ∈ phdrs buf h /\ segment p /\ p_vaddr p < 0x8049000;
  ac_size : exists p, p ∈ phdrs buf h /\ segment p /\ 0x8048000 < p_vaddr p + p_memsz p;
  ac_layout : lay = ref_layout conf;
  ac_bound : OB_break lay <= vb /\ OB_break lay <= 2 ^ 32
}.

Lemma up_mono x y : x <= y -> up x <= up y.
Proof. unfold up. dlia. Qed.

Lemma phdrs_range buf h p : Forall is_byte buf -> p ∈ phdrs buf h ->
  0 <= p_offset p < 2 ^ 32 /\ 0 <= p_vaddr p < 2 ^ 32 /\ 0 <= p_filesz p < 2 ^ 32 /\ 0 <= p_memsz p < 2 ^ 32.
Proof. intros Hb Hp. apply list_elem_of_fmap in Hp as (i & -> & _). by apply phdr_range. Qed.

(** The wrapping checks are the conditions above. *)
Lemma prepare32_spec buf len conf m h lay :
  Forall is_byte buf -> is_uint 32 len -> conf_ok conf -> 0 <= vaddr_break m < 2 ^ 40 ->
  prepare32 buf len conf m = Some (h, lay) <-> accepted32 buf len conf (vaddr_break m) h lay.
Proof.
  intros Hb Hl Hc Hv. unfold prepare32. set (ps := phdrs buf h).
  assert (0 <= highest ps < 2 ^ 34 /\ 0 <= lowest ps) as [Hhi Hlo].
  { split; [split|]; apply Z.nlt_ge || idtac.
    - apply Z.le_ngt. unfold highest. assert (forall l a, 0 <= a -> 0 <= foldl (fun a p => if decide (segment p) then Z.max a (p_vaddr p + p_memsz p) else a) a l) as G.
      { induction l as [|q l IH]; intros a Ha; [done|]. cbn. case_decide; apply IH; lia. } by apply G.
    - apply Z.nle_gt. intros H. destruct (proj1 (highest_spec ps (2 ^ 34 - 1) ltac:(lia))) as (p & Hp & _ & Hx); [lia|].
      apply phdrs_range in Hp; [lia|done].
    - intros H. apply lowest_spec in H as (p & Hp & _ & Hx); [|lia]. apply phdrs_range in Hp; [lia|done]. }
  split.
  - destruct (check_header class32 buf len) as [h'|] eqn:Eh; [|done]. rewrite mbind_Some.
    destruct (scan class32 buf len h') as [[mn mx]|] eqn:Es; [|done]. rewrite mbind_Some.
    destruct (place class32 conf (mn, mx) m) as [b|] eqn:Ep; [|done]. rewrite mbind_Some.
    destruct (layout32 conf b m) as [lay'|] eqn:El; [|done]. rewrite mbind_Some. intros [= -> ->].
    destruct (check_header32 buf len h Eh) as (Ehd & _). apply scan_spec in Es as (Ht & Hs & -> & ->); [|done..].
    fold ps in Hs, Ep. apply place_spec in Ep as (P1 & P2 & P3 & P4 & P5); [|done..]. rewrite P4 in El.
    apply layout32_spec in El as (Elay & E1 & E2); [|done|done|lia].
    assert (load_break lay = b) as Elb by (by rewrite Elay, P4).
    split; try done.
    + intros p Hp Hsg. rewrite Forall_forall in Hs. split; [by apply Hs|]. split.
      * apply Z.nlt_ge. intros Hx. assert (lowest ps < 0x8048000) as Hy by (apply lowest_spec; [lia|]; eauto).
        pose proof (down_spec (lowest ps)). lia.
      * rewrite Elb. etrans; [|exact P3]. apply Z.add_le_mono_r, up_mono, Z.nlt_ge. intros Hx.
        assert (highest ps < highest ps); [|lia]. apply highest_spec; [lia|]. eauto.
    + apply (lowest_spec ps); [lia|]. pose proof (down_spec (lowest ps)). lia.
    + apply (highest_spec ps); [lia|]. apply Z.nle_gt. intros Hx. pose proof (up_mono _ _ Hx) as Hu.
      change (up 0x8048000) with 0x8048000 in Hu. lia.
  - intros [Eh Ht Hs Hf Hz El [E1 E2]]. rewrite Eh, mbind_Some. destruct (check_header32 buf len h Eh) as (Ehd & _).
    pose proof (ref_layout_ordered conf lay Hc El) as Hord. assert (load_break lay = 0x8048000 + up (memory_hard_limit conf)) as Elb by (by rewrite El).
    assert (0 <= stdin_size conf /\ 0 <= stdout_max_size conf /\ 0 <= stderr_max_size conf /\ 0 <= IB_size conf /\ 0 <= OB_size conf) as Hpos
      by (destruct Hc as [_ [? _] [? _] [? _] [? _] [? _]]; done).
    assert (scan class32 buf len h = Some (lowest ps, highest ps)) as ->.
    { apply scan_spec; [done..|]. split; [done|]. split; [|done]. apply Forall_forall. intros p Hp Hsg. by apply Hs. }
    rewrite mbind_Some.
    assert (place class32 conf (lowest ps, highest ps) m = Some (load_break lay)) as ->.
    { apply place_spec; [done..|]. apply (lowest_spec ps) in Hf; [|lia]. apply (highest_spec ps) in Hz; [|lia].
      assert (0x8048000 <= lowest ps) as Hlw.
      { apply Z.nlt_ge. intros Hx. apply lowest_spec in Hx as (p & Hp & Hsg & Hx); [|lia]. destruct (Hs p Hp Hsg) as (_ & ? & _). lia. }
      split_and!; try lia.
      - unfold down. dlia.
      - pose proof (up_spec (highest ps)). lia.
      - destruct (Z.le_gt_cases (up (highest ps) + 4096) (load_break lay)) as [|Hx]; [done|]. exfalso.
        assert (load_break lay - 4096 < highest ps) as Hy.
        { pose proof (up_spec (highest ps)) as [? ?]. destruct Hord as (_ & Hm & _). dlia. }
        apply highest_spec in Hy as (p & Hp & Hsg & Hy); [|lia]. destruct (Hs p Hp Hsg) as (_ & _ & Hk).
        pose proof (up_spec (p_vaddr p + p_memsz p)). lia. }
    rewrite mbind_Some, Elb.
    assert (layout32 conf (0x8048000 + up (memory_hard_limit conf)) m = Some lay) as ->; [|done].
    apply layout32_spec; [done|done|lia|done].
Qed.
