(* ===== verification/ElfProofs.v ===== *)
(** * The effect of the 32-bit loader on memory

    Each stage of [load_elf32] is an [effect]; their composition, read off at
    one address, gives the byte, the access and the mark the program finds. *)

From S2P Require Import Prelude Utils Memory MemoryProofs MemoryTables MemoryInit MemoryPaging MemoryFrames MemoryFlags Judger ElfLoader ElfMemory ElfAccept.

(** ** Projections of effects *)

Create Rewrite HintDb views.

Definition acc (p : page) : bool * bool * bool := (pv_user p, pv_write p, pv_nx p).

Section projections.
Context (s e : Z) (v : Z) (y : page * Z).

Lemma acc_flags u w x : acc (e_flags s e u w x v y).1 = if decide (in_range s e v) then (u, w, x) else acc y.1.
Proof. unfold e_flags. cbn. by case_decide. Qed.
Lemma mark_flags u w x : pv_mark (e_flags s e u w x v y).1 = pv_mark y.1.
Proof. unfold e_flags. cbn. by case_decide. Qed.
Lemma byte_flags u w x : (e_flags s e u w x v y).2 = y.2.
Proof. done. Qed.

Lemma acc_mark : acc (e_mark s e v y).1 = acc y.1.
Proof. unfold e_mark. cbn. by case_decide. Qed.
Lemma mark_mark : pv_mark (e_mark s e v y).1 = if decide (in_range s e v) then true else pv_mark y.1.
Proof. unfold e_mark. cbn. by case_decide. Qed.
Lemma byte_mark : (e_mark s e v y).2 = y.2.
Proof. done. Qed.

Lemma acc_untouch : acc (e_untouch s e v y).1 = acc y.1.
Proof. unfold e_untouch. cbn. by case_decide. Qed.
Lemma mark_untouch : pv_mark (e_untouch s e v y).1 = pv_mark y.1.
Proof. unfold e_untouch. cbn. by case_decide. Qed.
Lemma byte_untouch : (e_untouch s e v y).2 = y.2.
Proof. done. Qed.

Lemma acc_clear : acc (e_clear s e v y).1 = acc y.1.
Proof. unfold e_clear. cbn. by case_decide. Qed.
Lemma mark_clear : pv_mark (e_clear s e v y).1 = if decide (in_range s e v) then false else pv_mark y.1.
Proof. unfold e_clear. cbn. repeat case_decide; try done; [naive_solver|]. destruct (pv_mark y.1); naive_solver. Qed.
Lemma byte_clear : (e_clear s e v y).2 = if decide (in_range s e v /\ pv_mark y.1 = true) then 0 else y.2.
Proof. unfold e_clear. cbn. by case_decide. Qed.

Lemma acc_copy a l : acc (e_copy a l v y).1 = acc y.1.
Proof. unfold e_copy. cbn. by case_decide. Qed.
Lemma mark_copy a l : pv_mark (e_copy a l v y).1 = pv_mark y.1.
Proof. unfold e_copy. cbn. by case_decide. Qed.
Lemma byte_copy a l : (e_copy a l v y).2 =
  if decide (in_range a (a + Z.of_nat (length l)) v) then nth (Z.to_nat (v - a)) l 0 else y.2.
Proof. done. Qed.
End projections.
#[export] Hint Rewrite acc_flags mark_flags byte_flags acc_mark mark_mark byte_mark acc_untouch mark_untouch byte_untouch
  acc_clear mark_clear byte_clear acc_copy mark_copy byte_copy : views.

(** ** Stages *)

Section stages.
Context (own : gmap Z node) (Q L : Z).
Implicit Types m : memory.
Abbreviation clean := (clean_frames own Q L).
Abbreviation effect := (effect own Q L).

(** One stage after another. *)
Lemma bind_effect {F f g} {o : option memory} {k : memory -> option memory} m :
  (exists m', o = Some m' /\ effect f m m') ->
  (forall m', clean m' -> vaddr_break m' = vaddr_break m -> exists m'', k m' = Some m'' /\ effect g m' m'') ->
  (forall v y, F v y = g v (f v y)) ->
  exists m'', (o ≫= k) = Some m'' /\ effect F m m''.
Proof.
  intros (m' & -> & H1) H2 E. destruct (H2 m' (ef_clean _ _ _ _ _ _ H1) (ef_break _ _ _ _ _ _ H1)) as (m'' & E3 & H3).
  exists m''. rewrite mbind_Some. split; [done|]. eapply effect_ext; [|by eapply effect_trans]. intros v _. by rewrite E.
Qed.

Lemma loop_effect n (body : Z -> memory -> option memory) (f : Z -> Z -> page * Z -> page * Z) m :
  0 <= n -> clean m ->
  (forall i m', 0 <= i < n -> clean m' -> exists m'', body i m' = Some m'' /\ effect (f i) m' m'') ->
  exists m', forM_range 0 n body m = Some m' /\ effect (fun v y => foldl (fun y i => f i v y) y (seqZ 0 n)) m m'.
Proof.
  intros Hn Hc Hb.
  destruct (forM_range_ind (fun k m' => effect (fun v y => foldl (fun y i => f i v y) y (seqZ 0 k)) m m') 0 n body m)
    as (m' & E & H); [done|by apply effect_refl| |by exists m'].
  intros i m' Hi H. destruct (Hb i m' Hi (ef_clean _ _ _ _ _ _ H)) as (m'' & E & H'). exists m''. split; [done|].
  eapply effect_ext; [|by eapply effect_trans]. intros v _. cbv beta. rewrite seqZ_succ by lia. rewrite foldl_app. done.
Qed.

(** Stating an effect by another function. *)
Lemma effect_ex_ext f g (o : option memory) m :
  (forall v y, f v y = g v y) -> (exists m', o = Some m' /\ effect g m m') -> exists m', o = Some m' /\ effect f m m'.
Proof. intros E (m' & -> & H). exists m'. split; [done|]. eapply effect_ext; [|exact H]. intros v _. by rewrite E. Qed.

Lemma readonly_effect l s e m : clean m -> Forall is_byte l -> s mod 4096 = 0 -> e mod 4096 = 0 ->
  kernel_break <= s -> s + Z.of_nat (length l) <= e -> e <= Q * HUGE_PAGE_SIZE ->
  exists m', load_readonly l s e m = Some m' /\
    effect (fun v y => e_flags s e true false true v (e_mark s e v (e_copy s l v y))) m m'.
Proof.
  intros Hc Hl Hs He Hk Hle HQ. unfold load_readonly.
  eapply (bind_effect m); [apply memcpy_effect; (done || lia)|intros m1 H1 _|].
  - eapply (bind_effect m1); [apply set_written_effect; (done || lia)|intros m2 H2 _|].
    + apply user_readonly_effect; done || lia.
    + done.
  - done.
Qed.

Lemma open_effect lay m st : clean m -> st mod 4096 = 0 -> special_region_break lay mod 4096 = 0 ->
  vaddr_break m mod 4096 = 0 -> kernel_break <= st <= special_region_break lay ->
  special_region_break lay <= vaddr_break m -> vaddr_break m <= Q * HUGE_PAGE_SIZE ->
  exists m', open_regions st lay m = Some m' /\
    effect (fun v y => e_clear st (special_region_break lay) v
      (e_flags (special_region_break lay) (vaddr_break m) false true false v
        (e_flags st (special_region_break lay) true true true v (e_flags kernel_break st false true false v y)))) m m'.
Proof.
  intros Hc H1 H2 H3 H4 H5 H6. unfold open_regions.
  eapply (bind_effect m); [apply kernel_effect; (done || lia)|intros m1 C1 B1|].
  - eapply (bind_effect m1); [apply user_writable_effect; (done || lia)|intros m2 C2 B2; rewrite B2, B1|].
    + eapply (bind_effect m2); [apply kernel_effect; (done || lia)|intros m3 C3 B3|].
      * apply clear_effect; done || lia.
      * done.
    + done.
  - done.
Qed.

(** ** Segments *)

Definition copied (buf : list Z) (p : Phdr) (v : Z) (y : page * Z) : page * Z :=
  if decide (segment p /\ p_filesz p <> 0)
  then e_mark (down (p_vaddr p)) (up (p_vaddr p + p_filesz p)) v
         (e_copy (p_vaddr p) (sub_bytes (Z.to_nat (p_offset p)) (Z.to_nat (p_filesz p)) buf) v y)
  else y.

Definition seg_writable (p : Phdr) : bool := Z.testbit (p_flags p) 1.
Definition seg_executable (p : Phdr) : bool := Z.testbit (p_flags p) 0.

Definition flagged (p : Phdr) (v : Z) (y : page * Z) : page * Z :=
  if decide (segment p /\ in_range (down (p_vaddr p)) (up (p_vaddr p + p_memsz p)) v)
  then (mkPage true (seg_writable p) (negb (seg_executable p)) (pv_mark y.1) false false, y.2) else y.

Section segments.
Context (buf : list Z) (len : Z) (h : Ehdr) (lb : Z).
Hypothesis Hbuf : Forall is_byte buf.
Hypothesis Hlen : len <= Z.of_nat (length buf).
Hypothesis Hlb : lb <= Q * HUGE_PAGE_SIZE.
Hypothesis Hseg : forall p, p ∈ phdrs buf h -> segment p -> segment_ok len p /\ 0x8048000 <= p_vaddr p /\
  up (p_vaddr p + p_memsz p) + 4096 <= lb.
Hypothesis Hnum : 0 <= e_phnum h.

Lemma phdr_elem i : 0 <= i < e_phnum h -> phdr class32 buf h i ∈ phdrs buf h.
Proof. intros Hi. apply list_elem_of_fmap. exists i. split; [done|]. apply elem_of_seqZ. lia. Qed.

Lemma length_segment p : p ∈ phdrs buf h -> segment p -> p_filesz p <> 0 ->
  Z.of_nat (length (sub_bytes (Z.to_nat (p_offset p)) (Z.to_nat (p_filesz p)) buf)) = p_filesz p.
Proof.
  intros Hp Hs Hf. destruct (Hseg p Hp Hs) as ([[?|?] _] & _); [done|]. pose proof (phdrs_range buf h p Hbuf Hp).
  unfold sub_bytes. rewrite length_take, length_drop. lia.
Qed.

Lemma copy_segments_effect m : clean m ->
  exists m', copy_segments class32 buf h m = Some m' /\
    effect (fun v y => foldl (fun y p => copied buf p v y) y (phdrs buf h)) m m'.
Proof.
  intros Hc. unfold copy_segments.
  destruct (loop_effect (e_phnum h) (copy_segment class32 buf h) (fun i => copied buf (phdr class32 buf h i)) m Hnum Hc)
    as (m' & E & H).
  2: { exists m'. split; [done|]. eapply effect_ext; [|exact H]. intros v _. cbv beta. unfold phdrs. by rewrite foldl_fmap. }
  intros i m1 Hi H1. pose proof (phdr_elem i Hi) as Hp. unfold copy_segment. set (p := phdr class32 buf h i) in *.
  destruct (Z.eqb_spec (p_type p) PT_LOAD) as [Et|Et]; cbn [negb].
  2: { exists m1. split; [done|]. eapply effect_ext; [|by apply effect_refl]. intros v _. unfold copied.
       by rewrite decide_False by (unfold segment; tauto). }
  destruct (Z.eqb_spec (p_filesz p) 0) as [Ef|Ef].
  { exists m1. split; [done|]. eapply effect_ext; [|by apply effect_refl]. intros v _. unfold copied.
    by rewrite decide_False by tauto. }
  pose proof (phdrs_range buf h p Hbuf Hp) as (R1 & R2 & R3 & R4).
  destruct (Hseg p Hp Et) as ((_ & _ & Hm) & Hv & Hu).
  pose proof (up_spec (p_vaddr p + p_memsz p)) as [U1 _]. pose proof (up_mono (p_vaddr p + p_filesz p) (p_vaddr p + p_memsz p) ltac:(lia)) as U2.
  pose proof (up_spec (p_vaddr p + p_filesz p)) as [U3 U4]. pose proof (down_spec (p_vaddr p)) as [D1 D2].
  rewrite (wrap_small 64 (p_vaddr p + p_filesz p)) by (unfold is_uint; lia).
  rewrite round_up_up, decide_True, round_down_down by (unfold is_uint; lia).
  assert (kernel_break <= down (p_vaddr p)) as Hkd by (change kernel_break with 16777216; unfold down; dlia).
  eapply effect_ex_ext; [intros v y; unfold copied; by rewrite decide_True by done|].
  eapply (bind_effect m1).
  - apply memcpy_effect; [done|apply Forall_take; by apply Forall_drop|lia|]. rewrite length_segment by done. lia.
  - intros m2 H2 _. apply set_written_effect; done || lia.
  - done.
Qed.

Lemma segment_flags_effect p m : clean m -> p ∈ phdrs buf h -> segment p ->
  let s := down (p_vaddr p) in let e := up (p_vaddr p + p_memsz p) in
  exists m', (m ← set_page_flags_user_readonly s e m;
      m ← (if seg_executable p then add_page_flags_executable s e m else Some m);
      if seg_writable p then add_page_flags_writable s e m else Some m) = Some m' /\
    effect (flagged p) m m'.
Proof.
  intros Hc Hp Hs s e. destruct (Hseg p Hp Hs) as (_ & Hv & Hu).
  pose proof (phdrs_range buf h p Hbuf Hp) as (R1 & R2 & R3 & R4).
  pose proof (up_spec (p_vaddr p + p_memsz p)) as [U1 U2]. pose proof (down_spec (p_vaddr p)) as [D1 D2].
  assert (kernel_break <= s <= e) as Hse by (unfold s, e; change kernel_break with 16777216; lia).
  assert (e <= Q * HUGE_PAGE_SIZE) as He by (unfold e; lia).
  eapply (bind_effect m); [apply user_readonly_effect; done|intros m1 H1 _|].
  - eapply (bind_effect m1 (f := fun v y => if seg_executable p then e_exec s e v y else y)).
    + destruct (seg_executable p); [by apply add_executable_effect|]. exists m1. split; [done|]. by apply effect_refl.
    + intros m2 H2 _. instantiate (1 := fun v y => if seg_writable p then e_write s e v y else y).
      destruct (seg_writable p); [by apply add_writable_effect|]. exists m2. split; [done|]. by apply effect_refl.
    + done.
  - intros v [[p1 p2 p3 p4 p5 p6] b]. unfold flagged, e_exec, e_write, e_flags. fold s e. cbn [fst snd pv_mark].
    destruct (decide (in_range s e v)) as [Hin|Hin].
    + rewrite decide_True by done. by destruct (seg_executable p), (seg_writable p).
    + rewrite decide_False by tauto. by destruct (seg_executable p), (seg_writable p).
Qed.

Lemma all_segment_flags_effect m : clean m ->
  exists m', all_segment_flags class32 buf h m = Some m' /\
    effect (fun v y => foldl (fun y p => flagged p v y) y (phdrs buf h)) m m'.
Proof.
  intros Hc. unfold all_segment_flags.
  destruct (loop_effect (e_phnum h) (segment_flags class32 buf h) (fun i => flagged (phdr class32 buf h i)) m Hnum Hc)
    as (m' & E & H).
  2: { exists m'. split; [done|]. eapply effect_ext; [|exact H]. intros v _. cbv beta. unfold phdrs. by rewrite foldl_fmap. }
  intros i m1 Hi H1. pose proof (phdr_elem i Hi) as Hp. unfold segment_flags. set (p := phdr class32 buf h i) in *.
  destruct (Z.eqb_spec (p_type p) PT_LOAD) as [Et|Et]; cbn [negb].
  2: { exists m1. split; [done|]. eapply effect_ext; [|by apply effect_refl]. intros v _. unfold flagged.
       by rewrite decide_False by (unfold segment; tauto). }
  pose proof (phdrs_range buf h p Hbuf Hp) as (R1 & R2 & R3 & R4).
  rewrite (wrap_small 64 (p_vaddr p + p_memsz p)) by (unfold is_uint; lia).
  rewrite round_up_up, decide_True, round_down_down by (unfold is_uint; lia).
  change PF_X with (2 ^ 0). change PF_W with (2 ^ 1). rewrite !land_pow2, !negb_involutive by lia.
  by apply segment_flags_effect.
Qed.
End segments.

(** ** Inputs *)

Definition e_readonly (l : list Z) (s e v : Z) (y : page * Z) : page * Z :=
  e_flags s e true false true v (e_mark s e v (e_copy s l v y)).

Section inputs.
Context (conf : AppConfig) (lay : Layout).
Hypothesis Hconf : conf_ok conf.
Hypothesis Hlay : lay = ref_layout conf.
Hypothesis HOB : image_break lay <= Q * HUGE_PAGE_SIZE.
Hypothesis HQ40 : Q * HUGE_PAGE_SIZE < 2 ^ 40.
Hypothesis Hin : Forall is_byte (c_stdin conf).
Hypothesis HIB : Forall is_byte (c_IB conf).
Hypothesis HOBb : Forall is_byte (c_OB conf).

Definition e_inputs (v : Z) (y : page * Z) : page * Z :=
  let y := e_readonly (take (Z.to_nat (stdin_size conf)) (c_stdin conf)) (load_break lay) (stdin_break lay) v y in
  let y := e_readonly (take (Z.to_nat (IB_size conf)) (c_IB conf)) (stderr_break lay) (IB_break lay) v y in
  if OB_need_clear conf then y
  else e_copy (IB_break lay) (take (Z.to_nat (OB_size conf)) (c_OB conf)) v (e_mark (IB_break lay) (OB_break lay) v y).

Lemma inputs_effect m : clean m -> exists m', load_inputs conf lay m = Some m' /\ effect e_inputs m m'.
Proof.
  intros Hc. pose proof (ref_layout_ordered conf lay Hconf Hlay) as
    (O1 & A1 & O2 & A2 & O3 & A3 & O4 & A4 & O5 & A5 & O6 & A6 & ES & EI & EU).
  destruct Hconf as [_ [C1 _] [C2 _] [C3 _] [C4 _] [C5 _]].
  assert (kernel_break <= load_break lay) as Hk by (change kernel_break with 16777216; lia).
  unfold load_inputs.
  eapply (bind_effect m); [apply readonly_effect; try done; [by apply Forall_take|rewrite length_take; lia|lia]|intros m1 H1 _|].
  - eapply (bind_effect m1); [apply readonly_effect; try done; [by apply Forall_take|lia|rewrite length_take; lia|lia]|intros m2 H2 _|].
    + instantiate (1 := fun v y => if OB_need_clear conf then y else
        e_copy (IB_break lay) (take (Z.to_nat (OB_size conf)) (c_OB conf)) v (e_mark (IB_break lay) (OB_break lay) v y)).
      destruct (OB_need_clear conf); [exists m2; split; [done|]; by apply effect_refl|].
      rewrite round_up_up, decide_True by (unfold is_uint; lia).
      rewrite wrap_small by (unfold is_uint; lia). rewrite <- EU.
      eapply (bind_effect m2); [apply set_written_effect; (done || lia)|intros m3 H3 _|].
      * apply memcpy_effect; [done|by apply Forall_take|lia|]. rewrite length_take. lia.
      * done.
    + done.
  - done.
Qed.

(** ** The stack page *)

Lemma build_stack_effect info vec m :
  clean m -> length info = 60%nat -> Forall is_byte info ->
  let V := concat (reverse (vec (load_break lay - 60))) in
  length V = 112%nat -> Forall (Forall is_byte) (vec (load_break lay - 60)) -> 0x8049000 <= load_break lay ->
  exists m', build_stack info vec lay m = Some (load_break lay - 176, load_break lay - 60, m') /\
    effect (fun v y => e_mark (load_break lay - 4096) (load_break lay) v
      (e_copy (load_break lay - 176) (V ++ drop 108 V ++ info) v y)) m m'.
Proof.
  intros Hc Li Hi V LV HV Hlb. pose proof (ref_layout_ordered conf lay Hconf Hlay) as
    (O1 & A1 & O2 & A2 & O3 & A3 & O4 & A4 & O5 & A5 & O6 & A6 & ES & EI & EU).
  destruct Hconf as [_ [C1 _] [C2 _] [C3 _] [C4 _] [C5 _]].
  set (lb := load_break lay) in *. assert (lb <= Q * HUGE_PAGE_SIZE) as HlQ by lia.
  assert (kernel_break <= lb - 4096) as Hk by (change kernel_break with 16777216; lia).
  unfold build_stack. fold lb.
  destruct (push_bytes_effect own Q L info lb m Hc Hi) as (m1 & E1 & H1); [lia|done|]. rewrite Li in E1, H1.
  change (Z.of_nat 60) with 60 in E1, H1. rewrite E1, mbind_Some.
  destruct (pushes_effect own Q L (vec (lb - 60)) (lb - 60) m1 (ef_clean _ _ _ _ _ _ H1) HV) as (m2 & E2 & H2).
  { fold V. lia. } { lia. }
  fold V in E2, H2. rewrite LV in E2, H2. replace (lb - 60 - Z.of_nat 112) with (lb - 172) in E2, H2 by lia.
  rewrite E2, mbind_Some. assert ((lb - 172) mod 16 = 4) as Emod by dlia. rewrite Emod. cbn [Z.eqb negb].
  assert (round_down (lb - 172) 16 = lb - 176) as ->.
  { unfold round_down. rewrite wrap_small; [dlia|]. unfold is_uint. dlia. }
  replace (u64 (lb - 60 - (lb - 172))) with 112 by (replace (lb - 60 - (lb - 172)) with 112 by lia; done).
  unfold memmove. rewrite (read_bytes_view own Q L m2 (ef_clean _ _ _ _ _ _ H2)) by lia. rewrite mbind_Some.
  assert ((fun i => ubyte m2 (lb - 172 + i)) <$> seqZ 0 (Z.of_nat (Z.to_nat 112)) = V) as ->.
  { apply list_eq. intros i. rewrite list_lookup_fmap. change (Z.of_nat (Z.to_nat 112)) with 112.
    destruct (decide (i < 112)%nat) as [Hlt|Hge].
    - rewrite lookup_seqZ_lt by lia. cbn [fmap option_fmap option_map].
      assert (user Q (lb - 172 + (0 + Z.of_nat i))) as Hu by (unfold user; lia).
      pose proof (ef_view _ _ _ _ _ _ H2 _ Hu) as Hv. apply (f_equal snd) in Hv. unfold view in Hv. cbn [snd] in Hv.
      rewrite Hv, byte_copy, decide_True by (unfold in_range; rewrite LV; lia).
      replace (Z.to_nat (lb - 172 + (0 + Z.of_nat i) - (lb - 172))) with i by lia.
      destruct (nth_lookup_or_length V i 0) as [->|]; [done|lia].
    - rewrite lookup_seqZ_ge by lia. symmetry. apply lookup_ge_None_2. lia. }
  destruct (memcpy_effect own Q L V (lb - 176) m2 (ef_clean _ _ _ _ _ _ H2)) as (m3 & E3 & H3).
  { unfold V. apply Forall_concat. by apply Forall_reverse. } { lia. } { lia. }
  rewrite E3, !mbind_Some. rewrite wrap_small by (unfold is_uint; change PAGE_SIZE with 4096; change kernel_break with 16777216 in Hk; lia).
  change PAGE_SIZE with 4096.
  destruct (set_written_effect own Q L (lb - 4096) lb m3 (ef_clean _ _ _ _ _ _ H3)) as (m4 & E4 & H4); [dlia|done|lia|done|].
  rewrite E4, mbind_Some. exists m4. split; [done|].
  eapply effect_ext; [|eapply effect_trans; [exact H1|eapply effect_trans; [exact H2|eapply effect_trans; [exact H3|exact H4]]]].
  intros v _. cbv beta. f_equal. replace (lb - 60) with (lb - 172 + Z.of_nat (length V)) by lia. rewrite e_copy_app.
  replace (lb - 176) with (lb - 172 - 4) by lia. rewrite e_copy_shift by lia. do 3 f_equal. rewrite LV. done.
Qed.
End inputs.

(** ** The whole loader *)

Definition vectors32 (h : Ehdr) (lay : Layout) : list Z := concat (reverse (stack32 h lay (load_break lay - 60))).

(** The last bytes of the stack page, from the stack pointer on. *)
Definition stack_bytes32 (h : Ehdr) (lay : Layout) (info : DuckInfo_t) : list Z :=
  vectors32 h lay ++ drop 108 (vectors32 h lay) ++ info32_bytes info.

Definition app32 (conf : AppConfig) (h : Ehdr) (lay : Layout) (tsc_freq : Z) : App :=
  mkApp (e_entry h) (load_break lay - 176) 0x8048000 (load_break lay) (load_break lay) (OB_break lay) (load_break lay)
    (stdin_break lay) (duckinfo conf lay tsc_freq) 0 (load_break lay - 60).

Lemma pushl_bytes v : Forall is_byte (pushl v).
Proof. apply le_bytes_are_bytes. Qed.
Lemma pushq_bytes v : Forall is_byte (pushq v).
Proof. apply le_bytes_are_bytes. Qed.
Hint Resolve pushl_bytes pushq_bytes : cxx.

Lemma info32_bytes_ok d : length (info32_bytes d) = 60%nat /\ Forall is_byte (info32_bytes d).
Proof.
  split; [reflexivity|]. unfold info32_bytes, info_fields. cbn [mbind list_bind].
  repeat (apply Forall_app; split); auto with cxx.
Qed.

Lemma stack32_ok h lay p : length (concat (reverse (stack32 h lay p))) = 112%nat /\ Forall (Forall is_byte) (stack32 h lay p).
Proof.
  split; [reflexivity|]. unfold stack32. cbn [fmap list_fmap app]. repeat (apply Forall_cons; split; [auto with cxx|]). done.
Qed.

Section load.
Context (buf : list Z) (len : Z) (conf : AppConfig) (h : Ehdr) (lay : Layout) (tsc_freq vb : Z).

Definition e_load (v : Z) (y : page * Z) : page * Z :=
  let y := e_flags kernel_break 0x8048000 false true false v y in
  let y := e_flags 0x8048000 (OB_break lay) true true true v y in
  let y := e_flags (OB_break lay) vb false true false v y in
  let y := e_clear 0x8048000 (OB_break lay) v y in
  let y := foldl (fun y p => copied buf p v y) y (phdrs buf h) in
  let y := e_inputs conf lay v y in
  let y := e_readonly (take (Z.to_nat (Z.min len 4096)) buf) (OB_break lay) (image_break lay) v y in
  let y := e_copy (load_break lay - 176) (stack_bytes32 h lay (duckinfo conf lay tsc_freq)) v y in
  let y := e_mark (load_break lay - 4096) (load_break lay) v y in
  let y := foldl (fun y p => flagged p v y) y (phdrs buf h) in
  e_untouch 0x8048000 (OB_break lay) v y.

Record load_ok m : Prop := {
  lo_buf : Forall is_byte buf;
  lo_len : is_uint 32 len /\ len <= Z.of_nat (length buf);
  lo_conf : conf_ok conf;
  lo_stdin : Forall is_byte (c_stdin conf);
  lo_IB : Forall is_byte (c_IB conf);
  lo_OB : Forall is_byte (c_OB conf);
  lo_clean : clean m;
  lo_break : vaddr_break m = vb;
  lo_aligned : vb mod 4096 = 0;
  lo_room : image_break lay <= Q * HUGE_PAGE_SIZE;
  lo_top : kernel_break <= vb <= Q * HUGE_PAGE_SIZE
}.

Lemma load32_effect m : load_ok m -> accepted32 buf len conf vb h lay ->
  exists m', load_elf32 tsc_freq buf len conf m = Some (Some (app32 conf h lay tsc_freq), m') /\ effect e_load m m'.
Proof.
  intros [Hbuf [Hl32 Hlen] Hconf Hin HIB HOB Hc Hvb Hal Hroom Htop] Hacc.
  pose proof (pg_Q _ _ _ (cf_paging _ _ _ _ Hc)) as HQ0.
  assert (Q * HUGE_PAGE_SIZE < 2 ^ 40) as HQ by (unfold HUGE_PAGE_SIZE; lia).
  unfold load_elf32. rewrite (proj2 (prepare32_spec buf len conf m h lay Hbuf Hl32 Hconf ltac:(rewrite Hvb; change kernel_break with 16777216 in Htop; lia)));
    [|by rewrite Hvb].
  destruct Hacc as [Eh Ht Hs Hf Hz El [B1 B2]]. destruct (check_header32 buf len h Eh) as (Ehd & _).
  pose proof (ref_layout_ordered conf lay Hconf El) as
    (O1 & A1 & O2 & A2 & O3 & A3 & O4 & A4 & O5 & A5 & O6 & A6 & ES & EI & EU).
  assert (0 <= stdin_size conf /\ 0 <= stdout_max_size conf /\ 0 <= stderr_max_size conf /\ 0 <= IB_size conf /\ 0 <= OB_size conf) as Hpos
      by (destruct Hconf as [_ [? _] [? _] [? _] [? _] [? _]]; done).
  assert (0 <= e_phnum h) as Hnum by (pose proof (ehdr32_range buf Hbuf) as (_ & _ & ? & _); rewrite Ehd; lia).
  assert (0x8049000 <= load_break lay) as Hlb.
  { destruct Hz as (p & Hp & Hsg & Hx). destruct (Hs p Hp Hsg) as (_ & _ & Hu). pose proof (up_spec (p_vaddr p + p_memsz p)). lia. }
  assert (load_break lay <= Q * HUGE_PAGE_SIZE) as HlQ by lia. rewrite ES in *.
  assert (forall b, take (Z.to_nat (Z.min (u32 len) PAGE_SIZE)) b = take (Z.to_nat (Z.min len 4096)) (b : list Z)) as Etake.
  { intros b. rewrite (wrap_small 32) by done. done. }
  change (load_vaddr_start class32) with 0x8048000. cbv zeta.
  destruct (open_effect lay m 0x8048000 Hc) as (m1 & E1 & H1); rewrite ?ES, ?Hvb; try done;
    [change kernel_break with 16777216; lia|lia|]. rewrite E1, mbind_Some.
  destruct (copy_segments_effect buf len h (load_break lay) Hbuf Hlen HlQ Hs Hnum m1 (ef_clean _ _ _ _ _ _ H1)) as (m2 & E2 & H2).
  rewrite E2, mbind_Some.
  destruct (inputs_effect conf lay Hconf El Hroom HQ Hin HIB HOB m2 (ef_clean _ _ _ _ _ _ H2)) as (m3 & E3 & H3).
  rewrite E3, mbind_Some. unfold load_image. rewrite Etake.
  destruct (readonly_effect (take (Z.to_nat (Z.min len 4096)) buf) (OB_break lay) (image_break lay) m3 (ef_clean _ _ _ _ _ _ H3))
    as (m4 & E4 & H4); [by apply Forall_take|done|rewrite EI; dlia|change kernel_break with 16777216; lia|rewrite length_take; lia|done|].
  rewrite E4, mbind_Some.
  destruct (info32_bytes_ok (duckinfo conf lay tsc_freq)) as [Li Hi].
  destruct (stack32_ok h lay (load_break lay - 60)) as [LV HV].
  destruct (build_stack_effect conf lay Hconf El Hroom HQ (info32_bytes (duckinfo conf lay tsc_freq)) (stack32 h lay) m4
    (ef_clean _ _ _ _ _ _ H4) Li Hi LV HV Hlb) as (m5 & E5 & H5).
  rewrite E5, mbind_Some.
  destruct (all_segment_flags_effect buf len h (load_break lay) Hbuf HlQ Hs Hnum m5 (ef_clean _ _ _ _ _ _ H5)) as (m6 & E6 & H6).
  rewrite E6, mbind_Some.
  destruct (untouch_effect own Q L 0x8048000 (OB_break lay) m6 (ef_clean _ _ _ _ _ _ H6)) as (m7 & E7 & H7);
    [done|done|change kernel_break with 16777216; lia|lia|].
  rewrite E7, mbind_Some. exists m7. split; [done|].
  eapply effect_ext; [|eapply effect_trans; [exact H1|eapply effect_trans; [exact H2|eapply effect_trans; [exact H3|
    eapply effect_trans; [exact H4|eapply effect_trans; [exact H5|eapply effect_trans; [exact H6|exact H7]]]]]]].
  intros v _. cbv beta. rewrite Hvb, ES. reflexivity.
Qed.
End load.
End stages.
