(* ===== verification/ElfContents.v ===== *)
(** * What a loaded program finds in memory

    [expected_access] and [expected_byte] are the address space of a loaded
    program, region by region; [zeroed] is the invariant between programs: a
    page that no longer carries the mark of a write holds only zeros. *)

From S2P Require Import Prelude Utils Memory MemoryProofs MemoryTables MemoryInit MemoryPaging MemoryFrames MemoryFlags Judger ElfLoader ElfMemory ElfAccept ElfProofs.

(** ** Segments *)

(** The file byte of the last segment that covers the address. *)
Definition seg_byte (buf : list Z) (ps : list Phdr) (v : Z) : Z :=
  foldl (fun b p => if decide (segment p /\ in_range (p_vaddr p) (p_vaddr p + p_filesz p) v)
                    then nth (Z.to_nat (p_offset p + (v - p_vaddr p))) buf 0 else b) 0 ps.

(** User, write, no-execute, as the last segment on the page says. *)
Definition seg_access (ps : list Phdr) (v : Z) : bool * bool * bool :=
  foldl (fun a p => if decide (segment p /\ in_range (down (p_vaddr p)) (up (p_vaddr p + p_memsz p)) v)
                    then (true, seg_writable p, negb (seg_executable p)) else a) (true, true, true) ps.

Definition no_leftover (y : page * Z) : Prop := pv_mark y.1 = false -> y.2 = 0.

Lemma no_leftover_mono y y' : (pv_mark y'.1 = false -> pv_mark y.1 = false /\ y'.2 = y.2) -> no_leftover y -> no_leftover y'.
Proof. intros H Hy Hm. destruct (H Hm) as [H1 H2]. rewrite H2. by apply Hy. Qed.

(** Marking and copying inside the marked pages. *)
Lemma mark_copy_leftover s e a l v y : s <= a -> a + Z.of_nat (length l) <= e ->
  no_leftover y -> no_leftover (e_mark s e v (e_copy a l v y)) /\ no_leftover (e_copy a l v (e_mark s e v y)).
Proof.
  intros H1 H2. intros Hy. split; (eapply no_leftover_mono; [|exact Hy]); autorewrite with views;
    (destruct (decide (in_range s e v)) as [Hin|Hin]; [done|]); intros Hm; (split; [done|]);
    (rewrite decide_False; [done|]; unfold in_range in *; lia).
Qed.

Section folds.
Context (buf : list Z) (len st lb : Z) (v : Z).
Implicit Types (ps : list Phdr) (y : page * Z).

Definition in_bounds (p : Phdr) : Prop :=
  segment p -> Z.of_nat (length (sub_bytes (Z.to_nat (p_offset p)) (Z.to_nat (p_filesz p)) buf)) = p_filesz p \/ p_filesz p = 0.

Lemma copied_acc ps : forall y, acc (foldl (fun y p => copied buf p v y) y ps).1 = acc y.1.
Proof.
  induction ps as [|p ps IH]; intros y; [done|]. cbn [foldl]. rewrite IH. unfold copied. case_decide; [|done].
  by autorewrite with views.
Qed.

Lemma copied_byte_turn p y : in_bounds p -> 0 <= p_offset p -> 0 <= p_filesz p ->
  (copied buf p v y).2 = if decide (segment p /\ in_range (p_vaddr p) (p_vaddr p + p_filesz p) v)
                         then nth (Z.to_nat (p_offset p + (v - p_vaddr p))) buf 0 else y.2.
Proof.
  intros Hb Ho Hf. unfold copied. destruct (decide (segment p /\ p_filesz p <> 0)) as [[Hs Hz]|Hn].
  - destruct (Hb Hs) as [El|]; [|done]. autorewrite with views. rewrite El.
    destruct (decide (in_range (p_vaddr p) (p_vaddr p + p_filesz p) v)) as [Hi|Hi].
    + rewrite decide_True by done. unfold in_range in Hi. unfold sub_bytes.
      rewrite nth_lookup, lookup_take_lt, lookup_drop by lia. rewrite <- nth_lookup. f_equal. lia.
    + by rewrite decide_False by tauto.
  - rewrite decide_False; [done|]. unfold in_range. intros [Hs Hi]. apply Hn. split; [done|lia].
Qed.

Lemma copied_byte ps : Forall in_bounds ps -> Forall (fun p => 0 <= p_offset p /\ 0 <= p_filesz p) ps ->
  forall y, y.2 = 0 -> (foldl (fun y p => copied buf p v y) y ps).2 = seg_byte buf ps v.
Proof.
  unfold seg_byte. generalize 0 at 3 5 as b. induction ps as [|p ps IH]; intros b Hb Hr y Hy; [done|].
  apply Forall_cons in Hb as [Hb Hbs]. apply Forall_cons in Hr as [[Ho Hf] Hrs]. cbn [foldl].
  apply IH; [done..|]. rewrite copied_byte_turn by done. by rewrite Hy.
Qed.

Lemma copied_leftover ps : Forall in_bounds ps ->
  forall y, no_leftover y -> no_leftover (foldl (fun y p => copied buf p v y) y ps).
Proof.
  induction ps as [|p ps IH]; intros Hb y Hy; [done|]. apply Forall_cons in Hb as [Hb Hbs].
  cbn [foldl]. apply IH; [done|]. unfold copied. case_decide as Hd; [|done].
  destruct Hd as [Hs Hz]. destruct (Hb Hs) as [El|]; [|done].
  apply mark_copy_leftover; [apply down_spec|rewrite El; apply up_spec|done].
Qed.

Lemma flagged_acc ps : forall y a, acc y.1 = a -> acc (foldl (fun y p => flagged p v y) y ps).1 =
  foldl (fun a p => if decide (segment p /\ in_range (down (p_vaddr p)) (up (p_vaddr p + p_memsz p)) v)
                    then (true, seg_writable p, negb (seg_executable p)) else a) a ps.
Proof.
  induction ps as [|p ps IH]; intros y a Ha; [done|]. cbn [foldl]. apply IH. unfold flagged. case_decide; [done|exact Ha].
Qed.

Lemma flagged_rest ps : forall y, pv_mark (foldl (fun y p => flagged p v y) y ps).1 = pv_mark y.1 /\
  (foldl (fun y p => flagged p v y) y ps).2 = y.2.
Proof.
  induction ps as [|p ps IH]; intros y; [done|]. cbn [foldl]. destruct (IH (flagged p v y)) as [-> ->].
  unfold flagged. by case_decide.
Qed.

Lemma flagged_leftover ps y : no_leftover y -> no_leftover (foldl (fun y p => flagged p v y) y ps).
Proof. intros Hy. eapply no_leftover_mono; [|exact Hy]. destruct (flagged_rest ps y) as [-> ->]. done. Qed.

(** Away from all segments. *)
Lemma segments_away ps : Forall (fun p => segment p -> ~ in_range (down (p_vaddr p)) (up (p_vaddr p + p_memsz p)) v) ps ->
  Forall (fun p => segment p -> p_filesz p <= p_memsz p) ps ->
  (forall y, foldl (fun y p => flagged p v y) y ps = y) /\ (forall y, Forall in_bounds ps -> (foldl (fun y p => copied buf p v y) y ps).2 = y.2).
Proof.
  induction ps as [|p ps IH]; intros Ha Hm; [done|]. apply Forall_cons in Ha as [Ha Has]. apply Forall_cons in Hm as [Hm Hms].
  destruct (IH Has Hms) as [IH1 IH2]. split; intros y.
  - cbn [foldl]. unfold flagged at 2. rewrite decide_False by tauto. apply IH1.
  - intros Hb. apply Forall_cons in Hb as [Hb Hbs]. cbn [foldl]. rewrite IH2 by done. unfold copied.
    case_decide as Hd; [|done]. destruct Hd as [Hs Hz]. destruct (Hb Hs) as [El|]; [|done]. autorewrite with views. rewrite El.
    rewrite decide_False; [done|]. intros Hi. apply (Ha Hs). unfold in_range in *. pose proof (down_spec (p_vaddr p)).
    pose proof (up_spec (p_vaddr p + p_memsz p)). specialize (Hm Hs). lia.
Qed.
End folds.

(** ** The address space of a loaded program *)

Definition expected_access (ps : list Phdr) (lay : Layout) (v : Z) : bool * bool * bool :=
  if decide (v < 0x8048000) then (false, true, false)
  else if decide (v < load_break lay) then seg_access ps v
  else if decide (v < stdin_break lay) then (true, false, true)
  else if decide (v < stderr_break lay) then (true, true, true)
  else if decide (v < IB_break lay) then (true, false, true)
  else if decide (v < OB_break lay) then (true, true, true)
  else if decide (v < image_break lay) then (true, false, true)
  else (false, true, false).

Definition expected_byte (buf : list Z) (len : Z) (conf : AppConfig) (ps : list Phdr) (lay : Layout) (stack : list Z)
    (old v : Z) : Z :=
  if decide (v < 0x8048000) then old
  else if decide (v < load_break lay - 176) then seg_byte buf ps v
  else if decide (v < load_break lay) then nth (Z.to_nat (v - (load_break lay - 176))) stack 0
  else if decide (v < stdin_break lay) then nth (Z.to_nat (v - load_break lay)) (take (Z.to_nat (stdin_size conf)) (c_stdin conf)) 0
  else if decide (v < stderr_break lay) then 0
  else if decide (v < IB_break lay) then nth (Z.to_nat (v - stderr_break lay)) (take (Z.to_nat (IB_size conf)) (c_IB conf)) 0
  else if decide (v < OB_break lay) then
    if OB_need_clear conf then 0 else nth (Z.to_nat (v - IB_break lay)) (take (Z.to_nat (OB_size conf)) (c_OB conf)) 0
  else if decide (v < OB_break lay + Z.min len 4096) then nth (Z.to_nat (v - OB_break lay)) buf 0
  else old.

Section contents.
Context (own : gmap Z node) (Q L : Z).
Context (buf : list Z) (len : Z) (conf : AppConfig) (h : Ehdr) (lay : Layout) (tsc_freq vb : Z) (m : memory).
Hypothesis Hok : load_ok own Q L buf len conf lay vb m.
Hypothesis Hacc : accepted32 buf len conf vb h lay.

Lemma contents_facts :
  0x8049000 <= load_break lay <= stdin_break lay /\ stdin_break lay <= stdout_break lay <= stderr_break lay /\
  stderr_break lay <= IB_break lay <= OB_break lay /\ OB_break lay + 4096 = image_break lay /\ OB_break lay <= vb /\
  (0 <= stdin_size conf /\ load_break lay + stdin_size conf <= stdin_break lay) /\
  (0 <= IB_size conf /\ stderr_break lay + IB_size conf <= IB_break lay) /\
  (0 <= OB_size conf /\ IB_break lay + OB_size conf <= OB_break lay) /\ load_break lay mod 4096 = 0.
Proof.
  destruct Hok as [_ _ Hconf _ _ _ _ _ _ _ _]. destruct Hacc as [_ _ Hs _ Hz El [B1 B2]].
  pose proof (ref_layout_ordered conf lay Hconf El) as
    (O1 & A1 & O2 & A2 & O3 & A3 & O4 & A4 & O5 & A5 & O6 & A6 & ES & EI & EU).
  destruct Hconf as [_ [C1 _] [C2 _] [C3 _] [C4 _] [C5 _]].
  assert (0x8049000 <= load_break lay) as Hlb.
  { destruct Hz as (p & Hp & Hsg & Hx). destruct (Hs p Hp Hsg) as (_ & _ & Hu). pose proof (up_spec (p_vaddr p + p_memsz p)). lia. }
  split_and!; (done || lia).
Qed.

Lemma segments_in_bounds : Forall (in_bounds buf) (phdrs buf h) /\
  Forall (fun p => 0 <= p_offset p /\ 0 <= p_filesz p) (phdrs buf h) /\
  Forall (fun p => segment p -> p_filesz p <= p_memsz p) (phdrs buf h).
Proof.
  destruct Hok as [Hbuf [_ Hlen] _ _ _ _ _ _ _ _ _]. destruct Hacc as [_ _ Hs _ _ _ _].
  split_and!; apply Forall_forall; intros p Hp; pose proof (phdrs_range buf h p Hbuf Hp) as (R1 & R2 & R3 & R4).
  - intros Hsg. destruct (decide (p_filesz p = 0)) as [|Hz]; [by right|left].
    by eapply (length_segment buf len h (load_break lay)); eauto.
  - lia.
  - intros Hsg. apply (Hs p Hp Hsg).
Qed.

(** Segments lie between the start and the stack page. *)
Lemma segments_range v : v < 0x8048000 \/ load_break lay - 4096 <= v ->
  Forall (fun p => segment p -> ~ in_range (down (p_vaddr p)) (up (p_vaddr p + p_memsz p)) v) (phdrs buf h).
Proof.
  intros Hv. destruct Hacc as [_ _ Hs _ _ _ _]. apply Forall_forall. intros p Hp Hsg Hi.
  destruct (Hs p Hp Hsg) as (_ & H1 & H2). unfold in_range in Hi. unfold down in Hi. dlia.
Qed.

Abbreviation stack := (stack_bytes32 h lay (duckinfo conf lay tsc_freq)).

Lemma length_stack : length stack = 176%nat.
Proof. reflexivity. Qed.

Ltac decide_all := repeat (first [rewrite decide_True by (unfold in_range; lia) | rewrite decide_False by (unfold in_range; lia)]).

Lemma seg_access_away v : v < 0x8048000 \/ load_break lay - 4096 <= v -> seg_access (phdrs buf h) v = (true, true, true).
Proof.
  intros Hv. pose proof (segments_range v Hv) as Ha. unfold seg_access. induction (phdrs buf h) as [|p ps IH]; [done|].
  apply Forall_cons in Ha as [Ha Has]. cbn [foldl]. rewrite decide_False by tauto. by apply IH.
Qed.

Lemma load_access v y : kernel_break <= v < vb ->
  acc (e_load buf len conf h lay tsc_freq vb v y).1 = expected_access (phdrs buf h) lay v.
Proof.
  intros Hv. destruct contents_facts as (F1 & F2 & F3 & F4 & F5 & F6 & F7 & F8 & F9).
  unfold e_load. cbv zeta. autorewrite with views.
  assert (forall y, acc (e_inputs conf lay v y).1 =
    if decide (in_range (load_break lay) (stdin_break lay) v) then (true, false, true)
    else if decide (in_range (stderr_break lay) (IB_break lay) v) then (true, false, true) else acc y.1) as Ein.
  { intros z. unfold e_inputs, e_readonly. destruct (OB_need_clear conf); autorewrite with views; repeat case_decide; done. }
  unfold expected_access.
  destruct (decide (v < 0x8048000)) as [H1|H1].
  - rewrite (proj1 (segments_away buf v (phdrs buf h) (segments_range v (or_introl H1)) (proj2 (proj2 segments_in_bounds)))).
    unfold e_readonly. autorewrite with views. decide_all. rewrite Ein. decide_all. rewrite copied_acc. autorewrite with views. decide_all. done.
  - destruct (decide (v < load_break lay)) as [H2|H2].
    + apply flagged_acc. unfold e_readonly. autorewrite with views. decide_all. rewrite Ein. decide_all. rewrite copied_acc.
      autorewrite with views. decide_all. done.
    + rewrite (proj1 (segments_away buf v (phdrs buf h) (segments_range v ltac:(lia)) (proj2 (proj2 segments_in_bounds)))).
      unfold e_readonly. autorewrite with views. rewrite Ein, copied_acc. autorewrite with views.
      repeat case_decide; unfold in_range in *; try done; lia.
Qed.

Lemma load_byte_at v y : kernel_break <= v < vb -> no_leftover y ->
  (e_load buf len conf h lay tsc_freq vb v y).2 = expected_byte buf len conf (phdrs buf h) lay stack y.2 v.
Proof.
  intros Hv Hy. destruct contents_facts as (F1 & F2 & F3 & F4 & F5 & F6 & F7 & F8 & F9).
  destruct segments_in_bounds as (S1 & S2 & S3).
  unfold e_load. cbv zeta. rewrite byte_untouch, (proj2 (flagged_rest v (phdrs buf h) _)).
  autorewrite with views. rewrite length_stack. change (Z.of_nat 176) with 176.
  set (y0 := e_flags kernel_break 0x8048000 false true false v y).
  set (y1 := e_flags 0x8048000 (OB_break lay) true true true v y0).
  set (y2 := e_flags (OB_break lay) vb false true false v y1).
  set (y3 := e_clear 0x8048000 (OB_break lay) v y2).
  set (y4 := foldl (fun y p => copied buf p v y) y3 (phdrs buf h)).
  assert (y3.2 = if decide (in_range 0x8048000 (OB_break lay) v) then 0 else y.2) as E3.
  { unfold y3. rewrite byte_clear. assert (y2.2 = y.2) as -> by reflexivity.
    assert (pv_mark y2.1 = pv_mark y.1) as -> by (unfold y2, y1, y0; by autorewrite with views).
    destruct (decide (in_range 0x8048000 (OB_break lay) v)) as [Hi|Hi]; [|by rewrite decide_False by tauto].
    case_decide as Hd; [done|]. apply Hy. destruct (pv_mark y.1); [tauto|done]. }
  assert (y4.2 = if decide (in_range 0x8048000 (load_break lay - 4096) v) then seg_byte buf (phdrs buf h) v else y3.2) as E4.
  { destruct (decide (in_range 0x8048000 (load_break lay - 4096) v)) as [Hi|Hi].
    - apply copied_byte; [done|done|]. rewrite E3, decide_True; [done|]. unfold in_range in *. lia.
    - apply (segments_away buf v (phdrs buf h)); [|done|done]. apply segments_range. unfold in_range in Hi. lia. }
  unfold e_readonly. autorewrite with views. unfold e_inputs, e_readonly. unfold expected_byte.
  assert (seg_byte buf (phdrs buf h) v = 0 \/ v < load_break lay - 4096) as Hsb.
  { destruct (Z.lt_ge_cases v (load_break lay - 4096)) as [|Hge]; [by right|left].
    rewrite <- (copied_byte buf v (phdrs buf h) S1 S2 (mkPage false false false false false false, 0) eq_refl).
    apply (segments_away buf v (phdrs buf h)); [apply segments_range; lia|done|done]. }
  assert (forall n (l : list Z) i, (length (take n l) <= i)%nat -> nth i (take n l) 0 = 0) as Hnth by (intros; by apply nth_overflow).
  destruct (lo_len _ _ _ _ _ _ _ _ _ Hok) as [[Hl0 _] Hll].
  rewrite length_take.
  destruct (OB_need_clear conf); autorewrite with views; rewrite ?length_take, E4, E3; clear E3 E4.
  all: destruct (decide (v < 0x8048000)); [decide_all; done|].
  all: destruct (decide (v < load_break lay - 176)); [decide_all; destruct (decide (in_range 0x8048000 (load_break lay - 4096) v)) as [|Hn];
      [done|unfold in_range in Hn; decide_all; destruct Hsb; [done|lia]]|].
  all: destruct (decide (v < load_break lay)); [decide_all; done|].
  all: destruct (decide (v < stdin_break lay)); [decide_all; case_decide as Hd; [done|]; decide_all;
      symmetry; apply Hnth; rewrite length_take; unfold in_range in Hd; lia|].
  all: destruct (decide (v < stderr_break lay)); [decide_all; done|].
  all: destruct (decide (v < IB_break lay)); [decide_all; case_decide as Hd; [done|]; decide_all;
      symmetry; apply Hnth; rewrite length_take; unfold in_range in Hd; lia|].
  all: destruct (decide (v < OB_break lay)); [decide_all; first [done|case_decide as Hd; [done|]; decide_all;
      symmetry; apply Hnth; rewrite length_take; unfold in_range in Hd; lia]|].
  all: destruct (decide (v < OB_break lay + Z.min len 4096)); [decide_all; rewrite nth_lookup, lookup_take_lt by lia; by rewrite <- nth_lookup|decide_all; done].
Qed.

Lemma load_leftover v y : kernel_break <= v < vb -> no_leftover y -> no_leftover (e_load buf len conf h lay tsc_freq vb v y).
Proof.
  intros Hv Hy. destruct contents_facts as (F1 & F2 & F3 & F4 & F5 & F6 & F7 & F8 & F9).
  destruct segments_in_bounds as (S1 & S2 & S3).
  assert (forall s e u w x y, no_leftover y -> no_leftover (e_flags s e u w x v y)) as Hflags.
  { intros s e u w x z Hz. unfold no_leftover. by autorewrite with views. }
  assert (forall l s e y, s + Z.of_nat (length l) <= e -> no_leftover y -> no_leftover (e_readonly l s e v y)) as Hro.
  { intros l s e z Hle Hz. unfold e_readonly. apply Hflags. by apply mark_copy_leftover. }
  unfold e_load. cbv zeta.
  eapply no_leftover_mono; [by rewrite mark_untouch, byte_untouch|]. apply flagged_leftover.
  apply mark_copy_leftover; [lia|rewrite length_stack; lia|].
  apply Hro; [rewrite length_take; lia|]. unfold e_inputs. cbv zeta.
  match goal with |- no_leftover (if _ then ?z else _) => assert (no_leftover z) as Hz end.
  2: { destruct (OB_need_clear conf); [done|]. apply mark_copy_leftover; [lia|rewrite length_take; lia|done]. }
  apply Hro; [rewrite length_take; lia|]. apply Hro; [rewrite length_take; lia|].
  apply copied_leftover; [done|]. match goal with |- no_leftover (e_clear _ _ _ ?z) => assert (no_leftover z) as Hz by auto end.
  unfold no_leftover in *. rewrite mark_clear, byte_clear. intros Hm.
  destruct (decide (in_range _ _ _)) as [Hi|Hi]; [|by rewrite decide_False by tauto; apply Hz].
  case_decide as Hd; [done|]. apply Hz. apply not_true_is_false. tauto.
Qed.

(** Copies and flags elsewhere leave an address alone. *)
Lemma copy_away s e a l v y : s mod 4096 = 0 -> e mod 4096 = 0 -> s <= a -> a + Z.of_nat (length l) <= e -> ~ in_range s e v ->
  e_copy a l v y = y.
Proof.
  intros Hs He H1 H2 Hv. unfold e_copy. rewrite decide_False, decide_False; [by destruct y|..]; unfold in_range, meets in *; dlia.
Qed.

Lemma flags_away s e u w x v y : ~ in_range s e v -> e_flags s e u w x v y = y.
Proof. intros Hv. unfold e_flags. rewrite decide_False by done. by destruct y. Qed.

Lemma mark_away s e v y : ~ in_range s e v -> e_mark s e v y = y.
Proof. intros Hv. unfold e_mark. rewrite decide_False by done. by destruct y. Qed.

Lemma copied_away ps v : forall y, Forall (fun p => segment p -> ~ in_range (down (p_vaddr p)) (up (p_vaddr p + p_memsz p)) v) ps ->
  Forall (fun p => segment p -> p_filesz p <= p_memsz p) ps -> Forall (in_bounds buf) ps ->
  foldl (fun y p => copied buf p v y) y ps = y.
Proof.
  induction ps as [|p ps IH]; intros y Ha Hm Hb; [done|]. apply Forall_cons in Ha as [Ha Has]. apply Forall_cons in Hm as [Hm Hms].
  apply Forall_cons in Hb as [Hb Hbs]. cbn [foldl]. rewrite IH by done. unfold copied. case_decide as Hd; [|done].
  destruct Hd as [Hs Hz]. destruct (Hb Hs) as [El|]; [|done]. specialize (Ha Hs). specialize (Hm Hs).
  pose proof (down_spec (p_vaddr p)) as [D1 D2]. pose proof (up_spec (p_vaddr p + p_filesz p)) as [U1 U2].
  pose proof (up_mono (p_vaddr p + p_filesz p) (p_vaddr p + p_memsz p) ltac:(lia)) as U3.
  assert (~ in_range (down (p_vaddr p)) (up (p_vaddr p + p_filesz p)) v) as Hn by (unfold in_range in *; pose proof (up_spec (p_vaddr p + p_memsz p)); lia).
  rewrite mark_away by done. apply (copy_away (down (p_vaddr p)) (up (p_vaddr p + p_filesz p))); rewrite ?El; (done || lia).
Qed.

Lemma load_above v y : image_break lay <= vb -> vb <= v -> e_load buf len conf h lay tsc_freq vb v y = y.
Proof.
  intros Him Hv. destruct contents_facts as (F1 & F2 & F3 & F4 & F5 & F6 & F7 & F8 & F9).
  destruct segments_in_bounds as (S1 & S2 & S3).
  pose proof (ref_layout_ordered conf lay (lo_conf _ _ _ _ _ _ _ _ _ Hok) (ac_layout _ _ _ _ _ _ Hacc)) as
    (O1 & A1 & O2 & A2 & O3 & A3 & O4 & A4 & O5 & A5 & O6 & A6 & ES & EI & EU).
  pose proof (segments_range v ltac:(lia)) as Ha. unfold e_load. cbv zeta.
  rewrite !flags_away by (unfold in_range; change kernel_break with 16777216; lia).
  assert (e_clear 0x8048000 (OB_break lay) v y = y) as ->.
  { unfold e_clear. rewrite decide_False; [done|]. unfold in_range. lia. }
  rewrite copied_away by done. unfold e_inputs, e_readonly. cbv zeta.
  assert (forall n (l : list Z), Z.of_nat (length (take n l)) <= Z.of_nat n) as Htk by (intros; rewrite length_take; lia).
  assert (Hl1 := Htk (Z.to_nat (stdin_size conf)) (c_stdin conf)). assert (Hl2 := Htk (Z.to_nat (IB_size conf)) (c_IB conf)).
  assert (Hl3 := Htk (Z.to_nat (OB_size conf)) (c_OB conf)). assert (Hl4 := Htk (Z.to_nat (Z.min len 4096)) buf).
  assert (0 <= len) as Hln by (destruct (lo_len _ _ _ _ _ _ _ _ _ Hok) as [[? _] _]; done).
  rewrite (copy_away (load_break lay) (stdin_break lay) (load_break lay)) by (done || lia || unfold in_range; lia).
  rewrite ?mark_away, ?flags_away by (unfold in_range; lia).
  rewrite (copy_away (stderr_break lay) (IB_break lay) (stderr_break lay)) by (done || lia || unfold in_range; lia).
  rewrite ?mark_away, ?flags_away by (unfold in_range; lia).
  match goal with |- context [if OB_need_clear conf then ?a else ?b] => assert ((if OB_need_clear conf then a else b) = y) as -> end.
  { destruct (OB_need_clear conf); [done|]. apply (copy_away (IB_break lay) (OB_break lay)); (done || lia || unfold in_range; lia). }
  rewrite (copy_away (OB_break lay) (image_break lay) (OB_break lay)) by (done || dlia || unfold in_range; lia).
  rewrite ?mark_away, ?flags_away by (unfold in_range; lia).
  rewrite (copy_away (load_break lay - 4096) (load_break lay) (load_break lay - 176)) by (done || dlia || rewrite ?length_stack; unfold in_range; lia).
  rewrite ?mark_away by (unfold in_range; lia).
  rewrite (proj1 (segments_away buf v (phdrs buf h) Ha S3)). unfold e_untouch. rewrite decide_False by (unfold in_range; lia). by destruct y.
Qed.
End contents.
