(* ===== verification/ElfRun.v ===== *)
(** * Programs at work and what they leave behind

    A program changes memory only through accesses the page tables allow, so
    only pages that are open to writing change, and the processor marks them
    dirty. [ran] collects this over all accesses of an execution; after
    [set_duck_written_by_dirty] memory is again free of unmarked leftovers. *)

From S2P Require Import Prelude Utils Timer Memory MemoryProofs MemoryTables MemoryInit MemoryPaging MemoryFrames MemoryFlags Trap Judger ElfLoader ElfMemory ElfAccept ElfProofs ElfContents.

(** ** Accesses *)

Definition address (a : access) : Z := match a with Uread v | Ufetch v | Uwrite v _ => v end.

(** The accesses before the first fault. *)
Fixpoint executed (l : list access) (m : memory) : list access :=
  match l with
  | [] => []
  | a :: l => match user_access_step a m with None => [] | Some m => a :: executed l m end
  end.

Definition write_page (a : access) : option Z := match a with Uwrite v _ => Some (v / 4096) | _ => None end.

(** The pages an execution wrote, and those it used. *)
Definition written_pages (l : list access) (m : memory) : list Z := omap write_page (executed l m).
Definition used_pages (l : list access) (m : memory) : list Z := (fun a => address a / 4096) <$> executed l m.

Lemma acc_eq p q : acc p = acc q -> pv_user p = pv_user q /\ pv_write p = pv_write q.
Proof. destruct p, q. unfold acc. cbn. naive_solver. Qed.

Section user.
Context (own : gmap Z node) (Q L : Z).
Implicit Types m : memory.
Abbreviation user := (user Q).

Definition zeroed m : Prop := forall v, kernel_break <= v < vaddr_break m -> no_leftover (view m v).

Record ran (W U : list Z) m m' : Prop := {
  ra_clean : clean_frames own Q L m';
  ra_break : vaddr_break m' = vaddr_break m;
  ra_closed : closed own Q m';
  ra_acc v : user v -> acc (view m' v).1 = acc (view m v).1;
  ra_mark v : user v -> pv_mark (view m' v).1 = pv_mark (view m v).1;
  ra_dirty v : user v -> pv_dirty (view m' v).1 = pv_dirty (view m v).1 || bool_decide (v / 4096 ∈ W);
  ra_accessed v : user v -> pv_accessed (view m' v).1 = pv_accessed (view m v).1 || bool_decide (v / 4096 ∈ U);
  ra_byte v : user v -> ubyte m' v = ubyte m v \/
    (pv_user (view m v).1 = true /\ pv_write (view m v).1 = true /\ v / 4096 ∈ W)
}.

Lemma ran_refl m : clean_frames own Q L m -> closed own Q m -> ran [] [] m m.
Proof. intros Hc Hl. split; try done; intros v Hv; rewrite ?orb_false_r; auto. Qed.

Lemma ran_trans W1 U1 W2 U2 m m1 m2 : ran W1 U1 m m1 -> ran W2 U2 m1 m2 -> ran (W1 ++ W2) (U1 ++ U2) m m2.
Proof.
  intros [C1 B1 K1 A1 M1 D1 G1 Y1] [C2 B2 K2 A2 M2 D2 G2 Y2]. split; try done; [congruence|..].
  - intros v Hv. by rewrite A2, A1.
  - intros v Hv. by rewrite M2, M1.
  - intros v Hv. rewrite D2, D1 by done. rewrite <- orb_assoc. f_equal. rewrite <- bool_decide_or.
    apply bool_decide_ext. by rewrite elem_of_app.
  - intros v Hv. rewrite G2, G1 by done. rewrite <- orb_assoc. f_equal. rewrite <- bool_decide_or.
    apply bool_decide_ext. by rewrite elem_of_app.
  - intros v Hv. rewrite !elem_of_app. destruct (acc_eq _ _ (A1 v Hv)) as [Hu Hw].
    destruct (Y2 v Hv) as [->|(Pu & Pw & P2)]; [destruct (Y1 v Hv) as [|(?&?&?)]; [by left|right; auto]|].
    right. rewrite <- Hu, <- Hw. auto.
Qed.

(** The rights of an address of the user part are those of its page. *)
Lemma user_rights m v p es : clean_frames own Q L m -> user v -> translate m v = Some (p, es) ->
  user_access es = pv_user (view m v).1 /\ write_access es = pv_write (view m v).1.
Proof.
  intros [Hp Hu Hpr] Hv. rewrite (translate_spec own Q m Hp v (user_nonneg Q v Hv)), (Hpr v Hv). intros [= _ <-].
  destruct (upper_access own Q m v Hp Hv) as (U & W & _). unfold user_access, write_access in *. cbn [forallb].
  by rewrite U, W, !andb_true_r.
Qed.

(** Marking a page as accessed. *)
Lemma touch_ran m v : clean_frames own Q L m -> closed own Q m -> user v ->
  exists m', update_P1 v (fun P1 => Z.lor P1 PTE_ACCESSED) m = Some m' /\ ran [] [v / 4096] m m'.
Proof.
  intros Hc Hl Hv. change PTE_ACCESSED with 32.
  destruct (update_effect own Q L _ _ m v (good_lor 32 eq_refl ltac:(done)) Hc Hv) as (m' & E & [C B K V] & _).
  exists m'. split; [exact E|]. split; try done; [auto|..]; intros a Ha; pose proof (V a Ha) as Va;
    destruct (view m a) as [[p1 p2 p3 p4 p5 p6] y] eqn:Ev; unfold ubyte in *.
  - rewrite Va. unfold acc. cbn. case_decide; cbn; by rewrite ?orb_false_r.
  - rewrite Va. cbn. case_decide; cbn; by rewrite ?orb_false_r.
  - rewrite Va. cbn. case_decide; cbn; by rewrite ?orb_false_r.
  - rewrite Va. cbn. case_decide as Hd; cbn.
    + rewrite bool_decide_eq_true_2 by set_solver. done.
    + rewrite bool_decide_eq_false_2 by set_solver. by rewrite orb_false_r.
  - left. apply (f_equal snd) in Va, Ev. cbn in Va, Ev. change (ubyte m' a = ubyte m a). congruence.
Qed.

Lemma store_ran m v b : clean_frames own Q L m -> closed own Q m -> user v -> is_byte b ->
  pv_user (view m v).1 = true -> pv_write (view m v).1 = true ->
  exists m', store v b m = Some m' /\ ran [v / 4096] [v / 4096] m m'.
Proof.
  intros Hc Hl Hv Hb Pu Pw. destruct (store_effect own Q L m v b Hc Hv Hb) as (m' & E & [C B K V]).
  exists m'. split; [exact E|]. split; try done; [auto|..]; intros a Ha; pose proof (V a Ha) as Va; unfold e_store, touch in Va.
  - rewrite Va. cbn. by case_decide.
  - rewrite Va. cbn. by case_decide.
  - rewrite Va. cbn. case_decide as Hd; cbn.
    + rewrite bool_decide_eq_true_2 by set_solver. by rewrite orb_true_r.
    + rewrite bool_decide_eq_false_2 by set_solver. by rewrite orb_false_r.
  - rewrite Va. cbn. case_decide as Hd; cbn.
    + rewrite bool_decide_eq_true_2 by set_solver. by rewrite orb_true_r.
    + rewrite bool_decide_eq_false_2 by set_solver. by rewrite orb_false_r.
  - apply (f_equal snd) in Va. cbn in Va. change (ubyte m' a) with (view m' a).2. change (ubyte m a) with (view m a).2.
    cbn. rewrite Va. case_decide as Hd; [right; subst a|by left]. split; [done|]. split; [done|set_solver].
Qed.

Lemma step_ran a m m' : clean_frames own Q L m -> closed own Q m -> user_access_step a m = Some m' ->
  ran (option_list (write_page a)) [address a / 4096] m m'.
Proof.
  intros Hc Hl. unfold user_access_step. fold (address a). destruct (canonical (address a)) eqn:Ec; [|done]. cbn [negb].
  destruct (translate m (address a)) as [[p es]|] eqn:Et; [|done]. rewrite mbind_Some. cbn [snd].
  destruct (decide (kernel_break <= address a < Q * HUGE_PAGE_SIZE)) as [Hu|Hu].
  2: { pose proof (closed_access own Q m _ _ _ (cf_paging _ _ _ _ Hc) Hl Ec Hu Et) as ->. by destruct a. }
  destruct (user_rights m _ _ _ Hc Hu Et) as [Ru Rw]. destruct a as [v|v b|v]; cbn [address write_page option_list] in *.
  - case_if; [|done]. destruct (touch_ran m v Hc Hl Hu) as (m1 & E1 & H1). rewrite E1. by intros [= <-].
  - destruct (user_access es) eqn:E1; [|done]. destruct (write_access es) eqn:E2; [|done]. cbn [andb].
    destruct (store_ran m v (u8 b) Hc Hl Hu) as (m1 & -> & H1); [apply wrap_range; lia|congruence|congruence|]. by intros [= <-].
  - case_if; [|done]. destruct (touch_ran m v Hc Hl Hu) as (m1 & E1 & H1). rewrite E1. by intros [= <-].
Qed.

Lemma accesses_ran l : forall m, clean_frames own Q L m -> closed own Q m ->
  ran (written_pages l m) (used_pages l m) m (user_accesses l m).
Proof.
  unfold written_pages, used_pages. induction l as [|a l IH]; intros m Hc Hl; [by apply ran_refl|].
  cbn [executed user_accesses]. destruct (user_access_step a m) as [m1|] eqn:E; [|by apply ran_refl].
  pose proof (step_ran a m m1 Hc Hl E) as H1. pose proof (IH m1 (ra_clean _ _ _ _ H1) (ra_closed _ _ _ _ H1)) as H2.
  pose proof (ran_trans _ _ _ _ _ _ _ H1 H2) as H. cbn [omap list_omap fmap list_fmap]. destruct (write_page a); exact H.
Qed.

(** ** Counting pages *)

Definition pages (s e : Z) : list Z := seqZ (s / 4096) ((e - s) / 4096).

Lemma pages_app s t e : s mod 4096 = 0 -> t mod 4096 = 0 -> e mod 4096 = 0 -> s <= t <= e -> pages s e = pages s t ++ pages t e.
Proof.
  intros H1 H2 H3 H. unfold pages. replace ((e - s) / 4096) with ((t - s) / 4096 + (e - t) / 4096) by dlia.
  rewrite seqZ_app by dlia. do 2 f_equal. dlia.
Qed.

Lemma length_pages_filter (P : Z -> Prop) `{HD : !forall p, Decision (P p)} s e : s <= e -> 0 <= s -> e < 2 ^ 40 ->
  0 <= Z.of_nat (length (filter P (pages s e))) <= 2 ^ 28.
Proof.
  intros H1 H2 H3. pose proof (length_filter P (pages s e)) as Hl. unfold pages in *. rewrite length_seqZ in Hl.
  change (2 ^ 40) with 1099511627776 in H3. change (2 ^ 28) with 268435456. dlia.
Qed.

Lemma count_pages_spec k s e m : 0 <= k -> clean_frames own Q L m -> s mod 4096 = 0 -> e mod 4096 = 0 ->
  kernel_break <= s <= e -> e <= Q * HUGE_PAGE_SIZE ->
  count_pages (2 ^ k) s e m = Some (Z.of_nat (length (filter (fun p => Z.testbit (entry m (p * 4096)) k = true) (pages s e)))).
Proof.
  intros Hk Hc Hs He Hr HQ. pose proof (pg_Q _ _ _ (cf_paging _ _ _ _ Hc)) as HQ0.
  unfold HUGE_PAGE_SIZE in HQ. change kernel_break with 16777216 in Hr.
  unfold count_pages. rewrite for_pages_range by (done || lia).
  destruct (forM_range_ind (fun n r => r = Z.of_nat (length (filter (fun p => Z.testbit (entry m (p * 4096)) k = true) (seqZ (s / 4096) n))))
    0 ((e - s) / 4096) (fun i ret => P1 ← get_P1 m (u64 (s + i * PAGE_SIZE)); Some (ret + (if Z.land P1 (2 ^ k) =? 0 then 0 else 1))) 0)
    as (r & -> & ->); [dlia|done| |done].
  intros i r Hi ->. unfold PAGE_SIZE. rewrite wrap_small by (unfold is_uint; dlia).
  rewrite (get_P1_spec own Q m (cf_paging _ _ _ _ Hc)) by (unfold HUGE_PAGE_SIZE; dlia). rewrite mbind_Some.
  eexists. split; [done|]. rewrite seqZ_succ, filter_app, length_app, land_pow2 by lia. rewrite filter_cons, filter_nil.
  replace (s + i * 4096) with ((s / 4096 + i) * 4096) by dlia.
  destruct (Z.testbit (entry m ((s / 4096 + i) * 4096)) k); cbn; case_decide; cbn; (done || lia).
Qed.
End user.

(** ** Running a loaded program *)

Section run.
Context (own : gmap Z node) (Q L : Z) `{TS : TrapSymbols} (tsc_freq clk_freq : Z).
Context (conf : AppConfig) (h : Ehdr) (lay : Layout) (x : execution) (m : memory).
Hypothesis Hclean : clean_frames own Q L m.
Hypothesis Hclosed : closed own Q m.
Hypothesis Hconf : conf_ok conf.
Hypothesis Hlay : lay = ref_layout conf.
Hypothesis Hroom : OB_break lay <= Q * HUGE_PAGE_SIZE.
Hypothesis Hlb : 0x8049000 <= load_break lay.

Abbreviation app := (app32 conf h lay tsc_freq).
Abbreviation m1 := (user_accesses (x_accesses x) m).

(** Bytes after the execution. *)
Definition left_at (v : Z) (n : Z) : list Z := (fun i => ubyte m1 (v + i)) <$> seqZ 0 n.

Definition run_result (limit t n rc out err dirty accessed : Z) (s : trap_state) : RunResult :=
  mkRun 1 1 1 t (to_ns clk_freq 1) (to_ns tsc_freq 1)
    (to_ns tsc_freq t) (4 * dirty) (4 * accessed) n rc (__trap_epc s) (__trap_cr2 s)
    (left_at (stdin_break lay) out) out (left_at (stdout_break lay) err) err (left_at (IB_break lay) (OB_size conf)).

Lemma run_spec limit s t n rc s' :
  run_user_32 (e_entry h) (load_break lay - 176) limit (x_rflags x) (x_ktf x) (x_utf x) (x_clock x) (x_cr2 x) (x_old_rc x) s
    = Some (t, n, rc, s') ->
  let size k := le_val (left_at (load_break lay - 60 + 4 * k) 4) in
  let count f s e := Z.of_nat (length (filter (fun p => f (view m1 (p * 4096)).1 = true) (pages s e))) in
  exists m2, run tsc_freq clk_freq app limit x m s =
    Some (run_result limit t n rc (Z.min (stdout_max_size conf) (size 5)) (Z.min (stderr_max_size conf) (size 8))
            (count pv_dirty 0x8048000 (OB_break lay))
            (count pv_accessed 0x8048000 (load_break lay) + count pv_accessed (stdin_break lay) (OB_break lay)) s', m2, s') /\
    effect own Q L (e_mark_dirty 0x8048000 (OB_break lay)) m1 m2.
Proof.
  intros Etrap size count. pose proof (ref_layout_ordered conf lay Hconf Hlay) as
    (O1 & A1 & O2 & A2 & O3 & A3 & O4 & A4 & O5 & A5 & O6 & A6 & ES & EI & EU).
  destruct Hconf as [_ [C1 _] [C2 _] [C3 _] [C4 _] [C5 _]].
  pose proof (pg_Q _ _ _ (cf_paging _ _ _ _ Hclean)) as HQ0.
  assert (OB_break lay < 2 ^ 40) as HO40 by (unfold HUGE_PAGE_SIZE in Hroom; lia).
  assert (kernel_break <= 0x8048000) as Hkb by (unfold kernel_break; lia).
  pose proof (accesses_ran own Q L (x_accesses x) m Hclean Hclosed) as Hran.
  destruct (mark_dirty_effect own Q L 0x8048000 (OB_break lay) m1 (ra_clean _ _ _ _ _ _ _ Hran)) as (m2 & E2 & H2);
    [done|done|lia|lia|]. pose proof (ef_clean _ _ _ _ _ _ H2) as Hc2. exists m2. split; [|done].
  assert (forall v, user Q v -> ubyte m2 v = ubyte m1 v) as Hb2.
  { intros v Hv. pose proof (ef_view _ _ _ _ _ _ H2 v Hv) as Hv2. apply (f_equal snd) in Hv2. exact Hv2. }
  assert (forall v k, kernel_break <= v -> 0 <= k -> v + k <= Q * HUGE_PAGE_SIZE -> read_bytes (Z.to_nat k) v m2 = Some (left_at v k)) as Hread.
  { intros v k Hv Hk Hle. rewrite (read_bytes_view own Q L m2 Hc2) by lia. f_equal. unfold left_at. rewrite Z2Nat.id by done.
    apply list_fmap_ext. intros i j Hj. apply lookup_seqZ in Hj as [-> ?]. apply Hb2. unfold user. lia. }
  assert (forall k s e, k = 6 \/ k = 5 -> s mod 4096 = 0 -> e mod 4096 = 0 -> 0x8048000 <= s <= e -> e <= OB_break lay ->
    count_pages (2 ^ k) s e m2 = Some (count (if k =? 6 then pv_dirty else pv_accessed) s e)) as Hcount.
  { intros k a e Hk Ha He Hr Hle. rewrite (count_pages_spec own Q L) by (done || lia). unfold count. do 3 f_equal. apply filter_ext_elem.
    intros p Hp. unfold pages in Hp. apply elem_of_seqZ in Hp.
    assert (user Q (p * 4096)) as Hu by (unfold user; change kernel_break with 16777216 in *; dlia).
    pose proof (ef_view _ _ _ _ _ _ H2 _ Hu) as Hv2. apply (f_equal fst) in Hv2. unfold e_mark_dirty in Hv2. cbn [fst] in Hv2.
    assert (pv_dirty (view m2 (p * 4096)).1 = pv_dirty (view m1 (p * 4096)).1 /\
      pv_accessed (view m2 (p * 4096)).1 = pv_accessed (view m1 (p * 4096)).1) as [Hd Hac].
    { rewrite Hv2. by case_decide. }
    destruct Hk as [-> | ->]; cbn [Z.eqb Pos.eqb]; [rewrite <- Hd|rewrite <- Hac]; done. }
  unfold run. change (duckinfo_ptr app) with 0. change (app_entry app) with (e_entry h). change (app_rsp app) with (load_break lay - 176).
  change (negb (0 =? 0)) with false. cbv iota. rewrite Etrap, mbind_Some. cbv zeta.
  change (start_addr app) with 0x8048000. change (special_region_break_addr app) with (OB_break lay).
  change (stdin_start_addr app) with (load_break lay). change (stdin_break_addr app) with (stdin_break lay).
  rewrite E2, mbind_Some. unfold count_dirty_pages, count_accessed_pages.
  change PTE_DIRTY with (2 ^ 6). change PTE_ACCESSED with (2 ^ 5).
  rewrite (Hcount 6 0x8048000 (OB_break lay)), mbind_Some by (auto || lia).
  rewrite (Hcount 5 0x8048000 (OB_break lay)), mbind_Some by (auto || lia).
  rewrite (Hcount 5 (load_break lay) (stdin_break lay)), mbind_Some by (auto || lia).
  change (6 =? 6) with true. change (5 =? 6) with false. cbv iota.
  unfold read_size. change (duckinfo_ptr app) with 0. change (duckinfo32_ptr app) with (load_break lay - 60).
  change (negb (0 =? 0)) with false. cbv iota.
  rewrite (Hread _ 4), (Hread _ 4) by lia. cbn [fmap option_fmap option_map]. rewrite !mbind_Some.
  fold (size 5) (size 8). cbn [app32 duckinfo_orig duckinfo stdout_limit stderr_limit stdout_ptr stderr_ptr OB_ptr OB_limit].
  assert (forall k, 0 <= size k) as Hsize.
  { intros k. unfold size. eapply le_val_range. unfold left_at. apply Forall_fmap, Forall_forall. intros i _.
    unfold is_byte, is_uint, compose, ubyte, byte_at. change (2 ^ 8) with 256. apply Z.mod_pos_bound. lia. }
  pose proof (Hsize 5). pose proof (Hsize 8).
  rewrite (Hread (stdin_break lay)), mbind_Some by lia. rewrite (Hread (stdout_break lay)), mbind_Some by lia.
  rewrite (Hread (IB_break lay)), mbind_Some by lia. f_equal. f_equal. f_equal. unfold run_result.
  assert (count pv_accessed 0x8048000 (OB_break lay) = count pv_accessed 0x8048000 (load_break lay) +
    count pv_accessed (load_break lay) (stdin_break lay) + count pv_accessed (stdin_break lay) (OB_break lay)) as Ec.
  { unfold count. rewrite (pages_app 0x8048000 (load_break lay) (OB_break lay)), (pages_app (load_break lay) (stdin_break lay) (OB_break lay))
      by (done || lia). rewrite !filter_app, !length_app. lia. }
  rewrite Ec. assert (forall f a e, 0 <= a <= e -> e <= OB_break lay -> 0 <= count f a e <= 2 ^ 28) as Hcr.
  { intros f a e Ha He. unfold count. apply length_pages_filter; lia. }
  pose proof (Hcr pv_dirty 0x8048000 (OB_break lay) ltac:(lia) ltac:(lia)).
  pose proof (Hcr pv_accessed 0x8048000 (load_break lay) ltac:(lia) ltac:(lia)).
  pose proof (Hcr pv_accessed (stdin_break lay) (OB_break lay) ltac:(lia) ltac:(lia)).
  change PAGE_SIZE with 4096. f_equal.
  - rewrite wrap_small by (unfold is_uint; lia). dlia.
  - match goal with |- u64 (4096 * u64 ?z) / 1024 = 4 * ?w => replace z with w by lia end.
    rewrite (wrap_small 64 (_ + _)) by (unfold is_uint; lia). rewrite wrap_small by (unfold is_uint; lia). dlia.
Qed.
End run.
