(* ===== verification/ElfClaims.v ===== *)
(** * What the program loader guarantees *)

From S2P Require Import Prelude Utils Timer Memory MemoryProofs MemoryTables MemoryInit MemoryPaging MemoryFrames MemoryFlags MemoryClaims Trap Judger ElfLoader ElfMemory ElfAccept ElfProofs ElfContents ElfRun.

(** ** The two formats *)

Lemma place64_none conf s m : place class64 conf s m = None.
Proof.
  unfold place. destruct (Z.ltb_spec (round_down s.1 PAGE_SIZE) kernel_break) as [|H]; [done|].
  destruct (_ || _); [done|]. do 2 (destruct (_ <? _); [done|]).
  destruct (Z.eqb_spec (round_down s.1 PAGE_SIZE) (load_vaddr_start class64)) as [E|]; [|done].
  rewrite E in H. done.
Qed.

Lemma load_elf64_rejects tsc buf len conf m : load_elf64 tsc buf len conf m = Some (None, m).
Proof.
  unfold load_elf64, prepare64. destruct (check_header class64 buf len) as [h|]; [|done]. rewrite mbind_Some.
  destruct (scan class64 buf len h) as [s|]; [|done]. by rewrite mbind_Some, place64_none.
Qed.

(** An accepted image names the 32-bit class. *)
Lemma accepted_class buf len conf vb h lay : accepted32 buf len conf vb h lay -> 52 <= len /\ nth 4 buf 0 = ELFCLASS32.
Proof.
  intros [Eh _ _ _ _ _ _]. destruct (check_header32 buf len h Eh) as (-> & Hl & _). split; [done|].
  unfold check_header in Eh. destruct (len <? _); [done|]. cbv zeta in Eh.
  destruct (_ && _) eqn:E in Eh; [|done]. rewrite !andb_true_iff in E. destruct_and!.
  match goal with H : (ident _ 4 =? cls_ident class32) = true |- _ => apply Z.eqb_eq in H; revert H end.
  unfold ident. cbn [e_ident get_ehdr class32 get_ehdr32 cls_ident]. rewrite !nth_lookup, lookup_take_lt by lia. done.
Qed.

(** ** The vectors as a 32-bit program reads them *)

Fixpoint words32 (l : list Z) : list Z :=
  match l with
  | a :: b :: c :: d :: l => le_val [a; b; c; d] :: words32 l
  | _ => []
  end.

(** The auxiliary vector is a list of pairs of words that ends at type 0. *)
Fixpoint auxval (key : Z) (l : list Z) : option Z :=
  match l with
  | t :: v :: l => if t =? 0 then None else if t =? key then Some v else auxval key l
  | _ => None
  end.

Lemma words32_pushl v l : words32 (pushl v ++ l) = u32 v :: words32 l.
Proof.
  change (words32 (pushl v ++ l)) with (le_val (pushl v) :: words32 l). f_equal. unfold pushl.
  rewrite le_val_le_bytes. apply (wrap_idemp 32). lia.
Qed.

Lemma le_bytes_8 v : le_bytes 8 v = le_bytes 4 v ++ le_bytes 4 (v / 2 ^ 32).
Proof. cbn [le_bytes app]. change (2 ^ 32) with (256 * 256 * 256 * 256). rewrite <- !Z.div_div by lia. done. Qed.

Lemma words32_pushq v l : is_uint 33 v -> words32 (pushq v ++ l) = u32 v :: v / 2 ^ 32 :: words32 l.
Proof.
  unfold is_uint. intros Hv. unfold pushq. rewrite (wrap_small 64) by (unfold is_uint; lia). rewrite le_bytes_8, <- app_assoc.
  change (words32 (le_bytes 4 v ++ le_bytes 4 (v / 2 ^ 32) ++ l)) with
    (le_val (le_bytes 4 v) :: le_val (le_bytes 4 (v / 2 ^ 32)) :: words32 l).
  rewrite !le_val_le_bytes. change (8 * Z.of_nat 4) with 32. f_equal. f_equal. apply Z.mod_small.
  change (2 ^ 33) with 8589934592 in Hv. change (2 ^ 32) with 4294967296. dlia.
Qed.

(** The pairs behind the three zero words of arguments and environment. *)
Lemma vectors32_words h lay :
  is_uint 16 (e_phnum h) -> is_uint 16 (e_phentsize h) -> is_uint 32 (e_entry h) -> is_uint 32 (e_phoff h) ->
  is_uint 32 (OB_break lay) -> is_uint 32 (load_break lay - 60) ->
  words32 (vectors32 h lay) = [0; 0; 0; AT_PHNUM; 0; e_phnum h; 0; AT_PHENT; 0; e_phentsize h; 0; AT_ENTRY; 0; e_entry h; 0;
    AT_PHDR; 0; u32 (OB_break lay + e_phoff h); (OB_break lay + e_phoff h) / 2 ^ 32; AT_BASE; 0; OB_break lay; 0;
    AT_DUCK; load_break lay - 60; AT_PAGESZ; PAGE_SIZE; 0].
Proof.
  intros H1 H2 H3 H4 H5 H6. unfold is_uint in *. unfold vectors32, stack32. cbn [fmap list_fmap app].
  change (reverse ?l) with (rev_append l []). cbn [rev_append concat].
  rewrite !words32_pushl, !words32_pushq, !words32_pushl by (unfold is_uint; (lia || done)).
  rewrite (wrap_small 32 (e_phnum h)), (wrap_small 32 (e_phentsize h)), (wrap_small 32 (e_entry h)), (wrap_small 32 (OB_break lay)),
    (wrap_small 32 (load_break lay - 60)) by (unfold is_uint; lia).
  assert (forall z, 0 <= z < 2 ^ 32 -> z / 2 ^ 32 = 0) as Hd by (intros; by apply Z.div_small).
  rewrite !(Hd (e_phnum h)), !(Hd (e_phentsize h)), !(Hd (e_entry h)), !(Hd (OB_break lay)) by lia. done.
Qed.

Section claims.
Context (own : gmap Z node) (Q L : Z).
Implicit Types m : memory.

(** What the types of the arguments and the buffers guarantee, and the state of
    memory the loader works on. *)
Record inputs_ok (buf : list Z) (len : Z) (conf : AppConfig) : Prop := {
  io_buf : Forall is_byte buf;
  io_len : is_uint 32 len /\ len <= Z.of_nat (length buf);
  io_conf : conf_ok conf;
  io_stdin : Forall is_byte (c_stdin conf);
  io_IB : Forall is_byte (c_IB conf);
  io_OB : Forall is_byte (c_OB conf)
}.

Record ready vb m : Prop := {
  rd_clean : clean_frames own Q L m;
  rd_closed : closed own Q m;
  rd_zeroed : zeroed m;
  rd_break : vaddr_break m = vb;
  rd_aligned : vb mod 4096 = 0;
  rd_top : kernel_break <= vb <= Q * HUGE_PAGE_SIZE
}.

Lemma inputs_load_ok buf len conf lay vb m : inputs_ok buf len conf -> ready vb m -> image_break lay <= Q * HUGE_PAGE_SIZE ->
  load_ok own Q L buf len conf lay vb m.
Proof. intros [? ? ? ? ? ?] [? ? ? ? ? ?] H. by split. Qed.

(** The loader at work: an accepted image is loaded, any other refused. *)
Lemma elf_load_spec tsc buf len conf vb m : inputs_ok buf len conf -> ready vb m ->
  image_break (ref_layout conf) <= Q * HUGE_PAGE_SIZE ->
  (exists h lay m', accepted32 buf len conf vb h lay /\ load tsc buf len conf m = Some (Some (app32 conf h lay tsc), m') /\
     effect own Q L (e_load buf len conf h lay tsc vb) m m') \/
  ((forall h lay, ~ accepted32 buf len conf vb h lay) /\ load tsc buf len conf m = Some (None, m)).
Proof.
  intros Hio Hrd Hroom. pose proof Hio as [Hb [Hl _] Hc _ _ _]. pose proof Hrd as [Hcl _ _ Hvb _ Htop].
  pose proof (pg_Q _ _ _ (cf_paging _ _ _ _ Hcl)) as HQ.
  assert (0 <= vaddr_break m < 2 ^ 40) as Hv by (rewrite Hvb; change kernel_break with 16777216 in Htop; unfold HUGE_PAGE_SIZE in Htop; lia).
  unfold load. change (ehdr_size class32) with 52.
  destruct (prepare32 buf len conf m) as [[h lay]|] eqn:E.
  - left. apply prepare32_spec in E; [|done..]. rewrite Hvb in E.
    destruct (accepted_class _ _ _ _ _ _ E) as [H52 H4]. rewrite (proj2 (Z.ltb_ge _ _)) by lia. rewrite H4.
    destruct (load32_effect own Q L buf len conf h lay tsc vb m) as (m' & E' & H').
    + apply inputs_load_ok; [done..|]. by rewrite (ac_layout _ _ _ _ _ _ E).
    + done.
    + by exists h, lay, m'.
  - right. split.
    + intros h lay Ha. rewrite <- Hvb in Ha. apply prepare32_spec in Ha; [|done..]. by rewrite E in Ha.
    + destruct (len <? 52); [done|]. destruct (nth 4 buf 0 =? ELFCLASS64); [apply load_elf64_rejects|].
      destruct (nth 4 buf 0 =? ELFCLASS32); [|done]. unfold load_elf32. by rewrite E.
Qed.

(** The layout of an accepted image is determined. *)
Lemma accepted_load tsc buf len conf vb h lay m : inputs_ok buf len conf -> ready vb m -> accepted32 buf len conf vb h lay ->
  image_break lay <= Q * HUGE_PAGE_SIZE ->
  exists m', load tsc buf len conf m = Some (Some (app32 conf h lay tsc), m') /\ effect own Q L (e_load buf len conf h lay tsc vb) m m'.
Proof.
  intros Hio Hrd Ha Hroom. pose proof (ac_layout _ _ _ _ _ _ Ha) as Elay.
  destruct (elf_load_spec tsc buf len conf vb m Hio Hrd ltac:(by rewrite <- Elay)) as [(h' & lay' & m' & Ha' & El & H)|[Hn _]];
    [|by destruct (Hn h lay)].
  assert (h' = h /\ lay' = lay) as [-> ->].
  { rewrite (ac_layout _ _ _ _ _ _ Ha'), Elay. pose proof (ac_header _ _ _ _ _ _ Ha) as E1.
    rewrite (ac_header _ _ _ _ _ _ Ha') in E1. by injection E1 as ->. }
  by exists m'.
Qed.

Lemma loaded_ready tsc buf len conf vb h lay m m' : inputs_ok buf len conf -> ready vb m ->
  accepted32 buf len conf vb h lay -> image_break lay <= Q * HUGE_PAGE_SIZE ->
  effect own Q L (e_load buf len conf h lay tsc vb) m m' -> ready vb m'.
Proof.
  intros Hio Hrd Ha Hroom [C B K V]. pose proof Hrd as [Hc Hcl Hz Hb Hal Htop]. split; try done; [auto| |congruence].
  intros v Hv. rewrite B, Hb in Hv. rewrite V by (unfold user; lia).
  eapply (load_leftover own Q L); [by eapply inputs_load_ok|done|done|]. apply Hz. by rewrite Hb.
Qed.

(** After a run, memory is ready again. *)
Lemma ran_ready x conf h lay vb m1 m2 buf len m tsc : inputs_ok buf len conf -> ready vb m ->
  accepted32 buf len conf vb h lay -> image_break lay <= vb ->
  effect own Q L (e_load buf len conf h lay tsc vb) m m1 ->
  effect own Q L (e_mark_dirty 0x8048000 (OB_break lay)) (user_accesses (x_accesses x) m1) m2 -> ready vb m2.
Proof.
  intros Hio Hrd Ha Hroom H1 [C B K V]. pose proof Hrd as [_ _ _ _ Hal Htop].
  pose proof (loaded_ready tsc buf len conf vb h lay m m1 Hio Hrd Ha ltac:(lia) H1) as [Hc1 Hcl1 Hz1 Hb1 _ _].
  pose proof (accesses_ran own Q L (x_accesses x) m1 Hc1 Hcl1) as R. split; try done.
  - apply K, (ra_closed _ _ _ _ _ _ _ R).
  - intros v Hv. rewrite B, (ra_break _ _ _ _ _ _ _ R), Hb1 in Hv. assert (user Q v) as Hu by (unfold user; lia).
    unfold no_leftover. rewrite (V v Hu). unfold e_mark_dirty. cbn [fst snd].
    assert (no_leftover (view m1 v)) as Hn by (apply Hz1; by rewrite Hb1). unfold no_leftover in Hn.
    pose proof (ra_mark _ _ _ _ _ _ _ R v Hu) as Em. pose proof (ra_dirty _ _ _ _ _ _ _ R v Hu) as Ed.
    destruct (decide (in_range 0x8048000 (OB_break lay) v)) as [Hin|Hin]; cbn [pv_mark].
    + intros Hm. apply orb_false_iff in Hm as [Hm Hd]. rewrite Ed in Hd. apply orb_false_iff in Hd as [_ Hd].
      apply bool_decide_eq_false in Hd. destruct (ra_byte _ _ _ _ _ _ _ R v Hu) as [E|(_ & _ & Hw)]; [|done].
      etrans; [exact E|]. apply Hn. congruence.
    + intros Hm. destruct (ra_byte _ _ _ _ _ _ _ R v Hu) as [E|(Pu & Pw & _)]; [etrans; [exact E|]; apply Hn; congruence|].
      exfalso. pose proof (load_access own Q L buf len conf h lay tsc vb m) as Hacc.
      specialize (Hacc (inputs_load_ok _ _ _ lay _ _ Hio Hrd ltac:(lia)) Ha v (view m v) Hv).
      rewrite <- (ef_view _ _ _ _ _ _ H1 v Hu) in Hacc.
      destruct (contents_facts own Q L buf len conf h lay vb m (inputs_load_ok _ _ _ lay _ _ Hio Hrd ltac:(lia)) Ha)
        as (F1 & F2 & F3 & F4 & F5 & _).
      unfold expected_access, acc in Hacc. unfold in_range in Hin. rewrite Pu, Pw in Hacc.
      repeat (case_decide; [try lia; try done|]). all: done || lia.
  - rewrite B, (ra_break _ _ _ _ _ _ _ R). done.
Qed.

(** ** Acceptance and contents *)


(** C34: The address space of a loaded program. Each segment holds its file
    bytes, followed by zeros, with the access of its flags; the stack ends with
    the vectors and the information structure; the inputs are read-only at
    their places, the outputs writable and zero; the page behind them holds the
    head of the image, and keeps its old contents after it; nothing else below
    the end of the user part is open to the program. No page counts as used
    yet, and everything above that end is as before. *)
Theorem elf32_load_exact tsc buf len conf vb h lay m :
  inputs_ok buf len conf -> ready vb m -> accepted32 buf len conf vb h lay -> image_break lay <= vb ->
  exists m', load tsc buf len conf m = Some (Some (app32 conf h lay tsc), m') /\ ready vb m' /\
    (forall v, kernel_break <= v < vb ->
       acc (view m' v).1 = expected_access (phdrs buf h) lay v /\
       ubyte m' v = expected_byte buf len conf (phdrs buf h) lay (stack_bytes32 h lay (duckinfo conf lay tsc)) (ubyte m v) v /\
       (0x8048000 <= v < OB_break lay -> pv_accessed (view m' v).1 = false /\ pv_dirty (view m' v).1 = false)) /\
    (forall v, vb <= v < Q * HUGE_PAGE_SIZE -> view m' v = view m v).
Proof.
  intros Hio Hrd Ha Hroom. pose proof (rd_top _ _ Hrd) as Htop. pose proof (ac_layout _ _ _ _ _ _ Ha) as El.
  destruct (accepted_load tsc buf len conf vb h lay m Hio Hrd Ha ltac:(lia)) as (m' & E & H).
  pose proof (inputs_load_ok buf len conf lay vb m Hio Hrd ltac:(lia)) as Hok.
  exists m'. split; [exact E|]. split; [eapply loaded_ready; [done|done|done| |done]; lia|]. split.
  - intros v Hv. assert (user Q v) as Hu by (unfold user; lia). pose proof (ef_view _ _ _ _ _ _ H v Hu) as Hview.
    split; [|split].
    + rewrite Hview. by eapply (load_access own Q L).
    + change (ubyte m' v) with (view m' v).2. rewrite Hview. eapply (load_byte_at own Q L); [done|done|done|].
      apply (rd_zeroed _ _ Hrd). by rewrite (rd_break _ _ Hrd).
    + intros Hin. rewrite Hview. unfold e_load, e_untouch. cbv zeta. cbn [fst]. by rewrite decide_True.
  - intros v Hv. assert (user Q v) as Hu by (unfold user; lia). rewrite (ef_view _ _ _ _ _ _ H v Hu).
    apply (load_above own Q L buf len conf h lay tsc vb m Hok Ha); [done|lia].
Qed.

(** ** Histories *)

Record job := mkJob { j_buf : list Z; j_len : Z; j_conf : AppConfig; j_limit : Z; j_exec : execution; j_trap : trap_state }.

Definition job_ok vb (j : job) : Prop :=
  inputs_ok (j_buf j) (j_len j) (j_conf j) /\ image_break (ref_layout (j_conf j)) <= vb.

Section serve.
Context `{TS : TrapSymbols} (tsc clk : Z).

(** Load and run one program after another; [None] when a program never gives
    control back. *)
Definition serve_job (j : job) (m : memory) : option memory :=
  '(app, m) ← load tsc (j_buf j) (j_len j) (j_conf j) m;
  match app with
  | None => Some m
  | Some app => '(_, m, _) ← run tsc clk app (j_limit j) (j_exec j) m (j_trap j); Some m
  end.

Fixpoint serve (js : list job) (m : memory) : option memory :=
  match js with
  | [] => Some m
  | j :: js => m ← serve_job j m; serve js m
  end.

(** A loaded program runs to its trap. *)
Lemma loaded_run vb buf len conf h lay m m1 x limit s t n rc s' :
  inputs_ok buf len conf -> ready vb m -> accepted32 buf len conf vb h lay -> image_break lay <= vb ->
  effect own Q L (e_load buf len conf h lay tsc vb) m m1 ->
  run_user_32 (e_entry h) (load_break lay - 176) limit (x_rflags x) (x_ktf x) (x_utf x) (x_clock x) (x_cr2 x) (x_old_rc x) s
    = Some (t, n, rc, s') ->
  let size k := le_val (left_at x m1 (load_break lay - 60 + 4 * k) 4) in
  let count f s e := Z.of_nat (length (filter (fun p => f (view (user_accesses (x_accesses x) m1) (p * 4096)).1 = true) (pages s e))) in
  exists m2, run tsc clk (app32 conf h lay tsc) limit x m1 s =
    Some (run_result tsc clk conf lay x m1 limit t n rc (Z.min (stdout_max_size conf) (size 5)) (Z.min (stderr_max_size conf) (size 8))
            (count pv_dirty 0x8048000 (OB_break lay))
            (count pv_accessed 0x8048000 (load_break lay) + count pv_accessed (stdin_break lay) (OB_break lay)) s', m2, s') /\
    ready vb m2.
Proof.
  intros Hio Hrd Ha Hroom H1 Et size count. pose proof (rd_top _ _ Hrd) as Htop.
  pose proof (loaded_ready tsc buf len conf vb h lay m m1 Hio Hrd Ha ltac:(lia) H1) as Hrd1.
  destruct (contents_facts own Q L buf len conf h lay vb m (inputs_load_ok _ _ _ lay _ _ Hio Hrd ltac:(lia)) Ha)
        as (F1 & F2 & F3 & F4 & F5 & _).
  destruct (run_spec own Q L tsc clk conf h lay x m1 (rd_clean _ _ Hrd1) (rd_closed _ _ Hrd1) (io_conf _ _ _ Hio)
    (ac_layout _ _ _ _ _ _ Ha) ltac:(lia) ltac:(lia) limit s t n rc s' Et) as (m2 & E & H2).
  exists m2. split; [exact E|]. by apply (ran_ready x conf h lay vb m1 m2 buf len m tsc).
Qed.

Lemma serve_job_ready vb j m m' : job_ok vb j -> ready vb m -> serve_job j m = Some m' -> ready vb m'.
Proof.
  intros [Hio Hroom] Hrd E. pose proof (rd_top _ _ Hrd) as Htop. unfold serve_job in E.
  destruct (elf_load_spec tsc (j_buf j) (j_len j) (j_conf j) vb m Hio Hrd ltac:(lia)) as [(h & lay & m1 & Ha & El & H1)|[_ El]].
  - rewrite El, mbind_Some in E. pose proof (ac_layout _ _ _ _ _ _ Ha) as Elay. rewrite <- Elay in Hroom.
    destruct (run_user_32 (e_entry h) (load_break lay - 176) (j_limit j) (x_rflags (j_exec j)) (x_ktf (j_exec j)) (x_utf (j_exec j))
      (x_clock (j_exec j)) (x_cr2 (j_exec j)) (x_old_rc (j_exec j)) (j_trap j)) as [[[[t n] rc] s']|] eqn:Et.
    + destruct (loaded_run vb _ _ _ h lay m m1 (j_exec j) (j_limit j) (j_trap j) t n rc s' Hio Hrd Ha Hroom H1 Et) as (m2 & Er & Hr).
      cbv zeta in Er. rewrite Er, mbind_Some in E. injection E as <-. done.
    + unfold run in E. change (duckinfo_ptr (app32 (j_conf j) h lay tsc)) with 0 in E.
      change (app_entry (app32 (j_conf j) h lay tsc)) with (e_entry h) in E.
      change (app_rsp (app32 (j_conf j) h lay tsc)) with (load_break lay - 176) in E.
      change (negb (0 =? 0)) with false in E. cbv iota in E. rewrite Et in E. done.
  - rewrite El, mbind_Some in E. by injection E as <-.
Qed.

Lemma serve_ready vb js : forall m m', Forall (job_ok vb) js -> ready vb m -> serve js m = Some m' -> ready vb m'.
Proof.
  induction js as [|j js IH]; intros m m' Hj Hrd E; [by injection E as <-|]. apply Forall_cons in Hj as [Hj Hjs].
  cbn [serve] in E. destruct (serve_job j m) as [m1|] eqn:E1; [|done]. rewrite mbind_Some in E.
  eapply IH; [done| |done]. by eapply serve_job_ready.
Qed.


(** The counts of used pages, in terms of the accesses. *)
Lemma used_count m m1 buf len conf h lay vb l (f : page -> bool) (W : list Z) a e :
  inputs_ok buf len conf -> ready vb m -> accepted32 buf len conf vb h lay -> image_break lay <= vb ->
  effect own Q L (e_load buf len conf h lay tsc vb) m m1 -> 0x8048000 <= a -> e <= OB_break lay -> a mod 4096 = 0 -> e mod 4096 = 0 ->
  (forall v, user Q v -> f (view (user_accesses l m1) v).1 = f (view m1 v).1 || bool_decide (v / 4096 ∈ W)) ->
  (forall v, in_range 0x8048000 (OB_break lay) v -> user Q v -> f (view m1 v).1 = false) ->
  filter (fun p => f (view (user_accesses l m1) (p * 4096)).1 = true) (pages a e) = filter (fun p => p ∈ W) (pages a e).
Proof.
  intros Hio Hrd Ha Hroom H1 Hs He Hma Hme Hf Hz. apply filter_ext_elem. intros p Hp. unfold pages in Hp. apply elem_of_seqZ in Hp.
  pose proof (rd_top _ _ Hrd) as Htop. assert (OB_break lay <= vb) as Hob by apply (ac_bound _ _ _ _ _ _ Ha).
  assert (in_range 0x8048000 (OB_break lay) (p * 4096)) as Hin by (unfold in_range; dlia).
  assert (user Q (p * 4096)) as Hu by (unfold user; unfold in_range in Hin; change kernel_break with 16777216 in *; lia).
  rewrite Hf, Hz by done. cbn [orb]. rewrite bool_decide_eq_true, Z.div_mul by lia. done.
Qed.

(** C36: Running a loaded program. Its trap number, return code and ticks are
    those of the trap, its nanoseconds those of a single tick, since the counters
    they are computed from are switched off; the memory reported is 4 KiB for each page of its regions
    that it wrote, no page the loader touched among them; the pages reported as
    used are those it used, without stdin; and its outputs are the bytes it left
    in the output regions, never more than their limits, whatever sizes it
    claims. Afterwards memory is ready for the next program. *)
Theorem elf_run_exact vb buf len conf h lay m m1 x limit s t n rc s' :
  inputs_ok buf len conf -> ready vb m -> accepted32 buf len conf vb h lay -> image_break lay <= vb ->
  load tsc buf len conf m = Some (Some (app32 conf h lay tsc), m1) ->
  run_user_32 (e_entry h) (load_break lay - 176) limit (x_rflags x) (x_ktf x) (x_utf x) (x_clock x) (x_cr2 x) (x_old_rc x) s
    = Some (t, n, rc, s') ->
  exists res m2, run tsc clk (app32 conf h lay tsc) limit x m1 s = Some (res, m2, s') /\ ready vb m2 /\
    r_trap_num res = n /\ r_return_code res = rc /\ r_time_tsc res = t /\ r_time_ns res = to_ns clk 1 /\
    r_memory_kb res = 4 * Z.of_nat (length (filter (fun p => p ∈ written_pages (x_accesses x) m1) (pages 0x8048000 (OB_break lay)))) /\
    r_memory_kb_accessed res = 4 * Z.of_nat (length (filter (fun p => p ∈ used_pages (x_accesses x) m1)
      (pages 0x8048000 (load_break lay) ++ pages (stdin_break lay) (OB_break lay)))) /\
    0 <= r_stdout_size res <= stdout_max_size conf /\ r_stdout res = left_at x m1 (stdin_break lay) (r_stdout_size res) /\
    0 <= r_stderr_size res <= stderr_max_size conf /\ r_stderr res = left_at x m1 (stdout_break lay) (r_stderr_size res) /\
    r_OB res = left_at x m1 (IB_break lay) (OB_size conf).
Proof.
  intros Hio Hrd Ha Hroom El Et. pose proof (rd_top _ _ Hrd) as Htop. pose proof (ac_layout _ _ _ _ _ _ Ha) as Elay.
  destruct (accepted_load tsc buf len conf vb h lay m Hio Hrd Ha ltac:(lia)) as (m1' & El' & H1).
  rewrite El in El'. injection El' as <-.
  destruct (loaded_run vb buf len conf h lay m m1 x limit s t n rc s' Hio Hrd Ha Hroom H1 Et) as (m2 & Er & Hr2).
  pose proof (loaded_ready tsc buf len conf vb h lay m m1 Hio Hrd Ha ltac:(lia) H1) as Hrd1.
  pose proof (accesses_ran own Q L (x_accesses x) m1 (rd_clean _ _ Hrd1) (rd_closed _ _ Hrd1)) as R.
  pose proof (ref_layout_ordered conf lay (io_conf _ _ _ Hio) Elay) as
    (O1 & A1 & O2 & A2 & O3 & A3 & O4 & A4 & O5 & A5 & O6 & A6 & ES & EI & EU).
  pose proof (io_conf _ _ _ Hio) as [_ [C1 _] [C2 _] [C3 _] [C4 _] [C5 _]].
  assert (forall v, in_range 0x8048000 (OB_break lay) v -> user Q v -> pv_dirty (view m1 v).1 = false /\ pv_accessed (view m1 v).1 = false) as Hz.
  { intros v Hin Hu. rewrite (ef_view _ _ _ _ _ _ H1 v Hu). unfold e_load, e_untouch. cbv zeta. cbn [fst]. by rewrite decide_True. }
  eexists _, m2. split; [exact Er|]. split; [done|]. unfold run_result. cbn [r_trap_num r_return_code r_time_tsc r_time_ns r_memory_kb
    r_memory_kb_accessed r_stdout_size r_stdout r_stderr_size r_stderr r_OB].
  rewrite (used_count m m1 buf len conf h lay vb (x_accesses x) pv_dirty (written_pages (x_accesses x) m1) 0x8048000 (OB_break lay))
    by (done || lia || apply R || intros; by apply Hz).
  rewrite (used_count m m1 buf len conf h lay vb (x_accesses x) pv_accessed (used_pages (x_accesses x) m1) 0x8048000 (load_break lay))
    by (done || lia || apply R || intros; by apply Hz).
  rewrite (used_count m m1 buf len conf h lay vb (x_accesses x) pv_accessed (used_pages (x_accesses x) m1) (stdin_break lay) (OB_break lay))
    by (done || lia || apply R || intros; by apply Hz).
  assert (forall k, 0 <= le_val (left_at x m1 (load_break lay - 60 + 4 * k) 4)) as Hsize.
  { intros k. eapply le_val_range. unfold left_at. apply Forall_fmap, Forall_forall. intros i _.
    unfold is_byte, is_uint, compose, ubyte, byte_at. change (2 ^ 8) with 256. apply Z.mod_pos_bound. lia. }
  pose proof (Hsize 5). pose proof (Hsize 8). rewrite filter_app, length_app.
  split_and!; try done; lia.
Qed.
End serve.

(** ** The page of the image *)

(** The page of the image is not checked against the end of the user part:
    when the regions fill it exactly, the loader writes the head of the image
    over the first page of the kernel's own memory above it and opens that page
    to the program. *)
Theorem elf32_image_overrun tsc buf len conf vb h lay m :
  inputs_ok buf len conf -> ready vb m -> accepted32 buf len conf vb h lay -> OB_break lay = vb ->
  image_break lay <= Q * HUGE_PAGE_SIZE ->
  exists m', load tsc buf len conf m = Some (Some (app32 conf h lay tsc), m') /\
    forall v, vb <= v < vb + 4096 -> acc (view m' v).1 = (true, false, true) /\
      (v - vb < Z.min len 4096 -> ubyte m' v = nth (Z.to_nat (v - vb)) buf 0).
Proof.
  intros Hio Hrd Ha Hvb Hroom. pose proof (ac_layout _ _ _ _ _ _ Ha) as Elay. pose proof (rd_top _ _ Hrd) as Htop.
  destruct (accepted_load tsc buf len conf vb h lay m Hio Hrd Ha ltac:(lia)) as (m' & El & H).
  exists m'. split; [exact El|]. intros v Hv. pose proof (inputs_load_ok buf len conf lay vb m Hio Hrd Hroom) as Hok.
  destruct (contents_facts own Q L buf len conf h lay vb m Hok Ha) as (F1 & F2 & F3 & F4 & F5 & F6 & F7 & F8 & F9).
  assert (user Q v) as Hu by (unfold user; lia). pose proof (ef_view _ _ _ _ _ _ H v Hu) as V.
  destruct (segments_in_bounds own Q L buf len conf h lay vb m Hok Ha) as (S1 & S2 & S3).
  pose proof (segments_range buf len conf h lay vb Ha v ltac:(lia)) as Haw.
  change (ubyte m' v) with (view m' v).2. rewrite V. unfold e_load. cbv zeta.
  rewrite (proj1 (segments_away buf v (phdrs buf h) Haw S3)). unfold e_readonly. autorewrite with views.
  rewrite length_stack, decide_True by (unfold in_range; lia). split; [done|]. intros Hlt.
  destruct (io_len _ _ _ Hio) as [[Hl0 _] Hl].
  rewrite decide_False by (unfold in_range; lia). rewrite decide_True by (unfold in_range; rewrite length_take; lia).
  rewrite nth_lookup, lookup_take_lt by lia. rewrite <- nth_lookup. by rewrite Hvb.
Qed.

(** ** The start of a program *)

Lemma read_expected m v (l : list Z) : clean_frames own Q L m -> kernel_break <= v -> v + Z.of_nat (length l) <= Q * HUGE_PAGE_SIZE ->
  (forall i, 0 <= i < Z.of_nat (length l) -> ubyte m (v + i) = nth (Z.to_nat i) l 0) -> read_bytes (length l) v m = Some l.
Proof.
  intros Hc Hv HQ H. rewrite (read_bytes_view own Q L m Hc) by done. f_equal. apply list_eq. intros i. rewrite list_lookup_fmap.
  destruct (decide (i < length l)%nat) as [Hi|Hi].
  - rewrite lookup_seqZ_lt by lia. cbn [fmap option_fmap option_map]. rewrite Z.add_0_l, H, Nat2Z.id by lia.
    destruct (nth_lookup_or_length l i 0) as [->|]; [done|lia].
  - rewrite lookup_seqZ_ge by lia. symmetry. apply lookup_ge_None_2. lia.
Qed.

(** C37: The stack a program starts on. The stack pointer is aligned, the words
    there are no arguments, no environment and the auxiliary vector, and
    AT_DUCK leads to the structure with the places and limits of the inputs and
    outputs. The entries about the image, though, are pushed as 64-bit words: a
    32-bit program reads AT_PHDR, AT_PHNUM, AT_PHENT and AT_ENTRY as 0. *)
Theorem elf32_start tsc buf len conf vb h lay m m' :
  inputs_ok buf len conf -> ready vb m -> accepted32 buf len conf vb h lay -> image_break lay <= vb -> OB_break lay < 2 ^ 32 ->
  load tsc buf len conf m = Some (Some (app32 conf h lay tsc), m') ->
  Forall (fun t => t <> 0 /\ t <> AT_DUCK) [e_phnum h; e_phentsize h; e_entry h; u32 (OB_break lay + e_phoff h)] ->
  let app := app32 conf h lay tsc in
  app_rsp app mod 16 = 0 /\ app_entry app = e_entry h /\
  read_bytes 60 (duckinfo32_ptr app) m' = Some (info32_bytes (duckinfo conf lay tsc)) /\
  exists stack, read_bytes 112 (app_rsp app) m' = Some stack /\ take 3 (words32 stack) = [0; 0; 0] /\
    auxval AT_DUCK (drop 3 (words32 stack)) = Some (duckinfo32_ptr app) /\
    Forall (fun key => auxval key (drop 3 (words32 stack)) = Some 0) [AT_PHDR; AT_PHNUM; AT_PHENT; AT_ENTRY].
Proof.
  intros Hio Hrd Ha Hroom H32 El Hk app. pose proof (rd_top _ _ Hrd) as Htop. pose proof (ac_layout _ _ _ _ _ _ Ha) as Elay.
  destruct (accepted_load tsc buf len conf vb h lay m Hio Hrd Ha ltac:(lia)) as (m1 & El' & H).
  rewrite El in El'. injection El' as <-. pose proof (inputs_load_ok buf len conf lay vb m Hio Hrd ltac:(lia)) as Hok.
  destruct (contents_facts own Q L buf len conf h lay vb m Hok Ha) as (F1 & F2 & F3 & F4 & F5 & F6 & F7 & F8 & F9).
  change (app_rsp app) with (load_break lay - 176). change (duckinfo32_ptr app) with (load_break lay - 60).
  assert (forall i, 0 <= i < 176 -> ubyte m' (load_break lay - 176 + i) = nth (Z.to_nat i) (stack_bytes32 h lay (duckinfo conf lay tsc)) 0) as Hb.
  { intros i Hi. change (ubyte m' ?v) with (view m' v).2. rewrite (ef_view _ _ _ _ _ _ H) by (unfold user, kernel_break in *; lia).
    rewrite (load_byte_at own Q L buf len conf h lay tsc vb m Hok Ha) by
      (change kernel_break with 16777216; lia || apply (rd_zeroed _ _ Hrd); rewrite (rd_break _ _ Hrd); change kernel_break with 16777216; lia).
    unfold expected_byte. rewrite decide_False, decide_False, decide_True by lia. f_equal. lia. }
  destruct (check_header32 buf len h (ac_header _ _ _ _ _ _ Ha)) as (Ehd & _).
  destruct (ehdr32_range buf (io_buf _ _ _ Hio)) as (R1 & R2 & R3 & R4). rewrite <- Ehd in *.
  pose proof (ef_clean _ _ _ _ _ _ H) as Hc. change kernel_break with 16777216 in *.
  split; [dlia|]. split; [done|]. split.
  - apply (read_expected m' (load_break lay - 60) (info32_bytes (duckinfo conf lay tsc)) Hc).
    + change kernel_break with 16777216. lia.
    + change (length (info32_bytes (duckinfo conf lay tsc))) with 60%nat. lia.
    + change (length (info32_bytes (duckinfo conf lay tsc))) with 60%nat. intros i Hi.
      replace (load_break lay - 60 + i) with (load_break lay - 176 + (116 + i)) by lia. rewrite Hb by lia.
      replace (Z.to_nat (116 + i)) with (length (vectors32 h lay ++ drop 108 (vectors32 h lay)) + Z.to_nat i)%nat
        by (change (length (vectors32 h lay ++ drop 108 (vectors32 h lay))) with 116%nat; lia).
      unfold stack_bytes32. rewrite app_assoc. rewrite app_nth2 by lia. f_equal. lia.
  - exists (vectors32 h lay). split.
    + apply (read_expected m' (load_break lay - 176) (vectors32 h lay) Hc).
      * change kernel_break with 16777216. lia.
      * change (length (vectors32 h lay)) with 112%nat. lia.
      * change (length (vectors32 h lay)) with 112%nat. intros i Hi. rewrite Hb by lia. unfold stack_bytes32.
        apply app_nth1. change (length (vectors32 h lay)) with 112%nat. lia.
    + rewrite vectors32_words by (unfold is_uint; lia). split; [done|]. cbn [drop].
      rewrite !Forall_cons in Hk. destruct Hk as ((K1 & D1) & (K2 & D2) & (K3 & D3) & (K4 & D4) & _).
      apply Z.eqb_neq in K1, K2, K3, K4, D1, D2, D3, D4.
      assert ((OB_break lay =? 0) = false) as K5 by lia. assert ((OB_break lay =? AT_DUCK) = false) as D5.
      { apply Z.eqb_neq. intros E. pose proof (ref_layout_ordered conf lay (io_conf _ _ _ Hio) Elay) as
          (_ & _ & _ & _ & _ & _ & _ & _ & _ & _ & _ & A6 & _). rewrite E in A6. done. }
      split.
      * cbn [auxval]. rewrite K1, K2, K3, K4, K5, D1, D2, D3, D4, D5. done.
      * rewrite !Forall_cons. split_and!; [..|done]; cbn [auxval]; rewrite ?K1, ?K2, ?K3, ?K4;
          repeat match goal with |- context [?a =? ?b] => destruct (Z.eqb_spec a b); try done end.
Qed.
End claims.
