(* ===== verification/ElfWitnesses.v ===== *)
(** * A small program on a small machine

    One segment of 100 bytes with 8 KiB of memory, on a machine with 100 huge
    pages; the theorems of [ElfClaims] applied to it. *)

From S2P Require Import Prelude Utils Timer Memory MemoryProofs MemoryTables MemoryInit MemoryPaging MemoryFrames MemoryFlags MemoryClaims Trap TrapClaims Judger ElfLoader ElfMemory ElfAccept ElfProofs ElfContents ElfRun ElfClaims.

(** Initialisation leaves memory ready: every user page carries the mark. *)
Lemma init_ready ebss m : registered m -> ebss <= kernel_break -> tables_fit m ->
  exists m' own, let Q := 8 + n_huge_pages m - table_pages (n_huge_pages m) in
    Memory.init ebss m = Some m' /\ ready own Q (page_table_break m') (Q * HUGE_PAGE_SIZE) m'.
Proof.
  intros Hreg He Hfit.
  destruct (init_spec_ok ebss m Hreg He Hfit) as (m' & own & b & P3h & P3 & E & Hvb & Htb & Hrk & HQ & Hb & EM & En & Hr).
  set (Q := 8 + n_huge_pages m - table_pages (n_huge_pages m)) in *.
  assert (Q = 8 + rank (huge_page_map m') MAX_N_HUGE_PAGES - rank (huge_page_map m') b) as EQ.
  { by rewrite EM, Hrk, <- (rg_n _ Hreg). }
  assert (forall v, kernel_break <= v < Q * HUGE_PAGE_SIZE -> Z.testbit (entry m' v) 0 = true /\ Z.testbit (entry m' v) 9 = true) as Hbits.
  { intros v Hv. rewrite (init_entry _ _ _ _ _ _ _ _ Hr HQ v Hv).
    pose proof (user_frame_aligned _ _ _ Hb EQ v Hv). by rewrite !testbit_entry by (done || lia). }
  exists m', own. cbv zeta. split; [done|]. split; [split|..].
  - eapply init_paging; [exact Hr|done].
  - by eapply init_user_frames.
  - intros v Hv. by apply Hbits.
  - by eapply tree_closed.
  - intros v Hv. rewrite Hvb in Hv. intros Hm. change (pv_mark (view m' v).1) with (Z.testbit (entry m' v) 9) in Hm.
    by rewrite (proj2 (Hbits v Hv)) in Hm.
  - exact Hvb.
  - unfold HUGE_PAGE_SIZE. replace (Q * 2097152) with (Q * 512 * 4096) by lia. by apply Z.mod_mul.
  - change kernel_break with 16777216. unfold HUGE_PAGE_SIZE. lia.
Qed.

(** The kernel takes memory from the top. *)
Lemma ready_lower own Q L vb vb' m : ready own Q L vb m -> kernel_break <= vb' <= vb -> vb' mod 4096 = 0 ->
  ready own Q L vb' (set_vaddr_break vb' m).
Proof.
  intros [[[P1 P2 P3 P4 P5] [U1 U2 U3 U4] Hpr] [K1 K2 K3 K4] Hz Hb Hal Ht] Hv Hal'. split; [split; [split|split|]|split|..]; try done.
  - intros v Hv'. cbn [vaddr_break set_vaddr_break] in Hv'. apply (Hz v). lia.
  - lia.
Qed.

Definition example_elf : list Z :=
  [127; 69; 76; 70; 1; 1; 1; 0; 0; 0; 0; 0; 0; 0; 0; 0; 2; 0; 3; 0; 1; 0; 0; 0; 96; 128; 4; 8; 52; 0; 0; 0; 0; 0; 0; 0;
   0; 0; 0; 0; 52; 0; 32; 0; 1; 0; 0; 0; 0; 0; 0; 0;
   1; 0; 0; 0; 0; 0; 0; 0; 0; 128; 4; 8; 0; 128; 4; 8; 100; 0; 0; 0; 0; 32; 0; 0; 7; 0; 0; 0; 0; 16; 0; 0;
   144; 144; 144; 144; 144; 144; 144; 144; 144; 144; 144; 144; 184; 1; 0; 0].

Definition example_conf (limit : Z) : AppConfig := mkConfig limit [49; 10] 2 100 100 [] 0 [] 0 true.

Lemma example_inputs limit : is_uint 64 limit -> inputs_ok example_elf 100 (example_conf limit).
Proof.
  intros Hl. split.
  - apply (bool_decide_unpack _). vm_compute. exact I.
  - split; [done|]. vm_compute. discriminate.
  - by split.
  - by apply (bool_decide_unpack _).
  - done.
  - done.
Qed.

Lemma example_accepts limit vb : is_uint 64 limit -> 0 <= vb < 2 ^ 40 ->
  forall h lay, prepare32 example_elf 100 (example_conf limit) (set_vaddr_break vb (memory_start ∅ 0)) = Some (h, lay) ->
  accepted32 example_elf 100 (example_conf limit) vb h lay.
Proof.
  intros Hl Hv h lay E. destruct (example_inputs limit Hl) as [Hb [Hn _] Hc _ _ _].
  exact (proj1 (prepare32_spec _ _ _ (set_vaddr_break vb (memory_start ∅ 0)) _ _ Hb Hn Hc Hv) E).
Qed.

Definition example_header : Ehdr := get_ehdr32 example_elf.

Lemma program_accepted :
  accepted32 example_elf 100 (example_conf 65536) (107 * HUGE_PAGE_SIZE) example_header (ref_layout (example_conf 65536)).
Proof. apply example_accepts; [done|done|]. vm_compute. reflexivity. Qed.

Lemma example_machine : exists own L m, ready own 107 L (107 * HUGE_PAGE_SIZE) m.
Proof.
  destruct example_fits as (m & Hr & Hf & Hn). destruct (init_ready 1048576 m Hr) as (m' & own & _ & H); [unfold kernel_break; lia|done|].
  rewrite Hn in H. by exists own, (page_table_break m'), m'.
Qed.


Lemma elf32_load_exact_witness : exists m m', load 1000 example_elf 100 (example_conf 65536) m =
  Some (Some (app32 (example_conf 65536) example_header (ref_layout (example_conf 65536)) 1000), m') /\
  ubyte m' 0x8048001 = 69 /\ ubyte m' 0x8049000 = 0.
Proof.
  destruct example_machine as (own & L & m & Hrd). exists m.
  destruct (elf32_load_exact own 107 L 1000 example_elf 100 (example_conf 65536) (107 * HUGE_PAGE_SIZE) example_header
    (ref_layout (example_conf 65536)) m) as (m' & E & _ & H & _).
  - apply example_inputs. vm_compute. split; [discriminate|reflexivity].
  - exact Hrd.
  - exact program_accepted.
  - vm_compute. discriminate.
  - exists m'. split; [exact E|]. split.
    + destruct (H 0x8048001) as (_ & Hb & _); [vm_compute; split; [discriminate|reflexivity]|]. rewrite Hb. reflexivity.
    + destruct (H 0x8049000) as (_ & Hb & _); [vm_compute; split; [discriminate|reflexivity]|]. rewrite Hb. reflexivity.
Defined.

(** The program writes one byte to its stdout and one to its stack and exits. *)
Definition example_execution : execution :=
  mkExec [Ufetch 0x8048060; Uread 0x8058000; Uwrite 0x8059000 49; Uwrite 0x8057fd8 1] 2 (blank_frame TRAP_RUN_USER32 8)
    (blank_frame TRAP_SYSCALL32 (Z.lor GDT_USER32_CS 3)) 1500 0 0.

Lemma example_trap : exists t n rc s', run_user_32 (e_entry example_header) (load_break (ref_layout (example_conf 65536)) - 176) 1000000
  (x_rflags example_execution) (x_ktf example_execution) (x_utf example_execution) (x_clock example_execution) (x_cr2 example_execution)
  (x_old_rc example_execution) example_traps = Some (t, n, rc, s') /\ t = 500.
Proof. eexists _, _, _, _. vm_compute. split; reflexivity. Qed.

Definition example_job : job := mkJob example_elf 100 (example_conf 65536) 1000000 example_execution example_traps.

Lemma example_served own L m : ready own 107 L (107 * HUGE_PAGE_SIZE) m -> exists m', serve 1000 1000 [example_job] m = Some m'.
Proof.
  intros Hrd. assert (inputs_ok example_elf 100 (example_conf 65536)) as Hio by (apply example_inputs; done).
  destruct (elf_load_spec own 107 L 1000 example_elf 100 (example_conf 65536) (107 * HUGE_PAGE_SIZE) m Hio Hrd)
    as [(h & lay & m1 & Ha & E & H)|[Hn _]]; [vm_compute; discriminate| |by destruct (Hn _ _ program_accepted)].
  assert (h = example_header /\ lay = ref_layout (example_conf 65536)) as [-> ->].
  { split; [|apply (ac_layout _ _ _ _ _ _ Ha)]. by destruct (check_header32 _ _ _ (ac_header _ _ _ _ _ _ Ha)) as (-> & _). }
  destruct example_trap as (t & n & rc & s' & Et & _).
  destruct (loaded_run own 107 L 1000 1000 _ _ _ _ _ _ m m1 example_execution 1000000 example_traps t n rc s' Hio Hrd Ha) as (m2 & Er & _);
    [vm_compute; discriminate|done|done|].
  exists m2. cbn [serve]. unfold serve_job. change (j_buf example_job) with example_elf. change (j_len example_job) with 100.
  change (j_conf example_job) with (example_conf 65536). rewrite E, mbind_Some.
  change (j_limit example_job) with 1000000. change (j_exec example_job) with example_execution.
  change (j_trap example_job) with example_traps. cbv zeta in Er. by rewrite Er.
Qed.


Lemma elf_run_exact_witness : exists m1 res m2 s', run 1000 1000 (app32 (example_conf 65536) example_header (ref_layout (example_conf 65536)) 1000)
  1000000 example_execution m1 example_traps = Some (res, m2, s') /\ r_time_tsc res = 500.
Proof.
  destruct example_machine as (own & L & m & Hrd). assert (inputs_ok example_elf 100 (example_conf 65536)) as Hio
    by (apply example_inputs; vm_compute; split; [discriminate|reflexivity]).
  destruct (elf_load_spec own 107 L 1000 example_elf 100 (example_conf 65536) (107 * HUGE_PAGE_SIZE) m Hio Hrd)
    as [(h & lay & m1 & Ha & E & _)|[Hn _]]; [vm_compute; discriminate| |destruct (Hn _ _ program_accepted)].
  assert (h = example_header /\ lay = ref_layout (example_conf 65536)) as [-> ->].
  { split; [|apply (ac_layout _ _ _ _ _ _ Ha)]. destruct (check_header32 _ _ _ (ac_header _ _ _ _ _ _ Ha)) as (-> & _). reflexivity. }
  destruct example_trap as (t & n & rc & s' & Et & E500).
  destruct (elf_run_exact own 107 L 1000 1000 (107 * HUGE_PAGE_SIZE) example_elf 100 (example_conf 65536) example_header
    (ref_layout (example_conf 65536)) m m1 example_execution 1000000 example_traps t n rc s') as (res & m2 & Er & _ & _ & _ & Ht & _).
  - exact Hio.
  - exact Hrd.
  - exact program_accepted.
  - vm_compute. discriminate.
  - exact E.
  - exact Et.
  - exists m1, res, m2, s'. split; [exact Er|]. rewrite Ht. exact E500.
Defined.

Lemma elf32_image_overrun_witness : exists m m' app, load 1000 example_elf 100 (example_conf 87773184) m = Some (app, m') /\
  ubyte m' (106 * HUGE_PAGE_SIZE + 1) = 69 /\ acc (view m' (106 * HUGE_PAGE_SIZE)).1 = (true, false, true).
Proof.
  destruct example_machine as (own & L & m0 & Hrd0).
  assert (ready own 107 L (106 * HUGE_PAGE_SIZE) (set_vaddr_break (106 * HUGE_PAGE_SIZE) m0)) as Hrd
    by (apply (ready_lower own 107 L (107 * HUGE_PAGE_SIZE)); [exact Hrd0|vm_compute; split; discriminate|reflexivity]).
  exists (set_vaddr_break (106 * HUGE_PAGE_SIZE) m0).
  destruct (elf32_image_overrun own 107 L 1000 example_elf 100 (example_conf 87773184) (106 * HUGE_PAGE_SIZE) example_header
    (ref_layout (example_conf 87773184)) (set_vaddr_break (106 * HUGE_PAGE_SIZE) m0)) as (m' & E & H).
  - apply example_inputs. vm_compute. split; [discriminate|reflexivity].
  - exact Hrd.
  - apply example_accepts; [vm_compute; split; [discriminate|reflexivity]|vm_compute; split; [discriminate|reflexivity]|]. vm_compute. reflexivity.
  - reflexivity.
  - vm_compute. discriminate.
  - exists m'. eexists. split; [exact E|]. split.
    + destruct (H (106 * HUGE_PAGE_SIZE + 1)) as [_ Hb]; [lia|]. rewrite Hb; [reflexivity|lia].
    + apply H. lia.
Defined.

Lemma elf32_start_witness : exists m' stack, read_bytes 112 (load_break (ref_layout (example_conf 65536)) - 176) m' = Some stack /\
  auxval AT_PHDR (drop 3 (words32 stack)) = Some 0.
Proof.
  destruct example_machine as (own & L & m & Hrd). assert (inputs_ok example_elf 100 (example_conf 65536)) as Hio
    by (apply example_inputs; vm_compute; split; [discriminate|reflexivity]).
  destruct (elf_load_spec own 107 L 1000 example_elf 100 (example_conf 65536) (107 * HUGE_PAGE_SIZE) m Hio Hrd)
    as [(h & lay & m1 & Ha & E & _)|[Hn _]]; [vm_compute; discriminate| |destruct (Hn _ _ program_accepted)].
  assert (h = example_header /\ lay = ref_layout (example_conf 65536)) as [-> ->].
  { split; [|apply (ac_layout _ _ _ _ _ _ Ha)]. destruct (check_header32 _ _ _ (ac_header _ _ _ _ _ _ Ha)) as (-> & _). reflexivity. }
  exists m1. destruct (elf32_start own 107 L 1000 example_elf 100 (example_conf 65536) (107 * HUGE_PAGE_SIZE) example_header
    (ref_layout (example_conf 65536)) m m1) as (_ & _ & _ & stack & Er & _ & _ & Hf).
  - exact Hio.
  - exact Hrd.
  - exact program_accepted.
  - vm_compute. discriminate.
  - vm_compute. reflexivity.
  - exact E.
  - repeat constructor; vm_compute; discriminate.
  - exists stack. split; [exact Er|]. apply Forall_cons in Hf as [H _]. exact H.
Defined.
