(* ===== verification/UserLib.v ===== *)
(** * The system calls of user programs

    A program the kernel runs has no operating system below it: the C library it
    is linked with calls [__duck64__syscall_handler]
    (user_lib/duck64_syscall_handler.cpp) or [__duck32__syscall_handler]
    (user_lib32/duck32_syscall_handler.cpp), which emulate the calls on the
    structure the loader placed on the stack. Both libraries are the same code
    at two word sizes, so what they share is written once, for words of [ws]
    bytes.

    The static variables of the library are the record [lib]. The memory of the
    program is an interface, [UserMem]: an access may fault, which ends the
    program. The layout of the C library's structures, its auxiliary vector and
    the addresses the linker chooses are parameters ([env]). *)

From S2P Require Import Prelude.

(** ** Memory as a program sees it *)

Class UserMem (M : Type) := {
  umem_load : Z -> M -> option (Z * M);
  umem_store : Z -> Z -> M -> option M
}.

(** What leaves the program: a fault, or one of the two traps the library makes. *)
Inductive event := PageFault | DivideError | OutOfFuel | ExitCall (code : Z) | AbortCall (sig : Z).

Record lib := mkLib {
  inited : bool; duckinfo : Z; stdout_max_size : Z; stderr_max_size : Z; stdin_curr_pos : Z; tsc_frequency : Z;
  heap_brk : Z; mmap_p : Z; fs_base : Z
}.

(** A field of a structure: its offset and its size in bytes. *)
Record stat_layout := mkStat { st_sizeof : nat; st_mode : Z * nat; st_size : Z * nat; st_blksize : Z * nat; st_blocks : Z * nat }.

Record env := mkEnv {
  getauxval : Z -> Z; end_ : Z; mmap_pool : Z; stat : stat_layout; uts_len : Z; path_max : nat;
  kernel_set_thread_area : Z -> Z
}.

(** The variables before the first call. *)
Definition lib_static (e : env) : lib := mkLib false 0 0 0 0 0 0 (mmap_pool e) 0.

Section st.
Context {M : Type}.

Record st := mkSt { st_lib : lib; st_mem : M }.

Inductive outcome (A : Type) := Ret (a : A) (s : st) | Trapped (e : event) (s : st).
#[global] Arguments Ret {A}.
#[global] Arguments Trapped {A}.

Definition user (A : Type) : Type := st -> outcome A.

#[export] Instance user_ret : MRet user := fun A a s => Ret a s.
#[export] Instance user_bind : MBind user := fun A B f x s =>
  match x s with Ret a s => f a s | Trapped e s => Trapped e s end.

Definition trap {A} (e : event) : user A := fun s => Trapped e s.
Definition get_lib : user lib := fun s => Ret (st_lib s) s.
Definition put_lib (l : lib) : user unit := fun s => Ret tt (mkSt l (st_mem s)).

Context `{UM : UserMem M}.

Definition uload (v : Z) : user Z := fun s =>
  match umem_load v (st_mem s) with Some (b, m) => Ret b (mkSt (st_lib s) m) | None => Trapped PageFault s end.

Definition ustore (v b : Z) : user unit := fun s =>
  match umem_store v b (st_mem s) with Some m => Ret tt (mkSt (st_lib s) m) | None => Trapped PageFault s end.

Fixpoint load_bytes (n : nat) (v : Z) : user (list Z) :=
  match n with
  | O => mret []
  | S n => b ← uload v; l ← load_bytes n (v + 1); mret (b :: l)
  end.

Fixpoint store_bytes (v : Z) (l : list Z) : user unit :=
  match l with
  | [] => mret tt
  | b :: l => ustore v b;; store_bytes (v + 1) l
  end.

(** The C library's [memcpy]. *)
Fixpoint memcpy (n : nat) (dst src : Z) : user unit :=
  match n with
  | O => mret tt
  | S n => b ← uload src; ustore dst b;; memcpy n (dst + 1) (src + 1)
  end.

Fixpoint strlen (fuel : nat) (v : Z) : user Z :=
  match fuel with
  | O => trap OutOfFuel
  | S fuel => b ← uload v; if b =? 0 then mret 0 else n ← strlen fuel (v + 1); mret (n + 1)
  end.

Definition load_word (n : nat) (v : Z) : user Z := l ← load_bytes n v; mret (le_val l).
Definition store_word (n : nat) (v x : Z) : user unit := store_bytes v (le_bytes n x).

(** What [strncpy_safe] leaves in [n > 0] bytes. *)
Definition strncpy_safe (dest : Z) (src : list Z) (n : Z) : user unit :=
  if 0 <? n then store_bytes dest (take (Z.to_nat (n - 1)) (src ++ replicate (Z.to_nat (n - 1)) 0) ++ [0]) else mret tt.

(** ** What the libraries share *)

Definition AT_DUCK : Z := 0x6b637564.
Definition AT_PAGESZ : Z := 6.
Definition CLOCK_PROCESS_CPUTIME_ID : Z := 2.
Definition S_IFREG : Z := 0x8000.

Section shared.
Context (ws : nat) (e : env).

Definition W : Z := 8 * Z.of_nat ws.

(** The result -1. *)
Definition minus_one : Z := 2 ^ W - 1.

(** The [k]-th word of the structure [duckinfo] points to. *)
Definition field_addr (l : lib) (k : Z) : Z := duckinfo l + Z.of_nat ws * k.
Definition get_field (k : Z) : user Z := l ← get_lib; load_word ws (field_addr l k).
Definition set_field (k x : Z) : user unit := l ← get_lib; store_word ws (field_addr l k) x.

Definition init : user unit :=
  l ← get_lib;
  let l := mkLib true (getauxval e AT_DUCK) (stdout_max_size l) (stderr_max_size l) 0 (tsc_frequency l) (heap_brk l)
             (mmap_p l) (fs_base l) in
  put_lib l;;
  stdout_limit ← get_field 4;
  set_field 5 0;;
  stderr_limit ← get_field 7;
  set_field 8 0;;
  let page_size := getauxval e AT_PAGESZ in
  if page_size =? 0 then trap DivideError else
  freq ← load_word 8 (field_addr l 13);
  put_lib (mkLib true (duckinfo l) stdout_limit stderr_limit 0 freq
             (wrap W (wrap W (end_ e + page_size - 1) / page_size * page_size)) (mmap_p l) (fs_base l)).

Definition duck_clock_get_time (tsc clk_id tp : Z) : user Z :=
  if clk_id =? CLOCK_PROCESS_CPUTIME_ID then
    l ← get_lib;
    if tsc_frequency l =? 0 then trap DivideError else
    store_word 8 tp (tsc / tsc_frequency l);;
    store_word 8 (tp + 8) (u64 (tsc mod tsc_frequency l * 1000000000) / tsc_frequency l);;
    mret 0
  else mret minus_one.

Definition duck_read (fd buf len : Z) : user Z :=
  if fd =? 0 then
    stdin_size ← get_field 2;
    l ← get_lib;
    let actual_len := Z.min len (wrap W (stdin_size - stdin_curr_pos l)) in
    stdin_ptr ← get_field 1;
    memcpy (Z.to_nat actual_len) buf (stdin_ptr + stdin_curr_pos l);;
    put_lib (mkLib (inited l) (duckinfo l) (stdout_max_size l) (stderr_max_size l) (wrap W (stdin_curr_pos l + actual_len))
               (tsc_frequency l) (heap_brk l) (mmap_p l) (fs_base l));;
    mret actual_len
  else mret 0.

(** The loop of [duck_readv] and [duck_writev] over the remaining entries. *)
Fixpoint iov_loop (op : Z -> Z -> user Z) (n : nat) (iov ret : Z) : user Z :=
  match n with
  | O => mret ret
  | S n =>
      iov_base ← load_word ws iov;
      iov_len ← load_word ws (iov + Z.of_nat ws);
      tmp ← op iov_base iov_len;
      iov_len ← load_word ws (iov + Z.of_nat ws);
      let ret := if tmp <=? iov_len then wrap W (ret + tmp) else ret in
      if negb (tmp =? iov_len) then mret ret else iov_loop op n (iov + 2 * Z.of_nat ws) ret
  end.

Definition duck_readv (fd iov cnt : Z) : user Z := iov_loop (duck_read fd) (Z.to_nat cnt) iov 0.

(** One of the two outputs: the word of its pointer, its limit, and the number
    of bytes stored. *)
Definition append (ptr_field size_field max_size buf len : Z) : user Z :=
  size ← get_field size_field;
  let actual_len := Z.min len (wrap W (max_size - size)) in
  ptr ← get_field ptr_field;
  memcpy (Z.to_nat actual_len) (ptr + size) buf;;
  size ← get_field size_field;
  set_field size_field (wrap W (size + actual_len));;
  mret actual_len.

(** [silently]: the library claims to have written everything. *)
Definition duck_write (silently : bool) (fd buf len : Z) : user Z :=
  l ← get_lib;
  if fd =? 1 then
    actual_len ← append 3 5 (stdout_max_size l) buf len;
    mret (if silently then len else actual_len)
  else if fd =? 2 then
    actual_len ← append 6 8 (stderr_max_size l) buf len;
    mret (if silently then len else actual_len)
  else mret 0.

Definition duck_writev (silently : bool) (fd iov cnt : Z) : user Z :=
  iov_loop (duck_write silently fd) (Z.to_nat cnt) iov 0.

Definition store_stat (st mode size : Z) : user unit :=
  let put f x := store_word f.2 (st + f.1) x in
  put (st_mode (stat e)) mode;;
  put (st_size (stat e)) size;;
  put (st_blksize (stat e)) 4096;;
  put (st_blocks (stat e)) (wrap W (size + 4095) / 4096).

Definition duck_fstat (perm fd st : Z) : user Z :=
  store_bytes st (replicate (st_sizeof (stat e)) 0);;
  if fd =? 0 then size ← get_field 2; store_stat st (Z.lor S_IFREG perm) size;; mret 0
  else if fd =? 1 then size ← get_field 5; store_stat st (Z.lor S_IFREG perm) size;; mret 0
  else mret minus_one.

Definition duck_brk (addr : Z) : user Z :=
  l ← get_lib;
  if addr =? 0 then mret (heap_brk l)
  else
    let brk := if heap_brk l <? addr then addr else heap_brk l in
    put_lib (mkLib (inited l) (duckinfo l) (stdout_max_size l) (stderr_max_size l) (stdin_curr_pos l) (tsc_frequency l)
               brk (mmap_p l) (fs_base l));;
    mret brk.

Definition duck_exit {A} (code : Z) : user A := trap (ExitCall code).

(** The first call of any kind initialises the library. *)
Definition ensure_init : user unit := l ← get_lib; if inited l then mret tt else init.
End shared.

(** ** The 64-bit library *)

Section duck64.
Context (e : env).

Definition ARCH_SET_FS : Z := 0x1002.

Definition duck_arch_prctl (code addr : Z) : user Z :=
  if code =? ARCH_SET_FS then
    l ← get_lib;
    put_lib (mkLib (inited l) (duckinfo l) (stdout_max_size l) (stderr_max_size l) (stdin_curr_pos l) (tsc_frequency l)
               (heap_brk l) (mmap_p l) addr);;
    mret 0
  else mret (minus_one 8).

Definition duck_mmap_temp (size : Z) : user Z :=
  l ← get_lib;
  let size := Z.land (u64 (size + 4095)) (2 ^ 64 - 4096) in
  put_lib (mkLib (inited l) (duckinfo l) (stdout_max_size l) (stderr_max_size l) (stdin_curr_pos l) (tsc_frequency l)
             (heap_brk l) (u64 (mmap_p l + size)) (fs_base l));;
  mret (mmap_p l).

Definition duck_tkill_abort (sig : Z) : user Z := trap (AbortCall sig).

Definition duck_uname (buf : Z) : user Z :=
  strncpy_safe buf (bytes_of_string "JudgeDuck") (uts_len e);;
  strncpy_safe (buf + uts_len e) (bytes_of_string "duck") (uts_len e);;
  strncpy_safe (buf + 2 * uts_len e) (bytes_of_string "5.11.0") (uts_len e);;
  strncpy_safe (buf + 3 * uts_len e) (bytes_of_string "duck-20210901") (uts_len e);;
  strncpy_safe (buf + 4 * uts_len e) (bytes_of_string "x86_64") (uts_len e);;
  mret 0.

Definition duck_readlink (path buf bufsiz : Z) : user Z :=
  strncpy_safe buf (bytes_of_string "/tmp/main.exe") (u64 bufsiz);;
  strlen (path_max e) path.

Definition duck_getpid : user Z := mret 1234.
Definition duck_gettid : user Z := mret 1234.

(** The cases are the call numbers of x86-64. *)
Definition duck64_syscall_handler (tsc a1 a2 a3 n : Z) : user Z :=
  ensure_init 8 e;;
  match n with
  | 12 (* brk *) => duck_brk a1
  | 228 (* clock_gettime *) => duck_clock_get_time 8 tsc (s32 a1) a2
  | 0 (* read *) => duck_read 8 (s32 a1) a2 (u64 (s32 a3))
  | 19 (* readv *) => duck_readv 8 (s32 a1) a2 (s32 a3)
  | 1 (* write *) => duck_write 8 true (s32 a1) a2 a3
  | 20 (* writev *) => duck_writev 8 true (s32 a1) a2 (s32 a3)
  | 60 | 231 (* exit, exit_group *) => duck_exit (s32 a1)
  | 158 (* arch_prctl *) => duck_arch_prctl (s32 a1) a2
  | 16 (* ioctl *) => mret 0
  | 5 (* fstat *) => duck_fstat 8 e 0x1b4 (s32 a1) a2
  | 9 (* mmap *) => duck_mmap_temp a2
  | 14 | 13 | 131 (* rt_sigprocmask, rt_sigaction, sigaltstack *) => mret 0
  | 218 (* set_tid_address *) => mret 12345
  | 200 | 234 (* tkill, tgkill *) => duck_tkill_abort (s32 a3)
  | 10 | 11 | 7 (* mprotect, munmap, poll *) => mret 0
  | 63 (* uname *) => duck_uname a1
  | 89 (* readlink *) => duck_readlink a1 a2 (s32 a3)
  | 39 (* getpid *) => duck_getpid
  | 186 (* gettid *) => duck_gettid
  | _ => mret (minus_one 8)
  end.
End duck64.

(** ** The 32-bit library *)

Section duck32.
Context (e : env).

Definition duck32_init : user unit := init 4 e.
Definition duck_clock_get_time_64 : Z -> Z -> Z -> user Z := duck_clock_get_time 4.
Definition duck32_read : Z -> Z -> Z -> user Z := duck_read 4.
Definition duck32_readv : Z -> Z -> Z -> user Z := duck_readv 4.
(** Here the caller is told how many bytes fitted. *)
Definition duck32_write : Z -> Z -> Z -> user Z := duck_write 4 false.
Definition duck32_writev : Z -> Z -> Z -> user Z := duck_writev 4 false.
Definition duck32_fstat : Z -> Z -> user Z := duck_fstat 4 e 0x1a4.

(** The kernel handles this trap and resumes the program. *)
Definition duck_set_thread_area (u_info : Z) : user Z := mret (kernel_set_thread_area e u_info).

Definition duck32_syscall_handler (tsc a1 a2 a3 n : Z) : user Z :=
  ensure_init 4 e;;
  match n with
  | 45 (* brk *) => duck_brk a1
  | 403 (* clock_gettime64 *) => duck_clock_get_time_64 tsc (s32 a1) a2
  | 3 (* read *) => duck32_read (s32 a1) a2 (u32 (s32 a3))
  | 145 (* readv *) => duck32_readv (s32 a1) a2 (s32 a3)
  | 4 (* write *) => duck32_write (s32 a1) a2 a3
  | 146 (* writev *) => duck32_writev (s32 a1) a2 (s32 a3)
  | 1 | 252 (* exit, exit_group *) => duck_exit (s32 a1)
  | 243 (* set_thread_area *) => duck_set_thread_area a1
  | 54 (* ioctl *) => mret 0
  | 108 (* fstat *) => duck32_fstat (s32 a1) a2
  | _ => mret (minus_one 4)
  end.
End duck32.
End st.
#[global] Arguments st : clear implicits.
#[global] Arguments outcome : clear implicits.
#[global] Arguments user : clear implicits.
#[global] Arguments mkSt {M}.
