(* ===== verification/UserLibProofs.v ===== *)
(** * How the emulated calls use memory

    The laws of a program's memory, a weakest-precondition reading of the
    library's code, and the relation between the library's state and the console
    it emulates: a position in stdin and two growing outputs. *)

From S2P Require Import Prelude UserLib.

(** ** Laws of memory *)

(** [l] written at [v] over the bytes [g]. *)
Definition over (v : Z) (l : list Z) (g : Z -> Z) (a : Z) : Z :=
  if decide (v <= a < v + Z.of_nat (length l)) then nth (Z.to_nat (a - v)) l 0 else g a.

(** [n] bytes of [g] from [v] on. *)
Definition bytes_at (g : Z -> Z) (v : Z) (n : nat) : list Z := (fun i => g (v + Z.of_nat i)) <$> seq 0 n.

Class UserMemLaws (M : Type) `{UM : UserMem M} := {
  um_ok : M -> Prop;
  um_byte : M -> Z -> Z;
  um_readable : M -> Z -> Prop;
  um_writable : M -> Z -> Prop;
  um_byte_range m v : um_ok m -> um_readable m v -> is_byte (um_byte m v);
  um_writable_readable m v : um_ok m -> um_writable m v -> um_readable m v;
  um_load m v : um_ok m -> um_readable m v -> exists m', umem_load v m = Some (um_byte m v, m') /\ um_ok m' /\
    (forall a, um_byte m' a = um_byte m a) /\ (forall a, um_readable m' a <-> um_readable m a) /\
    (forall a, um_writable m' a <-> um_writable m a);
  um_store m v b : um_ok m -> um_writable m v -> is_byte b -> exists m', umem_store v b m = Some m' /\ um_ok m' /\
    (forall a, um_byte m' a = if decide (a = v) then b else um_byte m a) /\
    (forall a, um_readable m' a <-> um_readable m a) /\ (forall a, um_writable m' a <-> um_writable m a);
  um_load_fault m v : um_ok m -> ~ um_readable m v -> umem_load v m = None;
  um_store_fault m v b : um_ok m -> ~ um_writable m v -> umem_store v b m = None
}.

Lemma bytes_at_S g v n : bytes_at g v (S n) = g v :: bytes_at g (v + 1) n.
Proof.
  unfold bytes_at. cbn [seq fmap list_fmap]. rewrite Z.add_0_r. f_equal. rewrite <- fmap_S_seq, <- list_fmap_compose.
  apply list_fmap_ext. intros i x _. cbn. f_equal. lia.
Qed.

Lemma length_bytes_at g v n : length (bytes_at g v n) = n.
Proof. unfold bytes_at. by rewrite length_fmap, length_seq. Qed.

Lemma bytes_at_ext g h v n : (forall a, v <= a < v + Z.of_nat n -> g a = h a) -> bytes_at g v n = bytes_at h v n.
Proof. intros H. apply list_fmap_ext. intros i x [-> Hi]%lookup_seq. cbn. apply H. lia. Qed.

Lemma bytes_at_app g v n k : bytes_at g v (n + k) = bytes_at g v n ++ bytes_at g (v + Z.of_nat n) k.
Proof.
  revert v. induction n as [|n IH]; intros v; [by rewrite Z.add_0_r|]. cbn [Nat.add]. rewrite !bytes_at_S, IH. cbn [app].
  do 3 f_equal. lia.
Qed.

Lemma bytes_at_nth g v (l : list Z) :
  (forall i, (i < length l)%nat -> g (v + Z.of_nat i) = nth i l 0) -> bytes_at g v (length l) = l.
Proof.
  revert v. induction l as [|b l IH]; intros v H; [done|]. cbn [length]. rewrite bytes_at_S. f_equal.
  - specialize (H 0%nat). cbn in H. rewrite Z.add_0_r in H. apply H. lia.
  - apply IH. intros i Hi. specialize (H (S i)). cbn in H. rewrite <- H by lia. f_equal. lia.
Qed.

Lemma over_nil v g a : over v [] g a = g a.
Proof. unfold over. cbn. rewrite decide_False by lia. done. Qed.

Lemma over_cons v b l g a : over (v + 1) l (fun a => if decide (a = v) then b else g a) a = over v (b :: l) g a.
Proof.
  unfold over. cbn [length]. destruct (decide (a = v)) as [->|Hne].
  - rewrite decide_False, decide_True by lia. by rewrite Z.sub_diag.
  - destruct (decide (v + 1 <= a < v + 1 + Z.of_nat (length l))).
    + rewrite decide_True by lia. replace (Z.to_nat (a - v)) with (S (Z.to_nat (a - (v + 1)))) by lia. done.
    + rewrite decide_False by lia. done.
Qed.

Lemma over_away v l g a : ~ (v <= a < v + Z.of_nat (length l)) -> over v l g a = g a.
Proof. intros. unfold over. by rewrite decide_False. Qed.

Lemma over_ext v l g h a : g a = h a -> over v l g a = over v l h a.
Proof. intros H. unfold over. by case_decide. Qed.

Lemma bytes_over v l g : bytes_at (over v l g) v (length l) = l.
Proof. apply bytes_at_nth. intros i Hi. unfold over. rewrite decide_True by lia. f_equal. lia. Qed.

Lemma bytes_over_away v l g u n : u + Z.of_nat n <= v \/ v + Z.of_nat (length l) <= u -> bytes_at (over v l g) u n = bytes_at g u n.
Proof. intros H. apply bytes_at_ext. intros a Ha. apply over_away. lia. Qed.

Lemma take_take_app n (l1 l2 : list Z) : take n (take n l1 ++ l2) = take n (l1 ++ l2).
Proof.
  destruct (decide (length l1 <= n)%nat); [by rewrite (take_ge l1) by done|].
  rewrite (take_app_le l1), (take_app_le (take n l1)) by (rewrite ?length_take; lia). by rewrite take_take, Nat.min_id.
Qed.

(** ** Weakest preconditions *)

Section wp.
Context {M : Type} `{UL : UserMemLaws M}.
Implicit Types (l : lib) (m : M).

Definition wp {A} (c : user M A) (s : st M) (Q : A -> st M -> Prop) : Prop :=
  match c s with Ret a s' => Q a s' | Trapped _ _ => False end.

Lemma wp_ret {A} (a : A) s Q : Q a s -> wp (mret a) s Q.
Proof. done. Qed.

Lemma wp_bind {A B} (x : user M A) (f : A -> user M B) s Q : wp x s (fun a s' => wp (f a) s' Q) -> wp (x ≫= f) s Q.
Proof. unfold wp. unfold mbind, user_bind. by destruct (x s). Qed.

Lemma wp_mono {A} (c : user M A) s (Q R : A -> st M -> Prop) : wp c s Q -> (forall a s', Q a s' -> R a s') -> wp c s R.
Proof. unfold wp. destruct (c s); eauto. Qed.

Lemma wp_get_lib s Q : Q (st_lib s) s -> wp get_lib s Q.
Proof. done. Qed.

Lemma wp_put_lib l s Q : Q tt (mkSt l (st_mem s)) -> wp (put_lib l) s Q.
Proof. done. Qed.

(** [m'] is [m] with the bytes [g]; rights do not change. *)
Record moved (m m' : M) (g : Z -> Z) : Prop := {
  mv_ok : um_ok m';
  mv_byte a : um_byte m' a = g a;
  mv_readable a : um_readable m' a <-> um_readable m a;
  mv_writable a : um_writable m' a <-> um_writable m a
}.

Lemma moved_refl m : um_ok m -> moved m m (um_byte m).
Proof. by split. Qed.

Lemma moved_trans m m1 m2 g1 g2 : moved m m1 g1 -> moved m1 m2 g2 -> moved m m2 g2.
Proof. intros [? ? R1 W1] [? ? R2 W2]. split; try done; intros a; [by rewrite R2|by rewrite W2]. Qed.

Lemma moved_ext m m' g h : moved m m' g -> (forall a, g a = h a) -> moved m m' h.
Proof. intros [? ? ? ?] H. split; try done. intros a. by rewrite <- H. Qed.

Definition range_ok (P : Z -> Prop) (v : Z) (n : nat) : Prop := forall a, v <= a < v + Z.of_nat n -> P a.

Lemma range_ok_S P v n : range_ok P v (S n) -> P v /\ range_ok P (v + 1) n.
Proof. unfold range_ok. intros H. split; [|intros a Ha]; apply H; lia. Qed.

Lemma range_moved m m' g v n :
  moved m m' g -> (range_ok (um_readable m') v n <-> range_ok (um_readable m) v n) /\
                  (range_ok (um_writable m') v n <-> range_ok (um_writable m) v n).
Proof. intros [_ _ R Wr]. unfold range_ok. split; split; intros H a Ha; [by apply R, H|by apply R, H|by apply Wr, H|by apply Wr, H]. Qed.

Lemma wp_uload l m v Q : um_ok m -> um_readable m v ->
  (forall m', moved m m' (um_byte m) -> Q (um_byte m v) (mkSt l m')) -> wp (uload v) (mkSt l m) Q.
Proof.
  intros Hm Hr HQ. destruct (um_load m v Hm Hr) as (m' & E & ? & ? & ? & ?). unfold wp, uload. cbn [st_mem st_lib]. rewrite E.
  by apply HQ.
Qed.

Lemma wp_ustore l m v b Q : um_ok m -> um_writable m v -> is_byte b ->
  (forall m', moved m m' (fun a => if decide (a = v) then b else um_byte m a) -> Q tt (mkSt l m')) -> wp (ustore v b) (mkSt l m) Q.
Proof.
  intros Hm Hr Hb HQ. destruct (um_store m v b Hm Hr Hb) as (m' & E & ? & ? & ? & ?). unfold wp, ustore. cbn [st_mem st_lib]. rewrite E.
  by apply HQ.
Qed.

Lemma wp_load_bytes n : forall l m v Q, um_ok m -> range_ok (um_readable m) v n ->
  (forall m', moved m m' (um_byte m) -> Q (bytes_at (um_byte m) v n) (mkSt l m')) -> wp (load_bytes n v) (mkSt l m) Q.
Proof.
  induction n as [|n IH]; intros l m v Q Hm Hr HQ; cbn [load_bytes]; [by apply HQ, moved_refl|].
  apply range_ok_S in Hr as [Hv Hr]. apply wp_bind, wp_uload; [done..|]. intros m1 H1. apply wp_bind, IH.
  - apply H1.
  - by apply (range_moved _ _ _ _ _ H1).
  - intros m2 H2. apply wp_ret.
    replace (bytes_at (um_byte m1) (v + 1) n) with (bytes_at (um_byte m) (v + 1) n)
      by (apply bytes_at_ext; intros; symmetry; apply H1).
    rewrite <- bytes_at_S. apply HQ. eapply moved_ext; [eapply moved_trans; [exact H1|exact H2]|]. intros a. apply H1.
Qed.

Lemma wp_store_bytes bs : forall l m v Q, um_ok m -> range_ok (um_writable m) v (length bs) -> Forall is_byte bs ->
  (forall m', moved m m' (over v bs (um_byte m)) -> Q tt (mkSt l m')) -> wp (store_bytes v bs) (mkSt l m) Q.
Proof.
  induction bs as [|b bs IH]; intros l m v Q Hm Hr Hb HQ; cbn [store_bytes].
  - apply HQ. eapply moved_ext; [by apply moved_refl|]. intros a. by rewrite over_nil.
  - apply Forall_cons in Hb as [Hb Hbs]. cbn [length] in Hr. apply range_ok_S in Hr as [Hv Hr].
    apply wp_bind, wp_ustore; [done..|]. intros m1 H1. apply IH; [apply H1|by apply (range_moved _ _ _ _ _ H1)|done|].
    intros m2 H2. apply HQ. eapply moved_trans; [exact H1|]. eapply moved_ext; [exact H2|]. intros a. rewrite <- over_cons.
    unfold over. case_decide; [done|]. apply H1.
Qed.

(** A copy between areas that do not overlap. *)
Lemma wp_memcpy n : forall l m dst src Q, um_ok m -> range_ok (um_readable m) src n -> range_ok (um_writable m) dst n ->
  src + Z.of_nat n <= dst \/ dst + Z.of_nat n <= src \/ n = O ->
  (forall m', moved m m' (over dst (bytes_at (um_byte m) src n) (um_byte m)) -> Q tt (mkSt l m')) ->
  wp (memcpy n dst src) (mkSt l m) Q.
Proof.
  induction n as [|n IH]; intros l m dst src Q Hm Hs Hd Hdis HQ; cbn [memcpy].
  - apply HQ. eapply moved_ext; [by apply moved_refl|]. intros a. by rewrite over_nil.
  - apply range_ok_S in Hs as [Hs0 Hs]. apply range_ok_S in Hd as [Hd0 Hd].
    apply wp_bind, wp_uload; [done..|]. intros m1 H1. apply wp_bind, wp_ustore; [apply H1|by apply H1|by apply um_byte_range|].
    intros m2 H2. apply IH.
    + apply H2.
    + apply (range_moved _ _ _ _ _ H2). by apply (range_moved _ _ _ _ _ H1).
    + apply (range_moved _ _ _ _ _ H2). by apply (range_moved _ _ _ _ _ H1).
    + lia.
    + intros m3 H3. apply HQ. eapply moved_trans; [eapply moved_trans; [exact H1|exact H2]|].
      eapply moved_ext; [exact H3|]. intros a. rewrite bytes_at_S, <- over_cons.
      replace (bytes_at (um_byte m2) (src + 1) n) with (bytes_at (um_byte m) (src + 1) n).
      * unfold over. case_decide; [done|]. rewrite (mv_byte _ _ _ H2). case_decide; [done|]. apply H1.
      * apply bytes_at_ext. intros x Hx. rewrite (mv_byte _ _ _ H2). rewrite decide_False by lia. symmetry. apply H1.
Qed.

(** Words. *)
Definition word (g : Z -> Z) (n : nat) (v : Z) : Z := le_val (bytes_at g v n).

Lemma wp_load_word n l m v Q : um_ok m -> range_ok (um_readable m) v n ->
  (forall m', moved m m' (um_byte m) -> Q (word (um_byte m) n v) (mkSt l m')) -> wp (load_word n v) (mkSt l m) Q.
Proof. intros Hm Hr HQ. apply wp_bind, wp_load_bytes; [done..|]. intros m' H. by apply wp_ret, HQ. Qed.

Lemma wp_store_word n l m v x Q : um_ok m -> range_ok (um_writable m) v n ->
  (forall m', moved m m' (over v (le_bytes n x) (um_byte m)) -> Q tt (mkSt l m')) -> wp (store_word n v x) (mkSt l m) Q.
Proof. intros Hm Hr HQ. apply wp_store_bytes; [done|by rewrite length_le_bytes|apply le_bytes_are_bytes|done]. Qed.

Lemma word_over n v x g : 0 <= x < 2 ^ (8 * Z.of_nat n) -> word (over v (le_bytes n x) g) n v = x.
Proof.
  intros Hx. unfold word. pose proof (bytes_over v (le_bytes n x) g) as H. rewrite length_le_bytes in H. rewrite H, le_val_le_bytes.
  by apply Z.mod_small.
Qed.

Lemma word_over_away n v bs g u : u + Z.of_nat n <= v \/ v + Z.of_nat (length bs) <= u -> word (over v bs g) n u = word g n u.
Proof. intros H. unfold word. by rewrite bytes_over_away. Qed.

Lemma word_ext n g h u : (forall a, u <= a < u + Z.of_nat n -> g a = h a) -> word g n u = word h n u.
Proof. intros H. unfold word. by rewrite (bytes_at_ext g h). Qed.
End wp.

(** ** The console a program is given *)

(** Where the loader has put the structure, stdin and the two outputs. *)
Record place := mkPlace {
  p_info : Z; p_in : Z; p_data : list Z; p_out : Z; p_out_max : Z; p_err : Z; p_err_max : Z; p_freq : Z
}.

(** The position in stdin and what has been written. *)
Record console := mkConsole { con_pos : nat; con_out : list Z; con_err : list Z }.

Definition console_init : console := mkConsole 0 [] [].

Definition apart (a n b k : Z) : Prop := a + n <= b \/ b + k <= a.

Inductive sink := Out | Err.

#[export] Instance sink_eq_dec : EqDecision sink.
Proof. solve_decision. Defined.

Definition sk_ptr (k : sink) : Z := match k with Out => 3 | Err => 6 end.
Definition sk_size (k : sink) : Z := match k with Out => 5 | Err => 8 end.
Definition sk_addr (k : sink) (P : place) : Z := match k with Out => p_out P | Err => p_err P end.
Definition sk_max (k : sink) (P : place) : Z := match k with Out => p_out_max P | Err => p_err_max P end.
Definition con_of (k : sink) (c : console) : list Z := match k with Out => con_out c | Err => con_err c end.
Definition con_append (k : sink) (l : list Z) (c : console) : console :=
  match k with
  | Out => mkConsole (con_pos c) (con_out c ++ l) (con_err c)
  | Err => mkConsole (con_pos c) (con_out c) (con_err c ++ l)
  end.
Definition con_advance (n : nat) (c : console) : console := mkConsole (con_pos c + n) (con_out c) (con_err c).

Section console.
Context {M : Type} `{UL : UserMemLaws M} (ws : nat) (e : env) (P : place).
Implicit Types (l : lib) (m : M) (c : console) (g : Z -> Z).

Definition info_len : Z := 13 * Z.of_nat ws + 8.
Abbreviation in_len := (Z.of_nat (length (p_data P))).

(** The bytes the library works with, and those only it may change. *)
Definition busy (a : Z) : Prop :=
  p_info P <= a < p_info P + info_len \/ p_out P <= a < p_out P + p_out_max P \/ p_err P <= a < p_err P + p_err_max P.
Definition prot (a : Z) : Prop := busy a \/ p_in P <= a < p_in P + in_len.

Record place_ok : Prop := {
  po_ws : ws = 4%nat \/ ws = 8%nat;
  po_duck : getauxval e AT_DUCK = p_info P;
  po_page : 0 < getauxval e AT_PAGESZ;
  po_freq : 0 < p_freq P;
  po_info : 0 <= p_info P /\ p_info P + info_len <= 2 ^ W ws;
  po_in : 0 <= p_in P /\ p_in P + in_len < 2 ^ W ws;
  po_out : 0 <= p_out P /\ 0 <= p_out_max P /\ p_out P + p_out_max P < 2 ^ W ws;
  po_err : 0 <= p_err P /\ 0 <= p_err_max P /\ p_err P + p_err_max P < 2 ^ W ws;
  po_apart1 : apart (p_info P) info_len (p_in P) in_len;
  po_apart2 : apart (p_info P) info_len (p_out P) (p_out_max P);
  po_apart3 : apart (p_info P) info_len (p_err P) (p_err_max P);
  po_apart4 : apart (p_in P) in_len (p_out P) (p_out_max P);
  po_apart5 : apart (p_in P) in_len (p_err P) (p_err_max P);
  po_apart6 : apart (p_out P) (p_out_max P) (p_err P) (p_err_max P)
}.

Definition field g (k : Z) : Z := word g ws (p_info P + Z.of_nat ws * k).

(** The bytes [g] show the console [c]. *)
Record holds c g : Prop := {
  ho_in_ptr : field g 1 = p_in P;
  ho_in_size : field g 2 = in_len;
  ho_ptr k : field g (sk_ptr k) = sk_addr k P;
  ho_size k : field g (sk_size k) = Z.of_nat (length (con_of k c));
  ho_limit k : field g (sk_ptr k + 1) = sk_max k P;
  ho_freq : word g 8 (p_info P + Z.of_nat ws * 13) = p_freq P;
  ho_data : bytes_at g (p_in P) (length (p_data P)) = p_data P;
  ho_bytes k : bytes_at g (sk_addr k P) (length (con_of k c)) = con_of k c;
  ho_fits k : Z.of_nat (length (con_of k c)) <= sk_max k P;
  ho_pos : (con_pos c <= length (p_data P))%nat
}.

(** The rights the loader gives. *)
Record rights m : Prop := {
  ri_ok : um_ok m;
  ri_info : range_ok (um_writable m) (p_info P) (Z.to_nat info_len);
  ri_in : range_ok (um_readable m) (p_in P) (length (p_data P));
  ri_sink k : range_ok (um_writable m) (sk_addr k P) (Z.to_nat (sk_max k P))
}.

(** The library's variables, before and after its initialisation. *)
Definition lib_rep c l : Prop :=
  if inited l then
    duckinfo l = p_info P /\ stdout_max_size l = p_out_max P /\ stderr_max_size l = p_err_max P /\
    stdin_curr_pos l = Z.of_nat (con_pos c) /\ tsc_frequency l = p_freq P
  else c = console_init.

Record rep c (s : st M) : Prop := {
  re_lib : lib_rep c (st_lib s);
  re_holds : holds c (um_byte (st_mem s));
  re_rights : rights (st_mem s)
}.

Lemma rights_moved m m' g : rights m -> moved m m' g -> rights m'.
Proof.
  intros [? ? ? ?] H. split; [apply H|..|intros k]; by apply (range_moved _ _ _ _ _ H).
Qed.

Hypothesis HP : place_ok.

Lemma ws_pos : 4 <= Z.of_nat ws <= 8.
Proof. destruct (po_ws HP) as [-> | ->]; lia. Qed.

Lemma W_range x : 0 <= x < 2 ^ W ws -> x < 2 ^ 64.
Proof. unfold W. destruct (po_ws HP) as [-> | ->]; cbn; lia. Qed.

Lemma field_ext g h k : 0 <= k <= 12 -> (forall a, prot a -> h a = g a) -> field h k = field g k.
Proof.
  intros Hk H. pose proof ws_pos. apply word_ext. intros a Ha. apply H. left. left. unfold info_len. nia.
Qed.

(** Only the protected bytes matter. *)
Lemma holds_ext c g h : holds c g -> (forall a, prot a -> h a = g a) -> holds c h.
Proof.
  intros [] H. split; try done; try (rewrite (field_ext g h) by (done || lia); done).
  - intros k. rewrite (field_ext g h) by (done || destruct k; cbn; lia). done.
  - intros k. rewrite (field_ext g h) by (done || destruct k; cbn; lia). done.
  - intros k. rewrite (field_ext g h) by (done || destruct k; cbn; lia). done.
  - rewrite (word_ext 8 h g); [done|]. intros a Ha. apply H. left. left. unfold info_len. lia.
  - rewrite (bytes_at_ext h g); [done|]. intros a Ha. apply H. by right.
  - intros k. rewrite (bytes_at_ext h g); [done|]. intros a Ha. apply H. left. right. specialize (ho_fits0 k). destruct k; cbn in *; lia.
Qed.

Lemma rep_moved c l m m' g : rep c (mkSt l m) -> moved m m' g -> (forall a, prot a -> g a = um_byte m a) -> rep c (mkSt l m').
Proof.
  intros [Hl Hh Hr] Hm Hg. split; [done| |by eapply rights_moved]. cbn [st_mem] in *.
  eapply holds_ext; [exact Hh|]. intros a Ha. rewrite (mv_byte _ _ _ Hm). by apply Hg.
Qed.

Lemma info_range m k : rights m -> 0 <= k <= 12 -> range_ok (um_writable m) (p_info P + Z.of_nat ws * k) ws.
Proof. intros Hr Hk a Ha. apply (ri_info _ Hr). pose proof ws_pos. unfold info_len. nia. Qed.

Lemma wp_get_field c l m k Q : duckinfo l = p_info P -> rights m -> 0 <= k <= 12 ->
  (forall m', moved m m' (um_byte m) -> Q (field (um_byte m) k) (mkSt l m')) -> wp (get_field ws k) (mkSt l m) Q.
Proof.
  intros Hd Hr Hk HQ. apply wp_bind, wp_get_lib. cbn [st_lib]. unfold field_addr. rewrite Hd.
  apply wp_load_word; [apply Hr| |exact HQ]. intros a Ha. apply um_writable_readable; [apply Hr|]. by eapply info_range.
Qed.

Lemma wp_set_field l m k x Q : duckinfo l = p_info P -> rights m -> 0 <= k <= 12 ->
  (forall m', moved m m' (over (p_info P + Z.of_nat ws * k) (le_bytes ws x) (um_byte m)) -> Q tt (mkSt l m')) ->
  wp (set_field ws k x) (mkSt l m) Q.
Proof.
  intros Hd Hr Hk HQ. apply wp_bind, wp_get_lib. cbn [st_lib]. unfold field_addr. rewrite Hd.
  apply wp_store_word; [apply Hr|by apply info_range|exact HQ].
Qed.

Lemma field_over g j k x : 0 <= x < 2 ^ W ws ->
  field (over (p_info P + Z.of_nat ws * k) (le_bytes ws x) g) j = if decide (j = k) then x else field g j.
Proof.
  intros Hx. unfold field. case_decide as Hj; [subst j; by apply word_over|]. pose proof ws_pos. apply word_over_away.
  rewrite length_le_bytes. nia.
Qed.

(** ** Writing *)

(** The bytes that still fit. *)
Definition room (k : sink) c (len : Z) : nat := Z.to_nat (Z.min len (sk_max k P - Z.of_nat (length (con_of k c)))).

Definition appended (k : sink) c (data : list Z) g : Z -> Z :=
  over (p_info P + Z.of_nat ws * sk_size k) (le_bytes ws (Z.of_nat (length (con_of k c) + length data)))
    (over (sk_addr k P + Z.of_nat (length (con_of k c))) data g).

Lemma appended_away k c data g a : Z.of_nat (length (con_of k c) + length data) <= sk_max k P -> ~ busy a -> appended k c data g a = g a.
Proof.
  intros Hf Ha. unfold busy, info_len in Ha. pose proof ws_pos. unfold appended. rewrite over_away, over_away; [done|..].
  - destruct k; cbn in *; lia.
  - rewrite length_le_bytes. destruct k; cbn in *; lia.
Qed.

Lemma sk_facts k : 0 <= sk_addr k P /\ 0 <= sk_max k P /\ sk_addr k P + sk_max k P < 2 ^ W ws /\
  apart (p_info P) info_len (sk_addr k P) (sk_max k P) /\ apart (p_in P) in_len (sk_addr k P) (sk_max k P) /\
  forall j, j <> k -> apart (sk_addr k P) (sk_max k P) (sk_addr j P) (sk_max j P).
Proof.
  destruct HP as [_ _ _ _ _ _ (O1 & O2 & O3) (E1 & E2 & E3) A1 A2 A3 A4 A5 A6].
  destruct k; cbn; (split_and!; [done..|]); intros [] Hj; try done. unfold apart in *. cbn. lia.
Qed.

Lemma con_of_append k j data c : con_of j (con_append k data c) = if decide (j = k) then con_of k c ++ data else con_of j c.
Proof. by destruct k, j. Qed.

Lemma holds_append k c data g : holds c g -> Z.of_nat (length (con_of k c) + length data) <= sk_max k P ->
  holds (con_append k data c) (appended k c data g).
Proof.
  intros Hh Hf. pose proof ws_pos as Hws. destruct (sk_facts k) as (S1 & S2 & S3 & S4 & S5 & S6).
  set (n := Z.of_nat (length (con_of k c) + length data)) in *. assert (0 <= n < 2 ^ W ws) as Hn by lia.
  assert (forall j, 0 <= j <= 12 -> field (appended k c data g) j = if decide (j = sk_size k) then n else field g j) as Hfield.
  { intros j Hj. unfold appended. rewrite field_over by done. case_decide; [done|]. apply word_over_away. unfold apart, info_len in S4. nia. }
  assert (forall v len, apart (p_info P) info_len v (Z.of_nat len) ->
    bytes_at (appended k c data g) v len = bytes_at (over (sk_addr k P + Z.of_nat (length (con_of k c))) data g) v len) as Hinfo.
  { intros v len Ha. unfold appended. apply bytes_over_away. rewrite length_le_bytes. unfold apart, info_len in Ha. destruct k; cbn; lia. }
  destruct Hh as [H1 H2 H3 H4 H5 Hfr H6 H7 H8 H9]. split.
  - rewrite Hfield, decide_False by (destruct k; cbn; lia). done.
  - rewrite Hfield, decide_False by (destruct k; cbn; lia). done.
  - intros j. rewrite Hfield, decide_False by (destruct j, k; cbn; lia). done.
  - intros j. rewrite Hfield by (destruct j; cbn; lia). rewrite con_of_append.
    destruct (decide (j = k)) as [->|Hjk]; [rewrite decide_True by done; by rewrite length_app|].
    rewrite decide_False by (by destruct j, k). apply H4.
  - intros j. rewrite Hfield, decide_False by (destruct j, k; cbn; lia). done.
  - unfold appended. rewrite word_over_away by (rewrite length_le_bytes; destruct k; cbn; lia).
    rewrite word_over_away by (unfold apart, info_len in S4; lia). done.
  - rewrite Hinfo by apply HP. rewrite bytes_over_away; [done|]. unfold apart in S5. lia.
  - intros j. rewrite con_of_append. destruct (sk_facts j) as (_ & _ & _ & T4 & _ & _). specialize (H8 j).
    destruct (decide (j = k)) as [->|Hjk].
    + rewrite length_app. rewrite Hinfo by (unfold apart in *; lia). rewrite bytes_at_app, bytes_over_away by lia.
      by rewrite H7, bytes_over.
    + rewrite Hinfo by (unfold apart in *; lia). specialize (S6 j Hjk). rewrite bytes_over_away; [done|]. unfold apart in S6. lia.
  - intros j. rewrite con_of_append. case_decide; [subst j; rewrite length_app; exact Hf|apply H8].
  - by destruct k.
Qed.

Lemma wp_append k c l m buf len Q : duckinfo l = p_info P -> holds c (um_byte m) -> rights m -> 0 <= len ->
  range_ok (um_readable m) buf (room k c len) -> apart buf len (sk_addr k P) (sk_max k P) \/ room k c len = O ->
  (forall m', moved m m' (appended k c (bytes_at (um_byte m) buf (room k c len)) (um_byte m)) ->
     Q (Z.of_nat (room k c len)) (mkSt l m')) ->
  wp (append ws (sk_ptr k) (sk_size k) (sk_max k P) buf len) (mkSt l m) Q.
Proof.
  intros Hd Hh Hr Hlen Hs Ha HQ. destruct (sk_facts k) as (S1 & S2 & S3 & S4 & S5 & S6).
  pose proof (ho_fits _ _ Hh k) as Hfit. pose proof ws_pos as Hws.
  assert (0 <= sk_ptr k <= 12 /\ 0 <= sk_size k <= 12) as [Hk1 Hk2] by (destruct k; cbn; lia).
  assert (wrap (W ws) (sk_max k P - Z.of_nat (length (con_of k c))) = sk_max k P - Z.of_nat (length (con_of k c))) as Hw
    by (apply wrap_small; unfold is_uint; lia).
  unfold append. apply wp_bind, (wp_get_field c); [done..|]. intros m1 M1. rewrite (ho_size _ _ Hh), Hw.
  pose proof (rights_moved _ _ _ Hr M1) as R1.
  assert (holds c (um_byte m1)) as H1 by (eapply holds_ext; [exact Hh|]; intros; apply M1).
  apply wp_bind, (wp_get_field c); [done..|]. intros m2 M2. rewrite (ho_ptr _ _ H1).
  pose proof (rights_moved _ _ _ R1 M2) as R2. pose proof (moved_trans _ _ _ _ _ M1 M2) as M12.
  assert (Z.of_nat (room k c len) = Z.min len (sk_max k P - Z.of_nat (length (con_of k c)))) as Hroom by (unfold room; lia).
  fold (room k c len). rewrite <- Hroom.
  apply wp_bind, wp_memcpy.
  - apply R2.
  - by apply (range_moved _ _ _ _ _ M12).
  - intros a Hin. apply (ri_sink _ R2 k). lia.
  - unfold apart in Ha. lia.
  - intros m3 M3. pose proof (rights_moved _ _ _ R2 M3) as R3.
    set (data := bytes_at (um_byte m2) buf (room k c len)) in *. assert (length data = room k c len) as Hdl by apply length_bytes_at.
    assert (field (um_byte m3) (sk_size k) = Z.of_nat (length (con_of k c))) as Hf3.
    { rewrite <- (ho_size _ _ Hh k). etrans; [apply word_ext; intros a _; apply M3|].
      etrans; [apply word_over_away; unfold apart, info_len in S4; rewrite Hdl; destruct k; cbn in *; lia|].
      apply word_ext. intros a _. rewrite (mv_byte _ _ _ M2). apply M1. }
    apply wp_bind, (wp_get_field c); [done..|]. intros m4 M4. rewrite Hf3. pose proof (rights_moved _ _ _ R3 M4) as R4.
    rewrite wrap_small by (unfold is_uint; lia).
    apply wp_bind, wp_set_field; [done..|]. intros m5 M5. apply wp_ret, HQ.
    assert (bytes_at (um_byte m) buf (room k c len) = data) as ->.
    { apply bytes_at_ext. intros a _. rewrite (mv_byte _ _ _ M2). symmetry. apply M1. }
    eapply moved_ext; [eapply moved_trans; [exact M12|]; eapply moved_trans; [exact M3|]; eapply moved_trans; [exact M4|exact M5]|].
    intros a. unfold appended. rewrite Hdl, Nat2Z.inj_add. apply over_ext. rewrite (mv_byte _ _ _ M4), (mv_byte _ _ _ M3).
    apply over_ext. rewrite (mv_byte _ _ _ M2). apply M1.
Qed.

Definition fd_sink (fd : Z) : option sink := if fd =? 1 then Some Out else if fd =? 2 then Some Err else None.

(** What a write does to the console: output beyond the limit is lost. *)
Definition con_put (k : sink) (data : list Z) c : console :=
  let l := take (Z.to_nat (sk_max k P)) (con_of k c ++ data) in
  match k with Out => mkConsole (con_pos c) l (con_err c) | Err => mkConsole (con_pos c) (con_out c) l end.

Definition con_write (fd : Z) (data : list Z) c : console := match fd_sink fd with Some k => con_put k data c | None => c end.

(** The number of bytes a write reports. *)
Definition reported (silently : bool) (fd : Z) (data : list Z) c : Z :=
  match fd_sink fd with
  | Some k => if silently then Z.of_nat (length data) else Z.of_nat (room k c (Z.of_nat (length data)))
  | None => 0
  end.

Lemma bytes_at_take g v n k : (k <= n)%nat -> bytes_at g v k = take k (bytes_at g v n).
Proof. intros H. replace n with (k + (n - k))%nat by lia. rewrite bytes_at_app. by rewrite take_app_length' by (by rewrite length_bytes_at). Qed.

Lemma con_put_append k c (data : list Z) : Z.of_nat (length (con_of k c)) <= sk_max k P ->
  con_put k data c = con_append k (take (room k c (Z.of_nat (length data))) data) c.
Proof.
  intros Hf. unfold con_put, con_append.
  assert (take (Z.to_nat (sk_max k P)) (con_of k c ++ data) = con_of k c ++ take (room k c (Z.of_nat (length data))) data) as ->.
  { rewrite take_app, take_ge by lia. f_equal. unfold room.
    destruct (decide (Z.of_nat (length data) <= sk_max k P - Z.of_nat (length (con_of k c)))).
    - rewrite !take_ge by lia. done.
    - f_equal. lia. }
  by destruct k.
Qed.

(** A source of a write: bytes the program may read, other than the library's. *)
Definition src_ok m (buf len : Z) : Prop :=
  is_uint (W ws) len /\ range_ok (um_readable m) buf (Z.to_nat len) /\ range_ok (fun a => ~ busy a) buf (Z.to_nat len).

Lemma src_apart m buf len k c : src_ok m buf len -> apart buf len (sk_addr k P) (sk_max k P) \/ room k c len = O.
Proof.
  intros ([Hl _] & _ & Hb). destruct (sk_facts k) as (_ & S2 & _). unfold apart.
  destruct (decide (buf + len <= sk_addr k P \/ sk_addr k P + sk_max k P <= buf)); [by left|right].
  unfold room. destruct (decide (len = 0)); [lia|]. destruct (decide (sk_max k P = 0)); [lia|]. exfalso.
  apply (Hb (Z.max buf (sk_addr k P))); [lia|]. right. destruct k; cbn in *; lia.
Qed.

(** The bytes after a call differ only where the library may write. *)
Definition kept m m' : Prop := exists g, moved m m' g /\ forall a, ~ busy a -> g a = um_byte m a.

Lemma kept_refl m : um_ok m -> kept m m.
Proof. intros. exists (um_byte m). split; [by apply moved_refl|done]. Qed.

Lemma kept_trans m m1 m2 : kept m m1 -> kept m1 m2 -> kept m m2.
Proof.
  intros (g1 & M1 & H1) (g2 & M2 & H2). exists g2. split; [by eapply moved_trans|]. intros a Ha.
  rewrite H2, (mv_byte _ _ _ M1) by done. by apply H1.
Qed.

Lemma kept_byte m m' a : kept m m' -> ~ busy a -> um_byte m' a = um_byte m a.
Proof. intros (g & Hm & Hg) Ha. rewrite (mv_byte _ _ _ Hm). by apply Hg. Qed.

Lemma kept_rights m m' : kept m m' -> (forall a, um_readable m' a <-> um_readable m a) /\ (forall a, um_writable m' a <-> um_writable m a).
Proof. intros (g & [] & _). done. Qed.

Lemma moved_kept m m' : moved m m' (um_byte m) -> kept m m'.
Proof. intros H. exists (um_byte m). done. Qed.

Lemma src_kept m m' buf len : kept m m' -> src_ok m buf len -> src_ok m' buf len.
Proof.
  intros [Hr _]%kept_rights (H1 & H2 & H3). split; [done|]. split; [|done]. intros a Ha. by apply Hr, H2.
Qed.

Lemma lib_rep_inited c l : inited l = true -> lib_rep c l -> duckinfo l = p_info P /\ stdout_max_size l = p_out_max P /\
  stderr_max_size l = p_err_max P /\ stdin_curr_pos l = Z.of_nat (con_pos c) /\ tsc_frequency l = p_freq P.
Proof. intros Hi. unfold lib_rep. by rewrite Hi. Qed.

Lemma con_pos_put k data c : con_pos (con_put k data c) = con_pos c.
Proof. by destruct k. Qed.

Lemma lib_rep_pos c c' l : inited l = true -> con_pos c' = con_pos c -> lib_rep c l -> lib_rep c' l.
Proof. intros Hi E. unfold lib_rep. by rewrite Hi, E. Qed.

(** A write to an output, for both libraries. *)
Lemma wp_sink k c l m buf len Q : inited l = true -> rep c (mkSt l m) -> src_ok m buf len ->
  (forall m', rep (con_put k (bytes_at (um_byte m) buf (Z.to_nat len)) c) (mkSt l m') -> kept m m' ->
     Q (Z.of_nat (room k c len)) (mkSt l m')) ->
  wp (append ws (sk_ptr k) (sk_size k) (sk_max k P) buf len) (mkSt l m) Q.
Proof.
  intros Hi Hrep Hsrc HQ. pose proof Hrep as [Hl Hh Hr]. cbn [st_lib st_mem] in *.
  destruct (lib_rep_inited _ _ Hi Hl) as (Hd & _). destruct Hsrc as ([Hlen Hlw] & Hsr & Hsb).
  assert (room k c len <= Z.to_nat len)%nat as Hroom by (unfold room; lia). pose proof (ho_fits _ _ Hh k) as Hfit.
  apply (wp_append k c); [done..| | |].
  - intros a Ha. apply Hsr. lia.
  - apply (src_apart m). done.
  - set (data := bytes_at (um_byte m) buf (room k c len)). intros m' Hm.
    assert (length data = room k c len) as Hdl by apply length_bytes_at.
    assert (Z.of_nat (length (con_of k c) + length data) <= sk_max k P) as Hf by (rewrite Hdl; unfold room; lia).
    apply HQ.
    + rewrite con_put_append by done. rewrite length_bytes_at, Z2Nat.id, <- bytes_at_take by lia. fold data. split; cbn [st_lib st_mem].
      * eapply lib_rep_pos; [done| |done]. by destruct k.
      * eapply holds_ext; [by apply holds_append|]. intros a _. apply Hm.
      * by eapply rights_moved.
    + eexists. split; [exact Hm|]. intros a Ha. by apply appended_away.
Qed.

Lemma wp_duck_write silently c l m fd buf len Q : inited l = true -> rep c (mkSt l m) ->
  src_ok m buf len ->
  (forall m', let data := bytes_at (um_byte m) buf (Z.to_nat len) in
     rep (con_write fd data c) (mkSt l m') -> kept m m' -> Q (reported silently fd data c) (mkSt l m')) ->
  wp (duck_write ws silently fd buf len) (mkSt l m) Q.
Proof.
  intros Hi Hrep Hsrc HQ. pose proof Hrep as [Hl Hh Hr]. cbn [st_lib st_mem] in *.
  destruct (lib_rep_inited _ _ Hi Hl) as (Hd & Ho & He & _). pose proof Hsrc as ([Hlen _] & _).
  cbv zeta in HQ. unfold reported, con_write, fd_sink in HQ. rewrite length_bytes_at, Z2Nat.id in HQ by done.
  unfold duck_write. apply wp_bind, wp_get_lib. cbn [st_lib].
  destruct (fd =? 1); [|destruct (fd =? 2)].
  - rewrite Ho. apply wp_bind, (wp_sink Out c); [done..|]. intros m' R K. apply wp_ret. by destruct silently; apply HQ.
  - rewrite He. apply wp_bind, (wp_sink Err c); [done..|]. intros m' R K. apply wp_ret. by destruct silently; apply HQ.
  - apply wp_ret, HQ; [done|]. apply kept_refl, Hr.
Qed.

(** *** Vectors *)

(** The entries of the array at [iov]. *)
Fixpoint iovs g (iov : Z) (n : nat) : list (Z * Z) :=
  match n with
  | O => []
  | S n => (word g ws iov, word g ws (iov + Z.of_nat ws)) :: iovs g (iov + 2 * Z.of_nat ws) n
  end.

(** The bytes a vector names. *)
Definition gather g (vs : list (Z * Z)) : list Z := vs ≫= (fun v => bytes_at g v.1 (Z.to_nat v.2)).

Definition iov_ok m (iov : Z) (n : nat) : Prop :=
  range_ok (um_readable m) iov (n * (2 * ws)) /\ range_ok (fun a => ~ busy a) iov (n * (2 * ws)).

Lemma iov_ok_S m iov n : iov_ok m iov (S n) -> range_ok (um_readable m) iov ws /\
  range_ok (um_readable m) (iov + Z.of_nat ws) ws /\ range_ok (fun a => ~ busy a) iov (2 * ws) /\
  iov_ok m (iov + 2 * Z.of_nat ws) n.
Proof. intros [H1 H2]. split_and!; [..|split]; intros a Ha; (apply H1 || apply H2); lia. Qed.

Lemma iovs_ext g h n : forall iov, (forall a, iov <= a < iov + Z.of_nat (n * (2 * ws)) -> g a = h a) -> iovs g iov n = iovs h iov n.
Proof.
  induction n as [|n IH]; intros iov H; [done|]. cbn [iovs]. rewrite (IH (iov + 2 * Z.of_nat ws)) by (intros; apply H; lia).
  by rewrite (word_ext ws g h iov), (word_ext ws g h (iov + Z.of_nat ws)) by (intros; apply H; lia).
Qed.

Lemma gather_ext g h (vs : list (Z * Z)) (X : Z -> Prop) : (forall a, X a -> g a = h a) ->
  Forall (fun v => range_ok X v.1 (Z.to_nat v.2)) vs -> gather g vs = gather h vs.
Proof.
  intros H. induction 1 as [|v vs Hv Hvs IH]; [done|]. unfold gather in *. cbn. rewrite IH. f_equal.
  apply bytes_at_ext. intros a Ha. by apply H, Hv.
Qed.

Lemma con_write_app fd d1 d2 c : con_write fd (d1 ++ d2) c = con_write fd d2 (con_write fd d1 c).
Proof.
  unfold con_write. destruct (fd_sink fd) as [k|]; [|done].
  unfold con_put. destruct k; cbn [con_of con_out con_err con_pos]; by rewrite take_take_app, app_assoc.
Qed.

Lemma length_con_put k d c : Z.of_nat (length (con_of k c)) <= sk_max k P ->
  length (con_of k (con_put k d c)) = (length (con_of k c) + room k c (Z.of_nat (length d)))%nat.
Proof.
  intros H. rewrite con_put_append by done. rewrite con_of_append, decide_True, length_app, length_take by done. f_equal. unfold room. lia.
Qed.

(** Either all of the first part is reported and the rest follows, or the output
    is full and the rest changes nothing. *)
Lemma reported_app silently fd d1 d2 c g : holds c g ->
  let r := reported silently fd d1 c in
  0 <= r <= Z.of_nat (length d1) /\
  (r = Z.of_nat (length d1) -> reported silently fd (d1 ++ d2) c = r + reported silently fd d2 (con_write fd d1 c)) /\
  (r <> Z.of_nat (length d1) -> reported silently fd (d1 ++ d2) c = r /\ con_write fd (d1 ++ d2) c = con_write fd d1 c).
Proof.
  intros Hh r. subst r. unfold reported. rewrite length_app. destruct (fd_sink fd) as [k|] eqn:Ek.
  2: { unfold con_write. rewrite Ek. split; [lia|]. split; [lia|done]. }
  pose proof (ho_fits _ _ Hh k) as Hf. pose proof (length_con_put k d1 c Hf) as Hl. unfold con_write. rewrite Ek.
  destruct silently; [split; [lia|]; split; [lia|done]|]. split; [unfold room; lia|]. split.
  - intros Hr. assert (room k (con_put k d1 c) (Z.of_nat (length d2)) =
      Z.to_nat (Z.min (Z.of_nat (length d2)) (sk_max k P - Z.of_nat (length (con_of k c)) - Z.of_nat (length d1)))) as ->
      by (unfold room at 1; rewrite Hl; lia). unfold room in *. lia.
  - intros Hr. split; [unfold room in *; lia|]. unfold con_put.
    rewrite app_assoc, (take_app_le (con_of k c ++ d1)) by (rewrite length_app; unfold room in Hr; lia). done.
Qed.

Lemma wp_writev silently n : forall c l m fd iov ret Q, inited l = true -> rep c (mkSt l m) -> iov_ok m iov n ->
  Forall (fun v => src_ok m v.1 v.2) (iovs (um_byte m) iov n) -> is_uint (W ws) ret ->
  (forall m', let data := gather (um_byte m) (iovs (um_byte m) iov n) in
     rep (con_write fd data c) (mkSt l m') -> kept m m' -> Q (wrap (W ws) (ret + reported silently fd data c)) (mkSt l m')) ->
  wp (iov_loop ws (duck_write ws silently fd) n iov ret) (mkSt l m) Q.
Proof.
  induction n as [|n IH]; intros c l m fd iov ret Q Hi Hrep Hiov Hsrc Hret HQ; cbn [iov_loop].
  - cbn [iovs gather mbind list_bind] in HQ. apply wp_ret. specialize (HQ m). cbv zeta in HQ.
    assert (con_write fd [] c = c) as Hc.
    { unfold con_write, con_put. destruct (fd_sink fd) as [k|]; [|done]. rewrite app_nil_r, take_ge by (pose proof (ho_fits _ _ (re_holds _ _ Hrep) k); lia).
      by destruct k, c. }
    assert (reported silently fd [] c = 0) as Hz.
    { unfold reported, room. destruct (fd_sink fd), silently; cbn [length]; lia. }
    rewrite Hc, Hz, Z.add_0_r, wrap_small in HQ by done. apply HQ; [done|]. apply kept_refl, Hrep.
  - destruct (iov_ok_S _ _ _ Hiov) as (Rb & Rl & Nb & Hiov'). cbn [iovs] in Hsrc, HQ. apply Forall_cons in Hsrc as [Hs0 Hsrc]. cbn [fst snd] in Hs0.
    set (base := word (um_byte m) ws iov) in *. set (len := word (um_byte m) ws (iov + Z.of_nat ws)) in *.
    apply wp_bind, wp_load_word; [apply Hrep|done|]. intros m1 M1. fold base.
    apply wp_bind, wp_load_word; [apply M1|by apply (range_moved _ _ _ _ _ M1)|]. intros m2 M2.
    pose proof (kept_trans _ _ _ (moved_kept _ _ M1) (moved_kept _ _ M2)) as K2.
    rewrite (word_ext ws (um_byte m1) (um_byte m) (iov + Z.of_nat ws)) by (intros; apply M1). fold len.
    assert (rep c (mkSt l m2)) as Hrep2.
    { eapply rep_moved; [eapply rep_moved; [exact Hrep|exact M1|done]|exact M2|done]. }
    apply wp_bind, (wp_duck_write silently c); [done|done|by eapply src_kept|]. intros m3 data R3 K3'. cbv zeta in data, R3, K3'.
    assert (data = bytes_at (um_byte m) base (Z.to_nat len)) as Ed.
    { apply bytes_at_ext. intros a _. rewrite (mv_byte _ _ _ M2). apply M1. }
    pose proof (kept_trans _ _ _ K2 K3') as K3. destruct (kept_rights _ _ K3) as [KR KW].
    apply wp_bind, wp_load_word; [apply R3|intros a Ha; by apply KR, Rl|]. intros m4 M4.
    rewrite (word_ext ws (um_byte m3) (um_byte m) (iov + Z.of_nat ws)) by (intros a Ha; apply (kept_byte m); [done|apply Nb; lia]).
    fold len. pose proof (kept_trans _ _ _ K3 (moved_kept _ _ M4)) as K4.
    assert (rep (con_write fd data c) (mkSt l m4)) as R4 by (eapply rep_moved; [exact R3|exact M4|done]).
    set (rest := gather (um_byte m) (iovs (um_byte m) (iov + 2 * Z.of_nat ws) n)) in *.
    assert (gather (um_byte m) ((base, len) :: iovs (um_byte m) (iov + 2 * Z.of_nat ws) n) = data ++ rest) as Hg
      by (rewrite Ed; reflexivity). cbv zeta in HQ. rewrite Hg in HQ.
    destruct Hs0 as ([Hl0 _] & _). assert (Z.of_nat (length data) = len) as Hdl by (rewrite Ed, length_bytes_at; lia).
    destruct (reported_app silently fd data rest c _ (re_holds _ _ Hrep)) as (B & Bc & Bs). cbv zeta in B, Bc, Bs. rewrite Hdl in *.
    rewrite (proj2 (Z.leb_le _ _)) by lia.
    destruct (Z.eqb_spec (reported silently fd data c) len) as [Er|Er]; cbn [negb].
    + assert (iovs (um_byte m4) (iov + 2 * Z.of_nat ws) n = iovs (um_byte m) (iov + 2 * Z.of_nat ws) n) as Ei.
      { apply iovs_ext. intros a Ha. apply (kept_byte m); [done|]. apply Hiov'. done. }
      assert (gather (um_byte m4) (iovs (um_byte m) (iov + 2 * Z.of_nat ws) n) = rest) as Eg.
      { apply (gather_ext _ _ _ (fun a => ~ busy a)); [intros a Ha; by apply kept_byte|].
        eapply Forall_impl; [exact Hsrc|]. intros v (_ & _ & Hv). exact Hv. }
      apply (IH (con_write fd data c)); [done|done| | |by apply wrap_range; unfold W; lia|].
      * destruct Hiov' as [H1 H2]. split; [|done]. intros a Ha. apply (kept_rights _ _ K4). by apply H1.
      * rewrite Ei. eapply Forall_impl; [exact Hsrc|]. intros v Hv. by eapply src_kept.
      * intros m5. rewrite Ei, Eg. cbv zeta. intros R5 K5. rewrite <- con_write_app in R5. rewrite wrap_add_l.
        replace (ret + reported silently fd data c + reported silently fd rest (con_write fd data c))
          with (ret + reported silently fd (data ++ rest) c) by (rewrite (Bc Er); lia).
        apply HQ; [done|by eapply kept_trans].
    + destruct (Bs Er) as [B1 B2]. apply wp_ret. rewrite <- B1. apply HQ; [by rewrite B2|done].
Qed.

(** ** Reading *)

(** What descriptor [fd] has left. *)
Definition stream (fd : Z) c : list Z := if fd =? 0 then drop (con_pos c) (p_data P) else [].

(** A destination of a read: bytes the program may write and the library does
    not use. *)
Definition dst_ok m (buf len : Z) : Prop :=
  is_uint (W ws) len /\ range_ok (um_writable m) buf (Z.to_nat len) /\ range_ok (fun a => ~ prot a) buf (Z.to_nat len).

Lemma stream_advance fd c n : (n <= length (stream fd c))%nat -> stream fd (con_advance n c) = drop n (stream fd c).
Proof. unfold stream, con_advance. cbn [con_pos]. case_if; [|by rewrite drop_nil]. by rewrite drop_drop, Nat.add_comm. Qed.

Lemma holds_pos c c' g : holds c g -> con_out c' = con_out c -> con_err c' = con_err c -> (con_pos c' <= length (p_data P))%nat -> holds c' g.
Proof.
  intros [] Ho He Hp. assert (forall k, con_of k c' = con_of k c) as E by (by intros []). split; try done; intros k; by rewrite E.
Qed.

Lemma rep_over c l m m' buf data : rep c (mkSt l m) -> moved m m' (over buf data (um_byte m)) ->
  range_ok (fun a => ~ prot a) buf (length data) -> rep c (mkSt l m').
Proof. intros Hr Hm Hp. eapply rep_moved; [done..|]. intros a Ha. apply over_away. intros Hin. by apply (Hp a Hin). Qed.

Lemma wp_duck_read c l m fd buf len Q : inited l = true -> rep c (mkSt l m) -> dst_ok m buf len ->
  (forall l' m', let data := take (Z.to_nat len) (stream fd c) in inited l' = true ->
     rep (con_advance (length data) c) (mkSt l' m') -> moved m m' (over buf data (um_byte m)) ->
     Q (Z.of_nat (length data)) (mkSt l' m')) ->
  wp (duck_read ws fd buf len) (mkSt l m) Q.
Proof.
  intros Hi Hrep Hdst HQ. pose proof Hrep as [Hl Hh Hr]. cbn [st_lib st_mem] in *. cbv zeta in HQ.
  destruct (lib_rep_inited _ _ Hi Hl) as (Hd & Ho & He & Hpos & Hfq). destruct Hdst as ([Hlen Hlw] & Hdw & Hdp).
  pose proof (ho_pos _ _ Hh) as Hp. destruct (po_in HP) as [I1 I2]. unfold duck_read.
  unfold stream in HQ. destruct (fd =? 0); cycle 1.
  { apply wp_ret. rewrite take_nil in HQ. cbn [length] in HQ. apply HQ; [done| |].
    - destruct c. unfold con_advance. cbn [con_pos]. rewrite Nat.add_0_r. done.
    - eapply moved_ext; [apply moved_refl, Hr|]. intros a. by rewrite over_nil. }
  set (data := take (Z.to_nat len) (drop (con_pos c) (p_data P))) in *.
  assert (Z.of_nat (length data) = Z.min len (in_len - Z.of_nat (con_pos c))) as Hdl
    by (unfold data; rewrite length_take, length_drop; lia).
  apply wp_bind, (wp_get_field c); [done|done|lia|]. intros m1 M1. rewrite (ho_in_size _ _ Hh).
  apply wp_bind, wp_get_lib. cbn [st_lib]. rewrite Hpos, (wrap_small (W ws) (in_len - _)) by (unfold is_uint; lia). rewrite <- Hdl.
  assert (holds c (um_byte m1)) as H1 by (eapply holds_ext; [exact Hh|]; intros; apply M1).
  pose proof (rights_moved _ _ _ Hr M1) as R1.
  apply wp_bind, (wp_get_field c); [done|done|lia|]. intros m2 M2. rewrite (ho_in_ptr _ _ H1).
  pose proof (rights_moved _ _ _ R1 M2) as R2. pose proof (moved_trans _ _ _ _ _ M1 M2) as M12.
  assert (forall a, um_byte m2 a = um_byte m a) as E2 by (intros a; rewrite (mv_byte _ _ _ M2); apply M1).
  rewrite Nat2Z.id. apply wp_bind, wp_memcpy.
  - apply R2.
  - intros a Ha. apply (ri_in _ R2). lia.
  - intros a Ha. apply M12, Hdw. lia.
  - destruct (decide (length data = O)); [by right; right|].
    destruct (decide (p_in P + Z.of_nat (con_pos c) + Z.of_nat (length data) <= buf)); [by left|].
    destruct (decide (buf + Z.of_nat (length data) <= p_in P + Z.of_nat (con_pos c))); [by right; left|]. exfalso.
    apply (Hdp (Z.max buf (p_in P + Z.of_nat (con_pos c)))); [lia|]. right. lia.
  - intros m3 M3.
    assert (bytes_at (um_byte m2) (p_in P + Z.of_nat (con_pos c)) (length data) = data) as Ed.
    { rewrite (bytes_at_ext _ (um_byte m)) by (intros; apply E2). pose proof (ho_data _ _ Hh) as Hda.
      replace (length (p_data P)) with (con_pos c + (length (p_data P) - con_pos c))%nat in Hda by lia. rewrite bytes_at_app in Hda.
      rewrite (bytes_at_take _ _ (length (p_data P) - con_pos c)) by lia. apply (f_equal (drop (con_pos c))) in Hda.
      rewrite drop_app_length' in Hda by (by rewrite length_bytes_at). rewrite Hda. unfold data. rewrite length_take.
      apply list_eq. intros i. destruct (decide (i < Z.to_nat len `min` length (drop (con_pos c) (p_data P)))%nat).
      - rewrite !lookup_take_lt by lia. done.
      - rewrite !lookup_ge_None_2; [done|..]; rewrite length_take; lia. }
    rewrite Ed in M3. apply wp_bind, wp_put_lib. apply wp_ret. cbn [st_mem].
    assert (moved m m3 (over buf data (um_byte m))) as M13.
    { eapply moved_ext; [eapply moved_trans; [exact M12|exact M3]|]. intros a. by apply over_ext. }
    apply HQ; [done| |done].
    assert (range_ok (fun a => ~ prot a) buf (length data)) as Hpd by (intros a Ha; apply Hdp; lia).
    pose proof (rep_over c l m m3 buf data Hrep M13 Hpd) as [_ Hh3 Hr3]. split; cbn [st_lib st_mem] in *; [|..|done].
    + unfold lib_rep. cbn. rewrite Hi, wrap_small by (unfold is_uint; lia). split_and!; try done. lia.
    + eapply holds_pos; [exact Hh3|done|done|]. cbn. lia.
Qed.

(** The bytes [data] spread over the entries of a vector. *)
Fixpoint scatter (vs : list (Z * Z)) (data : list Z) g : Z -> Z :=
  match vs with
  | [] => g
  | v :: vs => scatter vs (drop (Z.to_nat v.2) data) (over v.1 (take (Z.to_nat v.2) data) g)
  end.

Definition total (vs : list (Z * Z)) : nat := sum_list_with (fun v => Z.to_nat v.2) vs.

Lemma scatter_ext vs : forall data g h a, (forall a, g a = h a) -> scatter vs data g a = scatter vs data h a.
Proof. induction vs as [|v vs IH]; intros data g h a H; cbn [scatter]; [done|]. apply IH. intros b. by apply over_ext. Qed.

Lemma scatter_nil vs : forall g a, scatter vs [] g a = g a.
Proof.
  induction vs as [|v vs IH]; intros g a; [done|]. cbn [scatter]. rewrite drop_nil, take_nil, IH. apply over_nil.
Qed.

Lemma dst_moved m m' g buf len : moved m m' g -> dst_ok m buf len -> dst_ok m' buf len.
Proof. intros Hm (H1 & H2 & H3). split; [done|]. split; [|done]. by apply (range_moved _ _ _ _ _ Hm). Qed.

(** The array of a vector lies outside its buffers. *)
Definition iov_apart (iov : Z) (n : nat) (vs : list (Z * Z)) : Prop :=
  Forall (fun v => range_ok (fun a => ~ (iov <= a < iov + Z.of_nat (n * (2 * ws)))) v.1 (Z.to_nat v.2)) vs.

Lemma wp_readv n : forall c l m fd iov ret Q, inited l = true -> rep c (mkSt l m) ->
  range_ok (um_readable m) iov (n * (2 * ws)) ->
  Forall (fun v => dst_ok m v.1 v.2) (iovs (um_byte m) iov n) -> iov_apart iov n (iovs (um_byte m) iov n) -> is_uint (W ws) ret ->
  (forall l' m', let vs := iovs (um_byte m) iov n in let data := take (total vs) (stream fd c) in inited l' = true ->
     rep (con_advance (length data) c) (mkSt l' m') -> moved m m' (scatter vs data (um_byte m)) ->
     Q (wrap (W ws) (ret + Z.of_nat (length data))) (mkSt l' m')) ->
  wp (iov_loop ws (duck_read ws fd) n iov ret) (mkSt l m) Q.
Proof.
  induction n as [|n IH]; intros c l m fd iov ret Q Hi Hrep Hiov Hdst Hap Hret HQ; cbn [iov_loop].
  - cbn [iovs total sum_list_with take length scatter] in HQ. cbv zeta in HQ. apply wp_ret. specialize (HQ l m Hi).
    rewrite Z.add_0_r, wrap_small in HQ by done. apply HQ.
    + destruct c. unfold con_advance. cbn [con_pos]. rewrite Nat.add_0_r. done.
    + apply moved_refl, Hrep.
  - cbn [iovs] in Hdst, Hap, HQ. set (base := word (um_byte m) ws iov) in *. set (len := word (um_byte m) ws (iov + Z.of_nat ws)) in *.
    apply Forall_cons in Hdst as [Hd0 Hdst]. unfold iov_apart in Hap. apply Forall_cons in Hap as [Ha0 Hap]. cbn [fst snd] in Hd0, Ha0.
    assert (range_ok (um_readable m) iov ws /\ range_ok (um_readable m) (iov + Z.of_nat ws) ws) as [Rb Rl]
      by (split; intros a Ha; apply Hiov; lia).
    apply wp_bind, wp_load_word; [apply Hrep|done|]. intros m1 M1. fold base.
    apply wp_bind, wp_load_word; [apply M1|by apply (range_moved _ _ _ _ _ M1)|]. intros m2 M2.
    rewrite (word_ext ws (um_byte m1) (um_byte m) (iov + Z.of_nat ws)) by (intros; apply M1). fold len.
    assert (rep c (mkSt l m2)) as Hrep2.
    { eapply rep_moved; [eapply rep_moved; [exact Hrep|exact M1|done]|exact M2|done]. }
    assert (moved m m2 (um_byte m)) as M12 by (eapply moved_ext; [by eapply moved_trans|]; apply M1).
    apply wp_bind, (wp_duck_read c); [done|done|by eapply dst_moved|]. intros l3 m3. cbv zeta.
    set (d0 := take (Z.to_nat len) (stream fd c)). intros Hi3 R3 M3'.
    assert (moved m m3 (over base d0 (um_byte m))) as M3.
    { eapply moved_ext; [by eapply moved_trans|]. intros a. apply over_ext. apply M12. }
    assert (length d0 <= Z.to_nat len)%nat as Hd0l by (unfold d0; rewrite length_take; lia).
    assert (forall a, iov <= a < iov + Z.of_nat (S n * (2 * ws)) -> over base d0 (um_byte m) a = um_byte m a) as Hkeep.
    { intros a Ha. apply over_away. intros Hin. apply (Ha0 a); [lia|done]. }
    apply wp_bind, wp_load_word; [apply M3|by apply (range_moved _ _ _ _ _ M3)|]. intros m4 M4.
    rewrite (word_ext ws (um_byte m3) (um_byte m) (iov + Z.of_nat ws)) by
      (intros a Ha; rewrite (mv_byte _ _ _ M3); apply Hkeep; lia).
    fold len. destruct Hd0 as ([Hl0 Hlw] & _). rewrite (proj2 (Z.leb_le _ _)) by lia.
    set (vs := iovs (um_byte m) (iov + 2 * Z.of_nat ws) n) in *.
    assert (moved m m4 (over base d0 (um_byte m))) as M4' by (eapply moved_ext; [by eapply moved_trans|]; apply M3).
    assert (rep (con_advance (length d0) c) (mkSt l3 m4)) as R4 by (eapply rep_moved; [exact R3|exact M4|done]).
    assert (take (total ((base, len) :: vs)) (stream fd c) = d0 ++ take (total vs) (drop (Z.to_nat len) (stream fd c))) as Ht.
    { unfold total. cbn [sum_list_with snd]. unfold d0. by rewrite take_take_drop. }
    cbv zeta in HQ. rewrite Ht in HQ. cbn [scatter fst snd] in HQ.
    destruct (Z.eqb_spec (Z.of_nat (length d0)) len) as [Er|Er]; cbn [negb].
    + assert (iovs (um_byte m4) (iov + 2 * Z.of_nat ws) n = vs) as Ei.
      { apply iovs_ext. intros a Ha. rewrite (mv_byte _ _ _ M4'). apply Hkeep. lia. }
      assert (length d0 = Z.to_nat len) as Edl by lia.
      assert (stream fd (con_advance (length d0) c) = drop (Z.to_nat len) (stream fd c)) as Es.
      { rewrite <- Edl. apply stream_advance. unfold d0. rewrite length_take. lia. }
      apply (IH (con_advance (length d0) c)); [done|done| | | |by apply wrap_range; unfold W; lia|].
      * apply (range_moved _ _ _ _ _ M4'). intros a Ha. apply Hiov. lia.
      * rewrite Ei. eapply Forall_impl; [exact Hdst|]. intros v Hv. by eapply dst_moved.
      * rewrite Ei. eapply Forall_impl; [exact Hap|]. intros v Hv a Ha Hin. apply (Hv a Ha). lia.
      * intros l5 m5. cbv zeta. rewrite Ei, Es. set (d1 := take (total vs) _) in *. intros Hi5 R5 M5. rewrite wrap_add_l.
        replace (ret + Z.of_nat (length d0) + Z.of_nat (length d1)) with (ret + Z.of_nat (length (d0 ++ d1))) by (rewrite length_app; lia).
        apply HQ; [done| |].
        -- rewrite length_app. unfold con_advance in *. cbn [con_pos con_out con_err] in R5. by rewrite Nat.add_assoc.
        -- eapply moved_ext; [by eapply moved_trans|]. intros a. rewrite drop_app_length', take_app_length' by lia.
           apply scatter_ext. intros b. apply M4'.
    + assert (drop (Z.to_nat len) (stream fd c) = []) as E0.
      { apply nil_length_inv. rewrite length_drop. unfold d0 in Er, Hd0l. rewrite length_take in Er, Hd0l. lia. }
      rewrite E0, take_nil, app_nil_r in HQ. apply wp_ret, HQ; [done|done|].
      eapply moved_ext; [exact M4'|]. intros a. rewrite take_ge, drop_ge by lia. by rewrite scatter_nil.
Qed.

(** ** Initialisation *)

Lemma wp_reset k l m Q : duckinfo l = p_info P -> holds console_init (um_byte m) -> rights m ->
  (forall m', holds console_init (um_byte m') -> rights m' -> kept m m' -> Q tt (mkSt l m')) ->
  wp (set_field ws (sk_size k) 0) (mkSt l m) Q.
Proof.
  intros Hd Hh Hr HQ. destruct (sk_facts k) as (_ & S2 & _). assert (0 <= sk_size k <= 12) as Hk by (destruct k; cbn; lia).
  assert (length (con_of k console_init) = O) as Hl by (by destruct k).
  apply wp_set_field; [done..|]. intros m' Hm.
  assert (forall a, um_byte m' a = appended k console_init [] (um_byte m) a) as E.
  { intros a. rewrite (mv_byte _ _ _ Hm). unfold appended. rewrite Hl. apply over_ext. by rewrite over_nil. }
  apply HQ.
  - eapply holds_ext; [|intros a _; apply E]. replace console_init with (con_append k [] console_init) at 1 by (by destruct k).
    apply holds_append; [done|]. rewrite Hl. cbn. lia.
  - by eapply rights_moved.
  - eexists. split; [exact Hm|]. intros a Ha. rewrite <- (mv_byte _ _ _ Hm), E. apply appended_away; [rewrite Hl; cbn; lia|done].
Qed.

Lemma holds_moved c m m' : holds c (um_byte m) -> moved m m' (um_byte m) -> holds c (um_byte m').
Proof. intros Hh Hm. eapply holds_ext; [exact Hh|]. intros a _. apply Hm. Qed.

Lemma wp_ensure_init c l m Q : rep c (mkSt l m) ->
  (forall l' m', inited l' = true -> rep c (mkSt l' m') -> kept m m' -> Q tt (mkSt l' m')) ->
  wp (ensure_init ws e) (mkSt l m) Q.
Proof.
  intros Hrep HQ. pose proof Hrep as [Hl Hh Hr]. cbn [st_lib st_mem] in *. apply wp_bind, wp_get_lib. cbn [st_lib].
  destruct (inited l) eqn:Hi; [apply wp_ret, HQ; [done..|apply kept_refl, Hr]|].
  unfold lib_rep in Hl. rewrite Hi in Hl. subst c.
  apply wp_bind, wp_get_lib. apply wp_bind, wp_put_lib. cbn [st_lib st_mem duckinfo mmap_p fs_base].
  pose proof (po_duck HP) as Hduck. set (l1 := mkLib _ _ _ _ _ _ _ _ _). assert (duckinfo l1 = p_info P) as Hd1 by done.
  apply wp_bind, (wp_get_field console_init); [done|done|lia|]. intros m1 M1. rewrite (ho_limit _ _ Hh Out : field (um_byte m) 4 = p_out_max P).
  pose proof (holds_moved _ _ _ Hh M1) as H1. pose proof (rights_moved _ _ _ Hr M1) as R1.
  apply wp_bind, (wp_reset Out); [done..|]. intros m2 H2 R2 K2.
  apply wp_bind, (wp_get_field console_init); [done|done|lia|]. intros m3 M3. rewrite (ho_limit _ _ H2 Err : field (um_byte m2) 7 = p_err_max P).
  pose proof (holds_moved _ _ _ H2 M3) as H3. pose proof (rights_moved _ _ _ R2 M3) as R3.
  apply wp_bind, (wp_reset Err); [done..|]. intros m4 H4 R4 K4.
  rewrite (proj2 (Z.eqb_neq _ _)) by (pose proof (po_page HP); lia).
  apply wp_bind, wp_load_word; [apply R4| |].
  { intros a Ha. apply um_writable_readable; [apply R4|]. apply (ri_info _ R4). unfold field_addr in Ha. rewrite Hd1 in Ha. unfold info_len. lia. }
  intros m5 M5. unfold field_addr. rewrite Hd1, (ho_freq _ _ H4). apply wp_put_lib. cbn [st_mem]. apply HQ; [done| |].
  - split; cbn [st_lib st_mem]; [|by eapply holds_moved|by eapply rights_moved]. unfold lib_rep. cbn. by rewrite Hduck.
  - eapply kept_trans; [apply moved_kept, M1|]. eapply kept_trans; [exact K2|]. eapply kept_trans; [apply moved_kept, M3|].
    eapply kept_trans; [exact K4|apply moved_kept, M5].
Qed.

(** ** Calls that fill a structure of the program *)

(** Storing outside the library's bytes. *)
Lemma wp_fill c l m v bs Q : rep c (mkSt l m) -> range_ok (um_writable m) v (length bs) -> Forall is_byte bs ->
  range_ok (fun a => ~ prot a) v (length bs) ->
  (forall m', rep c (mkSt l m') -> moved m m' (over v bs (um_byte m)) -> Q tt (mkSt l m')) -> wp (store_bytes v bs) (mkSt l m) Q.
Proof.
  intros Hrep Hw Hb Hp HQ. apply wp_store_bytes; [apply Hrep|done..|]. intros m' Hm. apply HQ; [by eapply rep_over|done].
Qed.

Lemma wp_fill_word c l m n v x Q : rep c (mkSt l m) -> range_ok (um_writable m) v n -> range_ok (fun a => ~ prot a) v n ->
  (forall m', rep c (mkSt l m') -> moved m m' (over v (le_bytes n x) (um_byte m)) -> Q tt (mkSt l m')) ->
  wp (store_word n v x) (mkSt l m) Q.
Proof.
  intros Hrep Hw Hp HQ. apply (wp_fill c); [done|by rewrite length_le_bytes|apply le_bytes_are_bytes|by rewrite length_le_bytes|done].
Qed.

(** The fields of a structure lie inside it. *)
Record stat_ok (t : stat_layout) : Prop := {
  so_mode : 0 <= (st_mode t).1 /\ (st_mode t).1 + Z.of_nat (st_mode t).2 <= Z.of_nat (st_sizeof t);
  so_size : 0 <= (st_size t).1 /\ (st_size t).1 + Z.of_nat (st_size t).2 <= Z.of_nat (st_sizeof t);
  so_blksize : 0 <= (st_blksize t).1 /\ (st_blksize t).1 + Z.of_nat (st_blksize t).2 <= Z.of_nat (st_sizeof t);
  so_blocks : 0 <= (st_blocks t).1 /\ (st_blocks t).1 + Z.of_nat (st_blocks t).2 <= Z.of_nat (st_sizeof t)
}.

Definition buffer_ok m (v : Z) (n : nat) : Prop := range_ok (um_writable m) v n /\ range_ok (fun a => ~ prot a) v n.

Lemma buffer_moved m m' g v n : moved m m' g -> buffer_ok m v n -> buffer_ok m' v n.
Proof. intros Hm [H1 H2]. split; [by apply (range_moved _ _ _ _ _ Hm)|done]. Qed.

Lemma buffer_sub m v n o k : buffer_ok m v n -> 0 <= o -> o + Z.of_nat k <= Z.of_nat n -> buffer_ok m (v + o) k.
Proof. intros [H1 H2] Ho Hk. split; intros a Ha; [apply H1|apply H2]; lia. Qed.

Lemma wp_store_stat c l m t mode size Q : stat_ok (stat e) -> rep c (mkSt l m) -> buffer_ok m t (st_sizeof (stat e)) ->
  (forall m', rep c (mkSt l m') -> Q tt (mkSt l m')) -> wp (store_stat ws e t mode size) (mkSt l m) Q.
Proof.
  intros [[A1 A2] [B1 B2] [C1 C2] [D1 D2]] Hrep Hb HQ. unfold store_stat.
  destruct (buffer_sub _ _ _ _ _ Hb A1 A2) as [W1 P1]. apply wp_bind, (wp_fill_word c); [done..|]. intros m1 R1 M1.
  apply (buffer_moved _ _ _ _ _ M1) in Hb.
  destruct (buffer_sub _ _ _ _ _ Hb B1 B2) as [W2 P2]. apply wp_bind, (wp_fill_word c); [done..|]. intros m2 R2 M2.
  apply (buffer_moved _ _ _ _ _ M2) in Hb.
  destruct (buffer_sub _ _ _ _ _ Hb C1 C2) as [W3 P3]. apply wp_bind, (wp_fill_word c); [done..|]. intros m3 R3 M3.
  apply (buffer_moved _ _ _ _ _ M3) in Hb.
  destruct (buffer_sub _ _ _ _ _ Hb D1 D2) as [W4 P4]. apply (wp_fill_word c); [done..|]. intros m4 R4 M4. by apply HQ.
Qed.

(** The sizes [fstat] reports are those of the console; descriptors other than 0
    and 1 are refused. *)
Lemma wp_duck_fstat perm c l m fd t Q : inited l = true -> stat_ok (stat e) -> rep c (mkSt l m) -> buffer_ok m t (st_sizeof (stat e)) ->
  (forall r m', rep c (mkSt l m') -> Q r (mkSt l m')) -> wp (duck_fstat ws e perm fd t) (mkSt l m) Q.
Proof.
  intros Hi Hs Hrep Hb HQ. unfold duck_fstat. destruct (lib_rep_inited _ _ Hi (re_lib _ _ Hrep)) as (Hd & _). cbn [st_lib] in Hd.
  apply wp_bind, (wp_fill c); [done|by rewrite length_replicate; apply Hb|by apply Forall_replicate|by rewrite length_replicate; apply Hb|].
  intros m1 R1 M1. apply (buffer_moved _ _ _ _ _ M1) in Hb.
  assert (forall k, 0 <= k <= 12 -> wp (size ← get_field ws k; store_stat ws e t (Z.lor S_IFREG perm) size;; mret 0) (mkSt l m1) Q) as Hk.
  { intros k Hk. apply wp_bind, (wp_get_field c); [done|apply R1|done|]. intros m2 M2. apply (buffer_moved _ _ _ _ _ M2) in Hb.
    assert (rep c (mkSt l m2)) as R2 by (eapply rep_moved; [exact R1|exact M2|done]).
    apply wp_bind, (wp_store_stat c); [done..|]. intros m3 R3. by apply wp_ret, HQ. }
  destruct (fd =? 0); [apply Hk; lia|]. destruct (fd =? 1); [apply Hk; lia|]. by apply wp_ret, HQ.
Qed.

Lemma wp_clock c l m tsc id tp Q : inited l = true -> rep c (mkSt l m) -> buffer_ok m tp 16 ->
  (forall r m', rep c (mkSt l m') -> Q r (mkSt l m')) -> wp (duck_clock_get_time ws tsc id tp) (mkSt l m) Q.
Proof.
  intros Hi Hrep Hb HQ. unfold duck_clock_get_time. destruct (_ =? _); [|by apply wp_ret, HQ].
  destruct (lib_rep_inited _ _ Hi (re_lib _ _ Hrep)) as (_ & _ & _ & _ & Hf). cbn [st_lib] in Hf. pose proof (po_freq HP).
  apply wp_bind, wp_get_lib. cbn [st_lib]. rewrite (proj2 (Z.eqb_neq _ _)) by lia.
  destruct (buffer_sub _ _ _ 0 8 Hb) as [W1 P1]; [lia..|]. rewrite Z.add_0_r in W1, P1.
  apply wp_bind, (wp_fill_word c); [done..|]. intros m1 R1 M1. apply (buffer_moved _ _ _ _ _ M1) in Hb.
  destruct (buffer_sub _ _ _ 8 8 Hb) as [W2 P2]; [lia..|].
  apply wp_bind, (wp_fill_word c); [done..|]. intros m2 R2 M2. by apply wp_ret, HQ.
Qed.

Lemma wp_brk c l m addr Q : inited l = true -> rep c (mkSt l m) ->
  (forall r l', inited l' = true -> rep c (mkSt l' m) -> Q r (mkSt l' m)) -> wp (duck_brk addr) (mkSt l m) Q.
Proof.
  intros Hi [Hl Hh Hr] HQ. unfold duck_brk. apply wp_bind, wp_get_lib. cbn [st_lib]. destruct (addr =? 0); [by apply wp_ret, HQ|].
  apply wp_bind, wp_put_lib, wp_ret, HQ; [done|]. split; [|done..]. cbn [st_lib st_mem]. unfold lib_rep in *. cbn in *. by rewrite Hi in *.
Qed.
End console.
