(* ===== verification/UserLibClaims.v ===== *)
(** * Programs and their console

    A program is the sequence of its own accesses and of its calls. Whatever it
    does outside the bytes the library uses, its writes arrive in the output
    areas in order, cut at the limits, and its reads deliver stdin in order. *)

From S2P Require Import Prelude UserLib UserLibProofs.

Inductive abi := Abi32 | Abi64.

Definition ws_of (a : abi) : nat := match a with Abi32 => 4 | Abi64 => 8 end.

Inductive call :=
| Read (fd buf len : Z) | Readv (fd iov cnt : Z) | Write (fd buf len : Z) | Writev (fd iov cnt : Z)
| Fstat (fd st : Z) | Clock (tsc id tp : Z) | Brk (addr : Z).

Inductive act := Load (v : Z) | Store (v b : Z) | Call (c : call).

(** ** Runs *)

Section programs.
Context {M : Type} `{UL : UserMemLaws M} (A : abi) (e : env) (P : place).
Abbreviation ws := (ws_of A).
Implicit Types (c : console) (m : M) (s : st M).

(** The call as the C library makes it: arguments in registers, and a number. *)
Definition syscall (k : call) : user M Z :=
  let w := wrap (W ws) in
  match A with
  | Abi64 =>
      let h := duck64_syscall_handler e in
      match k with
      | Read fd buf len => h 0 (w fd) buf (w len) 0
      | Readv fd iov cnt => h 0 (w fd) iov (w cnt) 19
      | Write fd buf len => h 0 (w fd) buf len 1
      | Writev fd iov cnt => h 0 (w fd) iov (w cnt) 20
      | Fstat fd t => h 0 (w fd) t 0 5
      | Clock tsc id tp => h tsc (w id) tp 0 228
      | Brk addr => h 0 addr 0 0 12
      end
  | Abi32 =>
      let h := duck32_syscall_handler e in
      match k with
      | Read fd buf len => h 0 (w fd) buf (w len) 3
      | Readv fd iov cnt => h 0 (w fd) iov (w cnt) 145
      | Write fd buf len => h 0 (w fd) buf len 4
      | Writev fd iov cnt => h 0 (w fd) iov (w cnt) 146
      | Fstat fd t => h 0 (w fd) t 0 108
      | Clock tsc id tp => h tsc (w id) tp 0 403
      | Brk addr => h 0 addr 0 0 45
      end
  end.

Definition perform (a : act) : user M Z :=
  match a with
  | Load v => uload v
  | Store v b => ustore v b;; mret 0
  | Call k => syscall k
  end.

Fixpoint run (l : list act) : user M unit :=
  match l with
  | [] => mret tt
  | a :: l => perform a;; run l
  end.

(** The entries of a vector of [cnt] buffers. *)
Definition vector m (iov cnt : Z) : list (Z * Z) := iovs ws (um_byte m) iov (Z.to_nat cnt).

(** The bytes an action sends to a descriptor. *)
Definition sends (fd : Z) (a : act) m : list Z :=
  match a with
  | Call (Write fd' buf len) => if fd' =? fd then bytes_at (um_byte m) buf (Z.to_nat len) else []
  | Call (Writev fd' iov cnt) => if fd' =? fd then gather (um_byte m) (vector m iov cnt) else []
  | _ => []
  end.

(** The bytes a read with result [r] has delivered, found in the buffers. *)
Definition receives (a : act) m (r : Z) m' : list Z :=
  match a with
  | Call (Read _ buf _) => bytes_at (um_byte m') buf (Z.to_nat r)
  | Call (Readv _ iov cnt) => take (Z.to_nat r) (gather (um_byte m') (vector m iov cnt))
  | _ => []
  end.

Fixpoint sent (fd : Z) (l : list act) s : list Z :=
  match l with
  | [] => []
  | a :: l => sends fd a (st_mem s) ++ match perform a s with Ret _ s' => sent fd l s' | Trapped _ _ => [] end
  end.

Fixpoint received (l : list act) s : list Z :=
  match l with
  | [] => []
  | a :: l =>
      match perform a s with
      | Ret r s' => receives a (st_mem s) r (st_mem s') ++ received l s'
      | Trapped _ _ => []
      end
  end.

(** *** Well-behaved programs *)

Definition is_int (x : Z) : Prop := - 2 ^ 31 <= x < 2 ^ 31.

(** No buffer of a vector overlaps a later one. *)
Fixpoint bufs_apart (vs : list (Z * Z)) : Prop :=
  match vs with
  | [] => True
  | v :: vs => Forall (fun u => apart v.1 v.2 u.1 u.2) vs /\ bufs_apart vs
  end.

(** Buffers are the program's own: open to the access and not among the bytes of
    the library. *)
Definition act_ok m (a : act) : Prop :=
  match a with
  | Load v => um_readable m v
  | Store v b => um_writable m v /\ is_byte b /\ ~ prot ws P v
  | Call (Read fd buf len) => is_int fd /\ 0 <= len < 2 ^ 31 /\ dst_ok ws P m buf len
  | Call (Readv fd iov cnt) => is_int fd /\ 0 <= cnt < 2 ^ 31 /\ iov_ok ws P m iov (Z.to_nat cnt) /\
      Forall (fun v => dst_ok ws P m v.1 v.2) (vector m iov cnt) /\ iov_apart ws iov (Z.to_nat cnt) (vector m iov cnt) /\
      bufs_apart (vector m iov cnt)
  | Call (Write fd buf len) => is_int fd /\ src_ok ws P m buf len
  | Call (Writev fd iov cnt) => is_int fd /\ 0 <= cnt < 2 ^ 31 /\ iov_ok ws P m iov (Z.to_nat cnt) /\
      Forall (fun v => src_ok ws P m v.1 v.2) (vector m iov cnt)
  | Call (Fstat fd t) => is_int fd /\ stat_ok (stat e) /\ buffer_ok ws P m t (st_sizeof (stat e))
  | Call (Clock tsc id tp) => is_int id /\ buffer_ok ws P m tp 16
  | Call (Brk addr) => True
  end.

(** Every action finds its buffers in order when its turn comes. *)
Fixpoint prog_ok (l : list act) s : Prop :=
  match l with
  | [] => True
  | a :: l => act_ok (st_mem s) a /\ match perform a s with Ret _ s' => prog_ok l s' | Trapped _ _ => True end
  end.

(** ** One action *)

(** The effect on the console, and the result. *)
Definition con_act m (a : act) c : console :=
  match a with
  | Call (Write fd _ _) | Call (Writev fd _ _) => con_write P fd (sends fd a m) c
  | Call (Read fd _ len) => con_advance (length (take (Z.to_nat len) (stream P fd c))) c
  | Call (Readv fd iov cnt) => con_advance (length (take (total (vector m iov cnt)) (stream P fd c))) c
  | _ => c
  end.

Definition delivered m (a : act) c : list Z :=
  match a with
  | Call (Read fd _ len) => take (Z.to_nat len) (stream P fd c)
  | Call (Readv fd iov cnt) => take (total (vector m iov cnt)) (stream P fd c)
  | _ => []
  end.

Lemma scatter_away vs : forall data g a, Forall (fun v => ~ (v.1 <= a < v.1 + v.2)) vs -> scatter vs data g a = g a.
Proof.
  induction vs as [|v vs IH]; intros data g a H; [done|]. apply Forall_cons in H as [Hv Hvs]. cbn [scatter]. rewrite IH by done.
  apply over_away. rewrite length_take. lia.
Qed.

(** Buffers that do not overlap hold what was spread over them. *)
Lemma gather_scatter vs : forall data g, bufs_apart vs -> Forall (fun v => 0 <= v.2) vs -> (length data <= total vs)%nat ->
  take (length data) (gather (scatter vs data g) vs) = data.
Proof.
  induction vs as [|v vs IH]; intros data g Ha Hl Ht.
  - unfold total in Ht. cbn in Ht. by destruct data; cbn in *; [|lia].
  - destruct Ha as [Hv Ha]. apply Forall_cons in Hl as [Hl0 Hl]. unfold total in Ht. cbn [sum_list_with] in Ht. fold (total vs) in Ht.
    cbn [scatter]. set (n := Z.to_nat v.2) in *. set (g1 := over v.1 (take n data) g).
    unfold gather. cbn [mbind list_bind]. fold (gather (scatter vs (drop n data) g1) vs). fold n.
    assert (bytes_at (scatter vs (drop n data) g1) v.1 n = bytes_at g1 v.1 n) as ->.
    { apply bytes_at_ext. intros a Hin. apply scatter_away. eapply Forall_impl; [exact Hv|]. intros u Hu. unfold apart in Hu. lia. }
    rewrite take_app, length_bytes_at. destruct (decide (n <= length data)%nat) as [Hn|Hn].
    + assert (bytes_at g1 v.1 n = take n data) as ->.
      { pose proof (bytes_over v.1 (take n data) g) as H. by rewrite length_take_le in H by lia. }
      rewrite (take_ge (take n data)) by (rewrite length_take; lia).
      replace (length data - n)%nat with (length (drop n data)) by (by rewrite length_drop).
      rewrite IH by (done || rewrite length_drop; lia). apply take_drop.
    + replace (length data - n)%nat with O by lia. rewrite take_0, app_nil_r, <- bytes_at_take by lia.
      unfold g1. rewrite take_ge by lia. apply bytes_over.
Qed.

(** What the library's initialisation leaves alone. *)
Lemma kept_buffers m m' : kept ws P m m' ->
  (forall v n, buffer_ok ws P m v n -> buffer_ok ws P m' v n) /\ (forall v len, dst_ok ws P m v len -> dst_ok ws P m' v len) /\
  (forall iov n, iov_ok ws P m iov n -> iov_ok ws P m' iov n /\ iovs ws (um_byte m') iov n = iovs ws (um_byte m) iov n).
Proof.
  intros K. destruct (kept_rights _ _ _ _ K) as [KR KW]. split_and!.
  - intros v n [H1 H2]. split; [|done]. intros a Ha. by apply KW, H1.
  - intros v len (H1 & H2 & H3). split; [done|]. split; [|done]. intros a Ha. by apply KW, H2.
  - intros iov n [H1 H2]. split; [split; [|done]; intros a Ha; by apply KR, H1|]. apply iovs_ext. intros a Ha. eapply kept_byte; [done|].
    by apply H2.
Qed.

Lemma s32_wrap x : is_int x -> s32 (wrap (W ws) x) = x.
Proof.
  unfold is_int, swrap, wrap, W. intros Hx. destruct A; cbn [ws_of];
    [change (2 ^ (8 * Z.of_nat 4)) with (2 ^ 32)|change (2 ^ (8 * Z.of_nat 8)) with (2 ^ 64)];
    change (2 ^ (32 - 1)) with 2147483648; change (2 ^ 32) with 4294967296; change (2 ^ 64) with 18446744073709551616; change (2 ^ 31) with 2147483648 in Hx; dlia.
Qed.

(** What both libraries do. *)
Definition emulate (k : call) : user M Z :=
  ensure_init ws e;;
  let silently := match A with Abi32 => false | Abi64 => true end in
  match k with
  | Read fd buf len => duck_read ws fd buf len
  | Readv fd iov cnt => duck_readv ws fd iov cnt
  | Write fd buf len => duck_write ws silently fd buf len
  | Writev fd iov cnt => duck_writev ws silently fd iov cnt
  | Fstat fd t => duck_fstat ws e (match A with Abi32 => 0x1a4 | Abi64 => 0x1b4 end) fd t
  | Clock tsc id tp => duck_clock_get_time ws tsc id tp
  | Brk addr => duck_brk addr
  end.

Lemma syscall_emulate k : (exists m, act_ok m (Call k)) -> syscall k = emulate k.
Proof.
  intros [m Hk]. unfold syscall, emulate. pose proof s32_wrap as S.
  assert (forall x, 0 <= x < 2 ^ 31 -> is_int x /\ wrap (W ws) x = x) as I.
  { intros x Hx. change (2 ^ 31) with 2147483648 in Hx. split; [unfold is_int; lia|]. apply wrap_small. unfold is_uint, W. destruct A; cbn; lia. }
  destruct k; cbn [act_ok] in Hk; destruct A eqn:EA; cbn [ws_of] in S, I |- *;
    unfold duck64_syscall_handler, duck32_syscall_handler.
  1, 2: destruct Hk as (H1 & H2 & _); destruct (I len H2) as [H3 E]; rewrite (S fd H1), (S len H3).
  1: by change (u32 len) with (wrap (W 4) len); rewrite E.
  1: by change (u64 len) with (wrap (W 8) len); rewrite E.
  1, 2, 5, 6: destruct Hk as (H1 & H2 & _); destruct (I cnt H2) as [H3 _]; by rewrite (S fd H1), (S cnt H3).
  1, 2, 3, 4: destruct Hk as (H1 & _); by rewrite (S fd H1).
  1, 2: destruct Hk as (H1 & _); by rewrite (S id H1).
  all: done.
Qed.

Hypothesis HP : place_ok ws e P.

Lemma receives_over m m' buf data : moved m m' (over buf data (um_byte m)) -> bytes_at (um_byte m') buf (length data) = data.
Proof. intros Hm. rewrite (bytes_at_ext _ (over buf data (um_byte m))) by (intros; apply Hm). apply bytes_over. Qed.

Lemma stream_length fd c : Z.of_nat (length (stream P fd c)) < 2 ^ W ws.
Proof. destruct (po_in _ _ _ HP) as [I1 I2]. unfold stream. case_if; [rewrite length_drop|cbn]; lia. Qed.

(** An action runs to its end and does to the console what it stands for. *)
Lemma act_step a c s : rep ws P c s -> act_ok (st_mem s) a ->
  wp (perform a) s (fun r s' => rep ws P (con_act (st_mem s) a c) s' /\
    receives a (st_mem s) r (st_mem s') = delivered (st_mem s) a c).
Proof.
  destruct s as [l m]. cbn [st_mem]. intros Hrep Hok. destruct a as [v|v b|k].
  - apply wp_uload; [apply Hrep|done|]. intros m' Hm. split; [|done]. eapply rep_moved; [done|exact Hrep|exact Hm|done].
  - destruct Hok as (Hw & Hb & Hp). apply wp_bind, wp_ustore; [apply Hrep|done|done|]. intros m' Hm. apply wp_ret. split; [|done].
    eapply rep_moved; [done|exact Hrep|exact Hm|]. intros x Hx. cbn beta. rewrite decide_False; [done|]. by intros ->.
  - unfold perform. rewrite syscall_emulate by (by exists m). unfold emulate. apply wp_bind, (wp_ensure_init _ _ _ HP c); [done|].
    intros l1 m1 Hi R1 K1. destruct (kept_buffers m m1 K1) as (Kb & Kd & Kv). cbv zeta.
    destruct k as [fd buf len|fd iov cnt|fd buf len|fd iov cnt|fd t|tsc id tp|addr]; cbn [act_ok] in Hok.
    + destruct Hok as (_ & Hlen & Hd). apply (wp_duck_read _ _ _ HP c); [done|done|by apply Kd|]. cbv zeta. intros l' m' Hi' R' M'.
      split; [done|]. cbn [receives delivered]. rewrite Nat2Z.id. by apply (receives_over m1).
    + destruct Hok as (_ & Hcnt & Hiov & Hd & Hap & Hba). destruct (Kv _ _ Hiov) as [Hiov1 Eiov]. unfold vector in *.
      apply (wp_readv _ _ _ HP (Z.to_nat cnt) c); [done|done|apply Hiov1| |by rewrite Eiov|unfold is_uint, W; lia|].
      { rewrite Eiov. eapply Forall_impl; [exact Hd|]. intros v Hv. by apply Kd. }
      rewrite Eiov. cbv zeta. intros l' m' Hi' R' M'. split; [exact R'|]. cbn [receives delivered]. unfold vector.
      set (vs := iovs ws (um_byte m) iov (Z.to_nat cnt)) in *. set (data := take (total vs) (stream P fd c)) in *.
      assert (Z.of_nat (length data) < 2 ^ W ws) as Hdl by (pose proof (stream_length fd c); unfold data; rewrite length_take; lia).
      rewrite Z.add_0_l, wrap_small, Nat2Z.id by (unfold is_uint; lia).
      rewrite (gather_ext _ (scatter vs data (um_byte m1)) vs (fun _ => True)).
      * apply gather_scatter; [done|eapply Forall_impl; [exact Hd|]; intros v [Hv _]; apply Hv|unfold data; rewrite length_take; lia].
      * intros a _. apply M'.
      * apply Forall_forall. by intros v _ a _.
    + destruct Hok as (_ & Hsrc). apply (wp_duck_write _ _ _ HP _ c); [done|done|by eapply src_kept|]. cbv zeta. intros m' R' K'.
      split; [|done]. cbn [con_act sends]. rewrite Z.eqb_refl.
      rewrite (bytes_at_ext (um_byte m1) (um_byte m)) in R'; [exact R'|]. intros a Ha. eapply kept_byte; [done|]. by apply Hsrc.
    + destruct Hok as (_ & Hcnt & Hiov & Hsrc). destruct (Kv _ _ Hiov) as [Hiov1 Eiov]. unfold vector in *.
      apply (wp_writev _ _ _ HP _ (Z.to_nat cnt) c); [done|done|done| |unfold is_uint, W; lia|].
      { rewrite Eiov. eapply Forall_impl; [exact Hsrc|]. intros v Hv. by eapply src_kept. }
      rewrite Eiov. cbv zeta. intros m' R' K'. split; [|done]. cbn [con_act sends]. rewrite Z.eqb_refl. unfold vector.
      rewrite (gather_ext (um_byte m1) (um_byte m) _ (fun a => ~ busy ws P a)) in R'; [exact R'|..].
      * intros a Ha. by eapply kept_byte.
      * eapply Forall_impl; [exact Hsrc|]. intros v (_ & _ & Hv). exact Hv.
    + destruct Hok as (_ & Hst & Hb). apply (wp_duck_fstat _ _ _ HP _ c); [done|done|done|by apply Kb|]. by intros r m' R'.
    + destruct Hok as (_ & Hb). apply (wp_clock _ _ _ HP c); [done|done|by apply Kb|]. by intros r m' R'.
    + apply (wp_brk ws P c); [done|done|]. by intros r l' Hi' R'.
Qed.

Definition sk_fd (k : sink) : Z := match k with Out => 1 | Err => 2 end.

Lemma con_act_sink k a c m g : holds ws P c g ->
  con_of k (con_act m a c) = take (Z.to_nat (sk_max k P)) (con_of k c ++ sends (sk_fd k) a m).
Proof.
  intros Hh. pose proof (ho_fits _ _ _ _ Hh k) as Hf.
  assert (forall fd d, con_of k (con_write P fd d c) = take (Z.to_nat (sk_max k P)) (con_of k c ++ if fd =? sk_fd k then d else [])) as H.
  { intros fd d. unfold con_write, fd_sink. destruct k; cbn [sk_fd].
    - destruct (Z.eqb_spec fd 1); [done|]. rewrite app_nil_r, take_ge by (cbn in *; lia). by destruct (fd =? 2).
    - destruct (Z.eqb_spec fd 1) as [->|]; [by rewrite app_nil_r, take_ge by (cbn in *; lia)|].
      destruct (Z.eqb_spec fd 2); [done|]. rewrite app_nil_r, take_ge by (cbn in *; lia). done. }
  assert (con_of k c = take (Z.to_nat (sk_max k P)) (con_of k c ++ [])) as Hid by (by rewrite app_nil_r, take_ge by lia).
  destruct a as [v|v b|[]]; cbn [con_act sends]; try exact Hid; try (by destruct k).
  - rewrite H, Z.eqb_refl. done.
  - rewrite H, Z.eqb_refl. done.
Qed.

Lemma con_act_pos a c m : con_pos (con_act m a c) = (con_pos c + length (delivered m a c))%nat /\
  delivered m a c = take (length (delivered m a c)) (drop (con_pos c) (p_data P)).
Proof.
  assert (forall n fd, take n (stream P fd c) = take (length (take n (stream P fd c))) (drop (con_pos c) (p_data P))) as H.
  { intros n fd. unfold stream. case_if; [|by rewrite take_nil]. rewrite length_take.
    destruct (decide (n <= length (drop (con_pos c) (p_data P)))%nat); [by rewrite Nat.min_l by lia|]. by rewrite !take_ge by lia. }
  destruct a as [v|v b|[]]; cbn [con_act delivered length con_advance con_pos]; rewrite ?Nat.add_0_r, ?take_0; try done.
  all: unfold con_write; destruct (fd_sink _) as [[]|]; done.
Qed.

(** The console after a whole run. *)
Lemma run_console l : forall c s, rep ws P c s -> prog_ok l s -> exists s' c', run l s = Ret tt s' /\ rep ws P c' s' /\
  (forall k, con_of k c' = take (Z.to_nat (sk_max k P)) (con_of k c ++ sent (sk_fd k) l s)) /\
  con_pos c' = (con_pos c + length (received l s))%nat /\
  received l s = take (length (received l s)) (drop (con_pos c) (p_data P)).
Proof.
  induction l as [|a l IH]; intros c s Hrep Hok.
  - exists s, c. split_and!; try done; cbn [sent received length]; try lia.
    intros k. rewrite app_nil_r, take_ge; [done|]. pose proof (ho_fits _ _ _ _ (re_holds _ _ _ _ Hrep) k). lia.
  - destruct Hok as [Ha Hok]. pose proof (act_step a c s Hrep Ha) as Hstep. unfold wp in Hstep. cbn [run sent received].
    destruct (perform a s) as [r s1|ev s1] eqn:E; [|done]. destruct Hstep as [R1 Hrec].
    destruct (IH _ _ R1 Hok) as (s' & c' & E' & R' & Hk & Hp & Hr). exists s', c'. rewrite Hrec.
    destruct (con_act_pos a c (st_mem s)) as [P1 P2]. split; [|split; [done|split; [|split]]].
    + unfold mbind, user_bind. by rewrite E.
    + intros k. rewrite Hk, (con_act_sink k a c _ _ (re_holds _ _ _ _ Hrep)), app_assoc.
      apply take_take_app.
    + rewrite Hp, P1, length_app. lia.
    + rewrite length_app, <- take_take_drop, <- P2, drop_drop. f_equal. rewrite Hr at 1. f_equal. f_equal. lia.
Qed.

End programs.

(** ** A small machine *)

(** Bytes in a finite map; addresses 4096 to 28671 are open, the last page of
    them for reading only. *)
Abbreviation flat := (gmap Z Z).
Definition flat_get (m : flat) (a : Z) : Z := default 0 (m !! a).
Definition flat_r (a : Z) : Prop := 4096 <= a < 28672.
Definition flat_w (a : Z) : Prop := 4096 <= a < 24576.

#[export] Instance flat_r_dec a : Decision (flat_r a).
Proof. unfold flat_r. apply _. Defined.
#[export] Instance flat_w_dec a : Decision (flat_w a).
Proof. unfold flat_w. apply _. Defined.

#[export] Instance flat_mem : UserMem flat := {|
  umem_load v m := if decide (flat_r v) then Some (flat_get m v, m) else None;
  umem_store v b m := if decide (flat_w v) then Some (<[v := b]> m) else None
|}.

#[export] Instance flat_laws : UserMemLaws flat.
Proof.
  refine {| um_ok m := map_Forall (fun _ b => is_byte b) m; um_byte := flat_get; um_readable _ := flat_r; um_writable _ := flat_w |}.
  - intros m v Hm _. unfold flat_get. destruct (m !! v) eqn:E; cbn; [by eapply Hm|unfold is_byte, is_uint; lia].
  - unfold flat_r, flat_w. lia.
  - intros m v Hm Hr. exists m. cbn. by rewrite decide_True.
  - intros m v b Hm Hw Hb. exists (<[v := b]> m). cbn. rewrite decide_True by done. split_and!; try done.
    + by apply map_Forall_insert_2.
    + intros a. unfold flat_get. case_decide as Ha; [subst a; by rewrite lookup_insert_eq|by rewrite lookup_insert_ne].
  - intros m v _ Hn. cbn. by rewrite decide_False.
  - intros m v b _ Hn. cbn. by rewrite decide_False.
Defined.

Fixpoint flat_write (a : Z) (l : list Z) (m : flat) : flat :=
  match l with [] => m | b :: l => <[a := b]> (flat_write (a + 1) l m) end.

Lemma flat_write_ok l : forall a m, Forall is_byte l -> map_Forall (fun _ b => is_byte b) m ->
  map_Forall (fun _ b => is_byte b) (flat_write a l m).
Proof.
  induction l as [|b l IH]; intros a m Hl Hm; [done|]. apply Forall_cons in Hl as [Hb Hl]. cbn [flat_write].
  apply map_Forall_insert_2; [done|by apply IH].
Qed.

(** The structure at 4096, stdin at 24576, stdout at 8192 for 5 bytes and stderr
    at 12288 for 4. *)
Definition example_place : place := mkPlace 4096 24576 [104; 105; 33] 8192 5 12288 4 1000000000.

Definition example_env : env :=
  mkEnv (fun key => if key =? AT_DUCK then 4096 else if key =? AT_PAGESZ then 4096 else 0) 20000 100000
    (mkStat 144 (24, 4%nat) (48, 8%nat) (56, 8%nat) (64, 8%nat)) 65 64 (fun _ => 0).

Definition example_user_mem : flat :=
  flat_write 4096 ([40; 24576; 3; 8192; 5; 0; 12288; 4; 0; 0; 0; 0; 0; 1000000000] ≫= le_bytes 8)
    (flat_write 24576 [104; 105; 33] ∅).

Definition example_start : st flat := mkSt (lib_static example_env) example_user_mem.

(** Read everything into a buffer at 16384 and write it twice. *)
Definition example_program : list act := [Call (Read 0 16384 8); Call (Write 1 16384 3); Call (Write 1 16384 3)].

Lemma example_place_ok : place_ok 8 example_env example_place.
Proof. split; try (vm_compute; intuition congruence). Qed.

Lemma example_rep : rep 8 example_place console_init example_start.
Proof.
  split.
  - reflexivity.
  - split; try (intros []); vm_compute; (reflexivity || discriminate || lia).
  - split.
    + apply flat_write_ok; [repeat (apply Forall_cons; split; [split; [discriminate|reflexivity]|]); done|].
      apply flat_write_ok; [repeat (apply Forall_cons; split; [split; [discriminate|reflexivity]|]); done|apply map_Forall_empty].
    + intros a Ha. change (flat_w a). change (Z.to_nat (info_len 8)) with 112%nat in Ha. unfold flat_w. cbn in Ha. lia.
    + intros a Ha. change (flat_r a). unfold flat_r. cbn in Ha. lia.
    + intros k a Ha. change (flat_w a). unfold flat_w. destruct k; cbn in Ha; lia.
Qed.

