(* ===== verification/ElfConsole.v ===== *)
(** * From a program's writes to the judged output

    The memory of a running program, as the page tables show it, obeys the laws
    the system call library relies on. So the loader, the library linked into
    the program and the measurement after the run fit together: what a program
    writes to its descriptors is what [ELF::run] reports. *)

From S2P Require Import Prelude Utils Timer Memory MemoryProofs MemoryTables MemoryInit MemoryPaging MemoryFrames MemoryFlags Trap Judger ElfLoader ElfMemory ElfAccept ElfProofs ElfContents ElfRun ElfClaims UserLib UserLibProofs UserLibClaims.

(** ** Memory with a record of the accesses *)

Record traced := mkTraced { t_mem : memory; t_log : list access }.

#[export] Instance traced_mem : UserMem traced := {|
  umem_load v t :=
    match user_access_step (Uread v) (t_mem t), load_byte (t_mem t) v with
    | Some m, Some b => Some (b, mkTraced m (t_log t ++ [Uread v]))
    | _, _ => None
    end;
  umem_store v b t :=
    match user_access_step (Uwrite v b) (t_mem t) with
    | Some m => Some (mkTraced m (t_log t ++ [Uwrite v b]))
    | None => None
    end
|}.

Section laws.
Context (own : gmap Z node) (Q L : Z) (m0 : memory).
Abbreviation user := (ElfMemory.user Q).

(** Everything recorded so far has been executed, starting from [m0]. *)
Record traced_ok (t : traced) : Prop := {
  tr_clean : clean_frames own Q L (t_mem t);
  tr_closed : closed own Q (t_mem t);
  tr_log l : user_accesses (t_log t ++ l) m0 = user_accesses l (t_mem t)
}.

Definition tbyte (t : traced) (v : Z) : Z := if decide (kernel_break <= v < Q * HUGE_PAGE_SIZE) then ubyte (t_mem t) v else 0.
Definition treadable (t : traced) (v : Z) : Prop := user v /\ pv_user (view (t_mem t) v).1 = true.
Definition twritable (t : traced) (v : Z) : Prop :=
  user v /\ pv_user (view (t_mem t) v).1 = true /\ pv_write (view (t_mem t) v).1 = true.

Lemma user_translate m v : clean_frames own Q L m -> user v -> canonical v = true /\ exists p es, translate m v = Some (p, es).
Proof.
  intros [Hp Hu Hpr] Hv. pose proof (pg_Q _ _ _ Hp) as HQ. split.
  - unfold canonical. unfold ElfMemory.user, kernel_break, HUGE_PAGE_SIZE in Hv. apply orb_true_iff. left. lia.
  - rewrite (translate_spec own Q m Hp v (user_nonneg Q v Hv)), (Hpr v Hv). by eexists _, _.
Qed.

Lemma log_snoc t a m : (forall l, user_accesses (t_log t ++ l) m0 = user_accesses l (t_mem t)) ->
  user_access_step a (t_mem t) = Some m -> forall l, user_accesses ((t_log t ++ [a]) ++ l) m0 = user_accesses l m.
Proof. intros Hl Ha l. rewrite <- app_assoc, Hl. cbn [app user_accesses]. by rewrite Ha. Qed.

Lemma ran_rights W U m m' v : ran own Q L W U m m' -> user v ->
  pv_user (view m' v).1 = pv_user (view m v).1 /\ pv_write (view m' v).1 = pv_write (view m v).1.
Proof. intros R Hv. apply acc_eq, (ra_acc _ _ _ _ _ _ _ R v Hv). Qed.

Lemma traced_rights W U t t' : ran own Q L W U (t_mem t) (t_mem t') ->
  (forall v, treadable t' v <-> treadable t v) /\ (forall v, twritable t' v <-> twritable t v).
Proof.
  intros R. split; intros v; unfold treadable, twritable; (split; intros [Hv H]; destruct (ran_rights _ _ _ _ v R Hv) as [E1 E2]; rewrite ?E1, ?E2 in *; done).
Qed.

(** A read the page allows. *)
Lemma read_step t v : traced_ok t -> treadable t v -> exists m, umem_load v t = Some (ubyte (t_mem t) v, mkTraced m (t_log t ++ [Uread v])) /\
  traced_ok (mkTraced m (t_log t ++ [Uread v])) /\ ran own Q L [] [v / 4096] (t_mem t) m.
Proof.
  intros [Hc Hl Hlog] [Hu Hpu]. destruct (user_translate _ v Hc Hu) as (Hcan & p & es & Et).
  destruct (user_rights own Q L _ _ _ _ Hc Hu Et) as [Ru _]. destruct (touch_ran own Q L _ v Hc Hl Hu) as (m & E & R).
  assert (user_access_step (Uread v) (t_mem t) = Some m) as Es.
  { unfold user_access_step. rewrite Hcan. cbn [negb]. rewrite Et, mbind_Some. cbn [snd]. by rewrite Ru, Hpu. }
  exists m. split; [|split; [|exact R]].
  - cbn [umem_load traced_mem]. rewrite Es. by rewrite (load_byte_view own Q L _ _ Hc Hu).
  - split; [apply R|apply R|]. cbn [t_log t_mem]. by apply log_snoc.
Qed.

Lemma write_step t v b : traced_ok t -> twritable t v -> is_byte b -> exists m, umem_store v b t = Some (mkTraced m (t_log t ++ [Uwrite v b])) /\
  traced_ok (mkTraced m (t_log t ++ [Uwrite v b])) /\ ran own Q L [v / 4096] [v / 4096] (t_mem t) m /\
  (forall a, user a -> ubyte m a = if decide (a = v) then b else ubyte (t_mem t) a).
Proof.
  intros [Hc Hl Hlog] (Hu & Hpu & Hpw) Hb. destruct (user_translate _ v Hc Hu) as (Hcan & p & es & Et).
  destruct (user_rights own Q L _ _ _ _ Hc Hu Et) as [Ru Rw].
  destruct (store_effect own Q L _ v b Hc Hu Hb) as (m & E & Heff).
  destruct (store_ran own Q L _ v b Hc Hl Hu Hb Hpu Hpw) as (m' & E' & R). rewrite E in E'. injection E' as <-.
  assert (user_access_step (Uwrite v b) (t_mem t) = Some m) as Es.
  { unfold user_access_step. rewrite Hcan. cbn [negb]. rewrite Et, mbind_Some. cbn [snd]. rewrite Ru, Rw, Hpu, Hpw. cbn [andb].
    by rewrite wrap_small. }
  exists m. split; [|split; [|split; [exact R|]]].
  - cbn [umem_store traced_mem]. by rewrite Es.
  - split; [apply R|apply R|]. cbn [t_log t_mem]. by apply log_snoc.
  - intros a Ha. pose proof (ef_view _ _ _ _ _ _ Heff a Ha) as V. apply (f_equal snd) in V. exact V.
Qed.

(** Any other access faults. *)
Lemma fault_step t a : traced_ok t -> (match a with Uwrite v _ => ~ twritable t v | Uread v | Ufetch v => ~ treadable t v end) ->
  user_access_step a (t_mem t) = None.
Proof.
  intros [Hc Hl _] Hn. unfold user_access_step. fold (address a). destruct (canonical (address a)) eqn:Ec; [|done]. cbn [negb].
  destruct (translate (t_mem t) (address a)) as [[p es]|] eqn:Et; [|done]. rewrite mbind_Some. cbn [snd].
  destruct (decide (kernel_break <= address a < Q * HUGE_PAGE_SIZE)) as [Hu|Hu].
  - destruct (user_rights own Q L _ _ _ _ Hc Hu Et) as [Ru Rw]. unfold treadable, twritable in Hn.
    destruct a; cbn [address] in *; rewrite Ru, ?Rw; destruct (pv_user _) eqn:Ep; try done; try (by destruct Hn).
    destruct (pv_write _) eqn:Epw; [|done]. by destruct Hn.
  - rewrite (closed_access own Q _ _ _ _ (cf_paging _ _ _ _ Hc) Hl Ec Hu Et). by destruct a.
Qed.

Lemma tbyte_user t v : user v -> tbyte t v = ubyte (t_mem t) v.
Proof. intros Hv. unfold tbyte. by rewrite decide_True. Qed.

#[export] Instance traced_laws : UserMemLaws traced.
Proof.
  refine {| um_ok := traced_ok; um_byte := tbyte; um_readable := treadable; um_writable := twritable |}.
  - intros t v _ [Hu _]. rewrite tbyte_user by done. unfold is_byte, is_uint, ubyte, byte_at. change (2 ^ 8) with 256. apply Z.mod_pos_bound. lia.
  - intros t v _ (Hu & H1 & _). done.
  - intros t v Hok Hr. destruct (read_step t v Hok Hr) as (m & E & Hok' & R). eexists. rewrite tbyte_user by apply Hr. split; [exact E|].
    split; [done|]. split; [|apply (traced_rights _ _ t (mkTraced _ _) R)]. intros a. unfold tbyte. case_decide as Ha; [|done]. cbn [t_mem].
    destruct (ra_byte _ _ _ _ _ _ _ R a Ha) as [|(_ & _ & H)]; [done|]. by apply not_elem_of_nil in H.
  - intros t v b Hok Hw Hb. destruct (write_step t v b Hok Hw Hb) as (m & E & Hok' & R & Hby). eexists. split; [exact E|].
    split; [done|]. split; [|apply (traced_rights _ _ t (mkTraced _ _) R)]. intros a. unfold tbyte. cbn [t_mem].
    case_decide as Ha; [by apply Hby|]. destruct (decide (a = v)) as [->|]; [|done]. by destruct Ha; apply Hw.
  - intros t v Hok Hn. cbn [umem_load traced_mem]. by rewrite (fault_step t (Uread v)).
  - intros t v b Hok Hn. cbn [umem_store traced_mem]. by rewrite (fault_step t (Uwrite v b)).
Defined.
End laws.

(** ** A loaded program *)

Lemma bytes_at_sub g v (l : list Z) o n : bytes_at g v (length l) = l -> (o + n <= length l)%nat ->
  bytes_at g (v + Z.of_nat o) n = take n (drop o l).
Proof.
  intros H Hn. replace (length l) with (o + (n + (length l - o - n)))%nat in H by lia. rewrite bytes_at_app, bytes_at_app in H.
  rewrite <- H. rewrite drop_app_length', take_app_length' by (by rewrite length_bytes_at). done.
Qed.

Section loaded.
Context (own : gmap Z node) (Q L : Z) (tsc : Z) (e : env).
Context (vb : Z) (buf : list Z) (len : Z) (conf : AppConfig) (h : Ehdr) (lay : Layout) (m m1 : memory).

Definition elf_place : place :=
  mkPlace (load_break lay - 60) (load_break lay) (c_stdin conf) (stdin_break lay) (Judger.stdout_max_size conf)
    (stdout_break lay) (Judger.stderr_max_size conf) tsc.

Hypothesis Hio : inputs_ok buf len conf.
Hypothesis Hrd : ready own Q L vb m.
Hypothesis Ha : accepted32 buf len conf vb h lay.
Hypothesis Hroom : image_break lay <= vb.
Hypothesis Hload : effect own Q L (e_load buf len conf h lay tsc vb) m m1.
Hypothesis H32 : OB_break lay < 2 ^ 32.
Hypothesis Hin : Z.of_nat (length (c_stdin conf)) = stdin_size conf.
Hypothesis Htsc : 0 < tsc < 2 ^ 64.
Hypothesis Haux : getauxval e UserLib.AT_DUCK = load_break lay - 60 /\ getauxval e UserLib.AT_PAGESZ = 4096.

(** The page of the stack is not covered by a read-only segment. *)
Definition stack_writable : Prop :=
  forall v, load_break lay - 60 <= v < load_break lay -> exists x, seg_access (phdrs buf h) v = (true, true, x).

Hypothesis Hstack : stack_writable.

Abbreviation t0 := (mkTraced m1 []).

Lemma loaded_facts :
  0x8049000 <= load_break lay /\ load_break lay + stdin_size conf <= stdin_break lay /\ stdin_break lay + Judger.stdout_max_size conf <= stdout_break lay /\
  stdout_break lay + Judger.stderr_max_size conf <= stderr_break lay /\ stderr_break lay <= OB_break lay < vb /\ vb <= Q * HUGE_PAGE_SIZE /\
  0 <= stdin_size conf /\ 0 <= Judger.stdout_max_size conf /\ 0 <= Judger.stderr_max_size conf /\ IB_break lay + OB_size conf <= OB_break lay /\
  stderr_break lay + IB_size conf <= IB_break lay /\ 0 <= IB_size conf /\ 0 <= OB_size conf.
Proof.
  pose proof (rd_top _ _ _ _ _ Hrd) as Htop.
  destruct (contents_facts own Q L buf len conf h lay vb m (inputs_load_ok own Q L _ _ _ lay _ _ Hio Hrd ltac:(lia)) Ha)
        as (F1 & F2 & F3 & F4 & F5 & F6 & F7 & F8 & F9).
  pose proof (ref_layout_ordered conf lay (io_conf _ _ _ Hio) (ac_layout _ _ _ _ _ _ Ha)) as
    (O1 & A1 & O2 & A2 & O3 & A3 & O4 & A4 & O5 & A5 & O6 & A6 & ES & EI & EU).
  destruct (io_conf _ _ _ Hio) as [_ [C1 _] [C2 _] [C3 _] [C4 _] [C5 _]]. split_and!; lia.
Qed.

Lemma loaded_view v : kernel_break <= v < vb -> ElfMemory.user Q v /\
  acc (view m1 v).1 = expected_access (phdrs buf h) lay v /\
  ubyte m1 v = expected_byte buf len conf (phdrs buf h) lay (stack_bytes32 h lay (ElfLoader.duckinfo conf lay tsc)) (ubyte m v) v.
Proof.
  intros Hv. pose proof (rd_top _ _ _ _ _ Hrd) as Htop. assert (ElfMemory.user Q v) as Hu by (unfold ElfMemory.user; lia). split; [done|].
  pose proof (inputs_load_ok own Q L buf len conf lay vb m Hio Hrd ltac:(lia)) as Hok.
  pose proof (ef_view _ _ _ _ _ _ Hload v Hu) as V. split.
  - rewrite V. by eapply (load_access own Q L).
  - change (ubyte m1 v) with (view m1 v).2. rewrite V. eapply (load_byte_at own Q L); [done|done|done|].
    apply (rd_zeroed _ _ _ _ _ Hrd). by rewrite (rd_break _ _ _ _ _ Hrd).
Qed.

Abbreviation g1 := (tbyte Q t0).

Lemma info_bytes : bytes_at g1 (load_break lay - 60) 60 = info32_bytes (ElfLoader.duckinfo conf lay tsc).
Proof.
  pose proof loaded_facts as (F1 & F2 & F3 & F4 & F5 & F6 & F7 & F8 & F9 & _). set (d := ElfLoader.duckinfo conf lay tsc).
  change 60%nat with (length (info32_bytes d)). apply bytes_at_nth. intros i Hi. change (length (info32_bytes d)) with 60%nat in Hi.
  destruct (loaded_view (load_break lay - 60 + Z.of_nat i)) as (Hu & _ & Hb); [change kernel_break with 16777216; lia|].
  rewrite tbyte_user by done. cbn [t_mem]. rewrite Hb. unfold expected_byte. rewrite decide_False, decide_False, decide_True by lia.
  fold d. unfold stack_bytes32. rewrite app_assoc.
  replace (Z.to_nat (load_break lay - 60 + Z.of_nat i - (load_break lay - 176)))
    with (length (vectors32 h lay ++ drop 108 (vectors32 h lay)) + i)%nat
    by (change (length (vectors32 h lay ++ drop 108 (vectors32 h lay))) with 116%nat; lia).
  rewrite app_nth2 by lia. f_equal. lia.
Qed.

(** A word of the structure. *)
Lemma info_field k x : (k <= 12)%nat -> is_uint 32 x -> take 4 (drop (4 * k) (info32_bytes (ElfLoader.duckinfo conf lay tsc))) = pushl x ->
  field 4 elf_place g1 (Z.of_nat k) = x.
Proof.
  intros Hk Hx E. unfold field, word. cbn [p_info elf_place].
  replace (Z.of_nat 4 * Z.of_nat k) with (Z.of_nat (4 * k)) by lia.
  rewrite (bytes_at_sub _ _ (info32_bytes (ElfLoader.duckinfo conf lay tsc)));
    [|exact info_bytes|change (length (info32_bytes (ElfLoader.duckinfo conf lay tsc))) with 60%nat; lia].
  rewrite E. unfold pushl. rewrite le_val_le_bytes. change (8 * Z.of_nat 4) with 32. rewrite (wrap_small 32 x Hx). by apply Z.mod_small.
Qed.

Lemma elf_place_ok : place_ok 4 e elf_place.
Proof.
  pose proof loaded_facts as (F1 & F2 & F3 & F4 & F5 & F6 & F7 & F8 & F9 & _). destruct Haux as [X1 X2].
  split; unfold info_len, apart; change (W 4) with 32; cbn [p_info p_in p_data p_out p_out_max p_err p_err_max p_freq elf_place]; rewrite ?Hin; try lia; auto.
Qed.

Lemma loaded_holds : holds 4 elf_place console_init g1.
Proof.
  pose proof loaded_facts as (F1 & F2 & F3 & F4 & F5 & F6 & F7 & F8 & F9 & _).
  assert (forall x, 0 <= x <= OB_break lay -> is_uint 32 x) as U by (unfold is_uint; lia).
  split; [..|intros []|]; cbn [p_info p_in p_data p_out p_out_max p_err p_err_max p_freq elf_place].
  - apply (info_field 1); [lia|apply U; lia|reflexivity].
  - rewrite Hin. apply (info_field 2); [lia|apply U; lia|reflexivity].
  - intros []; [apply (info_field 3)|apply (info_field 6)]; try lia; try reflexivity; apply U; cbn; lia.
  - intros []; [apply (info_field 5)|apply (info_field 8)]; try lia; try reflexivity; unfold is_uint; cbn; lia.
  - intros []; [apply (info_field 4)|apply (info_field 7)]; try lia; try reflexivity; apply U; cbn; lia.
  - unfold word. change (Z.of_nat 4 * 13) with (Z.of_nat 52).
    rewrite (bytes_at_sub _ _ (info32_bytes (ElfLoader.duckinfo conf lay tsc)));
      [|exact info_bytes|change (length (info32_bytes (ElfLoader.duckinfo conf lay tsc))) with 60%nat; lia].
    change (take 8 (drop 52 (info32_bytes (ElfLoader.duckinfo conf lay tsc)))) with (pushq tsc).
    unfold pushq. rewrite le_val_le_bytes. change (8 * Z.of_nat 8) with 64. rewrite (wrap_small 64 tsc) by (unfold is_uint; lia).
    apply Z.mod_small. lia.
  - apply bytes_at_nth. intros i Hi. destruct (loaded_view (load_break lay + Z.of_nat i)) as (Hu & _ & Hb); [change kernel_break with 16777216; lia|].
    rewrite tbyte_user by done. cbn [t_mem]. rewrite Hb. unfold expected_byte. rewrite !decide_False, decide_True by lia.
    rewrite take_ge by lia. f_equal. lia.
  - by intros [].
  - cbn. lia.
  - cbn. lia.
  - cbn. lia.
Qed.

Lemma loaded_access v x y : kernel_break <= v < vb -> expected_access (phdrs buf h) lay v = (true, x, y) ->
  treadable Q t0 v /\ (x = true -> twritable Q t0 v).
Proof.
  intros Hv E. destruct (loaded_view v Hv) as (Hu & Hacc & _). rewrite E in Hacc. unfold acc in Hacc.
  unfold treadable, twritable. cbn [t_mem]. destruct (view m1 v).1 as [p1 p2 p3 p4 p5 p6].
  cbn in *. injection Hacc as -> -> _. split; [done|]. by intros ->.
Qed.

Lemma loaded_rights : rights (UL := traced_laws own Q L m1) 4 elf_place t0.
Proof.
  pose proof loaded_facts as (F1 & F2 & F3 & F4 & F5 & F6 & F7 & F8 & F9 & _). pose proof (rd_top _ _ _ _ _ Hrd) as Htop.
  pose proof (loaded_ready own Q L tsc buf len conf vb h lay m m1 Hio Hrd Ha ltac:(lia) Hload) as Hrd1.
  assert (forall v, 0x8048000 <= v -> v < OB_break lay -> kernel_break <= v < vb) as K by (intros; change kernel_break with 16777216; lia).
  split; cbn [p_info p_in p_data p_out p_out_max p_err p_err_max elf_place].
  - split; [apply Hrd1|apply Hrd1|done].
  - intros v Hv. change (Z.of_nat (Z.to_nat (info_len 4))) with 60 in Hv. destruct (Hstack v ltac:(lia)) as [x Hx].
    apply (loaded_access v true x); [apply K; lia| |done]. unfold expected_access. by rewrite decide_False, decide_True by lia.
  - intros v Hv. apply (loaded_access v false true); [apply K; lia|]. unfold expected_access.
    by rewrite !decide_False, decide_True by lia.
  - intros k v Hv. apply (loaded_access v true true); [apply K; destruct k; cbn in Hv; lia| |done]. unfold expected_access.
    assert (stdin_break lay <= v < stderr_break lay) as Hr by (destruct k; cbn in Hv; lia).
    by rewrite !decide_False, decide_True by lia.
Qed.

(** The state a loaded program starts in. *)
Definition elf_start : st traced := mkSt (lib_static e) t0.

Lemma loaded_rep : rep (UL := traced_laws own Q L m1) 4 elf_place console_init elf_start.
Proof. split; [reflexivity|exact loaded_holds|exact loaded_rights]. Qed.
End loaded.

Section judged.
Context (own : gmap Z node) (Q L : Z) `{TS : TrapSymbols} (tsc clk : Z).

(** The bytes the measurement reads are those the program left. *)
Lemma left_bytes x m1 t v n : t_mem t = user_accesses (x_accesses x) m1 -> kernel_break <= v -> v + Z.of_nat n <= Q * HUGE_PAGE_SIZE ->
  left_at x m1 v (Z.of_nat n) = bytes_at (tbyte Q t) v n.
Proof.
  intros E Hv HQ. unfold left_at. rewrite <- E. apply list_eq. intros i. rewrite list_lookup_fmap. unfold bytes_at. rewrite list_lookup_fmap.
  destruct (decide (i < n)%nat) as [Hi|Hi].
  - rewrite lookup_seqZ_lt, lookup_seq_lt by lia. cbn. by rewrite tbyte_user by (unfold ElfMemory.user; lia).
  - rewrite lookup_seqZ_ge, lookup_seq_ge by lia. done.
Qed.

(** What the measurement finds in the memory of a program whose console is [c]. *)
Lemma console_measured vb buf len conf h lay m m1 x c u : inputs_ok buf len conf -> ready own Q L vb m ->
  accepted32 buf len conf vb h lay -> image_break lay <= vb -> rep (UL := traced_laws own Q L m1) 4 (elf_place tsc conf lay) c u ->
  t_mem (st_mem u) = user_accesses (x_accesses x) m1 ->
  (forall k, le_val (left_at x m1 (load_break lay - 60 + 4 * sk_size k) 4) = Z.of_nat (length (con_of k c))) /\
  (forall k, left_at x m1 (sk_addr k (elf_place tsc conf lay)) (Z.of_nat (length (con_of k c))) = con_of k c).
Proof.
  intros Hio Hrd Ha Hroom [_ Hh _] Em. pose proof (loaded_facts own Q L vb buf len conf h lay m Hio Hrd Ha Hroom) as
    (F1 & F2 & F3 & F4 & F5 & F6 & F7 & F8 & F9 & _). split; intros k.
  - rewrite <- (ho_size _ _ _ _ Hh k). change 4 with (Z.of_nat 4) at 2. unfold field, word. cbn [p_info elf_place].
    change (Z.of_nat 4 * sk_size k) with (4 * sk_size k).
    rewrite (left_bytes x m1 (st_mem u)); [done|done|..]; change kernel_break with 16777216 in *; destruct k; cbn; lia.
  - rewrite <- (ho_bytes _ _ _ _ Hh k) at 2. pose proof (ho_fits _ _ _ _ Hh k) as Hf. apply left_bytes; [done|..];
      change kernel_break with 16777216 in *; destruct k; cbn in *; lia.
Qed.

End judged.
