(* ===== verification/ElfConsoleWitness.v ===== *)
(** * A program that prints

    The example program of [ElfWitnesses], writing the last four bytes of its
    image to descriptor 1. *)

From S2P Require Import Prelude Utils Timer Memory MemoryProofs MemoryTables MemoryInit MemoryPaging MemoryFrames MemoryFlags MemoryClaims Trap TrapClaims Judger ElfLoader ElfMemory ElfAccept ElfProofs ElfContents ElfRun ElfClaims ElfWitnesses UserLib UserLibProofs UserLibClaims ElfConsole.

Abbreviation lay := (ref_layout (example_conf 65536)).
Abbreviation conf := (example_conf 65536).

Definition printing_env : env :=
  mkEnv (fun key => if key =? UserLib.AT_DUCK then load_break lay - 60 else if key =? UserLib.AT_PAGESZ then 4096 else 0) 0x804a000 0
    (mkStat 96 (16, 4%nat) (44, 8%nat) (52, 4%nat) (56, 8%nat)) 65 64 (fun _ => 0).

Definition printing_program : list act := [Call (Write 1 0x8048060 4)].

(** The execution makes the accesses of the program. *)
Definition printing_execution (m1 : memory) : execution :=
  mkExec (match UserLibClaims.run Abi32 printing_env printing_program (elf_start printing_env m1) with
          | Ret _ u => t_log (st_mem u) | Trapped _ _ => [] end)
    2 (blank_frame TRAP_RUN_USER32 8) (blank_frame TRAP_SYSCALL32 (Z.lor GDT_USER32_CS 3)) 1500 0 0.

Lemma printing_stack : stack_writable example_elf example_header lay.
Proof.
  intros v Hv. exists true. change (load_break lay) with 134578176 in Hv. unfold seg_access.
  change (phdrs example_elf example_header) with [mkPhdr 1 7 0 0x8048000 100 8192 4096]. cbn [foldl].
  rewrite decide_False; [done|]. unfold in_range. cbn. change (up (134512640 + 8192)) with 134520832. lia.
Qed.

